(** * streamer: a shallow embedding of the live-streaming relay core

    The development follows the Go sources of bugVanisher/streamer:
    - [Slice]  : media/slice packet header codec (makeSliceHeader / ParseSliceHeader)
    - [Rtmp]   : media/protocol/rtmp chunk header writer and server handshake
    - [Hls]    : media/protocol/hls TS cache and M3U8 playlist generation
    - [H264]   : media/codec/h264parser SPS decoding
    - [Ts]     : media/container/ts per-stream H.264 flush
    - [Queue]  : media/av/pubsub live buffer queue and its cursors

    Go's fixed-width integers are modelled as [Z] with the wrap-around
    written out; a byte is a [Z] in [0, 256). *)

From Stdlib Require Import ZArith List Lia Bool.
From stdpp Require Import base option list gmap strings.

Local Open Scope Z_scope.

(** ** Machine integers *)

Module Ints.

Definition wrap (w : Z) (x : Z) : Z := x `mod` 2 ^ w.

Definition u8 (x : Z) : Z := wrap 8 x.
Definition u16 (x : Z) : Z := wrap 16 x.
Definition u32 (x : Z) : Z := wrap 32 x.
Definition u64 (x : Z) : Z := wrap 64 x.

(** Two's complement reading of a [w]-bit pattern. *)
Definition signed (w : Z) (x : Z) : Z :=
  let y := wrap w x in
  if y <? 2 ^ (w - 1) then y else y - 2 ^ w.

Definition is_byte (b : Z) : Prop := 0 <= b < 256.

(** [encoding/binary.BigEndian.PutUintN]: the [n] low bytes of [v],
    most significant first. *)
Fixpoint PutUintBE (n : nat) (v : Z) : list Z :=
  match n with
  | O => []
  | S k => (Z.shiftr v (8 * Z.of_nat k)) `mod` 256 :: PutUintBE k v
  end.

(** [encoding/binary.BigEndian.UintN] on a slice of exactly the bytes read. *)
Definition UintBE (l : list Z) : Z :=
  fold_left (fun acc b => Z.lor (Z.shiftl acc 8) b) l 0.

(** The little-endian counterparts (used by the RTMP message stream id). *)
Fixpoint PutUintLE (n : nat) (v : Z) : list Z :=
  match n with
  | O => []
  | S k => v `mod` 256 :: PutUintLE k (Z.shiftr v 8)
  end.

End Ints.

(** ** Byte slices *)

Module Bytes.
Import Ints.

(** Go's [b[lo:hi]] and [b[lo:]] of a slice whose capacity is its length;
    [None] is the slice-bounds panic. *)
Definition sub (b : list Z) (lo hi : nat) : option (list Z) :=
  if (lo <=? hi)%nat && (hi <=? length b)%nat
  then Some (take (hi - lo) (drop lo b)) else None.
Definition from (b : list Z) (lo : nat) : option (list Z) :=
  if (lo <=? length b)%nat then Some (drop lo b) else None.

(** [b[i]] and [b[i] = v]; [None] is the index-out-of-range panic. *)
Definition get (b : list Z) (i : nat) : option Z := b !! i.
Definition set (b : list Z) (i : nat) (v : Z) : option (list Z) :=
  if (i <? length b)%nat then Some (<[i := v]> b) else None.

(** [copy(b[off:], src)]: as many bytes of [src] as fit are written from
    offset [off]; forming [b[off:]] panics when [off] is past the end. *)
Definition copy_from (b : list Z) (off : nat) (src : list Z) : option (list Z) :=
  if (off <=? length b)%nat
  then Some (take off b ++ take (length b - off) src
               ++ drop (off + length src) b)
  else None.

(** Modelled from the spec: the integer packing of utils/bits/pio, which is
    not among the sources. [UnnBE b] reads the first bytes of [b] most
    significant first, [PutUnnBE(b[off:], v)] writes the low bytes of [v] at
    the start of [b[off:]]; both index their slice and so panic when it is
    too short. *)
Definition U16BE (b : list Z) : option Z :=
  if (2 <=? length b)%nat then Some (UintBE (take 2 b)) else None.
Definition U24BE (b : list Z) : option Z :=
  if (3 <=? length b)%nat then Some (UintBE (take 3 b)) else None.
Definition U32BE (b : list Z) : option Z :=
  if (4 <=? length b)%nat then Some (UintBE (take 4 b)) else None.
Definition put (b : list Z) (off : nat) (bytes : list Z) : option (list Z) :=
  if (off + length bytes <=? length b)%nat
  then Some (take off b ++ bytes ++ drop (off + length bytes) b) else None.
Definition PutU16BE (b : list Z) (off : nat) (v : Z) : option (list Z) :=
  put b off (PutUintBE 2 v).
Definition PutU32BE (b : list Z) (off : nat) (v : Z) : option (list Z) :=
  put b off (PutUintBE 4 v).

End Bytes.

(** ** media/slice: the 15-byte slice packet header *)

Module Slice.
Import Ints.

Definition KSliceHeaderSize : Z := 15.
Definition KSliceSizeThreshold : Z := Z.shiftl 3 10.

(** [type Extend map[uint8]uint32] *)
Abbreviation Extend := (gmap Z Z).

(** [type Packet struct] of package slice. *)
Record Packet := mkPacket {
  Size : Z;          (* uint16 *)
  SliceType : Z;     (* uint8 *)
  SliceId : Z;       (* uint64 *)
  FrameId : Z;       (* uint32 *)
  PosFlag : Z;       (* uint8 *)
  FrameType : Z;     (* uint8 *)
  Reserved : Z;      (* uint8 *)
  ExtendFlag : Z;    (* uint8 *)
  Extend_ : Extend;
  Data : list Z;
  FrameDts : Z;      (* int32 *)
  HeaderBeginAt : Z; (* int *)
  HeaderChanged : bool
}.

(** The values a [Packet] can hold, by the Go types of its encoded fields. *)
Record well_typed (p : Packet) : Prop := {
  wt_Size : 0 <= Size p < 2 ^ 16;
  wt_SliceType : 0 <= SliceType p < 2 ^ 8;
  wt_SliceId : 0 <= SliceId p < 2 ^ 64;
  wt_FrameId : 0 <= FrameId p < 2 ^ 32;
  wt_PosFlag : 0 <= PosFlag p < 2 ^ 8;
  wt_FrameType : 0 <= FrameType p < 2 ^ 8;
  wt_ExtendFlag : 0 <= ExtendFlag p < 2 ^ 8
}.

Definition Uint16ToBytes (i : Z) : list Z := PutUintBE 2 i.
Definition Uint32ToBytes (i : Z) : list Z := PutUintBE 4 i.
Definition Uint64ToBytes (i : Z) : list Z := PutUintBE 8 i.
Definition BytesToUint16 (buf : list Z) : Z := UintBE (take 2 buf).
Definition BytesToUint32 (buf : list Z) : Z := UintBE (take 4 buf).
Definition BytesToUint64 (buf : list Z) : Z := UintBE (take 8 buf).

(** Go's [data[lo:hi]]. *)
Definition slice (lo hi : nat) (data : list Z) : list Z :=
  take (hi - lo) (drop lo data).

Definition makeSliceHeader (pkt : Packet) : list Z :=
  (* slice size(12bit) & slice type(4bit) *)
  let sizeType := u16 (u16 (Z.shiftl (Size pkt) 4) + u16 (SliceType pkt)) in
  (* posFlag(2bit) & frameType(2bit) & Reserved(3bit) & extended(1bit) *)
  let lastByte :=
    u8 (u8 (u8 (Z.shiftl (PosFlag pkt) 6) + u8 (Z.shiftl (FrameType pkt) 4))
        + ExtendFlag pkt) in
  Uint16ToBytes sizeType ++ Uint64ToBytes (SliceId pkt)
    ++ Uint32ToBytes (FrameId pkt) ++ [lastByte].

Inductive error := ErrSliceTooBig (size : Z).

Definition zeroPacket : Packet :=
  mkPacket 0 0 0 0 0 0 0 0 ∅ [] 0 0 false.

(** [ParseSliceHeader]; [None] is the run-time panic of indexing a slice
    shorter than the header. *)
Definition ParseSliceHeader (data : list Z) : option (Packet * Z * option error) :=
  if (length data <? 15)%nat then None else
  let sizeType := BytesToUint16 (slice 0 2 data) in
  let lastByte := nth 14 data 0 in
  let pkt :=
    {| Size := Z.shiftr sizeType 4;
       SliceType := u8 (Z.land sizeType 0x0F);
       SliceId := BytesToUint64 (slice 2 10 data);
       FrameId := BytesToUint32 (slice 10 14 data);
       PosFlag := Z.shiftr lastByte 6;
       FrameType := Z.land (Z.shiftr lastByte 4) 0x3;
       Reserved := 0;
       ExtendFlag := Z.land lastByte 0x1;
       Extend_ := ∅; Data := []; FrameDts := 0; HeaderBeginAt := 0;
       HeaderChanged := false |} in
  let len := Size pkt in
  let err := if Size pkt >? KSliceSizeThreshold
             then Some (ErrSliceTooBig (Size pkt)) else None in
  Some (pkt, len, err).

(** A packet used to exercise the codec. *)
Definition sample_packet : Packet :=
  mkPacket 1295 3 4294967301 77 1 2 0 1 ∅ [] 0 0 false.

End Slice.
(** ** media/slice: cutting frames into slice packets *)

Module SliceGen.
Import Ints Slice.

(** Go's [int]: 64-bit two's complement. Its [/] truncates towards zero
    ([Z.quot]) and panics on a zero divisor. *)
Definition int (x : Z) : Z := signed 64 x.

Definition SLICE_TYPE_FLV_HEADER : Z := 0.
Definition SLICE_TYPE_SCRIPT_DATA : Z := 1.
Definition SLICE_TYPE_AUDIO : Z := 2.
Definition SLICE_TYPE_VIDEO : Z := 3.

Definition SLICE_FRAME_TYPE_AUDIO : Z := 0.
Definition SLICE_FRAME_TYPE_IDR : Z := 1.
Definition SLICE_FRAME_TYPE_REF : Z := 2.
Definition SLICE_FRAME_TYPE_NOREF : Z := 3.

Definition SLICE_POSFLAG_MIDDLE : Z := 0.
Definition SLICE_POSFLAG_START : Z := 1.
Definition SLICE_POSFLAG_END : Z := 2.
Definition SLICE_POSFLAG_STARTEND : Z := 3.

Definition SLICE_ID_AVC_HEADER : Z := 1.
Definition SLICE_ID_AAC_HEADER : Z := 2.

Definition KSliceDefaultSizeMax : Z := 1280.
Definition KSliceExtendFlag : Z := 0.
Definition KSliceExtendHeaderLen : Z := 2.
Definition KSliceExtendKeyTimeStamp : Z := 1.

(** flvio tag types, as the spec gives them. *)
Definition TAG_AUDIO : Z := 8.
Definition TAG_VIDEO : Z := 9.

(** [Packet.IsHeader] *)
Definition IsHeader (p : Packet) : bool :=
  (SliceId p =? SLICE_ID_AVC_HEADER) || (SliceId p =? SLICE_ID_AAC_HEADER).

(** [utils.TimeToTs]: a [time.Duration] (nanoseconds) to an int32 of
    milliseconds. *)
Definition TimeToTs (tm : Z) : Z := signed 32 (Z.quot tm 1000000).

(** *** Extensions *)

(** [Extend.Encode] when the map is ranged over in the order [kvs]; Go
    leaves the order of a [range] over a map open. *)
Definition Encode (kvs : list (Z * Z)) : list Z :=
  let num := u16 (Z.of_nat (length kvs) * 5 + KSliceExtendHeaderLen) in
  Uint16ToBytes num
    ++ concat (map (fun kv => [kv.1] ++ Uint32ToBytes kv.2) kvs).

(** The loop [for i := KSliceExtendHeaderLen; i < int(extendLen); i = i + 5]
    of [Extend.Decode], by the number of turns it has left. *)
Fixpoint decode_loop (turns : nat) (i : nat) (data : list Z) (e : Extend)
  : option Extend :=
  match turns with
  | O => Some e
  | S k =>
      key ← Bytes.get data i;
      v ← Bytes.sub data (i + 1) (i + 5);
      decode_loop k (i + 5) data (<[key := BytesToUint32 v]> e)
  end.

Inductive error := ErrExtendLen (extendLen : Z).

(** [Extend.Decode] into the map [e]: the map afterwards and the error;
    [None] is an index panic. *)
Definition Decode (e : Extend) (data : list Z) : option (Extend * option error) :=
  hdr ← Bytes.sub data 0 2;
  let extendLen := BytesToUint16 hdr in
  if negb (Z.rem (u16 (extendLen - KSliceExtendHeaderLen)) 5 =? 0)
  then Some (e, Some (ErrExtendLen extendLen))
  else
    let turns := Z.to_nat ((extendLen - KSliceExtendHeaderLen + 4) `div` 5) in
    e ← decode_loop turns 2 data e;
    Some (e, None).

(** *** Slices of a frame *)

Module DataSliceInfo.
Record t := mk {
  SliceId : Z;       (* uint64 *)
  FrameId : Z;       (* uint32 *)
  SliceSizeMax : Z   (* int *)
}.
End DataSliceInfo.

(** [NewDataSliceInfo]; [now] is [time.Now().Unix()]. *)
Definition NewDataSliceInfo (now : Z) : DataSliceInfo.t :=
  DataSliceInfo.mk (u64 (now * 100000)) 0 KSliceDefaultSizeMax.

(** [DataSliceInfo.SetSliceSizeMax] has a value receiver: it assigns to a
    copy and leaves the info as it was. *)
Definition SetSliceSizeMax (s : DataSliceInfo.t) (sliceSizeMax : Z)
  : DataSliceInfo.t := s.

Section Generate.

(** [av.Packet], whose declaration is not among the sources, by what
    [GenerateSlice] reads of it: [avPkt.Time], [avPkt.IsKeyFrame],
    [avPkt.IsVideo()] and [avPkt.DataType == av.FLV_TAG_AUDIO]. *)
Variable AvPacket : Type.
Variable Time : AvPacket -> Z.
Variable IsKeyFrame : AvPacket -> bool.
Variable IsVideo : AvPacket -> bool.
Variable IsAudioTag : AvPacket -> bool.

(** The locals that the loop of [GenerateSlice] carries from turn to turn,
    with [s.SliceId]. *)
Record gen := mkGen {
  overSize : Z;
  dataStartIndex : Z;
  sliceId : Z;
  pkts : list Packet
}.

(** Go's [data[lo:hi]] with [int] bounds. *)
Definition sub_int (data : list Z) (lo hi : Z) : option (list Z) :=
  if (0 <=? lo) && (0 <=? hi)
  then Bytes.sub data (Z.to_nat lo) (Z.to_nat hi) else None.

(** One turn of [for i := 0; i < sliceCnt; i++]. *)
Definition gen_step (frameId : Z) (data : list Z) (avPkt : AvPacket)
    (dataSize sliceCnt : Z) (i : Z) (g : gen) : option gen :=
  let frameDts := TimeToTs (Time avPkt) in
  let sliceDataSize := int (Z.quot dataSize sliceCnt) in
  let '(sliceDataSize, overSize) :=
    if overSize g >? 0 then (int (sliceDataSize + 1), int (overSize g - 1))
    else (sliceDataSize, overSize g) in
  (* set SliceType && FrameType *)
  let '(sliceType, frameType) :=
    if IsVideo avPkt
    then (SLICE_TYPE_VIDEO,
          if IsKeyFrame avPkt then SLICE_FRAME_TYPE_IDR
          else SLICE_FRAME_TYPE_REF)
    else (0, 0) in
  let '(sliceType, frameType) :=
    if IsAudioTag avPkt then (SLICE_TYPE_AUDIO, SLICE_FRAME_TYPE_AUDIO)
    else (sliceType, frameType) in
  (* set PosFlag *)
  let posFlag :=
    if sliceCnt =? 1 then SLICE_POSFLAG_STARTEND
    else if i =? 0 then SLICE_POSFLAG_START
    else if i =? int (sliceCnt - 1) then SLICE_POSFLAG_END
    else SLICE_POSFLAG_MIDDLE in
  (* set Extend & Data *)
  let extendFlag := KSliceExtendFlag in
  let dataEndIndex := int (dataStartIndex g + sliceDataSize) in
  slicePkt ←
    (if extendFlag >? 0 then
       let extend : Extend := <[KSliceExtendKeyTimeStamp := u32 frameDts]> ∅ in
       let extendData := Encode [(KSliceExtendKeyTimeStamp, u32 frameDts)] in
       let extendSize := u16 (Z.of_nat (length extendData)) in
       let size := u16 (u16 (KSliceHeaderSize + extendSize) + u16 sliceDataSize) in
       let slicePkt :=
         mkPacket size sliceType (sliceId g) frameId posFlag frameType 0
           extendFlag extend [] frameDts 0 false in
       let sliceHeader := makeSliceHeader slicePkt in
       let newData := replicate (Z.to_nat size) 0 in
       newData ← Bytes.copy_from newData 0 sliceHeader;
       newData ← Bytes.copy_from newData (Z.to_nat KSliceHeaderSize) extendData;
       payload ← sub_int data (dataStartIndex g) dataEndIndex;
       newData ← Bytes.copy_from newData
                   (Z.to_nat (u16 (KSliceHeaderSize + extendSize))) payload;
       Some (mkPacket size sliceType (sliceId g) frameId posFlag frameType 0
               extendFlag extend newData frameDts 0 false)
     else
       let size := u16 (KSliceHeaderSize + u16 sliceDataSize) in
       let slicePkt :=
         mkPacket size sliceType (sliceId g) frameId posFlag frameType 0
           extendFlag ∅ [] frameDts 0 false in
       let sliceHeader := makeSliceHeader slicePkt in
       let newData := replicate (Z.to_nat size) 0 in
       newData ← Bytes.copy_from newData 0 sliceHeader;
       payload ← sub_int data (dataStartIndex g) dataEndIndex;
       newData ← Bytes.copy_from newData (Z.to_nat KSliceHeaderSize) payload;
       Some (mkPacket size sliceType (sliceId g) frameId posFlag frameType 0
               extendFlag ∅ newData frameDts 0 false));
  Some (mkGen overSize (int (dataStartIndex g + sliceDataSize))
          (u64 (sliceId g + 1)) (pkts g ++ [slicePkt])).

Fixpoint gen_loop (turns : nat) (frameId : Z) (data : list Z)
    (avPkt : AvPacket) (dataSize sliceCnt : Z) (i : Z) (g : gen)
  : option gen :=
  match turns with
  | O => Some g
  | S k =>
      g ← gen_step frameId data avPkt dataSize sliceCnt i g;
      gen_loop k frameId data avPkt dataSize sliceCnt (int (i + 1)) g
  end.

(** [DataSliceInfo.GenerateSlice]: the slices and the info afterwards;
    [None] is a run-time panic (division by zero, a negative capacity, a
    slice out of bounds). *)
Definition GenerateSlice (s : DataSliceInfo.t) (data : list Z)
    (avPkt : AvPacket) : option (list Packet * DataSliceInfo.t) :=
  let dataSize := Z.of_nat (length data) in
  let sliceSizeMax := DataSliceInfo.SliceSizeMax s in
  if sliceSizeMax =? 0 then None else
  let sliceCnt :=
    int (Z.quot (int (int (dataSize + sliceSizeMax) - 1)) sliceSizeMax) in
  if sliceCnt =? 0 then None else
  let sliceDataSize := int (Z.quot dataSize sliceCnt) in
  let overSize := int (dataSize - int (sliceDataSize * sliceCnt)) in
  if sliceCnt <? 0 then None else
  g ← gen_loop (Z.to_nat sliceCnt) (DataSliceInfo.FrameId s) data avPkt
        dataSize sliceCnt 0 (mkGen overSize 0 (DataSliceInfo.SliceId s) []);
  Some (pkts g,
        DataSliceInfo.mk (sliceId g) (u32 (DataSliceInfo.FrameId s + 1))
          sliceSizeMax).

End Generate.

Arguments gen_step {AvPacket} Time IsKeyFrame IsVideo IsAudioTag frameId data
  avPkt dataSize sliceCnt i g.
Arguments gen_loop {AvPacket} Time IsKeyFrame IsVideo IsAudioTag turns frameId
  data avPkt dataSize sliceCnt i g.
Arguments GenerateSlice {AvPacket} Time IsKeyFrame IsVideo IsAudioTag s data
  avPkt.

(** [GenerateHeaderSlice]; [tagType] is [tag.Type]. *)
Definition GenerateHeaderSlice (data : list Z) (tagType : Z) : option Packet :=
  let dataSize := Z.of_nat (length data) in
  let sliceId := if tagType =? TAG_VIDEO then SLICE_ID_AVC_HEADER else 0 in
  let sliceId := if tagType =? TAG_AUDIO then SLICE_ID_AAC_HEADER else sliceId in
  let size := u16 (u16 dataSize + KSliceHeaderSize) in
  let slicePkt :=
    mkPacket size SLICE_TYPE_FLV_HEADER sliceId 0 SLICE_POSFLAG_STARTEND 0 0 0
      ∅ [] 0 0 false in
  let sliceHeader := makeSliceHeader slicePkt in
  let newData := replicate (Z.to_nat size) 0 in
  newData ← Bytes.copy_from newData 0 sliceHeader;
  newData ← Bytes.copy_from newData (length sliceHeader) data;
  Some (mkPacket size SLICE_TYPE_FLV_HEADER sliceId 0 SLICE_POSFLAG_STARTEND
          0 0 0 ∅ newData 0 0 false).

End SliceGen.

(** ** media/protocol/rtmp: chunk header writer and server handshake *)

Module Rtmp.
Import Ints.

(** Go's [copy(dst[off:], src)]: overwrite [dst] from offset [off] with as
    many bytes of [src] as fit. *)
Definition copy_at (dst : list Z) (off : nat) (src : list Z) : list Z :=
  take off dst ++ take (length dst - off) src ++ drop (off + length src) dst.

(** Go's [b[lo:hi]]. *)
Definition slice (lo hi : nat) (b : list Z) : list Z :=
  take (hi - lo) (drop lo b).

(** In-place stores into a byte buffer; [None] is the index-out-of-range
    panic. *)
Definition store (b : list Z) (off : nat) (bytes : list Z) : option (list Z) :=
  if (off + length bytes <=? length b)%nat
  then Some (copy_at b off bytes) else None.

(** Modelled from the spec: the big/little-endian integer packing of
    utils/bits/pio ([PutU24BE], [PutU32BE], [PutU32LE], [U32BE]), which is
    not among the sources; each writes or reads the low bytes of its argument
    at the start of the slice it is given. *)
Definition PutU24BE (b : list Z) (off : nat) (v : Z) : option (list Z) :=
  store b off (PutUintBE 3 v).
Definition PutU32BE (b : list Z) (off : nat) (v : Z) : option (list Z) :=
  store b off (PutUintBE 4 v).
Definition PutU32LE (b : list Z) (off : nat) (v : Z) : option (list Z) :=
  store b off (PutUintLE 4 v).
Definition U32BE (b : list Z) : Z := UintBE (take 4 b).

Definition chunkHeaderLength : Z := 12.
Definition FlvTimestampMax : Z := 0xFFFFFF.

(** [conn.fillChunkHeader]: [timestamp] is an int32, [csid] and [msgsid]
    are uint32, [msgtypeid] a uint8 and [msgdatalen] an int. Returns the
    buffer after the stores and the header length [n]. *)
Definition fillChunkHeader (b : list Z)
    (csid timestamp msgtypeid msgsid msgdatalen : Z) : option (list Z * Z) :=
  b ← store b 0 [Z.land (u8 csid) 0x3f];
  b ← (if u32 timestamp <=? FlvTimestampMax
       then PutU24BE b 1 (u32 timestamp)
       else PutU24BE b 1 FlvTimestampMax);
  b ← PutU24BE b 4 (u32 msgdatalen);
  b ← store b 7 [msgtypeid];
  b ← PutU32LE b 8 msgsid;
  if u32 timestamp >? FlvTimestampMax
  then b ← PutU32BE b 12 (u32 timestamp); Some (b, 16)
  else Some (b, 12).

(** *** Handshake *)

Definition hsKeyTail : list Z :=
  [0xF0; 0xEE; 0xC2; 0x4A; 0x80; 0x68; 0xBE; 0xE8; 0x2E; 0x00; 0xD0; 0xD1;
   0x02; 0x9E; 0x7E; 0x57; 0x6E; 0xEC; 0x5D; 0x2D; 0x29; 0x80; 0x6F; 0xAB;
   0x93; 0xB8; 0xE6; 0x36; 0xCF; 0xEB; 0x31; 0xAE].

Definition bytes_of_string (s : string) : list Z :=
  map (fun a => Z.of_nat (Ascii.nat_of_ascii a)) (String.list_ascii_of_string s).

Definition hsClientFullKey : list Z :=
  bytes_of_string "Genuine Adobe Flash Player 001" ++ hsKeyTail.
Definition hsServerFullKey : list Z :=
  bytes_of_string "Genuine Adobe Flash Media Server 001" ++ hsKeyTail.
Definition hsClientPartialKey : list Z := take 30 hsClientFullKey.
Definition hsServerPartialKey : list Z := take 36 hsServerFullKey.

Inductive error :=
| ErrReadFull
| ErrVersionInvalid (v : Z)
| ErrC1Invalid.

(** The connection as the handshake sees it: the bytes still to be read
    from the peer, the bytes written to it, and the session stage. Write
    failures of the transport are outside the model. *)
Record conn := mkConn {
  bufr : list Z;
  bufw : list Z;
  stage : Z
}.

(** [io.ReadFull(self.bufr, buf)] for a buffer of [n] bytes: the bytes read,
    or [None] when the peer's stream ends first (what was left is consumed). *)
Definition ReadFull (c : conn) (n : nat) : option (list Z) * conn :=
  if (n <=? length (bufr c))%nat
  then (Some (take n (bufr c)), mkConn (drop n (bufr c)) (bufw c) (stage c))
  else (None, mkConn [] (bufw c) (stage c)).

Section Handshake.

(** [hmac.New(sha256.New, key)] followed by writes of the message and
    [Sum(nil)]: key, then message. The hash is the Go standard library's. *)
Variable hmac_sha256 : list Z -> list Z -> list Z.

(** [crypto/rand]: the stream of random bytes, consumed front to back. *)
Variable rand : nat -> Z.

Definition rand_Read (pos n : nat) : list Z := map rand (seq pos n).

Definition hsMakeDigest (key src : list Z) (gap : Z) : list Z :=
  if gap <=? 0 then hmac_sha256 key src
  else hmac_sha256 key
         (take (Z.to_nat gap) src ++ drop (Z.to_nat gap + 32) src).

Definition hsCalcDigestPos (p : list Z) (base : Z) : Z :=
  let pos :=
    fold_left (fun pos i => pos + nth (Z.to_nat (base + i)) p 0) [0; 1; 2; 3] 0 in
  Z.rem pos 728 + base + 4.

Definition hsFindDigest (p key : list Z) (base : Z) : Z :=
  let gap := hsCalcDigestPos p base in
  let digest := hsMakeDigest key p gap in
  if bool_decide (slice (Z.to_nat gap) (Z.to_nat gap + 32) p = digest)
  then gap else -1.

Definition hsParse1 (p peerkey key : list Z) : bool * list Z :=
  let pos := hsFindDigest p peerkey 772 in
  let pos := if pos =? -1 then hsFindDigest p peerkey 8 else pos in
  if pos =? -1 then (false, [])
  else (true,
        hsMakeDigest key (slice (Z.to_nat pos) (Z.to_nat pos + 32) p) (-1)).

(** The position at which [hsParse1] finds the peer's digest: the scheme
    with base 772 is tried first, then the one with base 8. *)
Definition hsDigestPos (p peerkey : list Z) : option Z :=
  let pos := hsFindDigest p peerkey 772 in
  let pos := if pos =? -1 then hsFindDigest p peerkey 8 else pos in
  if pos =? -1 then None else Some pos.

(** [hsCreate01] on the 1537-byte S0S1 segment [p]; [rpos] is the position
    in the random stream. *)
Definition hsCreate01 (p : list Z) (rpos : nat) (time ver : Z) (key : list Z)
  : list Z :=
  let p := copy_at p 0 [3] in
  let p1 := drop 1 p in
  let p1 := copy_at p1 8 (rand_Read rpos (length p1 - 8)) in
  let p1 := copy_at p1 0 (PutUintBE 4 time) in
  let p1 := copy_at p1 4 (PutUintBE 4 ver) in
  let gap := hsCalcDigestPos p1 8 in
  let digest := hsMakeDigest key p1 gap in
  let p1 := copy_at p1 (Z.to_nat gap) digest in
  take 1 p ++ p1.

Definition hsCreate2 (p : list Z) (rpos : nat) (key : list Z) : list Z :=
  let p := copy_at p 0 (rand_Read rpos (length p)) in
  let gap := Z.of_nat (length p) - 32 in
  let digest := hsMakeDigest key p gap in
  copy_at p (Z.to_nat gap) digest.

(** [conn.HandshakeServer]. The local array [random] holds C0C1C2 in its
    first 3073 bytes and S0S1S2 in the rest; C0, C1, C2, S0, S1, S2 are
    views into it. *)
Definition HandshakeServer (c : conn) : conn * option error :=
  let random := replicate ((1 + 1536 * 2) * 2) 0 in
  (* < C0C1 *)
  match ReadFull c (1536 + 1) with
  | (None, c) => (c, Some ErrReadFull)
  | (Some C0C1, c) =>
    let random := copy_at random 0 C0C1 in
    let C0 := slice 0 1 random in
    if negb (nth 0 C0 0 =? 3) then (c, Some (ErrVersionInvalid (nth 0 C0 0)))
    else
    let random := copy_at random (1536 * 2 + 1) [3] in
    let C1 := slice 1 (1536 + 1) random in
    let C2 := slice (1536 + 1) (1536 * 2 + 1) random in
    let clitime := U32BE (slice 0 4 C1) in
    let srvtime := clitime in
    let srvver := 0x0d0e0a0d in
    let cliver := U32BE (slice 4 8 C1) in
    let filled :=
      if negb (cliver =? 0) then
        let '(ok, digest) := hsParse1 C1 hsClientPartialKey hsServerFullKey in
        if negb ok then inl ErrC1Invalid
        else
          let S0S1 := slice (1536 * 2 + 1) (1536 * 2 + 1 + 1536 + 1) random in
          let random :=
            copy_at random (1536 * 2 + 1)
              (hsCreate01 S0S1 0 srvtime srvver hsServerPartialKey) in
          let S2 := drop (1536 * 2 + 1 + 1536 + 1) random in
          inr (copy_at random (1536 * 2 + 1 + 1536 + 1)
                 (hsCreate2 S2 (1536 - 8) digest))
      else
        let random := copy_at random (1536 * 2 + 1 + 1) C1 in
        inr (copy_at random (1536 * 2 + 1 + 1536 + 1) C2) in
    match filled with
    | inl e => (c, Some e)
    | inr random =>
      (* > S0S1S2 *)
      let S0S1S2 := drop (1536 * 2 + 1) random in
      let c := mkConn (bufr c) (bufw c ++ S0S1S2) (stage c) in
      (* < C2 *)
      match ReadFull c 1536 with
      | (None, c) => (c, Some ErrReadFull)
      | (Some _, c) => (mkConn (bufr c) (bufw c) (stage c + 1), None)
      end
    end
  end.

End Handshake.

(** The three segments of what the server wrote. *)
Definition S0_of (sent : list Z) : list Z := slice 0 1 sent.
Definition S1_of (sent : list Z) : list Z := slice 1 (1536 + 1) sent.
Definition S2_of (sent : list Z) : list Z := slice (1536 + 1) (1536 * 2 + 1) sent.

(** A stand-in keyed checksum with 32-byte output, used to run the
    handshake on concrete bytes. *)
Definition sum_mac (key msg : list Z) : list Z :=
  replicate 32 (Z.rem (fold_left Z.add key 0 + fold_left Z.add msg 0) 256).

(** A C1 with time 0 and version 1 whose digest (under [sum_mac]) sits at
    offset 776, and a C1 of the digest-less kind with time 1 and version 0. *)
Definition sample_C1_digest : list Z :=
  [0; 0; 0; 0; 0; 0; 0; 1] ++ replicate 768 0
  ++ sum_mac hsClientPartialKey [1] ++ replicate 728 0.
Definition sample_C1_plain : list Z :=
  [0; 0; 0; 1; 0; 0; 0; 0] ++ replicate 1528 7.

End Rtmp.

(** ** media/protocol/rtmp: chunk reader, message dispatch, control messages *)

Module RtmpChunk.
Import Ints.

Definition msgtypeidUserControl : Z := 4.
Definition msgtypeidAck : Z := 3.
Definition msgtypeidWindowAckSize : Z := 5.
Definition msgtypeidSetPeerBandwidth : Z := 6.
Definition msgtypeidSetChunkSize : Z := 1.
Definition msgtypeidCommandMsgAMF0 : Z := 20.
Definition msgtypeidCommandMsgAMF3 : Z := 17.
Definition msgtypeidDataMsgAMF0 : Z := 18.
Definition msgtypeidDataMsgAMF3 : Z := 15.
Definition msgtypeidVideoMsg : Z := 9.
Definition msgtypeidAudioMsg : Z := 8.

Definition eventtypeStreamBegin : Z := 0.
Definition eventtypeSetBufferLength : Z := 3.
Definition eventtypeStreamIsRecorded : Z := 4.

(** Modelled from the spec: [pio.U32LE], the little-endian reading of
    utils/bits/pio, which is not among the sources. *)
Definition UintLE (l : list Z) : Z :=
  fold_right (fun b acc => Z.lor b (Z.shiftl acc 8)) 0 l.

(** [type chunkStream struct] *)
Module chunkStream.
Record t := mk {
  timenow : Z;      (* uint32 *)
  timedelta : Z;    (* uint32 *)
  hastimeext : bool;
  msgsid : Z;       (* uint32 *)
  msgtypeid : Z;    (* uint8 *)
  msgdatalen : Z;   (* uint32 *)
  msgdataleft : Z;  (* uint32 *)
  msghdrtype : Z;   (* uint8 *)
  msgdata : list Z
}.

Definition set_timenow (v : Z) (r : t) : t :=
  mk v (timedelta r) (hastimeext r) (msgsid r) (msgtypeid r) (msgdatalen r)
    (msgdataleft r) (msghdrtype r) (msgdata r).
Definition set_timedelta (v : Z) (r : t) : t :=
  mk (timenow r) v (hastimeext r) (msgsid r) (msgtypeid r) (msgdatalen r)
    (msgdataleft r) (msghdrtype r) (msgdata r).
Definition set_hastimeext (v : bool) (r : t) : t :=
  mk (timenow r) (timedelta r) v (msgsid r) (msgtypeid r) (msgdatalen r)
    (msgdataleft r) (msghdrtype r) (msgdata r).
Definition set_msgsid (v : Z) (r : t) : t :=
  mk (timenow r) (timedelta r) (hastimeext r) v (msgtypeid r) (msgdatalen r)
    (msgdataleft r) (msghdrtype r) (msgdata r).
Definition set_msgtypeid (v : Z) (r : t) : t :=
  mk (timenow r) (timedelta r) (hastimeext r) (msgsid r) v (msgdatalen r)
    (msgdataleft r) (msghdrtype r) (msgdata r).
Definition set_msgdatalen (v : Z) (r : t) : t :=
  mk (timenow r) (timedelta r) (hastimeext r) (msgsid r) (msgtypeid r) v
    (msgdataleft r) (msghdrtype r) (msgdata r).
Definition set_msgdataleft (v : Z) (r : t) : t :=
  mk (timenow r) (timedelta r) (hastimeext r) (msgsid r) (msgtypeid r)
    (msgdatalen r) v (msghdrtype r) (msgdata r).
Definition set_msghdrtype (v : Z) (r : t) : t :=
  mk (timenow r) (timedelta r) (hastimeext r) (msgsid r) (msgtypeid r)
    (msgdatalen r) (msgdataleft r) v (msgdata r).
Definition set_msgdata (v : list Z) (r : t) : t :=
  mk (timenow r) (timedelta r) (hastimeext r) (msgsid r) (msgtypeid r)
    (msgdatalen r) (msgdataleft r) (msghdrtype r) v.

(** [&chunkStream{}] *)
Definition zero : t := mk 0 0 false 0 0 0 0 0 [].

(** [chunkStream.Start] *)
Definition Start (cs : t) : t :=
  set_msgdata (replicate (Z.to_nat (msgdatalen cs)) 0)
    (set_msgdataleft (msgdatalen cs) cs).
End chunkStream.

(** What [io.ReadFull] and [bufio.Reader.Peek] report when the peer's stream
    ends before the bytes asked for. *)
Inductive ioerr := EOF | ErrUnexpectedEOF.

Section Conn.

(** The AMF0 values and FLV tags of container/flv/flvio are not among the
    sources: their types are left open, with the calls the connection makes
    on them. [ParseAMF0Val b] and [tag.ParseHeader(b)] give an error or the
    value (the tag filled in) and the number of bytes used; [as_string],
    [as_float64] and [as_AMFMap] are the type assertions on a parsed value,
    [TagOfType t] is the literal [flvio.Tag{Type: t}]. *)
Variables AMF Float AMFMap Tag ParseErr : Type.
Variable zeroFloat : Float.
Variable zeroAMFMap : AMFMap.
Variable zeroTag : Tag.
Variable ParseAMF0Val : list Z -> ParseErr + AMF * Z.
Variable as_string : AMF -> option string.
Variable as_float64 : AMF -> option Float.
Variable as_AMFMap : AMF -> option AMFMap.
Variable TagOfType : Z -> Tag.
Variable Tag_FrameType : Tag -> Z.
Variable Tag_set_Data : Tag -> list Z -> Tag.
Variable ParseHeader : Tag -> list Z -> ParseErr + Tag * Z.
Variables TAG_AUDIO TAG_VIDEO TAG_SCRIPTDATA FRAME_KEY FRAME_INTER : Z.

(** The errors of [readChunk] and [handleMsg], one for each message they
    format, with the values the message prints. *)
Inductive error :=
| ErrFirstByte (e : ioerr)
| ErrBasicHeader (msghdrtype csid : Z) (e : ioerr)
| ErrChunkInvalid (msghdrtype csid msgdataleft : Z)
| ErrReadHeader (msghdrtype csid : Z) (e : ioerr)
| ErrReadExtTimestamp (msghdrtype csid : Z) (e : ioerr)
| ErrReadExtTimestamp3 (msghdrtype cs_msghdrtype csid : Z) (e : ioerr)
| ErrPeekTimestamp (msghdrtype cs_msghdrtype csid : Z) (e : ioerr)
| ErrInvalidHeaderType (msghdrtype csid : Z)
| ErrReadData (e : ioerr) (size off : Z)
| ErrCommandName (e : ParseErr)
| ErrCommandTransid (e : ParseErr)
| ErrCommandObj (e : ParseErr)
| ErrCommandParams (e : ParseErr)
| ErrCommandNotString
| ErrCommandLeft (left : Z)
| ErrShortCommandMsgAMF3
| ErrShortUserControl
| ErrDataMsgAMF0 (e : ParseErr)
| ErrDataMsgLeft (left : Z)
| ErrTagHeader (e : ParseErr)
| ErrShortSetChunkSize.

(** The fields of [type conn struct] that the chunk layer reads and writes.
    [bufr] holds the bytes the peer has sent and that are still to be read,
    [bufw] the bytes written to the peer; writes to the transport do not
    fail, and deadlines and logging are outside the model. *)
Record conn := mkConn {
  bufr : list Z;
  bufw : list Z;
  ackn : Z;               (* uint32 *)
  writebuf : list Z;
  readbuf : list Z;
  writeMaxChunkSize : Z;  (* int *)
  readMaxChunkSize : Z;   (* int *)
  readAckSize : Z;        (* uint32 *)
  readcsmap : gmap Z chunkStream.t;
  gotcommand : bool;
  commandname : string;
  commandtransid : Float;
  commandobj : AMFMap;
  commandparams : list AMF;
  gotmsg : bool;
  timestamp : Z;          (* uint32 *)
  msgdata : list Z;
  msgtypeid : Z;          (* uint8 *)
  datamsgvals : list AMF;
  avtag : Tag;
  scripttag : Tag;
  eventtype : Z           (* uint16 *)
}.

Definition set_bufr (v : list Z) (r : conn) : conn :=
  mkConn v (bufw r) (ackn r) (writebuf r) (readbuf r) (writeMaxChunkSize r)
    (readMaxChunkSize r) (readAckSize r) (readcsmap r) (gotcommand r)
    (commandname r) (commandtransid r) (commandobj r) (commandparams r)
    (gotmsg r) (timestamp r) (msgdata r) (msgtypeid r) (datamsgvals r)
    (avtag r) (scripttag r) (eventtype r).
Definition set_bufw (v : list Z) (r : conn) : conn :=
  mkConn (bufr r) v (ackn r) (writebuf r) (readbuf r) (writeMaxChunkSize r)
    (readMaxChunkSize r) (readAckSize r) (readcsmap r) (gotcommand r)
    (commandname r) (commandtransid r) (commandobj r) (commandparams r)
    (gotmsg r) (timestamp r) (msgdata r) (msgtypeid r) (datamsgvals r)
    (avtag r) (scripttag r) (eventtype r).
Definition set_ackn (v : Z) (r : conn) : conn :=
  mkConn (bufr r) (bufw r) v (writebuf r) (readbuf r) (writeMaxChunkSize r)
    (readMaxChunkSize r) (readAckSize r) (readcsmap r) (gotcommand r)
    (commandname r) (commandtransid r) (commandobj r) (commandparams r)
    (gotmsg r) (timestamp r) (msgdata r) (msgtypeid r) (datamsgvals r)
    (avtag r) (scripttag r) (eventtype r).
Definition set_writebuf (v : list Z) (r : conn) : conn :=
  mkConn (bufr r) (bufw r) (ackn r) v (readbuf r) (writeMaxChunkSize r)
    (readMaxChunkSize r) (readAckSize r) (readcsmap r) (gotcommand r)
    (commandname r) (commandtransid r) (commandobj r) (commandparams r)
    (gotmsg r) (timestamp r) (msgdata r) (msgtypeid r) (datamsgvals r)
    (avtag r) (scripttag r) (eventtype r).
Definition set_readbuf (v : list Z) (r : conn) : conn :=
  mkConn (bufr r) (bufw r) (ackn r) (writebuf r) v (writeMaxChunkSize r)
    (readMaxChunkSize r) (readAckSize r) (readcsmap r) (gotcommand r)
    (commandname r) (commandtransid r) (commandobj r) (commandparams r)
    (gotmsg r) (timestamp r) (msgdata r) (msgtypeid r) (datamsgvals r)
    (avtag r) (scripttag r) (eventtype r).
Definition set_writeMaxChunkSize (v : Z) (r : conn) : conn :=
  mkConn (bufr r) (bufw r) (ackn r) (writebuf r) (readbuf r) v
    (readMaxChunkSize r) (readAckSize r) (readcsmap r) (gotcommand r)
    (commandname r) (commandtransid r) (commandobj r) (commandparams r)
    (gotmsg r) (timestamp r) (msgdata r) (msgtypeid r) (datamsgvals r)
    (avtag r) (scripttag r) (eventtype r).
Definition set_readMaxChunkSize (v : Z) (r : conn) : conn :=
  mkConn (bufr r) (bufw r) (ackn r) (writebuf r) (readbuf r)
    (writeMaxChunkSize r) v (readAckSize r) (readcsmap r) (gotcommand r)
    (commandname r) (commandtransid r) (commandobj r) (commandparams r)
    (gotmsg r) (timestamp r) (msgdata r) (msgtypeid r) (datamsgvals r)
    (avtag r) (scripttag r) (eventtype r).
Definition set_readAckSize (v : Z) (r : conn) : conn :=
  mkConn (bufr r) (bufw r) (ackn r) (writebuf r) (readbuf r)
    (writeMaxChunkSize r) (readMaxChunkSize r) v (readcsmap r) (gotcommand
    r) (commandname r) (commandtransid r) (commandobj r) (commandparams r)
    (gotmsg r) (timestamp r) (msgdata r) (msgtypeid r) (datamsgvals r)
    (avtag r) (scripttag r) (eventtype r).
Definition set_readcsmap (v : gmap Z chunkStream.t) (r : conn) : conn :=
  mkConn (bufr r) (bufw r) (ackn r) (writebuf r) (readbuf r)
    (writeMaxChunkSize r) (readMaxChunkSize r) (readAckSize r) v (gotcommand
    r) (commandname r) (commandtransid r) (commandobj r) (commandparams r)
    (gotmsg r) (timestamp r) (msgdata r) (msgtypeid r) (datamsgvals r)
    (avtag r) (scripttag r) (eventtype r).
Definition set_gotcommand (v : bool) (r : conn) : conn :=
  mkConn (bufr r) (bufw r) (ackn r) (writebuf r) (readbuf r)
    (writeMaxChunkSize r) (readMaxChunkSize r) (readAckSize r) (readcsmap r)
    v (commandname r) (commandtransid r) (commandobj r) (commandparams r)
    (gotmsg r) (timestamp r) (msgdata r) (msgtypeid r) (datamsgvals r)
    (avtag r) (scripttag r) (eventtype r).
Definition set_commandname (v : string) (r : conn) : conn :=
  mkConn (bufr r) (bufw r) (ackn r) (writebuf r) (readbuf r)
    (writeMaxChunkSize r) (readMaxChunkSize r) (readAckSize r) (readcsmap r)
    (gotcommand r) v (commandtransid r) (commandobj r) (commandparams r)
    (gotmsg r) (timestamp r) (msgdata r) (msgtypeid r) (datamsgvals r)
    (avtag r) (scripttag r) (eventtype r).
Definition set_commandtransid (v : Float) (r : conn) : conn :=
  mkConn (bufr r) (bufw r) (ackn r) (writebuf r) (readbuf r)
    (writeMaxChunkSize r) (readMaxChunkSize r) (readAckSize r) (readcsmap r)
    (gotcommand r) (commandname r) v (commandobj r) (commandparams r)
    (gotmsg r) (timestamp r) (msgdata r) (msgtypeid r) (datamsgvals r)
    (avtag r) (scripttag r) (eventtype r).
Definition set_commandobj (v : AMFMap) (r : conn) : conn :=
  mkConn (bufr r) (bufw r) (ackn r) (writebuf r) (readbuf r)
    (writeMaxChunkSize r) (readMaxChunkSize r) (readAckSize r) (readcsmap r)
    (gotcommand r) (commandname r) (commandtransid r) v (commandparams r)
    (gotmsg r) (timestamp r) (msgdata r) (msgtypeid r) (datamsgvals r)
    (avtag r) (scripttag r) (eventtype r).
Definition set_commandparams (v : list AMF) (r : conn) : conn :=
  mkConn (bufr r) (bufw r) (ackn r) (writebuf r) (readbuf r)
    (writeMaxChunkSize r) (readMaxChunkSize r) (readAckSize r) (readcsmap r)
    (gotcommand r) (commandname r) (commandtransid r) (commandobj r) v
    (gotmsg r) (timestamp r) (msgdata r) (msgtypeid r) (datamsgvals r)
    (avtag r) (scripttag r) (eventtype r).
Definition set_gotmsg (v : bool) (r : conn) : conn :=
  mkConn (bufr r) (bufw r) (ackn r) (writebuf r) (readbuf r)
    (writeMaxChunkSize r) (readMaxChunkSize r) (readAckSize r) (readcsmap r)
    (gotcommand r) (commandname r) (commandtransid r) (commandobj r)
    (commandparams r) v (timestamp r) (msgdata r) (msgtypeid r) (datamsgvals
    r) (avtag r) (scripttag r) (eventtype r).
Definition set_timestamp (v : Z) (r : conn) : conn :=
  mkConn (bufr r) (bufw r) (ackn r) (writebuf r) (readbuf r)
    (writeMaxChunkSize r) (readMaxChunkSize r) (readAckSize r) (readcsmap r)
    (gotcommand r) (commandname r) (commandtransid r) (commandobj r)
    (commandparams r) (gotmsg r) v (msgdata r) (msgtypeid r) (datamsgvals r)
    (avtag r) (scripttag r) (eventtype r).
Definition set_msgdata (v : list Z) (r : conn) : conn :=
  mkConn (bufr r) (bufw r) (ackn r) (writebuf r) (readbuf r)
    (writeMaxChunkSize r) (readMaxChunkSize r) (readAckSize r) (readcsmap r)
    (gotcommand r) (commandname r) (commandtransid r) (commandobj r)
    (commandparams r) (gotmsg r) (timestamp r) v (msgtypeid r) (datamsgvals
    r) (avtag r) (scripttag r) (eventtype r).
Definition set_msgtypeid (v : Z) (r : conn) : conn :=
  mkConn (bufr r) (bufw r) (ackn r) (writebuf r) (readbuf r)
    (writeMaxChunkSize r) (readMaxChunkSize r) (readAckSize r) (readcsmap r)
    (gotcommand r) (commandname r) (commandtransid r) (commandobj r)
    (commandparams r) (gotmsg r) (timestamp r) (msgdata r) v (datamsgvals r)
    (avtag r) (scripttag r) (eventtype r).
Definition set_datamsgvals (v : list AMF) (r : conn) : conn :=
  mkConn (bufr r) (bufw r) (ackn r) (writebuf r) (readbuf r)
    (writeMaxChunkSize r) (readMaxChunkSize r) (readAckSize r) (readcsmap r)
    (gotcommand r) (commandname r) (commandtransid r) (commandobj r)
    (commandparams r) (gotmsg r) (timestamp r) (msgdata r) (msgtypeid r) v
    (avtag r) (scripttag r) (eventtype r).
Definition set_avtag (v : Tag) (r : conn) : conn :=
  mkConn (bufr r) (bufw r) (ackn r) (writebuf r) (readbuf r)
    (writeMaxChunkSize r) (readMaxChunkSize r) (readAckSize r) (readcsmap r)
    (gotcommand r) (commandname r) (commandtransid r) (commandobj r)
    (commandparams r) (gotmsg r) (timestamp r) (msgdata r) (msgtypeid r)
    (datamsgvals r) v (scripttag r) (eventtype r).
Definition set_scripttag (v : Tag) (r : conn) : conn :=
  mkConn (bufr r) (bufw r) (ackn r) (writebuf r) (readbuf r)
    (writeMaxChunkSize r) (readMaxChunkSize r) (readAckSize r) (readcsmap r)
    (gotcommand r) (commandname r) (commandtransid r) (commandobj r)
    (commandparams r) (gotmsg r) (timestamp r) (msgdata r) (msgtypeid r)
    (datamsgvals r) (avtag r) v (eventtype r).
Definition set_eventtype (v : Z) (r : conn) : conn :=
  mkConn (bufr r) (bufw r) (ackn r) (writebuf r) (readbuf r)
    (writeMaxChunkSize r) (readMaxChunkSize r) (readAckSize r) (readcsmap r)
    (gotcommand r) (commandname r) (commandtransid r) (commandobj r)
    (commandparams r) (gotmsg r) (timestamp r) (msgdata r) (msgtypeid r)
    (datamsgvals r) (avtag r) (scripttag r) v.

Definition int (x : Z) : Z := signed 64 x.
Definition len (b : list Z) : Z := Z.of_nat (length b).

(** How a step of a method ends: it goes on with a value; or the method
    returns there, with an error or with [nil], leaving the connection [c];
    or it does not return (a panic, or a loop that never ends). *)
Inductive step (A : Type) :=
| Go (a : A)
| Return (c : conn) (err : option error)
| NoReturn.
Arguments Go {A} a.
Arguments Return {A} c err.
Arguments NoReturn {A}.

Local Instance step_ret : MRet step := @Go.
Local Instance step_bind : MBind step := fun A B f m =>
  match m with
  | Go a => f a
  | Return c e => Return c e
  | NoReturn => NoReturn
  end.

(** A method [func (self *conn) m(...) (err error)] as a whole: the
    connection it leaves and its error, [None] when it does not return. *)
Definition run (m : step conn) : option (conn * option error) :=
  match m with
  | Go c => Some (c, None)
  | Return c e => Some (c, e)
  | NoReturn => None
  end.

(** [if err = self.m(...); err != nil { return }] *)
Definition call (r : option (conn * option error)) : step conn :=
  match r with
  | None => NoReturn
  | Some (c, Some e) => Return c (Some e)
  | Some (c, None) => Go c
  end.

(** [b[n:]] *)
Definition from (b : list Z) (n : Z) : step (list Z) :=
  if (0 <=? n) && (n <=? len b) then Go (drop (Z.to_nat n) b) else NoReturn.

(** [flvio.ParseAMF0Val(b)] with the error wrapped by [wrap]. *)
Definition parse (wrap : ParseErr -> error) (c : conn) (b : list Z)
  : step (AMF * Z) :=
  match ParseAMF0Val b with
  | inl e => Return c (Some (wrap e))
  | inr r => Go r
  end.

(** The loop [for n < len(b)] that parses the values left in [b] and
    appends each one with [push]. A run that ends takes at most [len(b)]
    rounds, so the rounds are counted and one more is endless. *)
Fixpoint parse_loop (wrap : ParseErr -> error) (push : AMF -> conn -> conn)
    (turns : nat) (b : list Z) (n : Z) (c : conn) : step (conn * Z) :=
  if n <? len b then
    match turns with
    | O => NoReturn
    | S k =>
        s ← from b n;
        '(obj, size) ← parse wrap c s;
        parse_loop wrap push k b (int (n + size)) (push obj c)
    end
  else Go (c, n).

(** [conn.handleCommandMsgAMF0]; of its results [(n, err)] the error is
    the [Return], and [n] is given when there is none. *)
Definition handleCommandMsgAMF0 (b : list Z) (c : conn) : step (conn * Z) :=
  let n := 0 in
  s ← from b n;
  '(name, size) ← parse ErrCommandName c s;
  let n := int (n + size) in
  s ← from b n;
  '(transid, size) ← parse ErrCommandTransid c s;
  let n := int (n + size) in
  s ← from b n;
  '(obj, size) ← parse ErrCommandObj c s;
  let n := int (n + size) in
  let c := set_commandname (default EmptyString (as_string name)) c in
  if negb (bool_decide (is_Some (as_string name)))
  then Return c (Some ErrCommandNotString)
  else
    let c := set_commandtransid (default zeroFloat (as_float64 transid)) c in
    let c := set_commandobj (default zeroAMFMap (as_AMFMap obj)) c in
    let c := set_commandparams [] c in
    '(c, n) ← parse_loop ErrCommandParams
               (fun obj c => set_commandparams (commandparams c ++ [obj]) c)
               (S (length b)) b n c;
    if n <? len b then Return c (Some (ErrCommandLeft (len b - n)))
    else Go (set_gotcommand true c, n).

(** [conn.handleMsg] *)
Definition handleMsg (timestamp msgsid msgtypeid : Z) (msgdata : list Z)
    (c : conn) : option (conn * option error) :=
  run (
    let c := set_msgdata msgdata c in
    let c := set_msgtypeid msgtypeid c in
    let c := set_timestamp timestamp c in
    c ← (if msgtypeid =? msgtypeidCommandMsgAMF0 then
           '(c, _) ← handleCommandMsgAMF0 msgdata c; Go c
         else if msgtypeid =? msgtypeidCommandMsgAMF3 then
           if len msgdata <? 1 then Return c (Some ErrShortCommandMsgAMF3)
           else
             s ← from msgdata 1;
             '(c, _) ← handleCommandMsgAMF0 s c; Go c
         else if msgtypeid =? msgtypeidUserControl then
           if len msgdata <? 2 then Return c (Some ErrShortUserControl)
           else Go (set_eventtype (UintBE (take 2 msgdata)) c)
         else if msgtypeid =? msgtypeidDataMsgAMF0 then
           let b := msgdata in
           '(c, n) ← parse_loop ErrDataMsgAMF0
                      (fun obj c => set_datamsgvals (datamsgvals c ++ [obj]) c)
                      (S (length b)) b 0 c;
           if n <? len b then Return c (Some (ErrDataMsgLeft (len b - n)))
           else Go (set_scripttag (TagOfType TAG_SCRIPTDATA) c)
         else if msgtypeid =? msgtypeidVideoMsg then
           if len msgdata =? 0 then Return c None
           else
             match ParseHeader (TagOfType TAG_VIDEO) msgdata with
             | inl e => Return c (Some (ErrTagHeader e))
             | inr (tag, n) =>
                 if negb ((Tag_FrameType tag =? FRAME_INTER)
                          || (Tag_FrameType tag =? FRAME_KEY))
                 then Return c None
                 else
                   s ← from msgdata n;
                   Go (set_avtag (Tag_set_Data tag s) c)
             end
         else if msgtypeid =? msgtypeidAudioMsg then
           if len msgdata =? 0 then Return c None
           else
             match ParseHeader (TagOfType TAG_AUDIO) msgdata with
             | inl e => Return c (Some (ErrTagHeader e))
             | inr (tag, n) =>
                 s ← from msgdata n;
                 Go (set_avtag (Tag_set_Data tag s) c)
             end
         else if msgtypeid =? msgtypeidSetChunkSize then
           if len msgdata <? 4 then Return c (Some ErrShortSetChunkSize)
           else
             Return (set_readMaxChunkSize (int (UintBE (take 4 msgdata))) c)
               None
         else Go c);
    Go (set_gotmsg true c)).

(** [conn.tmpwbuf]: the write buffer, made anew when it is shorter than
    [n]; the slice returned is the buffer itself, so what a writer stores
    in it is stored in [writebuf]. *)
Definition tmpwbuf (n : Z) (c : conn) : conn * list Z :=
  let c := if len (writebuf c) <? n
           then set_writebuf (replicate (Z.to_nat n) 0) c else c in
  (c, writebuf c).

(** [self.bufw.Write(b[:n])] after the stores into [b]. *)
Definition write (b : list Z) (n : Z) (c : conn) : conn :=
  set_bufw (bufw c ++ take (Z.to_nat n) b) (set_writebuf b c).

(** The writers of the protocol control messages. Each returns the
    connection, [None] being a panic; the error of each is that of the
    transport's write, which is outside the model. *)
Definition writeSetChunkSize (size : Z) (c : conn) : option conn :=
  let c := set_writeMaxChunkSize size c in
  let '(c, b) := tmpwbuf (Rtmp.chunkHeaderLength + 4) c in
  '(b, n) ← Rtmp.fillChunkHeader b 2 0 msgtypeidSetChunkSize 0 4;
  b ← Rtmp.PutU32BE b (Z.to_nat n) (u32 size);
  let n := n + 4 in
  Some (write b n c).

Definition writeAck (seqnum : Z) (c : conn) : option conn :=
  let '(c, b) := tmpwbuf (Rtmp.chunkHeaderLength + 4) c in
  '(b, n) ← Rtmp.fillChunkHeader b 2 0 msgtypeidAck 0 4;
  b ← Rtmp.PutU32BE b (Z.to_nat n) seqnum;
  let n := n + 4 in
  Some (write b n c).

Definition writeWindowAckSize (size : Z) (c : conn) : option conn :=
  let '(c, b) := tmpwbuf (Rtmp.chunkHeaderLength + 4) c in
  '(b, n) ← Rtmp.fillChunkHeader b 2 0 msgtypeidWindowAckSize 0 4;
  b ← Rtmp.PutU32BE b (Z.to_nat n) size;
  let n := n + 4 in
  Some (write b n c).

Definition writeSetPeerBandwidth (acksize limittype : Z) (c : conn)
  : option conn :=
  let '(c, b) := tmpwbuf (Rtmp.chunkHeaderLength + 5) c in
  '(b, n) ← Rtmp.fillChunkHeader b 2 0 msgtypeidSetPeerBandwidth 0 5;
  b ← Rtmp.PutU32BE b (Z.to_nat n) acksize;
  let n := n + 4 in
  b ← Rtmp.store b (Z.to_nat n) [limittype];
  let n := n + 1 in
  Some (write b n c).

Definition writeStreamBegin (msgsid : Z) (c : conn) : option conn :=
  let '(c, b) := tmpwbuf (Rtmp.chunkHeaderLength + 6) c in
  '(b, n) ← Rtmp.fillChunkHeader b 2 0 msgtypeidUserControl 0 6;
  b ← Rtmp.store b (Z.to_nat n) (PutUintBE 2 eventtypeStreamBegin);
  let n := n + 2 in
  b ← Rtmp.PutU32BE b (Z.to_nat n) msgsid;
  let n := n + 4 in
  Some (write b n c).

Definition writeSetBufferLength (msgsid timestamp : Z) (c : conn)
  : option conn :=
  let '(c, b) := tmpwbuf (Rtmp.chunkHeaderLength + 10) c in
  '(b, n) ← Rtmp.fillChunkHeader b 2 0 msgtypeidUserControl 0 10;
  b ← Rtmp.store b (Z.to_nat n) (PutUintBE 2 eventtypeSetBufferLength);
  let n := n + 2 in
  b ← Rtmp.PutU32BE b (Z.to_nat n) msgsid;
  let n := n + 4 in
  b ← Rtmp.PutU32BE b (Z.to_nat n) timestamp;
  let n := n + 4 in
  Some (write b n c).

(** What [io.ReadFull] reports for a buffer of [k] bytes. *)
Definition short (k : nat) (input : list Z) : option ioerr :=
  if (k <=? length input)%nat then None
  else if (length input =? 0)%nat then Some EOF
  else Some ErrUnexpectedEOF.

(** [io.ReadFull(self.bufr, b[:k])] for the read buffer [b]: the bytes
    that are there, up to [k], are moved to the front of [b]; forming
    [b[:k]] panics when [b] is shorter. A short read returns the error
    made by [wrap]. *)
Definition read_b (k : nat) (wrap : ioerr -> error) (c : conn) : step conn :=
  if (length (readbuf c) <? k)%nat then NoReturn
  else
    let got := take k (bufr c) in
    let c' := set_readbuf (got ++ drop (length got) (readbuf c))
                (set_bufr (drop k (bufr c)) c) in
    match short k (bufr c) with
    | Some e => Return c' (Some (wrap e))
    | None => Go c'
    end.

(** The chunk stream is reached through a pointer kept in [readcsmap]:
    what [readChunk] assigns to its fields is in the map when it returns.
    [leaving csid cs] puts the stream as it is at a [return]. *)
Definition store_cs (csid : Z) (cs : chunkStream.t) (c : conn) : conn :=
  set_readcsmap (<[csid := cs]> (readcsmap c)) c.

Definition leaving {A} (csid : Z) (cs : chunkStream.t) (m : step A) : step A :=
  match m with
  | Return c e => Return (store_cs csid cs c) e
  | m => m
  end.

(** The extended timestamp that ends a header of type 0, 1 or 2. *)
Definition ext_timestamp (msghdrtype csid timestamp : Z)
    (cs : chunkStream.t) (n : Z) (c : conn)
  : step (conn * chunkStream.t * Z * Z) :=
  if timestamp =? 0xffffff then
    c ← leaving csid cs (read_b 4 (ErrReadExtTimestamp msghdrtype csid) c);
    Go (c, chunkStream.set_hastimeext true cs, n + 4,
        UintBE (take 4 (readbuf c)))
  else Go (c, chunkStream.set_hastimeext false cs, n, timestamp).

(** [case 0] of the switch on the header type. *)
Definition header0 (msghdrtype csid : Z) (cs : chunkStream.t) (n : Z)
    (c : conn) : step (conn * chunkStream.t * Z) :=
  if negb (chunkStream.msgdataleft cs =? 0)
  then Return c (Some (ErrChunkInvalid msghdrtype csid
                         (chunkStream.msgdataleft cs)))
  else
    c ← read_b 11 (ErrReadHeader msghdrtype csid) c;
    let h := take 11 (readbuf c) in
    let n := n + len h in
    let timestamp := UintBE (take 3 h) in
    let cs := chunkStream.set_msghdrtype msghdrtype cs in
    let cs := chunkStream.set_msgdatalen (UintBE (take 3 (drop 3 h))) cs in
    let cs := chunkStream.set_msgtypeid (nth 6 h 0) cs in
    let cs := chunkStream.set_msgsid (UintLE (take 4 (drop 7 h))) cs in
    '(c, cs, n, timestamp) ← ext_timestamp msghdrtype csid timestamp cs n c;
    let cs := chunkStream.set_timenow timestamp cs in
    Go (c, chunkStream.Start cs, n).

(** [case 1] *)
Definition header1 (msghdrtype csid : Z) (cs : chunkStream.t) (n : Z)
    (c : conn) : step (conn * chunkStream.t * Z) :=
  if negb (chunkStream.msgdataleft cs =? 0)
  then Return c (Some (ErrChunkInvalid msghdrtype csid
                         (chunkStream.msgdataleft cs)))
  else
    c ← read_b 7 (ErrReadHeader msghdrtype csid) c;
    let h := take 7 (readbuf c) in
    let n := n + len h in
    let timestamp := UintBE (take 3 h) in
    let cs := chunkStream.set_msghdrtype msghdrtype cs in
    let cs := chunkStream.set_msgdatalen (UintBE (take 3 (drop 3 h))) cs in
    let cs := chunkStream.set_msgtypeid (nth 6 h 0) cs in
    '(c, cs, n, timestamp) ← ext_timestamp msghdrtype csid timestamp cs n c;
    let cs := chunkStream.set_timedelta timestamp cs in
    let cs := chunkStream.set_timenow
                (u32 (chunkStream.timenow cs + timestamp)) cs in
    Go (c, chunkStream.Start cs, n).

(** [case 2] *)
Definition header2 (msghdrtype csid : Z) (cs : chunkStream.t) (n : Z)
    (c : conn) : step (conn * chunkStream.t * Z) :=
  if negb (chunkStream.msgdataleft cs =? 0)
  then Return c (Some (ErrChunkInvalid msghdrtype csid
                         (chunkStream.msgdataleft cs)))
  else
    c ← read_b 3 (ErrReadHeader msghdrtype csid) c;
    let h := take 3 (readbuf c) in
    let n := n + len h in
    let cs := chunkStream.set_msghdrtype msghdrtype cs in
    let timestamp := UintBE (take 3 h) in
    '(c, cs, n, timestamp) ← ext_timestamp msghdrtype csid timestamp cs n c;
    let cs := chunkStream.set_timedelta timestamp cs in
    let cs := chunkStream.set_timenow
                (u32 (chunkStream.timenow cs + timestamp)) cs in
    Go (c, chunkStream.Start cs, n).

(** [case 3]: a chunk without a message header. It starts a message like
    the one before on this stream, or goes on with the message that is
    under way; then an extended timestamp is skipped when the next four
    bytes repeat the stream's time. *)
Definition header3 (msghdrtype csid : Z) (cs : chunkStream.t) (n : Z)
    (c : conn) : step (conn * chunkStream.t * Z) :=
  let ext := ErrReadExtTimestamp3 msghdrtype (chunkStream.msghdrtype cs) csid in
  if chunkStream.msgdataleft cs =? 0 then
    '(c, cs, n) ←
      (if chunkStream.msghdrtype cs =? 0 then
         if chunkStream.hastimeext cs then
           c ← read_b 4 ext c;
           let n := n + 4 in
           let timestamp := UintBE (take 4 (readbuf c)) in
           Go (c, chunkStream.set_timenow timestamp cs, n)
         else Go (c, cs, n)
       else if (chunkStream.msghdrtype cs =? 1)
               || (chunkStream.msghdrtype cs =? 2) then
         '(c, n, timestamp) ←
           (if chunkStream.hastimeext cs then
              c ← read_b 4 ext c;
              Go (c, n + 4, UintBE (take 4 (readbuf c)))
            else Go (c, n, chunkStream.timedelta cs));
         Go (c, chunkStream.set_timenow
                  (u32 (chunkStream.timenow cs + timestamp)) cs, n)
       else Go (c, cs, n));
    Go (c, chunkStream.Start cs, n)
  else if chunkStream.hastimeext cs then
    if (length (bufr c) <? 4)%nat
    then Return c (Some (ErrPeekTimestamp msghdrtype
                           (chunkStream.msghdrtype cs) csid EOF))
    else
      let tmpts := UintBE (take 4 (bufr c)) in
      if (tmpts >? 0) && (tmpts =? chunkStream.timenow cs)
      then Go (set_bufr (drop 4 (bufr c)) c, cs, n)
      else Go (c, cs, n)
  else Go (c, cs, n).

(** The end of [readChunk], after the message handler: the bytes of the
    chunk are counted and acknowledged when they pass [readAckSize]. *)
Definition acknowledge (n : Z) (c : conn) : step conn :=
  let c := set_ackn (u32 (ackn c + u32 n)) c in
  if negb (readAckSize c =? 0) && (ackn c >? readAckSize c) then
    match writeAck (ackn c) c with
    | None => NoReturn
    | Some c => Go (set_ackn 0 c)
    end
  else Go c.

(** [conn.readChunk]. [n] counts the bytes read; it stays far below the
    range of an [int]. *)
Definition readChunk (c : conn) : option (conn * option error) :=
  run (
    c ← read_b 1 ErrFirstByte c;
    let header := nth 0 (readbuf c) 0 in
    let n := 1 in
    let msghdrtype := Z.shiftr header 6 in
    let csid := Z.land (u32 header) 0x3f in
    '(c, csid, n) ←
      (if csid =? 0 then
         c ← read_b 1 (ErrBasicHeader msghdrtype 0) c;
         Go (c, u32 (nth 0 (readbuf c) 0 + 64), n + 1)
       else if csid =? 1 then
         c ← read_b 2 (ErrBasicHeader msghdrtype 1) c;
         Go (c, u32 (UintBE (take 2 (readbuf c)) + 64), n + 2)
       else Go (c, csid, n));
    let cs := default chunkStream.zero (readcsmap c !! csid) in
    let c := store_cs csid cs c in
    '(c, cs, n) ←
      (if msghdrtype =? 0 then header0 msghdrtype csid cs n c
       else if msghdrtype =? 1 then header1 msghdrtype csid cs n c
       else if msghdrtype =? 2 then header2 msghdrtype csid cs n c
       else if msghdrtype =? 3 then header3 msghdrtype csid cs n c
       else Return c (Some (ErrInvalidHeaderType msghdrtype csid)));
    let size := chunkStream.msgdataleft cs in
    let size := if size >? readMaxChunkSize c
                then readMaxChunkSize c else size in
    let off := u32 (chunkStream.msgdatalen cs - chunkStream.msgdataleft cs) in
    if negb ((off <=? off + size)
             && (off + size <=? len (chunkStream.msgdata cs)))
    then NoReturn
    else
      let got := take (Z.to_nat size) (bufr c) in
      let e := short (Z.to_nat size) (bufr c) in
      let cs := chunkStream.set_msgdata
                  (take (Z.to_nat off) (chunkStream.msgdata cs) ++ got
                   ++ drop (Z.to_nat off + length got)
                        (chunkStream.msgdata cs)) cs in
      let c := set_bufr (drop (Z.to_nat size) (bufr c)) c in
      match e with
      | Some e => Return (store_cs csid cs c) (Some (ErrReadData e size off))
      | None =>
          let n := n + size in
          let cs := chunkStream.set_msgdataleft
                      (u32 (chunkStream.msgdataleft cs - u32 size)) cs in
          let c := store_cs csid cs c in
          c ← (if chunkStream.msgdataleft cs =? 0
               then call (handleMsg (chunkStream.timenow cs)
                            (chunkStream.msgsid cs)
                            (chunkStream.msgtypeid cs)
                            (chunkStream.msgdata cs) c)
               else Go c);
          acknowledge n c
      end).

(** [conn.pollMsg]: chunks are read until one completes a message that
    [handleMsg] marks as got. The reads are counted by [turns]; [None] is a
    read that does not return, or no turn left. *)
Fixpoint pollMsg_loop (turns : nat) (c : conn)
  : option (conn * option error) :=
  match turns with
  | O => None
  | S k =>
      match readChunk c with
      | None => None
      | Some (c, Some e) => Some (c, Some e)
      | Some (c, None) =>
          if gotmsg c then Some (c, None) else pollMsg_loop k c
      end
  end.

Definition pollMsg (turns : nat) (c : conn) : option (conn * option error) :=
  let c := set_gotmsg false c in
  let c := set_gotcommand false c in
  let c := set_datamsgvals [] c in
  let c := set_avtag zeroTag c in
  let c := set_scripttag zeroTag c in
  pollMsg_loop turns c.

End Conn.

Arguments mkConn {AMF Float AMFMap Tag}.
Arguments bufr {AMF Float AMFMap Tag} c.
Arguments bufw {AMF Float AMFMap Tag} c.
Arguments ackn {AMF Float AMFMap Tag} c.
Arguments writebuf {AMF Float AMFMap Tag} c.
Arguments readbuf {AMF Float AMFMap Tag} c.
Arguments writeMaxChunkSize {AMF Float AMFMap Tag} c.
Arguments readMaxChunkSize {AMF Float AMFMap Tag} c.
Arguments readAckSize {AMF Float AMFMap Tag} c.
Arguments readcsmap {AMF Float AMFMap Tag} c.
Arguments gotcommand {AMF Float AMFMap Tag} c.
Arguments commandname {AMF Float AMFMap Tag} c.
Arguments commandtransid {AMF Float AMFMap Tag} c.
Arguments commandobj {AMF Float AMFMap Tag} c.
Arguments commandparams {AMF Float AMFMap Tag} c.
Arguments gotmsg {AMF Float AMFMap Tag} c.
Arguments timestamp {AMF Float AMFMap Tag} c.
Arguments msgdata {AMF Float AMFMap Tag} c.
Arguments msgtypeid {AMF Float AMFMap Tag} c.
Arguments datamsgvals {AMF Float AMFMap Tag} c.
Arguments avtag {AMF Float AMFMap Tag} c.
Arguments scripttag {AMF Float AMFMap Tag} c.
Arguments eventtype {AMF Float AMFMap Tag} c.
Arguments set_bufr {AMF Float AMFMap Tag} v r.
Arguments set_bufw {AMF Float AMFMap Tag} v r.
Arguments set_ackn {AMF Float AMFMap Tag} v r.
Arguments set_writebuf {AMF Float AMFMap Tag} v r.
Arguments set_readbuf {AMF Float AMFMap Tag} v r.
Arguments set_writeMaxChunkSize {AMF Float AMFMap Tag} v r.
Arguments set_readMaxChunkSize {AMF Float AMFMap Tag} v r.
Arguments set_readAckSize {AMF Float AMFMap Tag} v r.
Arguments set_readcsmap {AMF Float AMFMap Tag} v r.
Arguments set_gotcommand {AMF Float AMFMap Tag} v r.
Arguments set_commandname {AMF Float AMFMap Tag} v r.
Arguments set_commandtransid {AMF Float AMFMap Tag} v r.
Arguments set_commandobj {AMF Float AMFMap Tag} v r.
Arguments set_commandparams {AMF Float AMFMap Tag} v r.
Arguments set_gotmsg {AMF Float AMFMap Tag} v r.
Arguments set_timestamp {AMF Float AMFMap Tag} v r.
Arguments set_msgdata {AMF Float AMFMap Tag} v r.
Arguments set_msgtypeid {AMF Float AMFMap Tag} v r.
Arguments set_datamsgvals {AMF Float AMFMap Tag} v r.
Arguments set_avtag {AMF Float AMFMap Tag} v r.
Arguments set_scripttag {AMF Float AMFMap Tag} v r.
Arguments set_eventtype {AMF Float AMFMap Tag} v r.
Arguments tmpwbuf {AMF Float AMFMap Tag}.
Arguments write {AMF Float AMFMap Tag}.
Arguments writeSetChunkSize {AMF Float AMFMap Tag}.
Arguments writeAck {AMF Float AMFMap Tag}.
Arguments writeWindowAckSize {AMF Float AMFMap Tag}.
Arguments writeSetPeerBandwidth {AMF Float AMFMap Tag}.
Arguments writeStreamBegin {AMF Float AMFMap Tag}.
Arguments writeSetBufferLength {AMF Float AMFMap Tag}.
Arguments store_cs {AMF Float AMFMap Tag}.
Arguments Go {AMF Float AMFMap Tag ParseErr} {A} a.
Arguments Return {AMF Float AMFMap Tag ParseErr} {A} c err.
Arguments NoReturn {AMF Float AMFMap Tag ParseErr} {A}.
Arguments run {AMF Float AMFMap Tag ParseErr}.
Arguments call {AMF Float AMFMap Tag ParseErr}.
Arguments from {AMF Float AMFMap Tag ParseErr}.
Arguments read_b {AMF Float AMFMap Tag ParseErr}.
Arguments leaving {AMF Float AMFMap Tag ParseErr} {A}.
Arguments ext_timestamp {AMF Float AMFMap Tag ParseErr}.
Arguments header0 {AMF Float AMFMap Tag ParseErr}.
Arguments header1 {AMF Float AMFMap Tag ParseErr}.
Arguments header2 {AMF Float AMFMap Tag ParseErr}.
Arguments header3 {AMF Float AMFMap Tag ParseErr}.
Arguments acknowledge {AMF Float AMFMap Tag ParseErr}.
Arguments step_bind {AMF Float AMFMap Tag ParseErr}.
Arguments step_ret {AMF Float AMFMap Tag ParseErr}.
Arguments parse {AMF Float AMFMap Tag ParseErr}.
Arguments parse_loop {AMF Float AMFMap Tag ParseErr}.
Arguments handleCommandMsgAMF0 {AMF Float AMFMap Tag ParseErr}.
Arguments handleMsg {AMF Float AMFMap Tag ParseErr}.
Arguments readChunk {AMF Float AMFMap Tag ParseErr}.
Arguments pollMsg_loop {AMF Float AMFMap Tag ParseErr}.
Arguments pollMsg {AMF Float AMFMap Tag ParseErr}.
Arguments ErrFirstByte {ParseErr}.
Arguments ErrBasicHeader {ParseErr}.
Arguments ErrChunkInvalid {ParseErr}.
Arguments ErrReadHeader {ParseErr}.
Arguments ErrReadExtTimestamp {ParseErr}.
Arguments ErrReadExtTimestamp3 {ParseErr}.
Arguments ErrPeekTimestamp {ParseErr}.
Arguments ErrInvalidHeaderType {ParseErr}.
Arguments ErrReadData {ParseErr}.
Arguments ErrCommandName {ParseErr}.
Arguments ErrCommandTransid {ParseErr}.
Arguments ErrCommandObj {ParseErr}.
Arguments ErrCommandParams {ParseErr}.
Arguments ErrCommandNotString {ParseErr}.
Arguments ErrCommandLeft {ParseErr}.
Arguments ErrShortCommandMsgAMF3 {ParseErr}.
Arguments ErrShortUserControl {ParseErr}.
Arguments ErrDataMsgAMF0 {ParseErr}.
Arguments ErrDataMsgLeft {ParseErr}.
Arguments ErrTagHeader {ParseErr}.
Arguments ErrShortSetChunkSize {ParseErr}.

End RtmpChunk.
(** ** media/protocol/hls: TS cache and playlists *)

Module Hls.

Definition TSCacheNumMin : Z := 3.

Record TSItem := mkTSItem {
  Name : string;
  SeqNum : Z;      (* int *)
  Duration : Z;    (* int, milliseconds *)
  Data : list Z
}.

(** One [#EXTINF:<d.ddd>,\n<name>\n] entry: the duration in milliseconds
    that is divided by 1000 for printing, and the segment name. *)
Record ExtInf := mkExtInf {
  inf_ms : Z;
  inf_name : string
}.

(** The text held in [m3u8body], by the arguments it was formatted from: the
    [#EXTM3U] header written by [genM3U8PlayList] (absent in record mode)
    with its [#EXT-X-TARGETDURATION] and [#EXT-X-MEDIA-SEQUENCE] fields, and
    the [#EXTINF] entries. *)
Record M3U8Body := mkBody {
  live_header : option (Z * Z);
  entries : list ExtInf
}.

Definition emptyBody : M3U8Body := mkBody None [].
Definition body_Len0 (b : M3U8Body) : bool :=
  match live_header b, entries b with
  | None, [] => true
  | _, _ => false
  end.

Record TSCache := mkTSCache {
  id : string;
  path : string;
  hlsWindow : Z;
  ll : list string;           (* container/list of keys, front first *)
  lm : gmap string TSItem;
  firstTsSeq : Z;
  firstTsTimeStamp : Z;
  tsDurationMax : Z;
  m3u8body : M3U8Body
}.

Definition NewTSCache (id path : string) (hlsWindow : Z) : TSCache :=
  mkTSCache id path hlsWindow [] ∅ 0 0 0 emptyBody.

Definition IsRecord (c : TSCache) : bool := hlsWindow c =? 0.

Definition set_body (c : TSCache) (b : M3U8Body) : TSCache :=
  mkTSCache (id c) (path c) (hlsWindow c) (ll c) (lm c) (firstTsSeq c)
    (firstTsTimeStamp c) (tsDurationMax c) b.

Definition set_path (c : TSCache) (p : string) : TSCache :=
  mkTSCache (id c) p (hlsWindow c) (ll c) (lm c) (firstTsSeq c)
    (firstTsTimeStamp c) (tsDurationMax c) (m3u8body c).

(** Loop state of [genM3U8PlayList]: [seq], [getSeq], [maxDuration] and
    the buffer [w]. *)
Record genState := mkGen {
  seq : Z;
  getSeq : bool;
  maxDuration : Z;
  w : list ExtInf
}.

Definition gen_step (lm : gmap string TSItem) (st : genState) (key : string)
  : genState :=
  match lm !! key with
  | Some v =>
      mkGen (if getSeq st then seq st else SeqNum v)
            true
            (if Duration v >? maxDuration st then Duration v else maxDuration st)
            (w st ++ [mkExtInf (Duration v) (Name v)])
  | None => st
  end.

(** [TSCache.genM3U8PlayList]; Go's [/] on ints truncates, hence [Z.quot]. *)
Definition genM3U8PlayList (c : TSCache) : TSCache :=
  match ll c with
  | [] => set_body c emptyBody
  | _ :: rest =>
      (* the first segment is skipped *)
      let st := fold_left (gen_step (lm c)) rest (mkGen 0 false 0 []) in
      set_body c
        (mkBody (Some (Z.quot (maxDuration st) 1000 + 1, seq st)) (w st))
  end.

(** [TSCache.genRecordM3U8PlayList]; [now] is [time.Now().Unix()]. Writing
    the segment file ([DumpTsFile]) has no effect on the cache. *)
Definition genRecordM3U8PlayList (now : Z) (key : string) (item : TSItem)
    (c : TSCache) : TSCache :=
  let dmax := if tsDurationMax c <? Duration item
              then Duration item else tsDurationMax c in
  let first := firstTsSeq c =? 0 in
  mkTSCache (id c) (path c) (hlsWindow c) (ll c) (lm c)
    (if first then SeqNum item else firstTsSeq c)
    (if first then now else firstTsTimeStamp c)
    dmax
    (mkBody (live_header (m3u8body c))
       (entries (m3u8body c) ++ [mkExtInf (Duration item) (Name item)])).

(** [TSCache.Reset]. The loop calls [e.Next()] after [ll.Remove(e)], which
    yields nil for a removed element, so only the front key is removed. *)
Definition Reset (c : TSCache) : TSCache :=
  mkTSCache (id c) (path c) (hlsWindow c) (drop 1 (ll c)) ∅ 0
    (firstTsTimeStamp c) 0 emptyBody.

(** The VOD playlist file written by [DumpM3U8PlayList]. *)
Record VodPlaylist := mkVod {
  vod_target_duration : Z;
  vod_media_sequence : Z;
  vod_body : M3U8Body
}.

(** [TSCache.DumpM3U8PlayList]: the playlist written (if any) and the cache
    afterwards. *)
Definition DumpM3U8PlayList (c : TSCache) : option VodPlaylist * TSCache :=
  if (length (String.list_ascii_of_string (path c)) =? 0)%nat
     || body_Len0 (m3u8body c)
  then (None, c)
  else (Some (mkVod (Z.quot (tsDurationMax c) 1000 + 1) (firstTsSeq c)
                (m3u8body c)),
        Reset c).

(** Record-mode [SetItem] calls for a run of segments. *)
Definition record_all (now : Z) (items : list (string * TSItem)) (c : TSCache)
  : TSCache :=
  fold_left (fun c kv => genRecordM3U8PlayList now kv.1 kv.2 c) items c.

(** The largest duration among segments, 0 when there is none. *)
Definition max_ts_ms (ds : list Z) : Z := foldr Z.max 0 ds.

(** The segments a live playlist lists: every key after the first that is
    still in the map. *)
Definition listed (c : TSCache) : list TSItem :=
  omap (fun k => lm c !! k) (drop 1 (ll c)).

(** ceil(x / 1000) *)
Definition ceil_div_1000 (x : Z) : Z := - ((- x) `div` 1000).

(** A live cache holding three segments of 1000, 1500 and 1200 ms. *)
Definition sample_cache : TSCache :=
  mkTSCache "s" "" 15000 ["s-0.ts"; "s-1.ts"; "s-2.ts"]
    (<["s-0.ts" := mkTSItem "s-0.ts" 0 1000 []]>
       (<["s-1.ts" := mkTSItem "s-1.ts" 1 1500 []]>
          (<["s-2.ts" := mkTSItem "s-2.ts" 2 1200 []]> ∅)))
    0 0 0 emptyBody.

End Hls.

(** ** media/protocol/hls: the live TS cache *)

Module HlsCache.
Import Ints Hls.

Inductive error := ErrNoTsKey | ErrM3u8Empty.

(** Go's [int]. *)
Definition int (x : Z) : Z := signed 64 x.

Definition zeroItem : TSItem := mkTSItem "" 0 0 [].

(** [NewTSItem]; the data are copied. *)
Definition NewTSItem (name : string) (duration seqNum : Z) (b : list Z)
  : TSItem := mkTSItem name seqNum duration b.

(** [TSCache.GetM3U8PlayList] *)
Definition GetM3U8PlayList (c : TSCache) : option M3U8Body * option error :=
  if body_Len0 (m3u8body c) then (None, Some ErrM3u8Empty)
  else (Some (m3u8body c), None).

(** [TSCache.GetItem]; a missing key gives the zero item and
    [ErrNoTsKey]. *)
Definition GetItem (c : TSCache) (key : string) : TSItem * option error :=
  match lm c !! key with
  | Some item => (item, None)
  | None => (zeroItem, Some ErrNoTsKey)
  end.

(** [TSCache.IsReady] *)
Definition IsReady (c : TSCache) : bool :=
  negb (Z.of_nat (size (lm c)) <? TSCacheNumMin).

(** [for _, tsItem := range c.lm { totalDuration += tsItem.Duration }];
    the sum of ints does not depend on the order of the range. *)
Definition totalDuration (lm : gmap string TSItem) : Z :=
  map_fold (fun _ tsItem total => int (total + Duration tsItem)) 0 lm.

(** The eviction loop of [SetItem]: the front key of [ll] is removed and
    deleted from [lm] until the total is within the window or at most
    [TSCacheNumMin] items are left. [ll.Remove(ll.Front())] on an empty list
    dereferences nil and panics ([None]); [c.lm[k]] of a missing key is the
    zero item. *)
Fixpoint evict (hlsWindow : Z) (total : Z) (ll : list string)
    (lm : gmap string TSItem) {struct ll}
  : option (list string * gmap string TSItem) :=
  if (total <=? hlsWindow) || (Z.of_nat (size lm) <=? TSCacheNumMin)
  then Some (ll, lm)
  else
    match ll with
    | [] => None
    | k :: rest =>
        let total := int (total - Duration (default zeroItem (lm !! k))) in
        evict hlsWindow total rest (delete k lm)
    end.

Definition set_ll_lm (c : TSCache) (l : list string) (m : gmap string TSItem)
  : TSCache :=
  mkTSCache (id c) (path c) (hlsWindow c) l m (firstTsSeq c)
    (firstTsTimeStamp c) (tsDurationMax c) (m3u8body c).

(** [TSCache.SetItem]; [now] is [time.Now().Unix()], read in record
    mode. *)
Definition SetItem (now : Z) (key : string) (item : TSItem) (c : TSCache)
  : option TSCache :=
  if IsRecord c then Some (genRecordM3U8PlayList now key item c)
  else
    let lm := <[key := item]> (lm c) in
    let ll := ll c ++ [key] in
    '(ll, lm) ← evict (hlsWindow c) (totalDuration lm) ll lm;
    Some (genM3U8PlayList (set_ll_lm c ll lm)).

(** Every key of the map is in the list of keys. *)
Definition keys_listed (c : TSCache) : Prop :=
  forall k, is_Some (lm c !! k) -> k ∈ ll c.

End HlsCache.

(** ** media/codec/h264parser: SPS decoding *)

Module H264.
Import Ints.

Definition NALU_SEI : Z := 6.
Definition NALU_SPS : Z := 7.
Definition NALU_PPS : Z := 8.
Definition NALU_AUD : Z := 9.

(** [IsDataNALU]; indexing an empty slice panics ([None]). *)
Definition IsDataNALU (b : list Z) : option bool :=
  match b with
  | [] => None
  | b0 :: _ => let typ := Z.land b0 0x1f in Some ((1 <=? typ) && (typ <=? 5))
  end.

(** The [uint] fields of [SPSInfo], those of the embedded [VuiParameters]
    included; [Vui_FPS] is the embedded struct's [FPS], which the outer
    [FPS] shadows in [sps.FPS]. *)
Inductive SPSField :=
| Id | ForbiddenZeroBit | NalRefIdc | NalUnitType
| ProfileIdc | LevelIdc | SeqParameterSetID
| ChromaFormatIdc | SeparateColourPlaneFlag | BitDepthLumaMinus8
| BitDepthChromaMinus8 | QpprimeYZeroTransformBypassFlag
| SeqScalingMatrixPresentFlag
| Log2MaxFrameNumMinus4 | PicOrderCntType | Log2MaxPicOrderCntLsbMinus4
| DeltaPicOrderAlwaysZeroFlag | OffsetForNonRefPic | OffsetForTopToBottomField
| NumRefFramesInPicOrderCntCycle | MaxNumRefFrames
| GapsInFrameNumValueAllowedFlag
| PicWidthInMbsMinus1 | PicHeightInMapUnitsMinus1 | MbAdaptiveFrameFieldFlag
| Direct8x8InferenceFlag | FrameMbsOnlyFlag | FrameCroppingFlag
| CropLeft | CropRight | CropTop | CropBottom
| MbWidth | MbHeight | Width | Height
| VuiParametersPresentFlag
| AspectRatioInfoPresentFlag | AspectRatioIdc | SarWidth | SarHeight
| OverscanInfoPresentFlag | OverscanAppropriateFlag
| VideoSignalTypePresentFlag | VideoFormat | VideoFullRangeRlag
| ColourDescriptionPresentFlag | ColourPrimaries | TransferCharacteristics
| MatrixCoefficients | ChromaLocInfoPresentFlag
| ChromaSampleLocTypeTopField | ChromaSampleLocTypeBottomField
| TimingInfoPresentFlag | NumUnitsInTick | TimeScale | FixedFrameRateFlag
| Vui_FPS
| FPS.

Definition field_index (f : SPSField) : positive :=
  match f with
  | Id => 1 | ForbiddenZeroBit => 2 | NalRefIdc => 3 | NalUnitType => 4
  | ProfileIdc => 5 | LevelIdc => 6 | SeqParameterSetID => 7
  | ChromaFormatIdc => 8 | SeparateColourPlaneFlag => 9
  | BitDepthLumaMinus8 => 10 | BitDepthChromaMinus8 => 11
  | QpprimeYZeroTransformBypassFlag => 12 | SeqScalingMatrixPresentFlag => 13
  | Log2MaxFrameNumMinus4 => 14 | PicOrderCntType => 15
  | Log2MaxPicOrderCntLsbMinus4 => 16 | DeltaPicOrderAlwaysZeroFlag => 17
  | OffsetForNonRefPic => 18 | OffsetForTopToBottomField => 19
  | NumRefFramesInPicOrderCntCycle => 20 | MaxNumRefFrames => 21
  | GapsInFrameNumValueAllowedFlag => 22
  | PicWidthInMbsMinus1 => 23 | PicHeightInMapUnitsMinus1 => 24
  | MbAdaptiveFrameFieldFlag => 25 | Direct8x8InferenceFlag => 26
  | FrameMbsOnlyFlag => 27 | FrameCroppingFlag => 28
  | CropLeft => 29 | CropRight => 30 | CropTop => 31 | CropBottom => 32
  | MbWidth => 33 | MbHeight => 34 | Width => 35 | Height => 36
  | VuiParametersPresentFlag => 37
  | AspectRatioInfoPresentFlag => 38 | AspectRatioIdc => 39
  | SarWidth => 40 | SarHeight => 41
  | OverscanInfoPresentFlag => 42 | OverscanAppropriateFlag => 43
  | VideoSignalTypePresentFlag => 44 | VideoFormat => 45
  | VideoFullRangeRlag => 46 | ColourDescriptionPresentFlag => 47
  | ColourPrimaries => 48 | TransferCharacteristics => 49
  | MatrixCoefficients => 50 | ChromaLocInfoPresentFlag => 51
  | ChromaSampleLocTypeTopField => 52 | ChromaSampleLocTypeBottomField => 53
  | TimingInfoPresentFlag => 54 | NumUnitsInTick => 55 | TimeScale => 56
  | FixedFrameRateFlag => 57 | Vui_FPS => 58 | FPS => 59
  end.

(** [type SPSInfo struct]: the [uint] fields by name, and the two slices. *)
Record SPSInfo := mkSPSInfo {
  get : SPSField -> Z;
  ConstraintSetFlag : list Z;
  SeqScalingListPresentFlag : list Z
}.

Definition zeroSPS : SPSInfo := mkSPSInfo (fun _ => 0) [] [].

(** [sps.f = v] *)
Definition set_field (f : SPSField) (v : Z) (s : SPSInfo) : SPSInfo :=
  mkSPSInfo (fun g => if Pos.eqb (field_index g) (field_index f)
                      then v else get s g)
    (ConstraintSetFlag s) (SeqScalingListPresentFlag s).

Definition set_ConstraintSetFlag (l : list Z) (s : SPSInfo) : SPSInfo :=
  mkSPSInfo (get s) l (SeqScalingListPresentFlag s).
Definition set_SeqScalingListPresentFlag (l : list Z) (s : SPSInfo) : SPSInfo :=
  mkSPSInfo (get s) (ConstraintSetFlag s) l.

(** [DeEmulationPrevention]: the loop
    [for i := 0; i < dataLen-2; i++] that drops the 0x03 of every
    0x00 0x00 0x03 it meets, run with as many steps as the data is long. *)
Fixpoint deEmulation_loop (steps : nat) (i : nat) (d : list Z) : list Z :=
  match steps with
  | O => d
  | S k =>
      if (i + 2 <? length d)%nat then
        if (nth i d 0 =? 0) && (nth (i + 1) d 0 =? 0) && (nth (i + 2) d 0 =? 3)
        then deEmulation_loop k (i + 1) (take (i + 2) d ++ drop (i + 3) d)
        else deEmulation_loop k (i + 1) d
      else d
  end.

Definition DeEmulationPrevention (data : list Z) : list Z :=
  deEmulation_loop (length data) 0 data.

Inductive error := EOF.

(** The interface of [bits.GolombBitReader] as the parser uses it: each
    read returns the value, the error if any, and the reader afterwards.
    The reader's source is not among the sources; the parser is written
    against these four methods. *)
Class GolombBitReader (R : Type) := {
  NewReader : list Z -> R;
  ReadBit : R -> Z * option error * R;
  ReadBits : Z -> R -> Z * option error * R;
  ReadExponentialGolombCode : R -> Z * option error * R;
  ReadSE : R -> Z * option error * R
}.

Section Parser.
Context {R : Type} `{GolombBitReader R}.

(** The parser's state: the reader and the [sps] being filled in. *)
Record pstate := mkPstate {
  rd : R;
  sps : SPSInfo
}.

(** A step either goes on with a value or returns with the error; the
    state is kept in both cases, as [sps] is a named result. *)
Definition M (A : Type) : Type := pstate -> (error + A) * pstate.

Definition ret {A} (a : A) : M A := fun s => (inr a, s).
Definition bind {A B} (m : M A) (k : A -> M B) : M B :=
  fun s => match m s with
           | (inl e, s') => (inl e, s')
           | (inr a, s') => k a s'
           end.

Notation "x <- m ;; k" := (bind m (fun x => k))
  (at level 100, m at next level, right associativity).
Notation "m ;; k" := (bind m (fun _ => k))
  (at level 100, right associativity).

(** [if sps.f, err = r.read(); err != nil { return }] *)
Definition read (f : SPSField) (op : R -> Z * option error * R) : M unit :=
  fun s =>
    let '(v, e, r) := op (rd s) in
    let s' := mkPstate r (set_field f v (sps s)) in
    match e with Some err => (inl err, s') | None => (inr tt, s') end.

(** [if v, err = r.read(); err != nil { return }] for a local [v]. *)
Definition read_local (op : R -> Z * option error * R) : M Z :=
  fun s =>
    let '(v, e, r) := op (rd s) in
    let s' := mkPstate r (sps s) in
    match e with Some err => (inl err, s') | None => (inr v, s') end.

Definition field (f : SPSField) : M Z := fun s => (inr (get (sps s) f), s).
Definition assign (f : SPSField) (v : Z) : M unit :=
  fun s => (inr tt, mkPstate (rd s) (set_field f v (sps s))).
Definition modify (g : SPSInfo -> SPSInfo) : M unit :=
  fun s => (inr tt, mkPstate (rd s) (g (sps s))).

(** [for i := 0; i < n; i++ { body i }] *)
Fixpoint for_loop (n : nat) (i : Z) (body : Z -> M unit) : M unit :=
  match n with
  | O => ret tt
  | S k => body i ;; for_loop k (i + 1) body
  end.

(** The inner loop over one scaling list: [lastScale], [nextScale]. *)
Fixpoint scaling_list (n : nat) (lastScale nextScale : Z) : M unit :=
  match n with
  | O => ret tt
  | S k =>
      nextScale <- (if negb (nextScale =? 0) then
                      delta_scale <- read_local ReadSE ;;
                      ret (Z.rem (u64 (u64 (lastScale + delta_scale) + 256)) 256)
                    else ret nextScale) ;;
      let lastScale := if negb (nextScale =? 0) then nextScale else lastScale in
      scaling_list k lastScale nextScale
  end.

Definition is_high_profile (p : Z) : bool :=
  (p =? 100) || (p =? 110) || (p =? 122) || (p =? 244) || (p =? 44)
  || (p =? 83) || (p =? 86) || (p =? 118) || (p =? 128) || (p =? 138)
  || (p =? 139) || (p =? 134) || (p =? 135).

(** [if sps.ConstraintSetFlag[i], err = r.ReadBit(); err != nil { return }] *)
Definition read_ConstraintSetFlag (i : Z) : M unit :=
  fun s =>
    let '(v, e, r) := ReadBit (rd s) in
    let l := <[Z.to_nat i := v]> (ConstraintSetFlag (sps s)) in
    let s' := mkPstate r (set_ConstraintSetFlag l (sps s)) in
    match e with Some err => (inl err, s') | None => (inr tt, s') end.

(** [if sps.SeqScalingListPresentFlag[i], err = r.ReadBit(); ...]; the
    value read is handed on for the test that follows. *)
Definition read_SeqScalingListPresentFlag (i : Z) : M Z :=
  fun s =>
    let '(v, e, r) := ReadBit (rd s) in
    let l := <[Z.to_nat i := v]> (SeqScalingListPresentFlag (sps s)) in
    let s' := mkPstate r (set_SeqScalingListPresentFlag l (sps s)) in
    match e with Some err => (inl err, s') | None => (inr v, s') end.

Definition when (b : bool) (m : M unit) : M unit := if b then m else ret tt.

(** The profile-specific part of [ParseSPS]. *)
Definition parse_high_profile : M unit :=
  read ChromaFormatIdc ReadExponentialGolombCode ;;
  chroma <- field ChromaFormatIdc ;;
  when (chroma =? 3) (read SeparateColourPlaneFlag ReadBit) ;;
  read BitDepthLumaMinus8 ReadExponentialGolombCode ;;
  read BitDepthChromaMinus8 ReadExponentialGolombCode ;;
  read QpprimeYZeroTransformBypassFlag ReadBit ;;
  read SeqScalingMatrixPresentFlag ReadBit ;;
  present <- field SeqScalingMatrixPresentFlag ;;
  when (negb (present =? 0))
    (let scalingListCount := if chroma =? 3 then 12%nat else 8%nat in
     modify (set_SeqScalingListPresentFlag (replicate scalingListCount 0)) ;;
     for_loop scalingListCount 0 (fun i =>
       flag <- read_SeqScalingListPresentFlag i ;;
       when (negb (flag =? 0))
         (let sizeOfScalingList := if i <? 6 then 16%nat else 64%nat in
          scaling_list sizeOfScalingList 8 8))).

(** [ParseSPS] up to and including the cropping offsets. *)
Definition parse_to_cropping : M unit :=
  read ForbiddenZeroBit ReadBit ;;
  read NalRefIdc (ReadBits 2) ;;
  read NalUnitType (ReadBits 5) ;;
  read ProfileIdc (ReadBits 8) ;;
  (* constraint_set0_flag - constraint_set5_flag *)
  modify (set_ConstraintSetFlag (replicate 6 0)) ;;
  for_loop 6 0 read_ConstraintSetFlag ;;
  (* reserved_zero_2bits *)
  read_local (ReadBits 2) ;;
  read LevelIdc (ReadBits 8) ;;
  read SeqParameterSetID ReadExponentialGolombCode ;;
  profile <- field ProfileIdc ;;
  when (is_high_profile profile) parse_high_profile ;;
  read Log2MaxFrameNumMinus4 ReadExponentialGolombCode ;;
  read PicOrderCntType ReadExponentialGolombCode ;;
  poc <- field PicOrderCntType ;;
  (if poc =? 0 then
     read Log2MaxPicOrderCntLsbMinus4 ReadExponentialGolombCode
   else if poc =? 1 then
     read DeltaPicOrderAlwaysZeroFlag ReadBit ;;
     read OffsetForNonRefPic ReadSE ;;
     read OffsetForTopToBottomField ReadSE ;;
     read NumRefFramesInPicOrderCntCycle ReadExponentialGolombCode ;;
     n <- field NumRefFramesInPicOrderCntCycle ;;
     for_loop (Z.to_nat n) 0 (fun _ => read_local ReadSE ;; ret tt)
   else ret tt) ;;
  read MaxNumRefFrames ReadExponentialGolombCode ;;
  read GapsInFrameNumValueAllowedFlag ReadBit ;;
  read PicWidthInMbsMinus1 ReadExponentialGolombCode ;;
  read PicHeightInMapUnitsMinus1 ReadExponentialGolombCode ;;
  read FrameMbsOnlyFlag ReadBit ;;
  mbs <- field FrameMbsOnlyFlag ;;
  when (mbs =? 0) (read MbAdaptiveFrameFieldFlag ReadBit) ;;
  read Direct8x8InferenceFlag ReadBit ;;
  read FrameCroppingFlag ReadBit ;;
  crop <- field FrameCroppingFlag ;;
  when (negb (crop =? 0))
    (read CropLeft ReadExponentialGolombCode ;;
     read CropRight ReadExponentialGolombCode ;;
     read CropTop ReadExponentialGolombCode ;;
     read CropBottom ReadExponentialGolombCode).

(** [uint] arithmetic. *)
Definition uadd (a b : Z) : Z := u64 (a + b).
Definition usub (a b : Z) : Z := u64 (a - b).
Definition umul (a b : Z) : Z := u64 (a * b).
Definition udiv (a b : Z) : Z := a `div` b.

(** [sps.Width = ...; sps.Height = ...] *)
Definition compute_size : M unit :=
  fun s =>
    let g := get (sps s) in
    let width :=
      usub (usub (umul (uadd (g PicWidthInMbsMinus1) 1) 16)
                 (umul (g CropLeft) 2))
           (umul (g CropRight) 2) in
    let s1 := set_field Width width (sps s) in
    let height :=
      usub (usub (umul (umul (usub 2 (g FrameMbsOnlyFlag))
                             (uadd (g PicHeightInMapUnitsMinus1) 1)) 16)
                 (umul (g CropTop) 2))
           (umul (g CropBottom) 2) in
    (inr tt, mkPstate (rd s) (set_field Height height s1)).

(** The timing part that ends [parseVuiParameters]. *)
Definition parse_timing : M unit :=
  read TimingInfoPresentFlag ReadBit ;;
  timing <- field TimingInfoPresentFlag ;;
  when (negb (timing =? 0))
    (read NumUnitsInTick (ReadBits 32) ;;
     read TimeScale (ReadBits 32) ;;
     read FixedFrameRateFlag ReadBit ;;
     units <- field NumUnitsInTick ;;
     when (units >? 0)
       (scale <- field TimeScale ;;
        assign FPS (udiv scale units) ;;
        fixed <- field FixedFrameRateFlag ;;
        when (negb (fixed =? 0))
          (fps <- field FPS ;; assign FPS (udiv fps 2)))).

(** [parseVuiParameters] *)
Definition parseVuiParameters : M unit :=
  read AspectRatioInfoPresentFlag ReadBit ;;
  aspect <- field AspectRatioInfoPresentFlag ;;
  when (negb (aspect =? 0))
    (read AspectRatioIdc (ReadBits 8) ;;
     idc <- field AspectRatioIdc ;;
     when (idc =? 255)   (* SAR_Extended *)
       (read SarWidth (ReadBits 16) ;;
        read SarHeight (ReadBits 16))) ;;
  read OverscanInfoPresentFlag ReadBit ;;
  overscan <- field OverscanInfoPresentFlag ;;
  when (negb (overscan =? 0)) (read OverscanAppropriateFlag ReadBit) ;;
  read VideoSignalTypePresentFlag ReadBit ;;
  signal <- field VideoSignalTypePresentFlag ;;
  when (negb (signal =? 0))
    (read VideoFormat (ReadBits 3) ;;
     read VideoFullRangeRlag ReadBit ;;
     read ColourDescriptionPresentFlag ReadBit ;;
     colour <- field ColourDescriptionPresentFlag ;;
     when (negb (colour =? 0))
       (read ColourPrimaries (ReadBits 8) ;;
        read TransferCharacteristics (ReadBits 8) ;;
        read MatrixCoefficients (ReadBits 8))) ;;
  read ChromaLocInfoPresentFlag ReadBit ;;
  chromaLoc <- field ChromaLocInfoPresentFlag ;;
  when (negb (chromaLoc =? 0))
    (read ChromaSampleLocTypeTopField ReadExponentialGolombCode ;;
     read ChromaSampleLocTypeBottomField ReadExponentialGolombCode) ;;
  parse_timing.

Definition ParseSPS_steps : M unit :=
  parse_to_cropping ;;
  compute_size ;;
  read VuiParametersPresentFlag ReadBit ;;
  vui <- field VuiParametersPresentFlag ;;
  when (negb (vui =? 0)) parseVuiParameters.

(** [ParseSPS] *)
Definition ParseSPS (data : list Z) : SPSInfo * option error :=
  let bs := DeEmulationPrevention data in
  let '(res, s) := ParseSPS_steps (mkPstate (NewReader bs) zeroSPS) in
  (sps s, match res with inl e => Some e | inr _ => None end).

End Parser.

Arguments pstate R : clear implicits.
Arguments M R A : clear implicits.

(** *** A bit reader

    Modelled from the spec: the Exp-Golomb bit reader of utils/bits, whose
    source file is not among the sources. Bits come most significant
    first; ue(v) is [2^n - 1 + ReadBits(n)] after [n] leading zero bits and
    se(v) maps the code numbers 1, 2, 3, 4, ... to 1, -1, 2, -2, ... (ITU-T
    H.264, 9.1), kept in a [uint]. *)
Definition bits_of_byte (b : Z) : list Z :=
  map (fun k => Z.land (Z.shiftr b (Z.of_nat k)) 1) [7; 6; 5; 4; 3; 2; 1; 0]%nat.

Definition bit_ReadBit (r : list Z) : Z * option error * list Z :=
  match r with
  | [] => (0, Some EOF, [])
  | b :: r' => (b, None, r')
  end.

Fixpoint bit_ReadBits_loop (n : nat) (res : Z) (r : list Z)
  : Z * option error * list Z :=
  match n with
  | O => (res, None, r)
  | S k =>
      match bit_ReadBit r with
      | (_, Some e, r') => (res, Some e, r')
      | (bit, None, r') =>
          bit_ReadBits_loop k (Z.lor res (Z.shiftl bit (Z.of_nat k))) r'
      end
  end.

Definition bit_ReadBits (n : Z) (r : list Z) : Z * option error * list Z :=
  bit_ReadBits_loop (Z.to_nat n) 0 r.

Fixpoint bit_ReadUE_loop (i : nat) (r : list Z) : Z * option error * list Z :=
  match r with
  | [] => (0, Some EOF, [])
  | b :: r' =>
      if b =? 0 then bit_ReadUE_loop (S i) r'
      else
        let '(res, e, r'') := bit_ReadBits (Z.of_nat i) r' in
        match e with
        | Some err => (res, Some err, r'')
        | None => (u64 (res + (Z.shiftl 1 (Z.of_nat i) - 1)), None, r'')
        end
  end.

Definition bit_ReadUE (r : list Z) : Z * option error * list Z :=
  bit_ReadUE_loop 0 r.

Definition bit_ReadSE (r : list Z) : Z * option error * list Z :=
  let '(res, e, r') := bit_ReadUE r in
  match e with
  | Some err => (res, Some err, r')
  | None =>
      if negb (Z.land res 1 =? 0) then (u64 (res + 1) `div` 2, None, r')
      else (u64 (- (res `div` 2)), None, r')
  end.

#[export] Instance bit_reader : GolombBitReader (list Z) := {|
  NewReader := fun bs => concat (map bits_of_byte bs);
  ReadBit := bit_ReadBit;
  ReadBits := bit_ReadBits;
  ReadExponentialGolombCode := bit_ReadUE;
  ReadSE := bit_ReadSE
|}.

(** A baseline-profile 640x360 SPS: 23 x 40 macroblocks with 8 rows
    cropped at the bottom (crop_bottom = 4), VUI timing 1 / 60 with fixed
    frame rate. *)
Definition sample_sps_bits : list Z :=
  [0; 1;1; 0;0;1;1;1]                         (* forbidden, ref_idc, type 7 *)
  ++ [0;1;0;0;0;0;1;0]                        (* profile_idc 66 *)
  ++ [1;1;0;0;0;0] ++ [0;0]                   (* constraint flags, reserved *)
  ++ [0;0;0;1;1;1;1;0]                        (* level_idc 30 *)
  ++ [1]                                      (* seq_parameter_set_id 0 *)
  ++ [1]                                      (* log2_max_frame_num_minus4 0 *)
  ++ [1]                                      (* pic_order_cnt_type 0 *)
  ++ [1]                                      (* log2_max_poc_lsb_minus4 0 *)
  ++ [0;1;0]                                  (* max_num_ref_frames 1 *)
  ++ [0]                                      (* gaps allowed *)
  ++ [0;0;0;0;0;1;0;1;0;0;0]                  (* pic_width_in_mbs_minus1 39 *)
  ++ [0;0;0;0;1;0;1;1;1]                      (* pic_height_in_map_units_minus1 22 *)
  ++ [1]                                      (* frame_mbs_only *)
  ++ [1]                                      (* direct_8x8_inference *)
  ++ [1]                                      (* frame_cropping *)
  ++ [1] ++ [1] ++ [1] ++ [0;0;1;0;1]         (* crop l, r, t = 0; bottom 4 *)
  ++ [1]                                      (* vui_parameters_present *)
  ++ [0] ++ [0] ++ [0] ++ [0]                 (* aspect, overscan, signal, chroma loc *)
  ++ [1]                                      (* timing_info_present *)
  ++ replicate 31 0 ++ [1]                    (* num_units_in_tick 1 *)
  ++ replicate 26 0 ++ [1;1;1;1;0;0]          (* time_scale 60 *)
  ++ [1].                                     (* fixed_frame_rate *)

(** The bits packed into bytes, most significant bit first (the last byte
    padded with zeros). *)
Fixpoint pack_bits (steps : nat) (bits : list Z) : list Z :=
  match steps with
  | O => []
  | S k =>
      match bits with
      | [] => []
      | _ =>
          fold_left (fun acc b => acc * 2 + b)
            (take 8 (bits ++ replicate 7 0)) 0
          :: pack_bits k (drop 8 bits)
      end
  end.

Definition sample_sps : list Z := pack_bits 64 sample_sps_bits.

(** A baseline-profile SPS of one macroblock (pic_width_in_mbs_minus1 and
    pic_height_in_map_units_minus1 both 0, frame_mbs_only) that crops 9
    units at the left, more than the macroblock holds; no VUI. *)
Definition crop_sps : list Z := [103; 66; 192; 30; 244; 248; 174].

End H264.

(** ** media/codec/h264parser: NALU splitting, emulation bytes, the AVC
    decoder configuration record and slice headers *)

Module Avc.
Import Ints.

Definition IsSpsNALU (b : Z) : bool := Z.land b 0x1f =? H264.NALU_SPS.
Definition IsPpsNALU (b : Z) : bool := Z.land b 0x1f =? H264.NALU_PPS.
Definition IsSeiNALU (b : Z) : bool := Z.land b 0x1f =? H264.NALU_SEI.

Definition NALU_RAW : Z := 0.
Definition NALU_AVCC : Z := 1.
Definition NALU_ANNEXB : Z := 2.

(** [uint32(len(b))] *)
Definition len32 (b : list Z) : Z := u32 (Z.of_nat (length b)).

(** The AVCC attempt of [SplitNALUs]: the [for] loop over length-prefixed
    units, entered with the first length [_val4] and [_b] the bytes after
    it. Each turn that does not leave the loop consumes four bytes, so
    [length b] turns are enough; [None] is running out of turns. Returns
    the NALUs collected and what is left of [_b]. *)
Fixpoint avcc_loop (turns : nat) (_val4 : Z) (_b : list Z)
    (nalus : list (list Z)) : option (list (list Z) * list Z) :=
  match turns with
  | O => None
  | S k =>
      if _val4 >? len32 _b then Some (nalus, _b)
      else
        let nalus := nalus ++ [take (Z.to_nat _val4) _b] in
        let _b := drop (Z.to_nat _val4) _b in
        if (length _b <? 4)%nat then Some (nalus, _b)
        else
          let _val4 := UintBE (take 4 _b) in
          let _b := drop 4 _b in
          if _val4 >? len32 _b then Some (nalus, _b)
          else avcc_loop k _val4 _b nalus
  end.

(** The inner [for pos < len(b)] of the Annex B branch, run on
    [rest = b[pos:]]: stops at a start code with [_val3 == 1] or
    [_val4 == 1], or at the end of [b]. *)
Fixpoint annexb_scan (rest : list Z) (pos : nat) (_val3 _val4 : Z)
  : nat * Z * Z :=
  match rest with
  | [] => (pos, _val3, _val4)
  | x :: rest' =>
      if (2 <? length rest)%nat && (x =? 0) then
        let _val3 := UintBE (take 3 rest) in
        if _val3 =? 0 then
          if (3 <? length rest)%nat then
            let _val4 := nth 3 rest 0 in
            if _val4 =? 1 then (pos, _val3, _val4)
            else annexb_scan rest' (S pos) _val3 _val4
          else annexb_scan rest' (S pos) _val3 _val4
        else if _val3 =? 1 then (pos, _val3, _val4)
        else annexb_scan rest' (S pos) _val3 _val4
      else annexb_scan rest' (S pos) _val3 _val4
  end.

(** The outer [for] of the Annex B branch. *)
Fixpoint annexb_loop (turns : nat) (b : list Z) (start pos : nat)
    (_val3 _val4 : Z) (nalus : list (list Z)) : option (list (list Z)) :=
  match turns with
  | O => None
  | S k =>
      let nalus :=
        if negb (start =? pos)%nat
        then nalus ++ [take (pos - start) (drop start b)] else nalus in
      let pos := if _val3 =? 1 then (pos + 3)%nat
                 else if _val4 =? 1 then (pos + 4)%nat else pos in
      let start := pos in
      if (start =? length b)%nat then Some nalus
      else
        let '(pos, _val3, _val4) := annexb_scan (drop pos b) pos 0 0 in
        annexb_loop k b start pos _val3 _val4 nalus
  end.

(** [SplitNALUs]; [None] only if one of the loops were to run out of
    turns. *)
Definition SplitNALUs (b : list Z) : option (list (list Z) * Z) :=
  if (length b <? 4)%nat then Some ([b], NALU_RAW)
  else
    let val3 := UintBE (take 3 b) in
    let val4 := UintBE (take 4 b) in
    (* maybe AVCC *)
    avcc ← (if val4 <=? len32 b
            then r ← avcc_loop (length b) val4 (drop 4 b) [];
                 Some (match r with
                       | (nalus, []) => Some nalus
                       | _ => None
                       end)
            else Some None);
    match avcc with
    | Some nalus => Some (nalus, NALU_AVCC)
    | None =>
        (* is Annex B *)
        if (val3 =? 1) || (val4 =? 1) then
          nalus ← annexb_loop (S (length b)) b 0 0 val3 val4 [];
          Some (nalus, NALU_ANNEXB)
        else Some ([b], NALU_RAW)
    end.

(** [CheckNALUsType] *)
Definition CheckNALUsType (b : list Z) : option Z :=
  r ← SplitNALUs b; Some r.2.

(** The length-prefixed layout the AVCC branch reads: each NALU after its
    length as a big-endian uint32. *)
Definition avcc_bytes (nalus : list (list Z)) : list Z :=
  concat (map (fun nalu => PutUintBE 4 (Z.of_nat (length nalu)) ++ nalu) nalus).

(** *** The AVC decoder configuration record *)

Record AVCDecoderConfRecord := mkRecord {
  AVCProfileIndication : Z;   (* uint8 *)
  ProfileCompatibility : Z;   (* uint8 *)
  AVCLevelIndication : Z;     (* uint8 *)
  LengthSizeMinusOne : Z;     (* uint8 *)
  SPS : list (list Z);
  PPS : list (list Z)
}.

Definition zeroRecord : AVCDecoderConfRecord := mkRecord 0 0 0 0 [] [].

Inductive error :=
| ErrDecconfInvalid
| ErrPacketTooShort
| ErrNoSliceHeader (nal_unit_type : Z)
| ErrSliceTypeInvalid (u : Z)
| ErrReader (e : H264.error).

(** One of the two [for i := 0; i < count; i++] loops of [Unmarshal]: reads
    [count] length-prefixed parameter sets from offset [n] and appends them
    to [sets]. The result is [inl] at the early return with
    [ErrDecconfInvalid], [inr] when the loop completes; either way it holds
    the sets appended so far and [n]. [None] is an index panic. The offsets
    stay within [len(b)], so they are kept as naturals. *)
Fixpoint read_sets (count : nat) (b : list Z) (n : nat) (sets : list (list Z))
  : option (list (list Z) * nat + list (list Z) * nat) :=
  match count with
  | O => Some (inr (sets, n))
  | S k =>
      if (length b <? n + 2)%nat then Some (inl (sets, n))
      else
        tl ← Bytes.from b n;
        len ← Bytes.U16BE tl;
        let len := Z.to_nat len in
        let n := (n + 2)%nat in
        if (length b <? n + len)%nat then Some (inl (sets, n))
        else
          set_ ← Bytes.sub b n (n + len);
          read_sets k b (n + len)%nat (sets ++ [set_])
  end.

(** [AVCDecoderConfRecord.Unmarshal]: the record after the call (it is
    updated in place, also when the call fails), [n] and the error. *)
Definition Unmarshal (self : AVCDecoderConfRecord) (b : list Z)
  : option (AVCDecoderConfRecord * nat * option error) :=
  if (length b <? 7)%nat then Some (self, 0%nat, Some ErrDecconfInvalid)
  else
    b1 ← Bytes.get b 1; b2 ← Bytes.get b 2; b3 ← Bytes.get b 3;
    b4 ← Bytes.get b 4; b5 ← Bytes.get b 5;
    let spscount := Z.to_nat (Z.land b5 0x1f) in
    r ← read_sets spscount b 6 (SPS self);
    match r with
    | inl (sps, n) =>
        Some (mkRecord b1 b2 b3 (Z.land b4 0x03) sps (PPS self), n,
              Some ErrDecconfInvalid)
    | inr (sps, n) =>
        if (length b <? n + 1)%nat
        then Some (mkRecord b1 b2 b3 (Z.land b4 0x03) sps (PPS self), n,
                   Some ErrDecconfInvalid)
        else
          bn ← Bytes.get b n;
          let ppscount := Z.to_nat bn in
          r ← read_sets ppscount b (n + 1) (PPS self);
          match r with
          | inl (pps, n) =>
              Some (mkRecord b1 b2 b3 (Z.land b4 0x03) sps pps, n,
                    Some ErrDecconfInvalid)
          | inr (pps, n) =>
              Some (mkRecord b1 b2 b3 (Z.land b4 0x03) sps pps, n, None)
          end
    end.

(** [AVCDecoderConfRecord.Len] *)
Definition Len (self : AVCDecoderConfRecord) : nat :=
  fold_left (fun n pps => (n + (2 + length pps))%nat) (PPS self)
    (fold_left (fun n sps => (n + (2 + length sps))%nat) (SPS self) 7%nat).

(** One of the two [for _, sps := range ...] loops of [Marshal]. *)
Fixpoint write_sets (sets : list (list Z)) (b : list Z) (n : nat)
  : option (list Z * nat) :=
  match sets with
  | [] => Some (b, n)
  | s :: rest =>
      b ← Bytes.PutU16BE b n (u16 (Z.of_nat (length s)));
      let n := (n + 2)%nat in
      b ← Bytes.copy_from b n s;
      write_sets rest b (n + length s)%nat
  end.

(** [AVCDecoderConfRecord.Marshal] into the buffer [b]: the buffer after
    the stores and [n]; [None] is an index panic. *)
Definition Marshal (self : AVCDecoderConfRecord) (b : list Z)
  : option (list Z * nat) :=
  b ← Bytes.set b 0 1;
  b ← Bytes.set b 1 (AVCProfileIndication self);
  b ← Bytes.set b 2 (ProfileCompatibility self);
  b ← Bytes.set b 3 (AVCLevelIndication self);
  b ← Bytes.set b 4 (Z.lor (LengthSizeMinusOne self) 0xfc);
  b ← Bytes.set b 5 (Z.lor (u8 (Z.of_nat (length (SPS self)))) 0xe0);
  '(b, n) ← write_sets (SPS self) b 6;
  b ← Bytes.set b n (u8 (Z.of_nat (length (PPS self))));
  write_sets (PPS self) b (n + 1).

(** The records whose fields fit the bit widths they are stored in: two
    bits for [LengthSizeMinusOne], five for the number of SPS, eight for the
    number of PPS and sixteen for each length. *)
Definition fits16 (s : list Z) : Prop := Z.of_nat (length s) < 2 ^ 16.
Definition encodable (r : AVCDecoderConfRecord) : Prop :=
  0 <= LengthSizeMinusOne r < 4 /\
  (length (SPS r) < 32)%nat /\ (length (PPS r) < 256)%nat /\
  Forall fits16 (SPS r) /\ Forall fits16 (PPS r).

(** The record and its bytes as [NewCodecDataFromSPSAndPPS] builds them
    before it parses the parameter sets: [ErrDecconfInvalid] for an SPS
    shorter than four bytes, else the record and
    [buf := make([]byte, recordinfo.Len()); recordinfo.Marshal(buf)]. *)
Definition record_of_SPSAndPPS (sps pps : list Z)
  : option (error + AVCDecoderConfRecord * list Z) :=
  if (length sps <? 4)%nat then Some (inl ErrDecconfInvalid)
  else
    s1 ← Bytes.get sps 1; s2 ← Bytes.get sps 2; s3 ← Bytes.get sps 3;
    let recordinfo := mkRecord s1 s2 s3 3 [sps] [pps] in
    '(buf, _) ← Marshal recordinfo (replicate (Len recordinfo) 0);
    Some (inr (recordinfo, buf)).

(** *** Slice headers *)

Definition SLICE_P : Z := 1.
Definition SLICE_B : Z := 2.
Definition SLICE_I : Z := 3.

Section SliceHeader.
Context {R : Type} `{H264.GolombBitReader R}.

(** [ParseSliceHeaderFromNALU]; the reader is made over [packet[1:]]. *)
Definition ParseSliceHeaderFromNALU (packet : list Z) : Z * option error :=
  if (length packet <=? 1)%nat then (0, Some ErrPacketTooShort)
  else
    let nal_unit_type := Z.land (nth 0 packet 0) 0x1f in
    if negb ((nal_unit_type =? 1) || (nal_unit_type =? 2)
             || (nal_unit_type =? 5) || (nal_unit_type =? 19))
    then (0, Some (ErrNoSliceHeader nal_unit_type))
    else
      let r := H264.NewReader (drop 1 packet) in
      (* first_mb_in_slice *)
      match H264.ReadExponentialGolombCode r with
      | (_, Some e, _) => (0, Some (ErrReader e))
      | (_, None, r) =>
          (* slice_type *)
          match H264.ReadExponentialGolombCode r with
          | (_, Some e, _) => (0, Some (ErrReader e))
          | (u, None, _) =>
              if (u =? 0) || (u =? 3) || (u =? 5) || (u =? 8)
              then (SLICE_P, None)
              else if (u =? 1) || (u =? 6) then (SLICE_B, None)
              else if (u =? 2) || (u =? 4) || (u =? 7) || (u =? 9)
              then (SLICE_I, None)
              else (0, Some (ErrSliceTypeInvalid u))
          end
      end.

End SliceHeader.

(** A record with two SPS and one PPS. *)
Definition sample_record : AVCDecoderConfRecord :=
  mkRecord 66 0 30 3 [[0x67; 66; 0; 30]; [0x67; 77]] [[0x68; 1; 2]].

End Avc.
(** ** media/container/ts: the demuxer's per-stream flush *)

Module Ts.
Import Ints.

(** tsio elementary stream types and flvio tags, as the spec gives them. *)
Definition ElementaryStreamTypeH264 : Z := 0x1B.
Definition ElementaryStreamTypeAdtsAAC : Z := 0x0F.
Definition TAG_AUDIO : Z := 8.
Definition TAG_VIDEO : Z := 9.
Definition AVC_NALU : Z := 1.
Definition AAC_RAW : Z := 1.

(** Modelled from the spec: the fields of [av.Packet] that [addPacket]
    fills in (the declaration of [av.Packet] is not among the sources). *)
Record Packet := mkPacket {
  Idx : Z;              (* int8 *)
  IsKeyFrame : bool;
  Time : Z;             (* time.Duration *)
  CompositionTime : Z;  (* time.Duration *)
  Data : list Z;
  DataType : Z;         (* int8 *)
  HeaderChanged : bool;
  AVCPacketType : Z     (* uint8 *)
}.

Inductive error :=
| ErrSizeMismatch (size correct : Z)
| ErrCodec.

Section Demuxer.

(** [av.CodecData] as held by a stream, and
    [h264parser.NewCodecDataFromSPSAndPPS] together with the sequence
    header tag that [updateAvcCodec] attaches to its result. *)
Variable CodecData : Type.
Variable NewCodecDataFromSPSAndPPS : list Z -> list Z -> error + CodecData.
(** [h264parser.SplitNALUs] *)
Variable SplitNALUs : list Z -> list (list Z).

(** [type Stream struct] with the packets it has handed to its demuxer
    ([demuxer.pkts]). [None] is a nil slice or a nil interface. *)
Record Stream := mkStream {
  CodecData_ : option CodecData;
  streamType : Z;
  idx : Z;
  iskeyframe : bool;
  pts : Z;
  dts : Z;
  data : option (list Z);
  datalen : Z;
  sps : option (list Z);
  pps : option (list Z);
  pkts : list Packet
}.

Definition set_pkts (s : Stream) (l : list Packet) : Stream :=
  mkStream (CodecData_ s) (streamType s) (idx s) (iskeyframe s) (pts s) (dts s)
    (data s) (datalen s) (sps s) (pps s) l.
Definition set_sps (s : Stream) (v : option (list Z)) : Stream :=
  mkStream (CodecData_ s) (streamType s) (idx s) (iskeyframe s) (pts s) (dts s)
    (data s) (datalen s) v (pps s) (pkts s).
Definition set_pps (s : Stream) (v : option (list Z)) : Stream :=
  mkStream (CodecData_ s) (streamType s) (idx s) (iskeyframe s) (pts s) (dts s)
    (data s) (datalen s) (sps s) v (pkts s).
Definition set_CodecData (s : Stream) (c : option CodecData) : Stream :=
  mkStream c (streamType s) (idx s) (iskeyframe s) (pts s) (dts s)
    (data s) (datalen s) (sps s) (pps s) (pkts s).
Definition set_data (s : Stream) (d : option (list Z)) : Stream :=
  mkStream (CodecData_ s) (streamType s) (idx s) (iskeyframe s) (pts s) (dts s)
    d (datalen s) (sps s) (pps s) (pkts s).

Definition bytes_of (o : option (list Z)) : list Z := default [] o.

(** [Stream.addPacket] *)
Definition addPacket (s : Stream) (payload : list Z) (timedelta : Z)
    (dataType : Z) (headerChanged : bool) : Stream :=
  let dts_ := dts s in
  let pts_ := pts s in
  let dts_ := if dts_ =? 0 then pts_ else dts_ in
  let avcPacketType := if dataType =? TAG_AUDIO then AAC_RAW else AVC_NALU in
  let pkt :=
    mkPacket (signed 8 (idx s)) (iskeyframe s) (signed 64 (dts_ + timedelta))
      (if negb (pts_ =? dts_) then signed 64 (pts_ - dts_) else 0)
      payload dataType headerChanged (u8 avcPacketType) in
  set_pkts s (pkts s ++ [pkt]).

(** [Stream.updateAvcCodec] *)
Definition updateAvcCodec (s : Stream) : Stream * option error :=
  match NewCodecDataFromSPSAndPPS (bytes_of (sps s)) (bytes_of (pps s)) with
  | inl e => (s, Some e)
  | inr codec => (set_CodecData s (Some codec), None)
  end.

(** The locals of the H.264 branch of [payloadEnd]. *)
Record flush := mkFlush {
  self : Stream;
  l_sps : list Z;
  l_pps : list Z;
  spsChange : Z;
  ppsChange : Z;
  headerChanged : bool;
  n : Z
}.

Definition same_bytes (a b : list Z) : bool := bool_decide (a = b).

(** [nalu[0] & 0x1f] of a non-empty NALU. *)
Definition naltype (nalu : list Z) : Z := Z.land (nth 0 nalu 0) 0x1f.
Definition is_nonempty (nalu : list Z) : bool :=
  match nalu with [] => false | _ => true end.

(** One turn of [for _, nalu := range nalus]; [inr] is the early return
    with the error. *)
Definition nalu_step (f : flush) (nalu : list Z) : flush + flush * error :=
  if negb (is_nonempty nalu) then inl f else
  if naltype nalu =? H264.NALU_SPS then
    match sps (self f) with
    | Some cur =>
        if negb (same_bytes nalu cur)
        then inl (mkFlush (set_sps (self f) (Some nalu)) nalu (l_pps f) 1
                    (ppsChange f) (headerChanged f) (n f))
        else inl (mkFlush (self f) nalu (l_pps f) (spsChange f) (ppsChange f)
                    (headerChanged f) (n f))
    | None => inl (mkFlush (self f) nalu (l_pps f) (spsChange f) (ppsChange f)
                     (headerChanged f) (n f))
    end
  else if naltype nalu =? H264.NALU_PPS then
    match pps (self f) with
    | Some cur =>
        if negb (same_bytes nalu cur)
        then inl (mkFlush (set_pps (self f) (Some nalu)) (l_sps f) nalu
                    (spsChange f) 1 (headerChanged f) (n f))
        else inl (mkFlush (self f) (l_sps f) nalu (spsChange f) (ppsChange f)
                    (headerChanged f) (n f))
    | None => inl (mkFlush (self f) (l_sps f) nalu (spsChange f) (ppsChange f)
                     (headerChanged f) (n f))
    end
  else if (1 <=? naltype nalu) && (naltype nalu <=? 5) (* IsDataNALU *) then
    (* raw nalu to avcc *)
    let b := PutUintBE 4 (u32 (Z.of_nat (length nalu))) ++ nalu in
    if negb (ppsChange f =? 0) && negb (spsChange f =? 0) then
      match updateAvcCodec (self f) with
      | (s, Some e) =>
          inr (mkFlush s (l_sps f) (l_pps f) (spsChange f) (ppsChange f) true
                 (n f), e)
      | (s, None) =>
          inl (mkFlush (addPacket s b 0 TAG_VIDEO true) (l_sps f) (l_pps f)
                 0 0 false (signed 64 (n f + 1)))
      end
    else
      (* one of them alone: "SPS and PPS didnt change both" is logged *)
      inl (mkFlush (addPacket (self f) b 0 TAG_VIDEO (headerChanged f))
             (l_sps f) (l_pps f) (spsChange f) (ppsChange f) false
             (signed 64 (n f + 1)))
  else inl f.

Fixpoint nalu_loop (f : flush) (nalus : list (list Z)) : flush + flush * error :=
  match nalus with
  | [] => inl f
  | nalu :: rest =>
      match nalu_step f nalu with
      | inl f' => nalu_loop f' rest
      | inr fe => inr fe
      end
  end.

Definition start_flush (s : Stream) : flush := mkFlush s [] [] 0 0 false 0.

(** The [case tsio.ElementaryStreamTypeH264] of [payloadEnd]. *)
Definition flush_h264 (s : Stream) (payload : list Z) : Stream * Z * option error :=
  match nalu_loop (start_flush s) (SplitNALUs payload) with
  | inr (f, e) => (self f, n f, Some e)
  | inl f =>
      match CodecData_ (self f) with
      | None =>
          if (0 <? Z.of_nat (length (l_sps f)))
             && (0 <? Z.of_nat (length (l_pps f)))
          then
            let s' := set_pps (set_sps (self f) (Some (l_sps f)))
                        (Some (l_pps f)) in
            let '(s'', err) := updateAvcCodec s' in
            (s'', n f, err)
          else (self f, n f, None)
      | Some _ => (self f, n f, None)
      end
  end.

(** The [case tsio.ElementaryStreamTypeAdtsAAC] of [payloadEnd], which
    rests on the AAC parser. *)
Variable flush_aac : Stream -> list Z -> Stream * Z * option error.

(** [Stream.payloadEnd] *)
Definition payloadEnd (s : Stream) : Stream * Z * option error :=
  match data s with
  | None => (s, 0, None)
  | Some payload =>
      if negb (datalen s =? 0)
         && negb (Z.of_nat (length payload) =? datalen s)
      then (s, 0, Some (ErrSizeMismatch (Z.of_nat (length payload)) (datalen s)))
      else
        let s := set_data s None in
        if streamType s =? ElementaryStreamTypeAdtsAAC then flush_aac s payload
        else if streamType s =? ElementaryStreamTypeH264 then flush_h264 s payload
        else (s, 0, None)
  end.

(** *** What "changed" means for a run of NALUs

    A parameter set of the given type changed within [seg] when the stream
    holds one and [seg] has a NALU of that type whose bytes differ from
    it. *)
Definition is_type (t : Z) (nalu : list Z) : bool :=
  is_nonempty nalu && (naltype nalu =? t).
Definition is_data (nalu : list Z) : bool :=
  is_nonempty nalu && (1 <=? naltype nalu) && (naltype nalu <=? 5).

Definition is_sps : list Z -> bool := is_type H264.NALU_SPS.
Definition is_pps : list Z -> bool := is_type H264.NALU_PPS.

Definition changed (t : Z) (stored : option (list Z)) (seg : list (list Z)) : bool :=
  match stored with
  | Some cur => existsb (fun x => is_type t x && negb (same_bytes x cur)) seg
  | None => false
  end.

(** The parameter set of type [t] in force after [seg]. *)
Definition latest (t : Z) (stored : option (list Z)) (seg : list (list Z))
  : option (list Z) :=
  match stored with
  | Some cur => Some (fold_left (fun c x => if is_type t x then x else c) seg cur)
  | None => None
  end.

End Demuxer.

Arguments mkStream {CodecData}.
Arguments CodecData_ {CodecData} s.
Arguments sps {CodecData} s.
Arguments pps {CodecData} s.
Arguments pkts {CodecData} s.
Arguments data {CodecData} s.
Arguments streamType {CodecData} s.
Arguments datalen {CodecData} s.
Arguments self {CodecData} f.
Arguments spsChange {CodecData} f.
Arguments ppsChange {CodecData} f.
Arguments headerChanged {CodecData} f.
Arguments n {CodecData} f.
Arguments mkFlush {CodecData}.
Arguments start_flush {CodecData} s.
Arguments addPacket {CodecData} s payload timedelta dataType headerChanged.
Arguments nalu_step {CodecData} NewCodecDataFromSPSAndPPS f nalu.
Arguments nalu_loop {CodecData} NewCodecDataFromSPSAndPPS f nalus.
Arguments flush_h264 {CodecData} NewCodecDataFromSPSAndPPS SplitNALUs s payload.
Arguments payloadEnd {CodecData} NewCodecDataFromSPSAndPPS SplitNALUs flush_aac s.

(** *** A stream to run the flush on: codec data are the pair of parameter
    sets, NALUs are split at each 0xFF byte. *)
Definition pair_codec (sps pps : list Z) : error + (list Z * list Z) :=
  if (length sps <? 4)%nat then inl ErrCodec else inr (sps, pps).

Fixpoint split_at_ff (cur : list Z) (b : list Z) : list (list Z) :=
  match b with
  | [] => [cur]
  | x :: rest => if x =? 0xFF then cur :: split_at_ff [] rest
                 else split_at_ff (cur ++ [x]) rest
  end.

Definition sample_stream : Stream (list Z * list Z) :=
  mkStream (Some ([0x67; 66; 0; 30], [0x68; 1])) ElementaryStreamTypeH264 0 true
    9000 0 None 0 (Some [0x67; 66; 0; 30]) (Some [0x68; 1]) [].

(** The same stream holding a complete payload in which only the SPS
    differs from the stored one, and one in which both parameter sets do;
    each payload ends with an IDR slice. *)
Definition sps_changed_payload : list Z :=
  [0x67; 66; 0; 31; 0xFF; 0x65; 1; 2].

Definition both_changed_payload : list Z :=
  [0x67; 66; 0; 31; 0xFF; 0x68; 2; 0xFF; 0x65; 1; 2].

Definition sample_sps_changed : Stream (list Z * list Z) :=
  set_data _ sample_stream (Some sps_changed_payload).

Definition sample_both_changed : Stream (list Z * list Z) :=
  set_data _ sample_stream (Some both_changed_payload).

(** More payloads for the same stream. In the first the SPS changes, an
    IDR slice follows, then the PPS changes and a second IDR slice follows.
    The next three are the halves of that sequence cut in two flushes: the
    new SPS and an IDR slice, or an IDR slice and the new SPS, and then the
    new PPS and an IDR slice. In the last an IDR slice comes first and the
    new SPS is too short for [pair_codec]. *)
Definition split_change_payload : list Z :=
  [0x67; 66; 0; 31; 0xFF; 0x65; 1; 0xFF; 0x68; 2; 0xFF; 0x65; 2].

Definition sps_then_idr_payload : list Z := [0x67; 66; 0; 31; 0xFF; 0x65; 1].

Definition idr_then_sps_payload : list Z := [0x65; 1; 0xFF; 0x67; 66; 0; 31].

Definition pps_then_idr_payload : list Z := [0x68; 2; 0xFF; 0x65; 2].

Definition bad_sps_payload : list Z :=
  [0x65; 1; 0xFF; 0x67; 1; 0xFF; 0x68; 2; 0xFF; 0x65; 2].

Definition sample_split_change : Stream (list Z * list Z) :=
  set_data _ sample_stream (Some split_change_payload).

Definition sample_bad_sps : Stream (list Z * list Z) :=
  set_data _ sample_stream (Some bad_sps_payload).

(** A stream whose dts is set and differs from its pts. *)
Definition sample_timed : Stream (list Z * list Z) :=
  mkStream (Some ([0x67; 66; 0; 30], [0x68; 1])) ElementaryStreamTypeH264 3 false
    9000 3000 (Some split_change_payload) 0
    (Some [0x67; 66; 0; 30]) (Some [0x68; 1]) [].

Definition no_aac (s : Stream (list Z * list Z)) (payload : list Z)
  : Stream (list Z * list Z) * Z * option error :=
  (s, 0, None).

End Ts.
(** ** media/av/pubsub: the live buffer queue (main variant) *)

Module Queue.
Import Ints.

(** Go's [int] and [BufPos]: 64-bit two's complement. *)
Definition int (x : Z) : Z := signed 64 x.

(** flvio tag types. *)
Definition TAG_AUDIO : Z := 8.
Definition TAG_VIDEO : Z := 9.

Definition DefaultGopCount : Z := 6.
Definition DefaultPktCount : Z := 2000.

(** Modelled from the spec: the fields of [av.Packet] (its declaration is
    not among the sources) that the queue reads or writes. *)
Record Packet := mkPacket {
  Idx : Z;             (* int8 *)
  IsKeyFrame : bool;
  DataType : Z;        (* int8 *)
  Time : Z;            (* time.Duration *)
  HeaderChanged : bool;
  HeaderBeginAt : Z;   (* int *)
  SliceId : Z;         (* uint32 *)
  Data : list Z
}.

Definition set_HeaderBeginAt (p : Packet) (h : Z) : Packet :=
  mkPacket (Idx p) (IsKeyFrame p) (DataType p) (Time p) (HeaderChanged p) h
    (SliceId p) (Data p).

(** Modelled from the spec: [Buf], the ring of packets between the virtual
    positions [Head] (oldest) and [Tail] (one past newest); its source file
    is not among the sources. The window is kept oldest first, [Count] is
    its length, packets are pushed at [Tail] and popped at [Head]. *)
Record Buf := mkBuf {
  Head : Z;   (* BufPos *)
  Tail : Z;   (* BufPos *)
  pkts : list Packet
}.

Definition NewBuf : Buf := mkBuf 0 0 [].
Definition Count (b : Buf) : Z := Z.of_nat (length (pkts b)).
Definition Push (b : Buf) (p : Packet) : Buf :=
  mkBuf (Head b) (int (Tail b + 1)) (pkts b ++ [p]).
Definition Pop (b : Buf) : option (Packet * Buf) :=
  match pkts b with
  | [] => None
  | p :: rest => Some (p, mkBuf (int (Head b + 1)) (Tail b) rest)
  end.
(** Wrap-safe order on positions: [a < b] iff [a - b] is negative as a
    signed 64-bit number. *)
Definition LT (a b : Z) : bool := int (a - b) <? 0.
Definition GE (a b : Z) : bool := int (a - b) >=? 0.
Definition IsValidPos (b : Buf) (pos : Z) : bool := GE pos (Head b) && LT pos (Tail b).

Section WithHeaders.

(** [av.Header] (a typed sequence-header tag) and [av.CodecData]; the
    conversions between them are [avutil.ConvertHeader] and
    [avutil.RevertHeader]. *)
Variables AvHeader CodecData : Type.
Variable ConvertHeader : list CodecData -> list AvHeader.
Variable RevertHeader : list AvHeader -> list CodecData.
(** [data.Type == av.HeaderTypeH264], [data.Type == av.HeaderTypeAAC] and
    [data.Type.IsVideo()]. *)
Variables isH264 isAAC isVideo : AvHeader -> bool.

Record Header := mkHeader {
  Datas : list AvHeader;
  BeginAt : Z   (* BufPos *)
}.

Record Queue := mkQueue {
  buf : Buf;
  headers : list Header;
  videoidx : Z;
  closed : bool;
  maxGOPCount : Z;
  maxPktCount : Z;
  curGOPCount : Z;
  curVideoCount : Z;
  curAudioCount : Z;
  lossPktCount : Z;   (* uint32 *)
  sid : string
}.

Definition NewQueue : Queue :=
  mkQueue NewBuf [] (-1) false DefaultGopCount DefaultPktCount 0 0 0 0 "".

Definition SetMaxGopCount (q : Queue) (n : Z) : Queue :=
  mkQueue (buf q) (headers q) (videoidx q) (closed q) n (maxPktCount q)
    (curGOPCount q) (curVideoCount q) (curAudioCount q) (lossPktCount q) (sid q).

Definition SetMaxPktCount (q : Queue) (n : Z) : Queue :=
  mkQueue (buf q) (headers q) (videoidx q) (closed q) (maxGOPCount q) n
    (curGOPCount q) (curVideoCount q) (curAudioCount q) (lossPktCount q) (sid q).

(** [Queue.Close] *)
Definition Close (q : Queue) : Queue :=
  mkQueue (buf q) (headers q) (videoidx q) true (maxGOPCount q) (maxPktCount q)
    (curGOPCount q) (curVideoCount q) (curAudioCount q) (lossPktCount q) (sid q).

(** [Queue.WriteHeader] *)
Definition WriteHeader (q : Queue) (data : list CodecData) : Queue :=
  let datas := ConvertHeader data in
  let datas :=
    match datas, last (headers q) with
    | [d0], Some prevHeader =>
        let lost := if isH264 d0 then isAAC else isH264 in
        match List.find lost (Datas prevHeader) with
        | Some d => datas ++ [d]
        | None => datas
        end
    | _, _ => datas
    end in
  let fresh := mkHeader datas (Tail (buf q)) in
  let fix replace (hs : list Header) : option (list Header) :=
    match hs with
    | [] => None
    | h :: rest =>
        if BeginAt h =? Tail (buf q) then Some (fresh :: rest)
        else option_map (cons h) (replace rest)
    end in
  let hs := match replace (headers q) with
            | Some hs => hs
            | None => headers q ++ [fresh]
            end in
  let fix firstVideo (i : Z) (ds : list AvHeader) : Z :=
    match ds with
    | [] => videoidx q
    | d :: rest => if isVideo d then i else firstVideo (i + 1) rest
    end in
  mkQueue (buf q) hs (firstVideo 0 datas) (closed q) (maxGOPCount q)
    (maxPktCount q) (curGOPCount q) (curVideoCount q) (curAudioCount q)
    (lossPktCount q) (sid q).

(** The counters touched by the eviction loop of [WritePacket]. *)
Record counts := mkCounts {
  c_gop : Z;
  c_video : Z;
  c_audio : Z
}.

Definition count_in (c : counts) (p : Packet) : counts :=
  mkCounts
    (if (DataType p =? TAG_VIDEO) && IsKeyFrame p
     then int (c_gop c + 1) else c_gop c)
    (if DataType p =? TAG_VIDEO then int (c_video c + 1) else c_video c)
    (if DataType p =? TAG_VIDEO then c_audio c
     else if DataType p =? TAG_AUDIO then int (c_audio c + 1) else c_audio c).

Definition count_out (c : counts) (p : Packet) : counts :=
  mkCounts
    (if (DataType p =? TAG_VIDEO) && IsKeyFrame p
     then int (c_gop c - 1) else c_gop c)
    (if DataType p =? TAG_VIDEO then int (c_video c - 1) else c_video c)
    (if DataType p =? TAG_VIDEO then c_audio c
     else if DataType p =? TAG_AUDIO then int (c_audio c - 1) else c_audio c).

(** The eviction loop of [WritePacket]:
    [for Count > 1 && (curGOP >= maxGOP || Count >= maxPkt) { Pop; ...;
     if curGOP < maxGOP && Count < maxPkt { break } }],
    by recursion on the window it pops from. *)
Fixpoint evict (maxGOP maxPkt : Z) (head : Z) (window : list Packet)
    (c : counts) : Z * list Packet * counts :=
  match window with
  | [] => (head, window, c)
  | p :: rest =>
      let n := Z.of_nat (length window) in
      if (n >? 1) && ((c_gop c >=? maxGOP) || (n >=? maxPkt)) then
        let c' := count_out c p in
        let head' := int (head + 1) in
        if (c_gop c' <? maxGOP) && (Z.of_nat (length rest) <? maxPkt)
        then (head', rest, c')
        else evict maxGOP maxPkt head' rest c'
      else (head, window, c)
  end.

(** [clearPoint] of [WritePacket]: the last header that begins at or before
    [head], searched from the end; -1 when there is none. *)
Fixpoint clearPoint (head : Z) (hs : list Header) (n : nat) : Z :=
  match n with
  | O => -1
  | S k =>
      match hs !! k with
      | Some h => if head >=? BeginAt h then Z.of_nat k
                  else clearPoint head hs k
      | None => clearPoint head hs k
      end
  end.

(** [Queue.WritePacket] *)
Definition WritePacket (q : Queue) (pkt : Packet) : Queue :=
  let pkt := match last (headers q) with
             | Some h => set_HeaderBeginAt pkt (int (BeginAt h))
             | None => pkt
             end in
  let b := Push (buf q) pkt in
  let c := count_in (mkCounts (curGOPCount q) (curVideoCount q)
                       (curAudioCount q)) pkt in
  let '(head, window, c) :=
    evict (maxGOPCount q) (maxPktCount q) (Head b) (pkts b) c in
  (* clean the headers *)
  let cp := clearPoint head (headers q) (length (headers q)) in
  let hs := if cp >? 0 then drop (Z.to_nat cp) (headers q) else headers q in
  mkQueue (mkBuf head (Tail b) window) hs (videoidx q) (closed q)
    (maxGOPCount q) (maxPktCount q) (c_gop c) (c_video c) (c_audio c)
    (lossPktCount q) (sid q).

(** *** Cursors *)

Record QueueCursor := mkCursor {
  pos : Z;
  gotpos : bool;
  readCount : Z;
  preInited : bool;
  curHeaderBeginAt : Z   (* BufPos *)
}.

(** [Queue.newCursor] *)
Definition newCursor : QueueCursor := mkCursor 0 false 0 false (-1).

Inductive error := EOF.

(** What a call that may wait on the queue's condition variable has done
    once the snapshots of the queue it was given are used up. *)
Inductive outcome (A : Type) :=
| Blocked
| Returned (a : A).
Arguments Blocked {A}.
Arguments Returned {A} a.

(** The part of [QueueCursor.Headers] after the wait loop. *)
Definition Headers_lookup (q : Queue) (cur : QueueCursor)
  : list CodecData * option error :=
  match headers q with
  | [] => ([], Some EOF)
  | hs =>
      match List.find (fun h => curHeaderBeginAt cur =? BeginAt h) hs with
      | Some header => (RevertHeader (Datas header), None)
      | None => ([], None)
      end
  end.

(** [for q.que.headers == nil && !q.que.closed { q.que.cond.Wait() }]:
    [q] is the queue as the cursor sees it now, [wakes] the states it sees
    at each later wake-up. *)
Fixpoint Headers_wait (q : Queue) (wakes : list Queue) (cur : QueueCursor)
  : outcome (list CodecData * option error) :=
  if bool_decide (headers q = []) && negb (closed q) then
    match wakes with
    | [] => Blocked
    | q' :: wakes' => Headers_wait q' wakes' cur
    end
  else Returned (Headers_lookup q cur).

(** [QueueCursor.Headers] *)
Definition Headers (q : Queue) (wakes : list Queue) (cur : QueueCursor)
  : outcome (list CodecData * option error) :=
  if closed q then Returned ([], Some EOF)
  else if curHeaderBeginAt cur =? -1 then Returned ([], None)
  else Headers_wait q wakes cur.

End WithHeaders.

Arguments Blocked {A}.
Arguments Returned {A} a.
Arguments mkHeader {AvHeader} Datas BeginAt.
Arguments Datas {AvHeader} h.
Arguments BeginAt {AvHeader} h.
Arguments mkQueue {AvHeader}.
Arguments buf {AvHeader} q.
Arguments headers {AvHeader} q.
Arguments videoidx {AvHeader} q.
Arguments closed {AvHeader} q.
Arguments maxGOPCount {AvHeader} q.
Arguments maxPktCount {AvHeader} q.
Arguments curGOPCount {AvHeader} q.
Arguments curVideoCount {AvHeader} q.
Arguments curAudioCount {AvHeader} q.
Arguments lossPktCount {AvHeader} q.
Arguments NewQueue {AvHeader}.
Arguments SetMaxGopCount {AvHeader} q n.
Arguments SetMaxPktCount {AvHeader} q n.
Arguments Close {AvHeader} q.
Arguments WriteHeader {AvHeader CodecData} ConvertHeader isH264 isAAC isVideo q data.
Arguments clearPoint {AvHeader} head hs n.
Arguments WritePacket {AvHeader} q pkt.
Arguments Headers_lookup {AvHeader CodecData} RevertHeader q cur.
Arguments Headers_wait {AvHeader CodecData} RevertHeader q wakes cur.
Arguments Headers {AvHeader CodecData} RevertHeader q wakes cur.

(** The video keyframes (GOP starts) among a run of packets. *)
Definition is_gop_start (p : Packet) : bool :=
  (DataType p =? TAG_VIDEO) && IsKeyFrame p.
Definition gop_starts (l : list Packet) : Z :=
  Z.of_nat (length (List.filter is_gop_start l)).

(** The packet as [WritePacket] stores it. *)
Definition stamped {AvHeader} (q : Queue AvHeader) (pkt : Packet) : Packet :=
  match last (headers q) with
  | Some h => set_HeaderBeginAt pkt (int (BeginAt h))
  | None => pkt
  end.

(** The counters agree with the window, which is far from 2^63 packets. *)
Definition counted {AvHeader} (q : Queue AvHeader) : Prop :=
  curGOPCount q = gop_starts (pkts (buf q)) /\ Count (buf q) < 2 ^ 62.

(** *** A test stream: frame [i] is a video packet with time [i], a
    keyframe every [gop] frames. *)
Definition frame (gop : nat) (i : nat) : Packet :=
  mkPacket 0 (i mod gop =? 0)%nat TAG_VIDEO (Z.of_nat i) false 0 0 [].

Definition frames (gop n : nat) : list Packet := map (frame gop) (seq 0 n).

(** Three GOPs of 60 frames written to a queue with [max_gop_count = 2]. *)
Definition three_gops : Queue unit :=
  fold_left WritePacket (frames 60 180) (SetMaxGopCount NewQueue 2).

(** The same queue after two GOPs only: it holds frames 1..119, and the
    next keyframe makes it pop the 60 frames 1..60. *)
Definition two_gops : Queue unit :=
  fold_left WritePacket (frames 60 120) (SetMaxGopCount NewQueue 2).

(** A queue holding one header that begins at position 0, and a cursor that
    points at it. *)
Definition one_header_queue : Queue Z :=
  mkQueue NewBuf [mkHeader [7; 8] 0] (-1) false DefaultGopCount
    DefaultPktCount 0 0 0 0 "".
Definition cursor_at_0 : QueueCursor := mkCursor 0 true 1 true 0.

End Queue.

(** ** media/av/pubsub: the queue's counters *)

Module QueueStat.
Import Ints Queue.

(** [Queue.GetPktCount] *)
Definition GetPktCount {AvHeader} (q : Queue AvHeader) : Z :=
  int (curVideoCount q + curAudioCount q).

(** [type Stat struct] and [Queue.Stat]; [LossPktCount] is left at zero. *)
Record Stat := mkStat {
  PktCount : Z;       (* uint32 *)
  LossPktCount : Z;   (* uint32 *)
  GopCount : Z;       (* uint32 *)
  VideoCount : Z;     (* uint32 *)
  AudioCount : Z;     (* uint32 *)
  HeadPos : Z;        (* int *)
  TailPos : Z;        (* int *)
  Closed : bool
}.

Definition Stat_ {AvHeader} (q : Queue AvHeader) : Stat :=
  mkStat (u32 (Count (buf q))) 0 (u32 (curGOPCount q)) (u32 (curVideoCount q))
    (u32 (curAudioCount q)) (Head (buf q)) (Tail (buf q)) (closed q).

(** The video and the audio packets among a run of packets. *)
Definition is_video (p : Packet) : bool := DataType p =? TAG_VIDEO.
Definition is_audio (p : Packet) : bool :=
  negb (DataType p =? TAG_VIDEO) && (DataType p =? TAG_AUDIO).
Definition videos (l : list Packet) : Z :=
  Z.of_nat (length (List.filter is_video l)).
Definition audios (l : list Packet) : Z :=
  Z.of_nat (length (List.filter is_audio l)).

(** The three counters agree with the window of the buffer, which is far
    from 2^63 packets. *)
Definition in_step {AvHeader} (q : Queue AvHeader) : Prop :=
  curGOPCount q = gop_starts (pkts (buf q)) /\
  curVideoCount q = videos (pkts (buf q)) /\
  curAudioCount q = audios (pkts (buf q)) /\
  Count (buf q) < 2 ^ 62.

End QueueStat.

(** * Properties *)

(** ** Machine integers *)

Section IntsFacts.
Import Ints.

Lemma wrap_small w x : 0 <= x < 2 ^ w -> wrap w x = x.
Proof. intros H. unfold wrap. now apply Z.mod_small. Qed.

Lemma wrap_range w x : 0 <= w -> 0 <= wrap w x < 2 ^ w.
Proof.
  intros Hw. unfold wrap. apply Z.mod_pos_bound.
  apply Z.pow_pos_nonneg; lia.
Qed.

Lemma wrap_wrap w x : 0 <= w -> wrap w (wrap w x) = wrap w x.
Proof.
  intros Hw. unfold wrap. apply Z.mod_mod.
  apply Z.pow_nonzero; lia.
Qed.

Lemma PutUintBE_length n v : length (PutUintBE n v) = n.
Proof. induction n; simpl; congruence. Qed.

Lemma PutUintLE_length n v : length (PutUintLE n v) = n.
Proof. revert v; induction n; intros; simpl; congruence. Qed.

Lemma PutUintBE_bytes n v : Forall is_byte (PutUintBE n v).
Proof.
  induction n; simpl; constructor; auto.
  unfold is_byte. apply Z.mod_pos_bound. lia.
Qed.

Lemma lor_shiftl8 a b : 0 <= b < 256 -> Z.lor (Z.shiftl a 8) b = a * 256 + b.
Proof.
  intros Hb.
  rewrite Z.shiftl_mul_pow2 by lia. change (2 ^ 8) with 256.
  rewrite <- Z.lxor_lor, <- Z.add_nocarry_lxor; auto.
  all: apply Z.bits_inj'; intros n Hn; rewrite Z.land_spec, Z.bits_0.
  all: destruct (Z.ltb_spec n 8).
  all: try (replace (a * 256) with (a * 2 ^ 8) by reflexivity;
            rewrite Z.mul_pow2_bits_low by lia; reflexivity).
  all: replace b with (b `mod` 2 ^ 8) by (apply Z.mod_small; simpl; lia).
  all: rewrite Z.mod_pow2_bits_high by lia; apply andb_false_r.
Qed.

Lemma UintBE_fold acc l :
  Forall is_byte l ->
  fold_left (fun acc b => Z.lor (Z.shiftl acc 8) b) l acc
  = acc * 256 ^ Z.of_nat (length l) + UintBE l.
Proof.
  unfold UintBE. revert acc. induction l as [|b l IH]; intros acc Hl.
  - simpl. lia.
  - inversion Hl as [|? ? Hb Hl']; subst. simpl fold_left.
    rewrite (IH _ Hl'), (IH (Z.lor _ b) Hl').
    rewrite !lor_shiftl8 by exact Hb.
    rewrite length_cons, Nat2Z.inj_succ, Z.pow_succ_r by lia. lia.
Qed.

Lemma UintBE_cons b l :
  is_byte b -> Forall is_byte l ->
  UintBE (b :: l) = b * 256 ^ Z.of_nat (length l) + UintBE l.
Proof.
  intros Hb Hl. unfold UintBE at 1. simpl fold_left.
  rewrite UintBE_fold by exact Hl. rewrite lor_shiftl8 by exact Hb. lia.
Qed.

Lemma UintBE_PutUintBE n v :
  UintBE (PutUintBE n v) = v `mod` 256 ^ Z.of_nat n.
Proof.
  induction n as [|k IH].
  - simpl. now rewrite Z.mod_1_r.
  - cbn [PutUintBE].
    rewrite UintBE_cons;
      [| unfold is_byte; apply Z.mod_pos_bound; lia | apply PutUintBE_bytes].
    rewrite IH, PutUintBE_length.
    rewrite Z.shiftr_div_pow2 by lia.
    replace (2 ^ (8 * Z.of_nat k)) with (256 ^ Z.of_nat k)
      by (rewrite Z.pow_mul_r by lia; reflexivity).
    rewrite Nat2Z.inj_succ, Z.pow_succ_r by lia.
    assert (0 < 256 ^ Z.of_nat k) by (apply Z.pow_pos_nonneg; lia).
    rewrite (Z.mul_comm 256), Z.rem_mul_r by lia. lia.
Qed.

Lemma UintBE_PutUintBE_small n v :
  0 <= v < 256 ^ Z.of_nat n -> UintBE (PutUintBE n v) = v.
Proof. intros H. rewrite UintBE_PutUintBE. now apply Z.mod_small. Qed.

End IntsFacts.


Section SignedFacts.
Import Ints.

Lemma wrap_signed w a : 0 <= w -> wrap w (signed w a) = wrap w a.
Proof.
  intros Hw. unfold signed.
  destruct (wrap w a <? 2 ^ (w - 1)).
  - now apply wrap_wrap.
  - unfold wrap.
    replace (a `mod` 2 ^ w - 2 ^ w) with (a `mod` 2 ^ w + (-1) * 2 ^ w) by lia.
    rewrite Z.mod_add by (apply Z.pow_nonzero; lia).
    apply Z.mod_mod. apply Z.pow_nonzero; lia.
Qed.

Lemma signed_wrap_eq w a b : wrap w a = wrap w b -> signed w a = signed w b.
Proof. intros H. unfold signed. now rewrite H. Qed.

Lemma signed_add_l w a b : 0 <= w -> signed w (signed w a + b) = signed w (a + b).
Proof.
  intros Hw. apply signed_wrap_eq. unfold wrap.
  rewrite Zplus_mod. fold (wrap w (signed w a)).
  rewrite wrap_signed by exact Hw. unfold wrap.
  now rewrite <- Zplus_mod.
Qed.

Lemma signed64_small x : - 2 ^ 63 <= x < 2 ^ 63 -> signed 64 x = x.
Proof.
  intros H. unfold signed, wrap.
  change (2 ^ (64 - 1)) with (2 ^ 63).
  destruct (Z.ltb_spec (x `mod` 2 ^ 64) (2 ^ 63)) as [Hlt|Hge].
  - destruct (Z_lt_le_dec x 0) as [Hn|Hp].
    + exfalso. revert Hlt.
      replace (x `mod` 2 ^ 64) with (x + 2 ^ 64); [lia|].
      apply Z.mod_unique with (-1); lia.
    + apply Z.mod_small. lia.
  - destruct (Z_lt_le_dec x 0) as [Hn|Hp].
    + replace (x `mod` 2 ^ 64) with (x + 2 ^ 64); [lia|].
      apply Z.mod_unique with (-1); lia.
    + exfalso. rewrite Z.mod_small in Hge; lia.
Qed.

End SignedFacts.

(** ** Byte slices *)

Section BytesFacts.
Import Ints Bytes.

Lemma put_app pre old post bytes off :
  off = length pre -> length old = length bytes ->
  put (pre ++ old ++ post) off bytes = Some (pre ++ bytes ++ post).
Proof.
  intros -> Hl. unfold put.
  rewrite !length_app, <- Hl.
  replace (length pre + length old <=? length pre + (length old + length post))%nat
    with true by (symmetry; apply Nat.leb_le; lia).
  rewrite take_app_length.
  rewrite (app_assoc pre old post), drop_app_length' by (rewrite length_app; lia).
  reflexivity.
Qed.

Lemma set_put b i v : set b i v = put b i [v].
Proof.
  unfold set, put. cbn [length].
  destruct (i <? length b)%nat eqn:Hi.
  - apply Nat.ltb_lt in Hi.
    replace (i + 1 <=? length b)%nat with true
      by (symmetry; apply Nat.leb_le; lia).
    rewrite insert_take_drop by exact Hi.
    now replace (i + 1)%nat with (S i) by lia.
  - apply Nat.ltb_ge in Hi.
    now replace (i + 1 <=? length b)%nat with false
      by (symmetry; apply Nat.leb_gt; lia).
Qed.

Lemma copy_from_fits b off src :
  (off + length src <= length b)%nat -> copy_from b off src = put b off src.
Proof.
  intros H. unfold copy_from, put.
  replace (off <=? length b)%nat with true by (symmetry; apply Nat.leb_le; lia).
  replace (off + length src <=? length b)%nat with true
    by (symmetry; apply Nat.leb_le; lia).
  now rewrite (take_ge src) by lia.
Qed.

Lemma from_app pre rest n :
  n = length pre -> from (pre ++ rest) n = Some rest.
Proof.
  intros ->. unfold from. rewrite length_app.
  replace (length pre <=? length pre + length rest)%nat with true
    by (symmetry; apply Nat.leb_le; lia).
  now rewrite drop_app_length.
Qed.

Lemma sub_app pre mid post lo hi :
  lo = length pre -> hi = (length pre + length mid)%nat ->
  sub (pre ++ mid ++ post) lo hi = Some mid.
Proof.
  intros -> ->. unfold sub. rewrite !length_app.
  replace ((length pre <=? length pre + length mid)
           && (length pre + length mid
               <=? length pre + (length mid + length post)))%nat
    with true
    by (symmetry; apply andb_true_intro; split; apply Nat.leb_le; lia).
  rewrite drop_app_length.
  replace (length pre + length mid - length pre)%nat with (length mid) by lia.
  now rewrite take_app_length.
Qed.

Lemma U16BE_app v rest :
  0 <= v < 2 ^ 16 -> U16BE (PutUintBE 2 v ++ rest) = Some v.
Proof.
  intros Hv. unfold U16BE. rewrite length_app, PutUintBE_length.
  cbn [Nat.leb Nat.add].
  rewrite take_app_length' by now rewrite PutUintBE_length.
  now rewrite UintBE_PutUintBE_small.
Qed.

End BytesFacts.
(** ** media/slice: header codec *)

Section SliceFacts.
Import Ints Slice.

Example header_sample :
  makeSliceHeader (mkPacket 100 3 258 7 1 1 0 1 ∅ [] 0 0 false)
  = [6; 67; 0; 0; 0; 0; 0; 0; 1; 2; 0; 0; 0; 7; 81].
Proof. reflexivity. Qed.

Lemma makeSliceHeader_length pkt : length (makeSliceHeader pkt) = 15%nat.
Proof.
  unfold makeSliceHeader, Uint16ToBytes, Uint64ToBytes, Uint32ToBytes.
  rewrite !length_app, !PutUintBE_length. reflexivity.
Qed.

(** The 16-bit size/type word under the field widths of the wire format. *)
Lemma sizeType_packed size typ :
  0 <= size < 4096 -> 0 <= typ < 16 ->
  u16 (u16 (Z.shiftl size 4) + u16 typ) = size * 16 + typ.
Proof.
  intros Hs Ht. unfold u16.
  rewrite Z.shiftl_mul_pow2 by lia. change (2 ^ 4) with 16.
  rewrite !wrap_small; change (2 ^ 16) with 65536; try lia.
  rewrite !wrap_small; change (2 ^ 16) with 65536; lia.
Qed.

(** The flags byte under the field widths of the wire format. *)
Lemma lastByte_packed pos ft ext :
  0 <= pos < 4 -> 0 <= ft < 4 -> 0 <= ext <= 1 ->
  u8 (u8 (u8 (Z.shiftl pos 6) + u8 (Z.shiftl ft 4)) + ext)
  = pos * 64 + ft * 16 + ext.
Proof.
  intros Hp Hf He. unfold u8.
  rewrite !Z.shiftl_mul_pow2 by lia. change (2 ^ 6) with 64. change (2 ^ 4) with 16.
  rewrite (wrap_small 8 (pos * 64)) by (change (2 ^ 8) with 256; lia).
  rewrite (wrap_small 8 (ft * 16)) by (change (2 ^ 8) with 256; lia).
  rewrite (wrap_small 8 (pos * 64 + ft * 16)) by (change (2 ^ 8) with 256; lia).
  apply wrap_small. change (2 ^ 8) with 256. lia.
Qed.

Lemma land_mask (x : Z) (n : Z) : 0 <= n -> Z.land x (2 ^ n - 1) = x `mod` 2 ^ n.
Proof.
  intros Hn. rewrite <- Z.land_ones by exact Hn.
  rewrite Z.ones_equiv. reflexivity.
Qed.

(** C10. Round trip of the slice header codec: for a packet whose fields fit
    the bit widths of the wire format (Size < 4096, SliceType < 16,
    PosFlag < 4, FrameType < 4, ExtendFlag <= 1), [ParseSliceHeader] applied
    to the 15 bytes written by [makeSliceHeader] returns a packet with the
    same Size, SliceType, SliceId, FrameId, PosFlag, FrameType and
    ExtendFlag, and with Reserved = 0. *)
Theorem slice_header_roundtrip (pkt : Packet) :
  well_typed pkt ->
  Size pkt < 4096 -> SliceType pkt < 16 -> PosFlag pkt < 4 ->
  FrameType pkt < 4 -> ExtendFlag pkt <= 1 ->
  length (makeSliceHeader pkt) = 15%nat /\
  exists pkt' len err,
    ParseSliceHeader (makeSliceHeader pkt) = Some (pkt', len, err) /\
    Size pkt' = Size pkt /\ SliceType pkt' = SliceType pkt /\
    SliceId pkt' = SliceId pkt /\ FrameId pkt' = FrameId pkt /\
    PosFlag pkt' = PosFlag pkt /\ FrameType pkt' = FrameType pkt /\
    ExtendFlag pkt' = ExtendFlag pkt /\ Reserved pkt' = 0 /\
    len = Size pkt.
Proof.
  intros [HS HT HI HF HP HFT HE] Hs Ht Hp Hft He.
  split; [apply makeSliceHeader_length|].
  unfold ParseSliceHeader. rewrite makeSliceHeader_length.
  change (15 <? 15)%nat with false. cbv iota.
  do 3 eexists. split; [reflexivity|].
  unfold makeSliceHeader.
  rewrite sizeType_packed by lia. rewrite lastByte_packed by lia.
  set (st := Size pkt * 16 + SliceType pkt).
  set (lb := PosFlag pkt * 64 + FrameType pkt * 16 + ExtendFlag pkt).
  assert (Hst : BytesToUint16
            (slice 0 2 (Uint16ToBytes st ++ Uint64ToBytes (SliceId pkt)
                          ++ Uint32ToBytes (FrameId pkt) ++ [lb])) = st).
  { unfold BytesToUint16, slice, Uint16ToBytes. rewrite drop_0. simpl Nat.sub.
    rewrite take_app_length' by now rewrite PutUintBE_length.
    rewrite take_ge by (rewrite PutUintBE_length; lia).
    apply UintBE_PutUintBE_small. unfold st. simpl Z.of_nat.
    change (256 ^ 2) with 65536. lia. }
  assert (Hid : BytesToUint64
            (slice 2 10 (Uint16ToBytes st ++ Uint64ToBytes (SliceId pkt)
                          ++ Uint32ToBytes (FrameId pkt) ++ [lb])) = SliceId pkt).
  { unfold BytesToUint64, slice, Uint16ToBytes, Uint64ToBytes.
    rewrite drop_app_length' by now rewrite PutUintBE_length. simpl Nat.sub.
    rewrite take_app_length' by now rewrite PutUintBE_length.
    rewrite take_ge by (rewrite PutUintBE_length; lia).
    apply UintBE_PutUintBE_small. simpl Z.of_nat.
    change (256 ^ 8) with (2 ^ 64). lia. }
  assert (Hfid : BytesToUint32
            (slice 10 14 (Uint16ToBytes st ++ Uint64ToBytes (SliceId pkt)
                          ++ Uint32ToBytes (FrameId pkt) ++ [lb])) = FrameId pkt).
  { unfold BytesToUint32, slice, Uint16ToBytes, Uint64ToBytes, Uint32ToBytes.
    rewrite (app_assoc (PutUintBE 2 st)).
    rewrite drop_app_length'
      by now rewrite length_app, !PutUintBE_length.
    simpl Nat.sub.
    rewrite take_app_length' by now rewrite PutUintBE_length.
    rewrite take_ge by (rewrite PutUintBE_length; lia).
    apply UintBE_PutUintBE_small. simpl Z.of_nat.
    change (256 ^ 4) with (2 ^ 32). lia. }
  assert (Hlb : nth 14 (Uint16ToBytes st ++ Uint64ToBytes (SliceId pkt)
                          ++ Uint32ToBytes (FrameId pkt) ++ [lb]) 0 = lb).
  { unfold Uint16ToBytes, Uint64ToBytes, Uint32ToBytes.
    rewrite !app_assoc.
    rewrite app_nth2 by (rewrite !length_app, !PutUintBE_length; simpl; lia).
    rewrite !length_app, !PutUintBE_length. reflexivity. }
  cbn [Size SliceType SliceId FrameId PosFlag FrameType ExtendFlag Reserved].
  rewrite Hst, Hid, Hfid, Hlb.
  change 0x0F with (2 ^ 4 - 1). change 0x3 with (2 ^ 2 - 1).
  change 0x1 with (2 ^ 1 - 1).
  rewrite !land_mask by lia. rewrite !Z.shiftr_div_pow2 by lia.
  change (2 ^ 4) with 16. change (2 ^ 6) with 64. change (2 ^ 2) with 4.
  change (2 ^ 1) with 2.
  assert (Hdiv : st `div` 16 = Size pkt) by (unfold st; symmetry; apply Z.div_unique with (SliceType pkt); lia).
  assert (Hmod : st `mod` 16 = SliceType pkt)
    by (unfold st; symmetry; apply Z.mod_unique with (Size pkt); lia).
  assert (Hp6 : lb `div` 64 = PosFlag pkt)
    by (unfold lb; symmetry; apply Z.div_unique with (FrameType pkt * 16 + ExtendFlag pkt); lia).
  assert (Hp4 : lb `div` 16 = PosFlag pkt * 4 + FrameType pkt)
    by (unfold lb; symmetry; apply Z.div_unique with (ExtendFlag pkt); lia).
  assert (Hm4 : (PosFlag pkt * 4 + FrameType pkt) `mod` 4 = FrameType pkt)
    by (symmetry; apply Z.mod_unique with (PosFlag pkt); lia).
  assert (Hm2 : lb `mod` 2 = ExtendFlag pkt)
    by (unfold lb; symmetry;
        apply Z.mod_unique with (PosFlag pkt * 32 + FrameType pkt * 8); lia).
  rewrite Hdiv, Hmod, Hp6, Hp4, Hm4, Hm2.
  unfold u8. rewrite wrap_small by (change (2 ^ 8) with 256; lia).
  repeat split; reflexivity.
Qed.

Lemma slice_header_roundtrip_witness :
  length (makeSliceHeader sample_packet) = 15%nat /\
  exists pkt' len err,
    ParseSliceHeader (makeSliceHeader sample_packet) = Some (pkt', len, err) /\
    Size pkt' = Size sample_packet /\ SliceType pkt' = SliceType sample_packet /\
    SliceId pkt' = SliceId sample_packet /\ FrameId pkt' = FrameId sample_packet /\
    PosFlag pkt' = PosFlag sample_packet /\
    FrameType pkt' = FrameType sample_packet /\
    ExtendFlag pkt' = ExtendFlag sample_packet /\ Reserved pkt' = 0 /\
    len = Size sample_packet.
Proof.
  apply (slice_header_roundtrip sample_packet); try (simpl; lia).
  constructor; simpl; lia.
Defined.

End SliceFacts.


(** ** media/slice: cutting frames into slice packets *)

Section SliceGenFacts.
Import Ints Slice SliceGen.

Context {AvPacket : Type}.
Variable Time : AvPacket -> Z.
Variable IsKeyFrame : AvPacket -> bool.
Variable IsVideo : AvPacket -> bool.
Variable IsAudioTag : AvPacket -> bool.

Lemma int_id x : - 2 ^ 63 <= x < 2 ^ 63 -> int x = x.
Proof. apply signed64_small. Qed.

(** The fields of a 15-byte header followed by anything. *)
Lemma header_fields (A B C : list Z) (lb : Z) (rest : list Z) :
  length A = 2%nat -> length B = 8%nat -> length C = 4%nat ->
  let data := A ++ B ++ C ++ [lb] ++ rest in
  slice 0 2 data = A /\ slice 2 10 data = B /\ slice 10 14 data = C /\
  nth 14 data 0 = lb /\ (length data <? 15)%nat = false.
Proof.
  intros HA HB HC.
  destruct A as [|a0 [|a1 [|? ?]]]; try discriminate.
  destruct B as [|b0 [|b1 [|b2 [|b3 [|b4 [|b5 [|b6 [|b7 [|? ?]]]]]]]]];
    try discriminate.
  destruct C as [|c0 [|c1 [|c2 [|c3 [|? ?]]]]]; try discriminate.
  repeat split.
Qed.

(** [ParseSliceHeader] reads back the header [makeSliceHeader] wrote, also
    when the payload follows it. *)
Lemma ParseSliceHeader_header (pkt : Packet) (rest : list Z) :
  0 <= Size pkt < 4096 -> 0 <= SliceType pkt < 16 ->
  0 <= SliceId pkt < 2 ^ 64 -> 0 <= FrameId pkt < 2 ^ 32 ->
  0 <= PosFlag pkt < 4 -> 0 <= FrameType pkt < 4 -> 0 <= ExtendFlag pkt <= 1 ->
  ParseSliceHeader (makeSliceHeader pkt ++ rest)
  = Some (mkPacket (Size pkt) (SliceType pkt) (SliceId pkt) (FrameId pkt)
            (PosFlag pkt) (FrameType pkt) 0 (ExtendFlag pkt) ∅ [] 0 0 false,
          Size pkt,
          if Size pkt >? KSliceSizeThreshold
          then Some (ErrSliceTooBig (Size pkt)) else None).
Proof.
  intros Hs Ht Hi Hf Hp Hft He.
  unfold makeSliceHeader.
  rewrite sizeType_packed by lia. rewrite lastByte_packed by lia.
  set (st := Size pkt * 16 + SliceType pkt).
  set (lb := PosFlag pkt * 64 + FrameType pkt * 16 + ExtendFlag pkt).
  rewrite <- !app_assoc.
  destruct (header_fields (Uint16ToBytes st) (Uint64ToBytes (SliceId pkt))
              (Uint32ToBytes (FrameId pkt)) lb rest)
    as (H1 & H2 & H3 & H4 & H5); try apply PutUintBE_length.
  unfold ParseSliceHeader. cbv zeta in H1, H2, H3, H4, H5.
  rewrite H5, H1, H2, H3, H4.
  unfold BytesToUint16, BytesToUint64, BytesToUint32, Uint16ToBytes,
    Uint64ToBytes, Uint32ToBytes.
  rewrite !take_ge by (rewrite PutUintBE_length; lia).
  rewrite !UintBE_PutUintBE_small;
    try (unfold st; cbn [Z.of_nat];
         change (256 ^ 2) with 65536; change (256 ^ Z.pos 8) with (2 ^ 64);
         change (256 ^ Z.pos 4) with (2 ^ 32); lia).
  change 0x0F with (2 ^ 4 - 1). change 0x3 with (2 ^ 2 - 1).
  change 0x1 with (2 ^ 1 - 1).
  rewrite !land_mask by lia. rewrite !Z.shiftr_div_pow2 by lia.
  change (2 ^ 4) with 16. change (2 ^ 6) with 64. change (2 ^ 2) with 4.
  change (2 ^ 1) with 2.
  assert (Hdiv : st `div` 16 = Size pkt)
    by (unfold st; symmetry; apply Z.div_unique with (SliceType pkt); lia).
  assert (Hmod : st `mod` 16 = SliceType pkt)
    by (unfold st; symmetry; apply Z.mod_unique with (Size pkt); lia).
  assert (Hp6 : lb `div` 64 = PosFlag pkt)
    by (unfold lb; symmetry;
        apply Z.div_unique with (FrameType pkt * 16 + ExtendFlag pkt); lia).
  assert (Hp4 : lb `div` 16 = PosFlag pkt * 4 + FrameType pkt)
    by (unfold lb; symmetry; apply Z.div_unique with (ExtendFlag pkt); lia).
  assert (Hm4 : (PosFlag pkt * 4 + FrameType pkt) `mod` 4 = FrameType pkt)
    by (symmetry; apply Z.mod_unique with (PosFlag pkt); lia).
  assert (Hm2 : lb `mod` 2 = ExtendFlag pkt)
    by (unfold lb; symmetry;
        apply Z.mod_unique with (PosFlag pkt * 32 + FrameType pkt * 8); lia).
  rewrite Hdiv, Hmod, Hp6, Hp4, Hm4, Hm2.
  unfold u8. rewrite wrap_small by (change (2 ^ 8) with 256; lia).
  reflexivity.
Qed.

(** The slice type and frame type [GenerateSlice] gives its packets. *)
Definition kind (avPkt : AvPacket) : Z * Z :=
  if IsAudioTag avPkt then (SLICE_TYPE_AUDIO, SLICE_FRAME_TYPE_AUDIO)
  else if IsVideo avPkt
       then (SLICE_TYPE_VIDEO,
             if IsKeyFrame avPkt then SLICE_FRAME_TYPE_IDR
             else SLICE_FRAME_TYPE_REF)
       else (0, 0).

(** The position flag of slice [i] out of [cnt]. *)
Definition pos_flag (cnt i : Z) : Z :=
  if cnt =? 1 then SLICE_POSFLAG_STARTEND
  else if i =? 0 then SLICE_POSFLAG_START
  else if i =? cnt - 1 then SLICE_POSFLAG_END
  else SLICE_POSFLAG_MIDDLE.

(** The packet made for slice [i] out of [cnt] with the given payload. *)
Definition slice_of (frameId : Z) (avPkt : AvPacket) (cnt i sid : Z)
    (payload : list Z) : Packet :=
  let hdr :=
    mkPacket (15 + Z.of_nat (length payload)) (kind avPkt).1 sid frameId
      (pos_flag cnt i) (kind avPkt).2 0 0 ∅ [] (TimeToTs (Time avPkt)) 0 false in
  mkPacket (15 + Z.of_nat (length payload)) (kind avPkt).1 sid frameId
    (pos_flag cnt i) (kind avPkt).2 0 0 ∅ (makeSliceHeader hdr ++ payload)
    (TimeToTs (Time avPkt)) 0 false.

Lemma build_data hdr payload :
  length hdr = 15%nat ->
  Bytes.copy_from (replicate (Z.to_nat (15 + Z.of_nat (length payload))) 0) 0 hdr
    ≫= (fun nd => Bytes.copy_from nd 15 payload)
  = Some (hdr ++ payload).
Proof.
  intros Hh.
  replace (Z.to_nat (15 + Z.of_nat (length payload)))
    with (15 + length payload)%nat by lia.
  rewrite replicate_add.
  rewrite copy_from_fits
    by (rewrite length_app, !length_replicate; lia).
  assert (Hp : Bytes.put (replicate 15 0 ++ replicate (length payload) 0) 0 hdr
               = Some (hdr ++ replicate (length payload) 0)).
  { apply (put_app [] (replicate 15 0) (replicate (length payload) 0) hdr 0);
      [reflexivity | rewrite length_replicate; auto]. }
  rewrite Hp.
  cbn [mbind option_bind app].
  rewrite copy_from_fits
    by (rewrite length_app, length_replicate; lia).
  rewrite <- (app_nil_r (replicate (length payload) 0)).
  rewrite (put_app hdr (replicate (length payload) 0) [])
    by (rewrite ?length_replicate; auto).
  now rewrite app_nil_r.
Qed.

Lemma sub_int_take data a d :
  0 <= a -> 0 <= d -> a + d <= Z.of_nat (length data) ->
  sub_int data a (a + d) = Some (take (Z.to_nat d) (drop (Z.to_nat a) data)).
Proof.
  intros Ha Hd Hle. unfold sub_int, Bytes.sub.
  replace ((0 <=? a) && (0 <=? a + d)) with true
    by (symmetry; apply andb_true_intro; split; apply Z.leb_le; lia).
  replace ((Z.to_nat a <=? Z.to_nat (a + d))%nat
           && (Z.to_nat (a + d) <=? length data)%nat) with true
    by (symmetry; apply andb_true_intro; split; apply Nat.leb_le; lia).
  do 2 f_equal. lia.
Qed.

(** One turn of the loop, for a state within the data. *)
Lemma gen_step_slice frameId data avPkt cnt i g :
  let n := Z.of_nat (length data) in
  let d := Z.quot n cnt + (if overSize g >? 0 then 1 else 0) in
  0 < cnt -> n < 2 ^ 62 -> 0 <= i < 2 ^ 62 -> cnt < 2 ^ 62 ->
  0 <= overSize g < 2 ^ 62 ->
  0 <= dataStartIndex g -> dataStartIndex g + d <= n -> d <= 65520 ->
  gen_step Time IsKeyFrame IsVideo IsAudioTag frameId data avPkt n cnt i g
  = Some (mkGen (if overSize g >? 0 then overSize g - 1 else overSize g)
            (dataStartIndex g + d) (u64 (sliceId g + 1))
            (pkts g ++ [slice_of frameId avPkt cnt i (sliceId g)
                          (take (Z.to_nat d)
                             (drop (Z.to_nat (dataStartIndex g)) data))])).
Proof.
  intros n d Hcnt Hn Hi Hc Ho Ha Had Hd.
  assert (Hq : 0 <= Z.quot n cnt <= n).
  { rewrite Z.quot_div_nonneg by lia. split; [apply Z.div_pos; lia|].
    apply Z.div_le_upper_bound; nia. }
  assert (Hd0 : 0 <= d) by (unfold d; destruct (overSize g >? 0); lia).
  set (payload := take (Z.to_nat d) (drop (Z.to_nat (dataStartIndex g)) data)).
  assert (Hpl : Z.of_nat (length payload) = d).
  { unfold payload. rewrite length_take, length_drop. lia. }
  unfold gen_step.
  rewrite (int_id (Z.quot n cnt)) by lia.
  assert (Hsd : (if overSize g >? 0
                 then (int (Z.quot n cnt + 1), int (overSize g - 1))
                 else (Z.quot n cnt, overSize g))
                = (d, if overSize g >? 0 then overSize g - 1 else overSize g)).
  { unfold d. destruct (overSize g >? 0) eqn:Hgt.
    - rewrite !int_id by lia. reflexivity.
    - now rewrite Z.add_0_r. }
  rewrite Hsd. cbv iota beta.
  rewrite (int_id (dataStartIndex g + d)) by lia.
  rewrite (int_id (cnt - 1)) by lia.
  change (KSliceExtendFlag >? 0) with false. cbv iota.
  assert (Hsize : u16 (KSliceHeaderSize + u16 d) = 15 + Z.of_nat (length payload)).
  { rewrite Hpl. unfold u16, KSliceHeaderSize.
    rewrite !wrap_small; change (2 ^ 16) with 65536; try lia.
    rewrite wrap_small; change (2 ^ 16) with 65536; lia. }
  assert (Hkind :
    (let '(sliceType, frameType) :=
       if IsVideo avPkt
       then (SLICE_TYPE_VIDEO,
             if IsKeyFrame avPkt then SLICE_FRAME_TYPE_IDR
             else SLICE_FRAME_TYPE_REF)
       else (0, 0) in
     if IsAudioTag avPkt then (SLICE_TYPE_AUDIO, SLICE_FRAME_TYPE_AUDIO)
     else (sliceType, frameType)) = kind avPkt).
  { unfold kind. destruct (IsVideo avPkt), (IsAudioTag avPkt); reflexivity. }
  transitivity
    (let '(sliceType, frameType) := kind avPkt in
     slicePkt ←
       (let size := u16 (KSliceHeaderSize + u16 d) in
        newData ← Bytes.copy_from (replicate (Z.to_nat size) 0) 0
                    (makeSliceHeader
                       (mkPacket size sliceType (sliceId g) frameId
                          (pos_flag cnt i) frameType 0 KSliceExtendFlag ∅ []
                          (TimeToTs (Time avPkt)) 0 false));
        payload ← sub_int data (dataStartIndex g) (dataStartIndex g + d);
        newData ← Bytes.copy_from newData (Z.to_nat KSliceHeaderSize) payload;
        Some (mkPacket size sliceType (sliceId g) frameId (pos_flag cnt i)
                frameType 0 KSliceExtendFlag ∅ newData
                (TimeToTs (Time avPkt)) 0 false));
     Some (mkGen (if overSize g >? 0 then overSize g - 1 else overSize g)
             (dataStartIndex g + d) (u64 (sliceId g + 1))
             (pkts g ++ [slicePkt]))).
  { rewrite <- Hkind.
    destruct (IsVideo avPkt), (IsAudioTag avPkt); reflexivity. }
  destruct (kind avPkt) as [st ft] eqn:Hk.
  cbv zeta. rewrite Hsize. rewrite sub_int_take by lia. fold payload.
  change (Z.to_nat KSliceHeaderSize) with 15%nat.
  set (hdr := makeSliceHeader _).
  assert (Hh : length hdr = 15%nat) by apply makeSliceHeader_length.
  pose proof (build_data hdr payload Hh) as Hb.
  destruct (Bytes.copy_from (replicate _ 0) 0 hdr) as [nd|]; [|discriminate].
  cbn [mbind option_bind] in Hb |- *. rewrite Hb. cbn [mbind option_bind].
  unfold slice_of. rewrite Hk. reflexivity.
Qed.

(** The payloads the loop cuts: [todo] chunks of [base] bytes from offset
    [a] on, the first [o] of them one byte longer. *)
Fixpoint chunks (todo : nat) (base o a : Z) (data : list Z) : list (list Z) :=
  match todo with
  | O => []
  | S k =>
      let d := base + (if o >? 0 then 1 else 0) in
      take (Z.to_nat d) (drop (Z.to_nat a) data)
        :: chunks k base (if o >? 0 then o - 1 else o) (a + d) data
  end.

(** The packets for a run of payloads, numbered from [i] and [sid]. *)
Fixpoint label (frameId : Z) (avPkt : AvPacket) (cnt i sid : Z)
    (payloads : list (list Z)) : list Packet :=
  match payloads with
  | [] => []
  | p :: rest =>
      slice_of frameId avPkt cnt i sid p
        :: label frameId avPkt cnt (i + 1) (u64 (sid + 1)) rest
  end.

Lemma gen_loop_slices frameId data avPkt cnt M todo : forall i g,
  let n := Z.of_nat (length data) in
  let base := Z.quot n cnt in
  0 < cnt -> n < 2 ^ 62 -> cnt < 2 ^ 62 -> M <= 65520 ->
  0 <= i -> i + Z.of_nat todo <= cnt ->
  0 <= overSize g <= Z.of_nat todo ->
  0 <= dataStartIndex g ->
  dataStartIndex g + Z.of_nat todo * base + overSize g = n ->
  base + (if overSize g >? 0 then 1 else 0) <= M ->
  exists sid',
    gen_loop Time IsKeyFrame IsVideo IsAudioTag todo frameId data avPkt n cnt i g
    = Some (mkGen 0 n sid'
              (pkts g ++ label frameId avPkt cnt i (sliceId g)
                           (chunks todo base (overSize g)
                              (dataStartIndex g) data))) /\
    sid' = Nat.iter todo (fun s => u64 (s + 1)) (sliceId g).
Proof.
  induction todo as [|k IH]; intros i g n base Hcnt Hn Hc HM Hi Hik Ho Ha Hsum Hb.
  - cbn [gen_loop chunks label Nat.iter]. exists (sliceId g).
    split; [|reflexivity]. rewrite app_nil_r.
    destruct g as [o a sid ps]. cbn [overSize dataStartIndex sliceId pkts] in *.
    replace o with 0 by lia. replace a with n by lia. reflexivity.
  - assert (Hq : 0 <= base).
    { unfold base. rewrite Z.quot_div_nonneg by lia. apply Z.div_pos; lia. }
    cbn [gen_loop].
    rewrite gen_step_slice; fold n; fold base; try lia;
      [|destruct (Z.gtb_spec (overSize g) 0); nia].
    cbn [mbind option_bind]. rewrite int_id by lia.
    set (d := base + (if overSize g >? 0 then 1 else 0)) in *.
    set (g' := mkGen _ _ _ _).
    assert (Ho' : 0 <= overSize g' <= Z.of_nat k)
      by (unfold g'; cbn [overSize]; destruct (Z.gtb_spec (overSize g) 0); lia).
    assert (Hsum' : dataStartIndex g' + Z.of_nat k * base + overSize g' = n)
      by (unfold g', d; cbn [overSize dataStartIndex];
          destruct (Z.gtb_spec (overSize g) 0); nia).
    assert (Hb' : base + (if overSize g' >? 0 then 1 else 0) <= M).
    { unfold g'; cbn [overSize]. unfold d in Hb.
      repeat match goal with
             | |- context [?a >? 0] => destruct (Z.gtb_spec a 0)
             | H : context [?a >? 0] |- _ => destruct (Z.gtb_spec a 0)
             end; lia. }
    assert (Ha' : 0 <= dataStartIndex g')
      by (unfold g', d; cbn [dataStartIndex];
          destruct (Z.gtb_spec (overSize g) 0); lia).
    destruct (IH (i + 1) g' Hcnt Hn Hc HM ltac:(lia) ltac:(lia) Ho' Ha' Hsum' Hb')
      as (sid' & Hrun & Hsid).
    exists sid'. split.
    + fold n in Hrun. rewrite Hrun. unfold g'.
      cbn [pkts sliceId overSize dataStartIndex chunks label].
      fold base. fold d. now rewrite <- app_assoc.
    + rewrite Hsid. unfold g'. cbn [sliceId].
      rewrite Nat.iter_succ_r. reflexivity.
Qed.

Lemma cut_facts n m :
  0 < n -> 0 < m ->
  let cnt := (n + m - 1) `div` m in
  let base := n `div` cnt in
  let over := n - base * cnt in
  1 <= cnt <= n /\ 0 <= over < cnt /\ 1 <= base /\
  base + (if over >? 0 then 1 else 0) <= m.
Proof.
  intros Hn Hm cnt base over.
  assert (Hc1 : m * cnt <= n + m - 1) by (apply Z.mul_div_le; lia).
  assert (Hc2 : n + m - 1 < m * Z.succ cnt) by (apply Z.mul_succ_div_gt; lia).
  assert (Hcnt : 1 <= cnt <= n) by nia.
  assert (Hb1 : cnt * base <= n) by (apply Z.mul_div_le; lia).
  assert (Hb2 : n < cnt * Z.succ base) by (apply Z.mul_succ_div_gt; lia).
  split; [exact Hcnt|]. split; [unfold over; nia|]. split; [nia|].
  destruct (Z.gtb_spec over 0); unfold over in *; nia.
Qed.

(** [GenerateSlice] on a non-empty frame, by the payloads it cuts. *)
Lemma GenerateSlice_slices s data avPkt :
  let m := DataSliceInfo.SliceSizeMax s in
  let n := Z.of_nat (length data) in
  let cnt := (n + m - 1) `div` m in
  let base := n `div` cnt in
  0 < m <= 65520 -> 0 < n < 2 ^ 61 ->
  GenerateSlice Time IsKeyFrame IsVideo IsAudioTag s data avPkt
  = Some (label (DataSliceInfo.FrameId s) avPkt cnt 0 (DataSliceInfo.SliceId s)
            (chunks (Z.to_nat cnt) base (n - base * cnt) 0 data),
          DataSliceInfo.mk
            (Nat.iter (Z.to_nat cnt) (fun s => u64 (s + 1)) (DataSliceInfo.SliceId s))
            (u32 (DataSliceInfo.FrameId s + 1)) m).
Proof.
  intros m n cnt base Hm Hn.
  destruct (cut_facts n m) as (Hcnt & Hover & Hbase & Hd); [lia..|].
  fold cnt in Hcnt, Hover, Hbase, Hd. fold base in Hover, Hbase, Hd.
  unfold GenerateSlice. fold m. fold n.
  replace (m =? 0) with false by (symmetry; apply Z.eqb_neq; lia).
  rewrite (int_id (n + m)), (int_id (n + m - 1)) by lia.
  rewrite (Z.quot_div_nonneg (n + m - 1) m) by lia. fold cnt.
  rewrite (int_id cnt) by lia.
  replace (cnt =? 0) with false by (symmetry; apply Z.eqb_neq; lia).
  replace (cnt <? 0) with false by (symmetry; apply Z.ltb_ge; lia).
  rewrite (Z.quot_div_nonneg n cnt) by lia. fold base.
  assert (Hbn : base <= n) by nia.
  rewrite (int_id base), (int_id (base * cnt)), (int_id (n - base * cnt))
    by nia.
  set (g0 := mkGen (n - base * cnt) 0 (DataSliceInfo.SliceId s) []).
  destruct (gen_loop_slices (DataSliceInfo.FrameId s) data avPkt cnt m
              (Z.to_nat cnt) 0 g0) as (sid' & Hrun & Hsid);
    try (fold n; rewrite ?(Z.quot_div_nonneg n cnt) by lia; fold base;
         unfold g0; cbn [overSize dataStartIndex]; lia).
  fold n in Hrun. rewrite Hrun. cbn [mbind option_bind pkts sliceId app].
  rewrite Hsid. unfold g0. cbn [sliceId overSize dataStartIndex].
  rewrite (Z.quot_div_nonneg n cnt) by lia. reflexivity.
Qed.

Lemma chunks_concat data todo : forall base o a,
  0 <= base -> 0 <= o <= Z.of_nat todo -> 0 <= a ->
  a + Z.of_nat todo * base + o = Z.of_nat (length data) ->
  concat (chunks todo base o a data) = drop (Z.to_nat a) data.
Proof.
  induction todo as [|k IH]; intros base o a Hb Ho Ha Hsum; cbn [chunks concat].
  - rewrite drop_ge by lia. reflexivity.
  - set (d := base + (if o >? 0 then 1 else 0)).
    assert (Hd : 0 <= d) by (unfold d; destruct (o >? 0); lia).
    rewrite IH; try (unfold d; destruct (Z.gtb_spec o 0); nia).
    replace (Z.to_nat (a + d)) with (Z.to_nat a + Z.to_nat d)%nat by lia.
    rewrite <- drop_drop. apply take_drop.
Qed.

Lemma chunks_length data todo base o a :
  length (chunks todo base o a data) = todo.
Proof.
  revert o a. induction todo as [|k IH]; intros o a; cbn [chunks length];
    [reflexivity | now rewrite IH].
Qed.

Lemma chunks_sizes data M todo : forall base o a,
  0 <= base -> 0 <= o <= Z.of_nat todo -> 0 <= a ->
  a + Z.of_nat todo * base + o = Z.of_nat (length data) ->
  base + (if o >? 0 then 1 else 0) <= M ->
  Forall (fun c => base <= Z.of_nat (length c) <= base + 1
                   /\ Z.of_nat (length c) <= M)
    (chunks todo base o a data).
Proof.
  induction todo as [|k IH]; intros base o a Hb Ho Ha Hsum HM; cbn [chunks];
    constructor.
  - rewrite length_take, length_drop.
    destruct (Z.gtb_spec o 0); nia.
  - apply IH; try (destruct (Z.gtb_spec o 0); nia).
    repeat match goal with
           | |- context [?x >? 0] => destruct (Z.gtb_spec x 0)
           | H : context [?x >? 0] |- _ => destruct (Z.gtb_spec x 0)
           end; lia.
Qed.

Lemma label_length frameId avPkt cnt l : forall i sid,
  length (label frameId avPkt cnt i sid l) = length l.
Proof.
  induction l as [|c l IH]; intros i sid; cbn [label length];
    [reflexivity | now rewrite IH].
Qed.

Lemma label_lookup frameId avPkt cnt l : forall i sid j p,
  label frameId avPkt cnt i sid l !! j = Some p ->
  exists c, l !! j = Some c /\
    p = slice_of frameId avPkt cnt (i + Z.of_nat j)
          (Nat.iter j (fun s => u64 (s + 1)) sid) c.
Proof.
  induction l as [|c l IH]; intros i sid j p Hj; cbn [label] in Hj;
    [discriminate|].
  destruct j as [|j]; cbn in Hj.
  - injection Hj as <-. exists c. split; [reflexivity|].
    now rewrite Z.add_0_r.
  - destruct (IH _ _ _ _ Hj) as (c' & Hc' & ->). exists c'.
    split; [exact Hc'|]. rewrite Nat.iter_succ_r.
    f_equal. lia.
Qed.

Lemma label_payloads frameId avPkt cnt l : forall i sid,
  map (fun p => drop 15 (Data p)) (label frameId avPkt cnt i sid l) = l.
Proof.
  induction l as [|c l IH]; intros i sid; cbn [label map]; [reflexivity|].
  rewrite IH. f_equal.
Qed.

Lemma iter_u64 j : forall sid,
  0 <= sid < 2 ^ 64 ->
  Nat.iter j (fun s => u64 (s + 1)) sid = u64 (sid + Z.of_nat j).
Proof.
  induction j as [|j IH]; intros sid Hs.
  - cbn [Nat.iter]. rewrite Z.add_0_r. unfold u64. now rewrite wrap_small.
  - rewrite Nat.iter_succ, IH by exact Hs. unfold u64, wrap.
    rewrite Zplus_mod_idemp_l. f_equal. lia.
Qed.

(** X8. [GenerateSlice] cuts a frame without losing a byte: for a
    non-empty frame and a slice size limit between 1 and 65520, it returns
    ceil(len / limit) packets whose payloads (the bytes after the 15-byte
    header), put end to end, are the frame; each packet starts with the
    header made from its own fields, its [Size] is the length of its data,
    no payload is longer than the limit and two payloads differ by at most
    one byte. The info's frame id is advanced by one. *)
Theorem GenerateSlice_reassembles (s : DataSliceInfo.t) (data : list Z)
    (avPkt : AvPacket) :
  let m := DataSliceInfo.SliceSizeMax s in
  let n := Z.of_nat (length data) in
  0 < m <= 65520 -> 0 < n < 2 ^ 61 ->
  exists pkts s',
    GenerateSlice Time IsKeyFrame IsVideo IsAudioTag s data avPkt
    = Some (pkts, s') /\
    Z.of_nat (length pkts) = (n + m - 1) `div` m /\
    concat (map (fun p => drop 15 (Data p)) pkts) = data /\
    Forall (fun p =>
              take 15 (Data p) = makeSliceHeader p /\
              Size p = Z.of_nat (length (Data p)) /\
              let len := Z.of_nat (length (Data p)) - 15 in
              len <= m /\
              n `div` Z.of_nat (length pkts) <= len
              <= n `div` Z.of_nat (length pkts) + 1) pkts /\
    DataSliceInfo.FrameId s' = u32 (DataSliceInfo.FrameId s + 1) /\
    DataSliceInfo.SliceSizeMax s' = m.
Proof.
  intros m n Hm Hn.
  rewrite GenerateSlice_slices by assumption. fold m. fold n.
  set (cnt := (n + m - 1) `div` m). set (base := n `div` cnt).
  destruct (cut_facts n m) as (Hcnt & Hover & Hbase & Hd); [lia..|].
  fold cnt in Hcnt, Hover, Hbase, Hd. fold base in Hover, Hbase, Hd.
  do 2 eexists. split; [reflexivity|].
  rewrite label_length, chunks_length.
  split; [lia|]. split.
  { rewrite label_payloads, chunks_concat by lia. apply drop_0. }
  split; [|split; reflexivity].
  rewrite Z2Nat.id by lia. fold base.
  pose proof (chunks_sizes data m (Z.to_nat cnt) base (n - base * cnt) 0
                ltac:(lia) ltac:(lia) ltac:(lia) ltac:(lia) Hd) as Hsz.
  apply Forall_lookup. intros j p Hj.
  apply label_lookup in Hj as (c & Hc & ->).
  rewrite Forall_lookup in Hsz. specialize (Hsz j c Hc).
  unfold slice_of. cbn [Data Size].
  rewrite take_app_length' by now rewrite makeSliceHeader_length.
  rewrite length_app, makeSliceHeader_length.
  split; [reflexivity|]. split; [lia|]. cbv zeta. lia.
Qed.

(** X9. How [GenerateSlice] numbers and flags the slices of a frame: slice
    [j] carries the info's slice id plus [j] (as a uint64) and the info's
    frame id; a lone slice is flagged start-and-end, otherwise the first is
    flagged start, the last end and the others middle; the extension flag
    is 0 and the frame's time is carried as [FrameDts]. An audio packet
    gives audio slices, a video packet video slices of frame type IDR or
    reference. The info's slice id ends up advanced by the number of
    slices. *)
Theorem GenerateSlice_labels (s : DataSliceInfo.t) (data : list Z)
    (avPkt : AvPacket) (pkts : list Packet) (s' : DataSliceInfo.t) :
  let m := DataSliceInfo.SliceSizeMax s in
  let n := Z.of_nat (length data) in
  0 < m <= 65520 -> 0 < n < 2 ^ 61 ->
  0 <= DataSliceInfo.SliceId s < 2 ^ 64 ->
  GenerateSlice Time IsKeyFrame IsVideo IsAudioTag s data avPkt
  = Some (pkts, s') ->
  DataSliceInfo.SliceId s'
  = u64 (DataSliceInfo.SliceId s + Z.of_nat (length pkts)) /\
  forall j p, pkts !! j = Some p ->
    SliceId p = u64 (DataSliceInfo.SliceId s + Z.of_nat j) /\
    FrameId p = DataSliceInfo.FrameId s /\
    PosFlag p
    = (if Z.of_nat (length pkts) =? 1 then SLICE_POSFLAG_STARTEND
       else if Z.of_nat j =? 0 then SLICE_POSFLAG_START
       else if Z.of_nat j =? Z.of_nat (length pkts) - 1 then SLICE_POSFLAG_END
       else SLICE_POSFLAG_MIDDLE) /\
    ExtendFlag p = 0 /\ Reserved p = 0 /\
    FrameDts p = TimeToTs (Time avPkt) /\
    (SliceType p, FrameType p)
    = (if IsAudioTag avPkt then (SLICE_TYPE_AUDIO, SLICE_FRAME_TYPE_AUDIO)
       else if IsVideo avPkt
            then (SLICE_TYPE_VIDEO,
                  if IsKeyFrame avPkt then SLICE_FRAME_TYPE_IDR
                  else SLICE_FRAME_TYPE_REF)
            else (0, 0)).
Proof.
  intros m n Hm Hn Hsid Hrun.
  rewrite GenerateSlice_slices in Hrun by assumption. fold m n in Hrun.
  destruct (cut_facts n m) as (Hcnt & _); [lia..|].
  set (cnt := (n + m - 1) `div` m) in *.
  injection Hrun as <- <-.
  rewrite label_length, chunks_length, Z2Nat.id by lia.
  cbn [DataSliceInfo.SliceId]. split.
  { rewrite iter_u64 by exact Hsid. now rewrite Z2Nat.id by lia. }
  intros j p Hj. apply label_lookup in Hj as (c & _ & ->).
  unfold slice_of.
  cbn [SliceId FrameId PosFlag ExtendFlag Reserved FrameDts SliceType FrameType].
  rewrite iter_u64 by exact Hsid. rewrite Z.add_0_l.
  repeat split. unfold kind.
  destruct (IsAudioTag avPkt), (IsVideo avPkt); reflexivity.
Qed.

(** X10. [GenerateSlice] never returns on an empty frame: the slice count
    it computes is 0 and the next division panics. *)
Theorem GenerateSlice_empty (s : DataSliceInfo.t) (avPkt : AvPacket) :
  0 <= DataSliceInfo.SliceSizeMax s < 2 ^ 62 ->
  GenerateSlice Time IsKeyFrame IsVideo IsAudioTag s [] avPkt = None.
Proof.
  intros Hm. unfold GenerateSlice. cbn [length Z.of_nat].
  destruct (Z.eqb_spec (DataSliceInfo.SliceSizeMax s) 0) as [|Hnz];
    [reflexivity|].
  rewrite Z.add_0_l, (int_id (DataSliceInfo.SliceSizeMax s)) by lia.
  rewrite (int_id (_ - 1)) by lia.
  rewrite Z.quot_small by lia. reflexivity.
Qed.

(** X11. The slices [GenerateSlice] makes parse back: with a slice size
    limit of at most 3057 bytes (so that no slice exceeds the size
    threshold of 3072), [ParseSliceHeader] applied to the data of each
    packet returns the packet's own size, type, slice id, frame id, position
    flag, frame type and extension flag, and no error. *)
Theorem GenerateSlice_headers_parse (s : DataSliceInfo.t) (data : list Z)
    (avPkt : AvPacket) (pkts : list Packet) (s' : DataSliceInfo.t) :
  let m := DataSliceInfo.SliceSizeMax s in
  let n := Z.of_nat (length data) in
  0 < m <= 3057 -> 0 < n < 2 ^ 61 ->
  0 <= DataSliceInfo.SliceId s < 2 ^ 64 ->
  0 <= DataSliceInfo.FrameId s < 2 ^ 32 ->
  GenerateSlice Time IsKeyFrame IsVideo IsAudioTag s data avPkt
  = Some (pkts, s') ->
  Forall (fun p =>
            ParseSliceHeader (Data p)
            = Some (mkPacket (Size p) (SliceType p) (SliceId p) (FrameId p)
                      (PosFlag p) (FrameType p) 0 (ExtendFlag p) ∅ [] 0 0
                      false,
                    Size p, None)) pkts.
Proof.
  intros m n Hm Hn Hsid Hfid Hrun.
  rewrite GenerateSlice_slices in Hrun; [|unfold m in Hm; lia | exact Hn].
  fold m n in Hrun.
  destruct (cut_facts n m) as (Hcnt & Hover & Hbase & Hd); [lia..|].
  set (cnt := (n + m - 1) `div` m) in *. set (base := n `div` cnt) in *.
  injection Hrun as <- _.
  pose proof (chunks_sizes data m (Z.to_nat cnt) base (n - base * cnt) 0
                ltac:(lia) ltac:(lia) ltac:(lia) ltac:(lia) Hd) as Hsz.
  apply Forall_lookup. intros j p Hj.
  apply label_lookup in Hj as (c & Hc & ->).
  rewrite Forall_lookup in Hsz. specialize (Hsz j c Hc).
  unfold slice_of.
  cbn [Data Size SliceType SliceId FrameId PosFlag FrameType ExtendFlag].
  rewrite ParseSliceHeader_header;
    cbn [Size SliceType SliceId FrameId PosFlag FrameType ExtendFlag];
    try lia.
  - replace (15 + Z.of_nat (length c) >? KSliceSizeThreshold) with false;
      [reflexivity|].
    symmetry. rewrite Z.gtb_ltb. apply Z.ltb_ge.
    change KSliceSizeThreshold with 3072. lia.
  - unfold kind, SLICE_TYPE_AUDIO, SLICE_TYPE_VIDEO.
    destruct (IsAudioTag avPkt), (IsVideo avPkt); cbn [fst]; lia.
  - rewrite iter_u64 by exact Hsid. apply wrap_range. lia.
  - unfold pos_flag, SLICE_POSFLAG_STARTEND, SLICE_POSFLAG_START,
      SLICE_POSFLAG_END, SLICE_POSFLAG_MIDDLE.
    repeat match goal with |- context [if ?b then _ else _] => destruct b end;
      lia.
  - unfold kind, SLICE_FRAME_TYPE_AUDIO, SLICE_FRAME_TYPE_IDR,
      SLICE_FRAME_TYPE_REF.
    destruct (IsAudioTag avPkt), (IsVideo avPkt), (IsKeyFrame avPkt);
      cbn [snd]; lia.
Qed.

End SliceGenFacts.

Section SliceGenExamples.
Import Ints Slice SliceGen.

(** A frame of 5003 bytes cut with the default limit of 1280, for a video
    key frame of the queue's packet type. *)
Definition is_video (p : Queue.Packet) : bool :=
  Queue.DataType p =? Queue.TAG_VIDEO.
Definition is_audio (p : Queue.Packet) : bool :=
  Queue.DataType p =? Queue.TAG_AUDIO.
Definition sample_info : DataSliceInfo.t := NewDataSliceInfo 17.
Definition sample_frame : list Z := replicate (Z.to_nat 5003) 0.

Lemma GenerateSlice_reassembles_witness :
  exists pkts s',
    GenerateSlice Queue.Time Queue.IsKeyFrame is_video is_audio sample_info
      sample_frame (Queue.frame 60 0) = Some (pkts, s') /\
    Z.of_nat (length pkts) = 4 /\
    concat (map (fun p => drop 15 (Data p)) pkts) = sample_frame.
Proof.
  destruct (GenerateSlice_reassembles Queue.Time Queue.IsKeyFrame is_video
              is_audio sample_info sample_frame (Queue.frame 60 0))
    as (pkts & s' & H1 & H2 & H3 & _);
    [vm_compute; split; [reflexivity | discriminate]
    |vm_compute; split; reflexivity|].
  exists pkts, s'. split; [exact H1|]. split; [|exact H3].
  rewrite H2. reflexivity.
Defined.

Lemma GenerateSlice_labels_witness :
  exists pkts s',
    GenerateSlice Queue.Time Queue.IsKeyFrame is_video is_audio sample_info
      sample_frame (Queue.frame 60 0) = Some (pkts, s') /\
    DataSliceInfo.SliceId s' = 1700004 /\
    map SliceId pkts = [1700000; 1700001; 1700002; 1700003] /\
    map PosFlag pkts = [1; 0; 0; 2].
Proof.
  destruct (GenerateSlice Queue.Time Queue.IsKeyFrame is_video is_audio
              sample_info sample_frame (Queue.frame 60 0))
    as [[pkts s']|] eqn:Hrun; [|vm_compute in Hrun; discriminate Hrun].
  destruct (GenerateSlice_labels Queue.Time Queue.IsKeyFrame is_video
              is_audio sample_info sample_frame (Queue.frame 60 0) pkts s')
    as [Hs _];
    [vm_compute; split; [reflexivity | discriminate]
    |vm_compute; split; reflexivity
    |vm_compute; split; [discriminate | reflexivity]
    |exact Hrun|].
  exists pkts, s'. split; [reflexivity|].
  vm_compute in Hrun. injection Hrun as <- <-. repeat split.
Defined.

Lemma GenerateSlice_empty_witness :
  GenerateSlice Queue.Time Queue.IsKeyFrame is_video is_audio sample_info []
    (Queue.frame 60 0) = None.
Proof.
  apply GenerateSlice_empty. vm_compute. split; [discriminate | reflexivity].
Defined.

Lemma GenerateSlice_headers_parse_witness :
  exists pkts s',
    GenerateSlice Queue.Time Queue.IsKeyFrame is_video is_audio sample_info
      sample_frame (Queue.frame 60 0) = Some (pkts, s') /\
    Forall (fun p =>
              ParseSliceHeader (Data p)
              = Some (mkPacket (Size p) (SliceType p) (SliceId p) (FrameId p)
                        (PosFlag p) (FrameType p) 0 (ExtendFlag p) ∅ [] 0 0
                        false,
                      Size p, None)) pkts.
Proof.
  destruct (GenerateSlice Queue.Time Queue.IsKeyFrame is_video is_audio
              sample_info sample_frame (Queue.frame 60 0))
    as [[pkts s']|] eqn:Hrun; [|vm_compute in Hrun; discriminate Hrun].
  exists pkts, s'. split; [reflexivity|].
  apply (GenerateSlice_headers_parse Queue.Time Queue.IsKeyFrame is_video
           is_audio sample_info sample_frame (Queue.frame 60 0) pkts s');
    [vm_compute; split; [reflexivity | discriminate]
    |vm_compute; split; reflexivity
    |vm_compute; split; [discriminate | reflexivity]
    |vm_compute; split; [discriminate | reflexivity]
    |exact Hrun].
Defined.

End SliceGenExamples.

(** ** media/slice: extensions and header slices *)

Section ExtendFacts.
Import Ints Slice SliceGen.

(** The key/value bytes that follow the extension length. *)
Definition extend_body (kvs : list (Z * Z)) : list Z :=
  concat (map (fun kv => [kv.1] ++ Uint32ToBytes kv.2) kvs).

Lemma extend_body_length kvs :
  length (extend_body kvs) = (5 * length kvs)%nat.
Proof.
  induction kvs as [|kv kvs IH]; [reflexivity|].
  unfold extend_body in *. cbn [map concat]. rewrite !length_app, IH.
  unfold Uint32ToBytes. rewrite PutUintBE_length. cbn [length]. lia.
Qed.

Lemma decode_loop_body kvs : forall pre e0,
  Forall (fun kv => 0 <= kv.2 < 2 ^ 32) kvs ->
  decode_loop (length kvs) (length pre) (pre ++ extend_body kvs) e0
  = Some (fold_left (fun e kv => <[kv.1 := kv.2]> e) kvs e0).
Proof.
  induction kvs as [|[k v] kvs IH]; intros pre e0 Hr; [reflexivity|].
  inversion Hr as [|? ? Hv Hr']; subst. cbn [fst snd] in Hv.
  cbn [length decode_loop fold_left fst snd].
  unfold extend_body. cbn [map concat fst snd]. fold (extend_body kvs).
  unfold Bytes.get. rewrite lookup_app_r by lia.
  rewrite Nat.sub_diag. cbn [app lookup list_lookup mbind option_bind].
  change (k :: Uint32ToBytes v ++ extend_body kvs)
    with ([k] ++ Uint32ToBytes v ++ extend_body kvs).
  rewrite (app_assoc pre [k]).
  rewrite (sub_app (pre ++ [k]) (Uint32ToBytes v))
    by (rewrite length_app; unfold Uint32ToBytes;
        rewrite ?PutUintBE_length; cbn [length]; lia).
  cbn [mbind option_bind].
  assert (Hval : BytesToUint32 (Uint32ToBytes v) = v).
  { unfold BytesToUint32, Uint32ToBytes.
    rewrite take_ge by (rewrite PutUintBE_length; lia).
    apply UintBE_PutUintBE_small. change (256 ^ Z.of_nat 4) with (2 ^ 32). lia. }
  rewrite Hval, (app_assoc (pre ++ [k])).
  replace (length pre + 5)%nat
    with (length ((pre ++ [k]) ++ Uint32ToBytes v))
    by (rewrite !length_app; unfold Uint32ToBytes;
        rewrite PutUintBE_length; cbn [length]; lia).
  now apply IH.
Qed.

Lemma fold_insert_lookup (kvs : list (Z * Z)) : forall (e0 : Extend) k,
  NoDup kvs.*1 ->
  fold_left (fun e kv => <[kv.1 := kv.2]> e) kvs e0 !! k
  = match (list_to_map kvs : Extend) !! k with
    | Some v => Some v
    | None => e0 !! k
    end.
Proof.
  induction kvs as [|[k1 v1] kvs IH]; intros e0 k Hnd.
  - cbn. now rewrite lookup_empty.
  - cbn [fmap list_fmap fst] in Hnd. apply NoDup_cons in Hnd as [Hnotin Hnd].
    cbn [fold_left fst snd list_to_map foldr]. rewrite IH by exact Hnd.
    destruct (decide (k = k1)) as [->|Hne].
    + rewrite (not_elem_of_list_to_map_1 _ _ Hnotin), !lookup_insert_eq.
      reflexivity.
    + rewrite !lookup_insert_ne by congruence. reflexivity.
Qed.

(** X12. Encode/Decode round trip of the slice extension map: whatever
    order the map is ranged over when it is encoded, decoding the bytes
    into an empty map gives the map back, without error. (Keys are uint8
    and values uint32, so a map has at most 256 entries.) *)
Theorem Extend_roundtrip (e : Extend) (kvs : list (Z * Z)) :
  kvs ≡ₚ map_to_list e ->
  (forall k v, e !! k = Some v -> 0 <= k < 256 /\ 0 <= v < 2 ^ 32) ->
  Decode ∅ (Encode kvs) = Some (e, None).
Proof.
  intros Hperm Hrange.
  assert (Hnd : NoDup kvs.*1).
  { rewrite Hperm. apply NoDup_fst_map_to_list. }
  assert (Hin : forall k v, (k, v) ∈ kvs -> e !! k = Some v).
  { intros k v Hkv. rewrite Hperm in Hkv. now apply elem_of_map_to_list. }
  assert (Hlen : (length kvs <= 256)%nat).
  { rewrite <- (length_fmap fst).
    transitivity (length (seqZ 0 256)); [|now rewrite length_seqZ].
    apply submseteq_length, NoDup_submseteq; [exact Hnd|].
    intros k Hk. apply list_elem_of_fmap in Hk as ([k' v] & -> & Hkv).
    apply elem_of_seqZ. cbn [fst]. destruct (Hrange k' v (Hin _ _ Hkv)). lia. }
  assert (Hvals : Forall (fun kv => 0 <= kv.2 < 2 ^ 32) kvs).
  { apply Forall_forall. intros [k v] Hkv. cbn [snd].
    apply (Hrange k v (Hin _ _ Hkv)). }
  unfold Encode, Decode, KSliceExtendHeaderLen.
  set (num := Z.of_nat (length kvs) * 5 + 2).
  assert (Hnum : u16 num = num)
    by (unfold u16; apply wrap_small; unfold num; lia).
  rewrite Hnum. fold (extend_body kvs).
  rewrite <- (app_nil_l (Uint16ToBytes num ++ _)) at 1.
  rewrite (sub_app [] (Uint16ToBytes num)) by reflexivity.
  cbn [mbind option_bind app].
  assert (Hhdr : BytesToUint16 (Uint16ToBytes num) = num).
  { unfold BytesToUint16, Uint16ToBytes.
    rewrite take_ge by (rewrite PutUintBE_length; lia).
    apply UintBE_PutUintBE_small. change (256 ^ Z.of_nat 2) with (2 ^ 16).
    unfold num. lia. }
  rewrite Hhdr.
  replace (num - 2) with (Z.of_nat (length kvs) * 5) by (unfold num; lia).
  unfold u16. rewrite wrap_small by lia.
  rewrite Z.rem_mul by lia. cbn [Z.eqb negb].
  replace ((Z.of_nat (length kvs) * 5 + 4) `div` 5) with (Z.of_nat (length kvs))
    by (apply Z.div_unique with 4; lia).
  rewrite Nat2Z.id.
  rewrite (decode_loop_body kvs (Uint16ToBytes num) ∅ Hvals).
  cbn [mbind option_bind]. do 2 f_equal.
  apply map_eq. intros k. rewrite fold_insert_lookup by exact Hnd.
  rewrite <- (list_to_map_flip e kvs) by (symmetry; exact Hperm).
  rewrite lookup_empty. now destruct (e !! k).
Qed.

(** X13. A header slice parses back: for sequence-header data of at most
    3057 bytes, [GenerateHeaderSlice] returns a packet whose data are its
    15-byte header followed by the data, flagged start-and-end with slice
    type 0; its slice id is 1 for a video tag, 2 for an audio tag and 0
    otherwise, so it is a header ([IsHeader]) exactly for those two tags;
    and [ParseSliceHeader] reads the packet's size, type, ids and flags back
    from the data, without error. *)
Theorem GenerateHeaderSlice_parse (data : list Z) (tagType : Z) :
  Z.of_nat (length data) <= 3057 ->
  exists p,
    GenerateHeaderSlice data tagType = Some p /\
    Data p = makeSliceHeader p ++ data /\
    Size p = 15 + Z.of_nat (length data) /\
    SliceId p = (if tagType =? TAG_AUDIO then SLICE_ID_AAC_HEADER
                 else if tagType =? TAG_VIDEO then SLICE_ID_AVC_HEADER
                 else 0) /\
    (IsHeader p = true <-> tagType = TAG_VIDEO \/ tagType = TAG_AUDIO) /\
    ParseSliceHeader (Data p)
    = Some (mkPacket (Size p) SLICE_TYPE_FLV_HEADER (SliceId p) 0
              SLICE_POSFLAG_STARTEND 0 0 0 ∅ [] 0 0 false, Size p, None).
Proof.
  intros Hlen. unfold GenerateHeaderSlice.
  set (sid := if tagType =? TAG_AUDIO then _ else _).
  assert (Hsid : sid = if tagType =? TAG_AUDIO then SLICE_ID_AAC_HEADER
                       else if tagType =? TAG_VIDEO then SLICE_ID_AVC_HEADER
                       else 0) by reflexivity.
  assert (Hsize : u16 (u16 (Z.of_nat (length data)) + KSliceHeaderSize)
                  = 15 + Z.of_nat (length data)).
  { unfold u16, KSliceHeaderSize.
    rewrite (wrap_small 16 (Z.of_nat _)) by lia.
    rewrite wrap_small by lia. lia. }
  rewrite Hsize. rewrite makeSliceHeader_length.
  set (hdr := makeSliceHeader _).
  assert (Hh : length hdr = 15%nat) by apply makeSliceHeader_length.
  pose proof (build_data hdr data Hh) as Hb.
  destruct (Bytes.copy_from (replicate _ 0) 0 hdr) as [nd|]; [|discriminate].
  cbn [mbind option_bind] in Hb |- *. rewrite Hb. cbn [mbind option_bind].
  eexists. split; [reflexivity|].
  cbn [Data Size SliceId]. split; [reflexivity|]. split; [reflexivity|].
  split; [exact Hsid|]. split.
  - unfold IsHeader. cbn [SliceId]. rewrite Hsid.
    unfold TAG_AUDIO, TAG_VIDEO, SLICE_ID_AAC_HEADER, SLICE_ID_AVC_HEADER.
    destruct (Z.eqb_spec tagType 8), (Z.eqb_spec tagType 9); cbn;
      intuition (discriminate || lia).
  - unfold hdr. rewrite ParseSliceHeader_header;
      cbn [Size SliceType SliceId FrameId PosFlag FrameType ExtendFlag];
      unfold SLICE_TYPE_FLV_HEADER, SLICE_POSFLAG_STARTEND; try lia.
    + replace (15 + Z.of_nat (length data) >? KSliceSizeThreshold) with false;
        [reflexivity|].
      symmetry. rewrite Z.gtb_ltb. apply Z.ltb_ge.
      change KSliceSizeThreshold with 3072. lia.
    + rewrite Hsid. unfold SLICE_ID_AAC_HEADER, SLICE_ID_AVC_HEADER.
      destruct (tagType =? TAG_AUDIO), (tagType =? TAG_VIDEO); lia.
Qed.

End ExtendFacts.

Section ExtendExamples.
Import Ints Slice SliceGen.

Lemma Extend_roundtrip_witness :
  Decode ∅ (Encode [(2, 3456); (1, 1234)])
  = Some (<[1 := 1234]> (<[2 := 3456]> ∅), None).
Proof.
  apply (Extend_roundtrip (<[1 := 1234]> (<[2 := 3456]> ∅))
           [(2, 3456); (1, 1234)]).
  - vm_compute. first [apply Permutation_refl | apply perm_swap].
  - intros k v Hkv.
    destruct (decide (k = 1)) as [->|H1];
      [rewrite lookup_insert_eq in Hkv; injection Hkv as <-; lia|].
    rewrite lookup_insert_ne in Hkv by congruence.
    destruct (decide (k = 2)) as [->|H2];
      [rewrite lookup_insert_eq in Hkv; injection Hkv as <-; lia|].
    rewrite lookup_insert_ne, lookup_empty in Hkv by congruence.
    discriminate.
Defined.

Lemma GenerateHeaderSlice_parse_witness :
  exists p,
    GenerateHeaderSlice [0x17; 0; 0; 0; 0; 1; 66] TAG_VIDEO = Some p /\
    Size p = 22 /\ SliceId p = 1 /\ IsHeader p = true.
Proof.
  destruct (GenerateHeaderSlice_parse [0x17; 0; 0; 0; 0; 1; 66] TAG_VIDEO)
    as (p & H1 & _ & H3 & H4 & H5 & _); [cbn; lia|].
  exists p. split; [exact H1|]. split; [exact H3|]. split; [exact H4|].
  apply H5. now left.
Defined.

End ExtendExamples.
(** ** media/protocol/rtmp: chunk header *)

Section ChunkHeaderFacts.
Import Ints Rtmp.

Lemma copy_at_fit dst off src :
  (off + length src <= length dst)%nat ->
  copy_at dst off src = take off dst ++ src ++ drop (off + length src) dst.
Proof.
  intros H. unfold copy_at. rewrite (take_ge src) by lia. reflexivity.
Qed.

Lemma copy_at_length dst off src :
  (off + length src <= length dst)%nat ->
  length (copy_at dst off src) = length dst.
Proof.
  intros H. rewrite copy_at_fit by exact H.
  rewrite !length_app, length_take, length_drop. lia.
Qed.

(** A store just behind an already written prefix extends the prefix. *)
Lemma store_app pre rest off bytes :
  length pre = off -> (length bytes <= length rest)%nat ->
  store (pre ++ rest) off bytes
  = Some ((pre ++ bytes) ++ drop (length bytes) rest).
Proof.
  intros Hpre Hfit. unfold store.
  rewrite length_app.
  destruct (Nat.leb_spec (off + length bytes) (length pre + length rest)); [|lia].
  rewrite copy_at_fit by (rewrite length_app; lia).
  rewrite take_app_length' by (symmetry; exact Hpre).
  rewrite drop_app_ge by lia.
  replace (off + length bytes - length pre)%nat with (length bytes) by lia.
  now rewrite <- app_assoc.
Qed.

(** The bytes [fillChunkHeader] lays down, in order. *)
Definition chunk_header (csid timestamp msgtypeid msgsid msgdatalen : Z) : list Z :=
  [Z.land (u8 csid) 0x3f]
  ++ PutUintBE 3 (if u32 timestamp <=? FlvTimestampMax
                  then u32 timestamp else FlvTimestampMax)
  ++ PutUintBE 3 (u32 msgdatalen)
  ++ [msgtypeid]
  ++ PutUintLE 4 msgsid
  ++ (if u32 timestamp >? FlvTimestampMax
      then PutUintBE 4 (u32 timestamp) else []).

Lemma chunk_header_length csid t ty sid len :
  length (chunk_header csid t ty sid len)
  = if u32 t >? FlvTimestampMax then 16%nat else 12%nat.
Proof.
  unfold chunk_header.
  rewrite !length_app, !PutUintBE_length, PutUintLE_length.
  destruct (u32 t >? FlvTimestampMax); reflexivity.
Qed.

Lemma fillChunkHeader_layout b csid t ty sid len :
  (length (chunk_header csid t ty sid len) <= length b)%nat ->
  fillChunkHeader b csid t ty sid len
  = Some (chunk_header csid t ty sid len
            ++ drop (length (chunk_header csid t ty sid len)) b,
          if u32 t >? FlvTimestampMax then 16 else 12).
Proof.
  rewrite chunk_header_length. intros Hlen.
  assert (H12 : (12 <= length b)%nat)
    by (destruct (u32 t >? FlvTimestampMax); lia).
  unfold fillChunkHeader, chunk_header, PutU24BE, PutU32LE, PutU32BE.
  change b with ([] ++ b) at 1.
  rewrite store_app by (simpl; lia). cbn [mbind option_bind].
  assert (Hts : forall v,
    store (([] ++ [Z.land (u8 csid) 63]) ++ drop (length [Z.land (u8 csid) 63]) b)
          1 (PutUintBE 3 v)
    = Some ((([] ++ [Z.land (u8 csid) 63]) ++ PutUintBE 3 v)
              ++ drop 3 (drop 1 b))).
  { intros v. rewrite store_app; [reflexivity|reflexivity|].
    rewrite PutUintBE_length, length_drop. simpl. lia. }
  destruct (u32 t <=? FlvTimestampMax) eqn:Hle.
  all: rewrite Hts; cbn [mbind option_bind].
  all: rewrite store_app;
    [| reflexivity | rewrite PutUintBE_length, !length_drop; lia].
  all: cbn [mbind option_bind].
  all: rewrite store_app;
    [| rewrite !length_app, !PutUintBE_length; reflexivity
     | rewrite !length_drop; simpl; lia].
  all: cbn [mbind option_bind].
  all: rewrite store_app;
    [| rewrite !length_app, !PutUintBE_length; reflexivity
     | rewrite PutUintLE_length, !length_drop; simpl; lia].
  all: cbn [mbind option_bind].
  all: destruct (u32 t >? FlvTimestampMax) eqn:Hgt.
  all: try (rewrite store_app;
    [| rewrite !length_app, !PutUintBE_length, PutUintLE_length; reflexivity
     | rewrite PutUintBE_length, !length_drop; simpl; lia];
    cbn [mbind option_bind]).
  all: rewrite ?PutUintBE_length, ?PutUintLE_length, !drop_drop.
  all: cbn [length Nat.add app].
  all: rewrite <- ?app_assoc; cbn [app]; try rewrite app_nil_r.
  all: reflexivity.
Qed.

Lemma u32_nonneg_int32 t : 0 <= t < 2 ^ 31 -> u32 t = t.
Proof. intros H. apply wrap_small. lia. Qed.

(** C5. For every non-negative timestamp [t] filled into an outgoing chunk
    header, the 24-bit timestamp field (bytes 1..3) equals [t] when
    [t <= 0xFFFFFF] and the header is 12 bytes long; when [t > 0xFFFFFF] the
    field equals 0xFFFFFF and the four bytes after the 12-byte header carry
    [t] big-endian, making the header 16 bytes long. The extended form is
    used exactly from [t = 0xFFFFFF + 1] on. *)
Theorem fillChunkHeader_timestamp (b : list Z)
    (csid t msgtypeid msgsid msgdatalen : Z) :
  0 <= t < 2 ^ 31 ->
  (12 <= length b)%nat ->
  (0xFFFFFF < t -> (16 <= length b)%nat) ->
  exists b' n,
    fillChunkHeader b csid t msgtypeid msgsid msgdatalen = Some (b', n) /\
    length b' = length b /\
    (t <= 0xFFFFFF ->
       n = 12 /\ UintBE (slice 1 4 b') = t /\ drop 12 b' = drop 12 b) /\
    (0xFFFFFF < t ->
       n = 16 /\ UintBE (slice 1 4 b') = 0xFFFFFF /\
       slice 12 16 b' = PutUintBE 4 t /\ UintBE (slice 12 16 b') = t /\
       drop 16 b' = drop 16 b) /\
    (n = 16 <-> 0xFFFFFF + 1 <= t).
Proof.
  intros Ht H12 H16.
  pose proof (chunk_header_length csid t msgtypeid msgsid msgdatalen) as Hlen.
  pose proof (fillChunkHeader_layout b csid t msgtypeid msgsid msgdatalen) as Hlay.
  unfold chunk_header in *. rewrite (u32_nonneg_int32 t Ht) in *.
  unfold FlvTimestampMax in *.
  destruct (Z.leb_spec t 0xFFFFFF) as [Hle|Hgt].
  - assert (Hg : (t >? 0xFFFFFF) = false) by lia. rewrite Hg in *.
    rewrite Hlen in Hlay. specialize (Hlay H12).
    eexists _, _. split; [exact Hlay|].
    split; [|split; [|split]].
    + rewrite length_app, length_drop, Hlen. lia.
    + intros _. split; [reflexivity|]. split.
      * unfold slice. cbn [app skipn Nat.sub]. rewrite ?drop_0.
        rewrite <- !app_assoc, take_app_length' by now rewrite PutUintBE_length.
        apply UintBE_PutUintBE_small. simpl Z.of_nat.
        change (256 ^ 3) with (0xFFFFFF + 1). lia.
      * rewrite drop_app_length'; [reflexivity|]. now rewrite Hlen.
    + intros Hc. lia.
    + split; intros; lia.
  - assert (Hg : (t >? 0xFFFFFF) = true) by lia. rewrite Hg in *.
    rewrite Hlen in Hlay. specialize (Hlay (H16 Hgt)).
    eexists _, _. split; [exact Hlay|].
    split; [|split; [|split]].
    + rewrite length_app, length_drop, Hlen. specialize (H16 Hgt). lia.
    + intros Hc. lia.
    + intros _. split; [reflexivity|].
      assert (Hext : slice 12 16
           (([Z.land (u8 csid) 63] ++ PutUintBE 3 16777215
              ++ PutUintBE 3 (u32 msgdatalen) ++ [msgtypeid]
              ++ PutUintLE 4 msgsid ++ PutUintBE 4 t) ++ drop 16 b)
           = PutUintBE 4 t).
      { unfold slice.
        replace (([Z.land (u8 csid) 63] ++ PutUintBE 3 16777215
              ++ PutUintBE 3 (u32 msgdatalen) ++ [msgtypeid]
              ++ PutUintLE 4 msgsid ++ PutUintBE 4 t) ++ drop 16 b)
          with (([Z.land (u8 csid) 63] ++ PutUintBE 3 16777215
              ++ PutUintBE 3 (u32 msgdatalen) ++ [msgtypeid]
              ++ PutUintLE 4 msgsid) ++ PutUintBE 4 t ++ drop 16 b)
          by (rewrite <- !app_assoc; reflexivity).
        rewrite drop_app_length'
          by (rewrite !length_app, !PutUintBE_length, PutUintLE_length;
              reflexivity).
        apply take_app_length'. now rewrite PutUintBE_length. }
      split; [|split; [exact Hext|split]].
      * unfold slice. cbn [app skipn Nat.sub]. rewrite ?drop_0.
        rewrite <- !app_assoc, take_app_length' by now rewrite PutUintBE_length.
        reflexivity.
      * rewrite Hext. apply UintBE_PutUintBE_small. simpl Z.of_nat.
        change (256 ^ 4) with (2 ^ 32). lia.
      * rewrite drop_app_length'; [reflexivity|]. now rewrite Hlen.
    + split; intros; lia.
Qed.

Lemma fillChunkHeader_timestamp_witness :
  exists b' n,
    fillChunkHeader (replicate 18 0) 6 0x1000000 8 1 100 = Some (b', n) /\
    length b' = length (replicate 18 0) /\
    (0x1000000 <= 0xFFFFFF ->
       n = 12 /\ UintBE (slice 1 4 b') = 0x1000000 /\
       drop 12 b' = drop 12 (replicate 18 0)) /\
    (0xFFFFFF < 0x1000000 ->
       n = 16 /\ UintBE (slice 1 4 b') = 0xFFFFFF /\
       slice 12 16 b' = PutUintBE 4 0x1000000 /\
       UintBE (slice 12 16 b') = 0x1000000 /\
       drop 16 b' = drop 16 (replicate 18 0)) /\
    (n = 16 <-> 0xFFFFFF + 1 <= 0x1000000).
Proof.
  apply (fillChunkHeader_timestamp (replicate 18 0) 6 0x1000000 8 1 100).
  - lia.
  - simpl. lia.
  - intros _. simpl. lia.
Defined.

(** The boundary itself: 0xFFFFFF still fits the 24-bit field, 0xFFFFFF + 1
    is the first timestamp sent in extended form. *)
Example fillChunkHeader_boundary :
  fillChunkHeader (replicate 16 0) 6 0xFFFFFF 8 1 100
  = Some ([6; 255; 255; 255; 0; 0; 100; 8; 1; 0; 0; 0; 0; 0; 0; 0], 12)
  /\ fillChunkHeader (replicate 16 0) 6 0x1000000 8 1 100
  = Some ([6; 255; 255; 255; 0; 0; 100; 8; 1; 0; 0; 0; 1; 0; 0; 0], 16).
Proof. split; reflexivity. Qed.

End ChunkHeaderFacts.

(** ** media/protocol/rtmp: server handshake *)

Section HandshakeFacts.
Import Ints Rtmp.

Variable hmac_sha256 : list Z -> list Z -> list Z.
Variable rand : nat -> Z.

Lemma copy_at_length_le dst off src :
  (off <= length dst)%nat -> length (copy_at dst off src) = length dst.
Proof.
  intros H. unfold copy_at.
  rewrite !length_app, !length_take, length_drop. lia.
Qed.

Lemma slice_app3 (a m c : list Z) lo hi :
  length a = lo -> (lo + length m = hi)%nat -> slice lo hi (a ++ m ++ c) = m.
Proof.
  intros Ha Hm. unfold slice.
  rewrite drop_app_length' by now symmetry.
  apply take_app_length'. lia.
Qed.

Lemma copy_at_app3 (a m c : list Z) off src :
  length a = off -> length src = length m ->
  copy_at (a ++ m ++ c) off src = a ++ src ++ c.
Proof.
  intros Ha Hs. rewrite copy_at_fit by (rewrite !length_app; lia).
  rewrite take_app_length' by now symmetry.
  rewrite drop_app_ge by lia.
  replace (off + length src - length a)%nat with (length m) by lia.
  now rewrite drop_app_length.
Qed.

Lemma rand_Read_length pos n : length (rand_Read rand pos n) = n.
Proof. unfold rand_Read. now rewrite length_map, length_seq. Qed.

Lemma hsCreate01_length p rpos time ver key :
  length p = 1537%nat ->
  length (hsCreate01 hmac_sha256 rand p rpos time ver key) = 1537%nat.
Proof.
  intros Hp. unfold hsCreate01.
  set (p0 := copy_at p 0 [3]).
  assert (Hp0 : length p0 = 1537%nat)
    by (unfold p0; rewrite copy_at_length_le; lia).
  set (gap := hsCalcDigestPos _ _).
  assert (Hgap : (Z.to_nat gap <= 1536)%nat).
  { unfold gap, hsCalcDigestPos.
    match goal with |- context [Z.rem ?x 728] =>
      pose proof (Z.rem_bound_abs x 728 ltac:(lia)) end. lia. }
  assert (Hkeep : forall l off src,
            length l = 1536%nat -> (off <= 1536)%nat ->
            length (copy_at l off src) = 1536%nat)
    by (intros l off src Hl Ho; rewrite copy_at_length_le; lia).
  rewrite length_app, length_take, Hp0.
  rewrite Hkeep; [reflexivity| |exact Hgap].
  repeat (apply Hkeep; [|lia]).
  rewrite length_drop. lia.
Qed.

Lemma hsCreate2_shape (Hmac : forall k m, length (hmac_sha256 k m) = 32%nat)
    p rpos key :
  length p = 1536%nat ->
  hsCreate2 hmac_sha256 rand p rpos key
  = take 1504 (rand_Read rand rpos 1536)
    ++ hmac_sha256 key (take 1504 (rand_Read rand rpos 1536)).
Proof.
  intros Hp. unfold hsCreate2.
  assert (Hr : copy_at p 0 (rand_Read rand rpos (length p))
               = rand_Read rand rpos 1536).
  { rewrite Hp, copy_at_fit by (rewrite rand_Read_length; lia).
    rewrite rand_Read_length, take_0, drop_ge by lia. now rewrite app_nil_r. }
  rewrite Hr, rand_Read_length.
  change (Z.of_nat 1536 - 32) with 1504.
  unfold hsMakeDigest. change (1504 <=? 0) with false. cbv iota.
  change (Z.to_nat 1504) with 1504%nat.
  rewrite (drop_ge (rand_Read rand rpos 1536))
    by (rewrite rand_Read_length; lia).
  rewrite app_nil_r.
  rewrite copy_at_fit by (rewrite Hmac, rand_Read_length; lia).
  rewrite Hmac, (drop_ge (rand_Read rand rpos 1536))
    by (rewrite rand_Read_length; lia).
  now rewrite app_nil_r.
Qed.

Lemma slice_seg (X a m c : list Z) lo hi :
  X = a ++ m ++ c -> length a = lo -> (lo + length m = hi)%nat ->
  slice lo hi X = m.
Proof. intros ->. apply slice_app3. Qed.

Lemma copy_at_seg (X a m c : list Z) off src :
  X = a ++ m ++ c -> length a = off -> length src = length m ->
  copy_at X off src = a ++ src ++ c.
Proof. intros ->. apply copy_at_app3. Qed.

Lemma drop_seg (X a c : list Z) n :
  X = a ++ c -> length a = n -> drop n X = c.
Proof. intros -> <-. apply drop_app_length. Qed.

Lemma random_segments :
  replicate ((1 + 1536 * 2) * 2) 0
  = replicate 1537 0 ++ replicate 1536 0 ++ [0] ++ replicate 1536 0
    ++ replicate 1536 0.
Proof.
  change [0] with (replicate 1 0). rewrite <- !replicate_add. reflexivity.
Qed.

(** What the server has written when [HandshakeServer] returns, for a peer
    that sent a well-sized C0C1 with C0 = 3. *)
Definition server_sent (C1 : list Z) : list Z :=
  if negb (U32BE (slice 4 8 C1) =? 0) then
    match hsParse1 hmac_sha256 C1 hsClientPartialKey hsServerFullKey with
    | (true, digest) =>
        hsCreate01 hmac_sha256 rand ([3] ++ replicate 1536 0) 0
          (U32BE (slice 0 4 C1)) 0x0d0e0a0d hsServerPartialKey
        ++ hsCreate2 hmac_sha256 rand (replicate 1536 0) (1536 - 8) digest
    | (false, _) => []
    end
  else [3] ++ C1 ++ replicate 1536 0.

Lemma ReadFull_C0C1 (c : conn) (C1 rest : list Z) :
  length C1 = 1536%nat -> bufr c = 3 :: C1 ++ rest ->
  ReadFull c (1536 + 1) = (Some ([3] ++ C1), mkConn rest (bufw c) (stage c)).
Proof.
  intros HC1 Hin. unfold ReadFull. rewrite Hin.
  change (3 :: C1 ++ rest) with (([3] ++ C1) ++ rest).
  assert (Hl : length ([3] ++ C1) = (1536 + 1)%nat)
    by (rewrite length_app, HC1; reflexivity).
  rewrite <- Hl.
  rewrite take_app_length, drop_app_length.
  assert (Hle : (length ([3%Z] ++ C1) <=? length (([3%Z] ++ C1) ++ rest))%nat
                = true)
    by (apply Nat.leb_le; rewrite (length_app ([3] ++ C1)); lia).
  now rewrite Hle.
Qed.

(** The final read of C2 leaves what was written untouched. *)
Lemma read_C2_keeps_sent (c' : conn) (n : nat) (e : error) :
  bufw (match ReadFull c' n with
        | (None, c) => (c, Some e)
        | (Some _, c) => (mkConn (bufr c) (bufw c) (stage c + 1), None)
        end).1 = bufw c'.
Proof. unfold ReadFull. destruct (n <=? length (bufr c'))%nat; reflexivity. Qed.

Lemma HandshakeServer_sent (c : conn) (C1 rest : list Z) :
  length C1 = 1536%nat -> bufr c = 3 :: C1 ++ rest ->
  bufw (HandshakeServer hmac_sha256 rand c).1 = bufw c ++ server_sent C1.
Proof.
  intros HC1 Hin. unfold HandshakeServer, server_sent.
  rewrite (ReadFull_C0C1 c C1 rest HC1 Hin), random_segments.
  set (Zs := replicate 1536 0).
  assert (HZs : length Zs = 1536%nat) by apply length_replicate.
  assert (HR1 : copy_at (replicate 1537 0 ++ Zs ++ [0] ++ Zs ++ Zs) 0 ([3] ++ C1)
                = [3] ++ C1 ++ Zs ++ [0] ++ Zs ++ Zs).
  { rewrite (copy_at_seg _ [] (replicate 1537 0) (Zs ++ [0] ++ Zs ++ Zs));
      [now rewrite <- app_assoc | reflexivity | reflexivity |].
    rewrite length_app, HC1, length_replicate. reflexivity. }
  rewrite HR1. clear HR1.
  set (R1 := [3] ++ C1 ++ Zs ++ [0] ++ Zs ++ Zs).
  assert (HC0 : slice 0 1 R1 = [3])
    by (apply (slice_seg _ [] [3] (C1 ++ Zs ++ [0] ++ Zs ++ Zs)); reflexivity).
  rewrite HC0. change (negb (nth 0 [3] 0 =? 3)) with false. cbv iota.
  assert (HR2 : copy_at R1 (1536 * 2 + 1) [3]
                = [3] ++ C1 ++ Zs ++ [3] ++ Zs ++ Zs).
  { rewrite (copy_at_seg _ ([3] ++ C1 ++ Zs) [0] (Zs ++ Zs));
      [now rewrite <- !app_assoc | unfold R1; now rewrite <- !app_assoc
      | rewrite !length_app, HC1, HZs; reflexivity | reflexivity]. }
  rewrite HR2. clear HR2 HC0 R1.
  set (R2 := [3] ++ C1 ++ Zs ++ [3] ++ Zs ++ Zs).
  assert (HC1v : slice 1 (1536 + 1) R2 = C1).
  { apply (slice_seg _ [3] C1 (Zs ++ [3] ++ Zs ++ Zs));
      [reflexivity | reflexivity | rewrite HC1; reflexivity]. }
  assert (HC2v : slice (1536 + 1) (1536 * 2 + 1) R2 = Zs).
  { apply (slice_seg _ ([3] ++ C1) Zs ([3] ++ Zs ++ Zs));
      [unfold R2; now rewrite <- !app_assoc
      | rewrite length_app, HC1; reflexivity | rewrite HZs; reflexivity]. }
  assert (HS01 : slice (1536 * 2 + 1) (1536 * 2 + 1 + 1536 + 1) R2 = [3] ++ Zs).
  { apply (slice_seg _ ([3] ++ C1 ++ Zs) ([3] ++ Zs) Zs);
      [unfold R2; now rewrite <- !app_assoc
      | rewrite !length_app, HC1, HZs; reflexivity
      | rewrite !length_app, HZs; reflexivity]. }
  rewrite HC1v, HC2v, HS01.
  destruct (negb (U32BE (slice 4 8 C1) =? 0)).
  - destruct (hsParse1 _ C1 _ _) as [[|] digest]; cbn [negb].
    + set (H01 := hsCreate01 _ _ _ _ _ _ _).
      assert (HH01 : length H01 = 1537%nat)
        by (apply hsCreate01_length; rewrite length_app, HZs; reflexivity).
      assert (HR3 : copy_at R2 (1536 * 2 + 1) H01
                    = [3] ++ C1 ++ Zs ++ H01 ++ Zs).
      { rewrite (copy_at_seg _ ([3] ++ C1 ++ Zs) ([3] ++ Zs) Zs);
          [now rewrite <- !app_assoc | unfold R2; now rewrite <- !app_assoc
          | rewrite !length_app, HC1, HZs; reflexivity
          | rewrite HH01, length_app, HZs; reflexivity]. }
      rewrite HR3.
      assert (HS2 : drop (1536 * 2 + 1 + 1536 + 1) ([3] ++ C1 ++ Zs ++ H01 ++ Zs)
                    = Zs).
      { apply (drop_seg _ ([3] ++ C1 ++ Zs ++ H01));
          [now rewrite <- !app_assoc
          | rewrite !length_app, HC1, HZs, HH01; reflexivity]. }
      rewrite HS2.
      set (H2 := hsCreate2 _ _ _ _ _).
      assert (HH2 : length H2 = 1536%nat).
      { unfold H2, hsCreate2. rewrite !copy_at_length_le; rewrite ?copy_at_length_le;
          rewrite ?HZs; lia. }
      assert (HR4 : copy_at ([3] ++ C1 ++ Zs ++ H01 ++ Zs)
                      (1536 * 2 + 1 + 1536 + 1) H2
                    = [3] ++ C1 ++ Zs ++ H01 ++ H2).
      { rewrite (copy_at_seg _ ([3] ++ C1 ++ Zs ++ H01) Zs []);
          [now rewrite <- !app_assoc, ?app_nil_r
          | now rewrite <- !app_assoc, ?app_nil_r
          | rewrite !length_app, HC1, HZs, HH01; reflexivity
          | rewrite HH2, HZs; reflexivity]. }
      rewrite HR4.
      assert (Hsent : drop (1536 * 2 + 1) ([3] ++ C1 ++ Zs ++ H01 ++ H2)
                      = H01 ++ H2).
      { apply (drop_seg _ ([3] ++ C1 ++ Zs));
          [rewrite <- !app_assoc; reflexivity
          | rewrite !length_app, HC1, HZs; reflexivity]. }
      rewrite Hsent.
      apply read_C2_keeps_sent.
    + cbn [fst]. cbn [bufw]. now rewrite app_nil_r.
  - assert (HR3 : copy_at R2 (1536 * 2 + 1 + 1) C1
                  = [3] ++ C1 ++ Zs ++ [3] ++ C1 ++ Zs).
    { rewrite (copy_at_seg _ ([3] ++ C1 ++ Zs ++ [3]) Zs Zs);
        [now rewrite <- !app_assoc | unfold R2; now rewrite <- !app_assoc
        | rewrite !length_app, HC1, HZs; reflexivity
        | rewrite HC1, HZs; reflexivity]. }
    rewrite HR3.
    assert (HR4 : copy_at ([3] ++ C1 ++ Zs ++ [3] ++ C1 ++ Zs)
                    (1536 * 2 + 1 + 1536 + 1) Zs
                  = [3] ++ C1 ++ Zs ++ [3] ++ C1 ++ Zs).
    { rewrite (copy_at_seg _ ([3] ++ C1 ++ Zs ++ [3] ++ C1) Zs []);
        [now rewrite <- !app_assoc, ?app_nil_r
        | now rewrite <- !app_assoc, ?app_nil_r
        | rewrite !length_app, HC1, HZs; reflexivity
        | reflexivity]. }
    rewrite HR4.
    assert (Hsent : drop (1536 * 2 + 1) ([3] ++ C1 ++ Zs ++ [3] ++ C1 ++ Zs)
                    = [3] ++ C1 ++ Zs).
    { apply (drop_seg _ ([3] ++ C1 ++ Zs));
        [rewrite <- !app_assoc; reflexivity
        | rewrite !length_app, HC1, HZs; reflexivity]. }
    rewrite Hsent.
    apply read_C2_keeps_sent.
Qed.

Lemma hsParse1_found C1 pos :
  hsDigestPos hmac_sha256 C1 hsClientPartialKey = Some pos ->
  hsParse1 hmac_sha256 C1 hsClientPartialKey hsServerFullKey
  = (true, hmac_sha256 hsServerFullKey
             (slice (Z.to_nat pos) (Z.to_nat pos + 32) C1)).
Proof.
  unfold hsDigestPos, hsParse1.
  set (p := if hsFindDigest _ _ _ 772 =? -1 then _ else _).
  destruct (p =? -1); [discriminate|].
  intros [= ->]. reflexivity.
Qed.

(** C2. For a C1 with a nonzero version field whose embedded digest the
    server validates (at offset [pos]), the last 32 bytes of the S2 segment
    the server sends are HMAC-SHA256 of the first 1504 bytes of S2 under the
    key HMAC-SHA256(full 68-byte Flash-Media-Server key, client digest). *)
Theorem HandshakeServer_S2_digest (c : conn) (C1 rest : list Z) (pos : Z) :
  (forall k m, length (hmac_sha256 k m) = 32%nat) ->
  length C1 = 1536%nat ->
  bufr c = 3 :: C1 ++ rest ->
  U32BE (slice 4 8 C1) <> 0 ->
  hsDigestPos hmac_sha256 C1 hsClientPartialKey = Some pos ->
  exists sent,
    bufw (HandshakeServer hmac_sha256 rand c).1 = bufw c ++ sent /\
    length sent = (1 + 1536 + 1536)%nat /\
    length hsServerFullKey = 68%nat /\
    drop 1504 (S2_of sent)
    = hmac_sha256
        (hmac_sha256 hsServerFullKey
           (slice (Z.to_nat pos) (Z.to_nat pos + 32) C1))
        (take 1504 (S2_of sent)).
Proof.
  intros Hmac HC1 Hin Hver Hpos.
  eexists. split; [apply (HandshakeServer_sent c C1 rest HC1 Hin)|].
  unfold server_sent.
  apply Z.eqb_neq in Hver. rewrite Hver. cbn [negb].
  rewrite (hsParse1_found C1 pos Hpos).
  set (digest := hmac_sha256 hsServerFullKey _).
  set (H01 := hsCreate01 _ _ _ _ _ _ _).
  assert (HH01 : length H01 = 1537%nat)
    by (apply hsCreate01_length; rewrite length_app, length_replicate;
        reflexivity).
  rewrite (hsCreate2_shape Hmac) by apply length_replicate.
  set (R := take 1504 (rand_Read rand (1536 - 8) 1536)).
  assert (HR : length R = 1504%nat)
    by (unfold R; rewrite length_take, rand_Read_length; reflexivity).
  assert (HS2 : S2_of (H01 ++ R ++ hmac_sha256 digest R)
                = R ++ hmac_sha256 digest R).
  { unfold S2_of.
    apply (slice_seg _ H01 (R ++ hmac_sha256 digest R) []);
      [now rewrite app_nil_r | now rewrite HH01
      | rewrite length_app, HR, Hmac; reflexivity]. }
  rewrite HS2.
  split; [rewrite !length_app, HH01, HR, Hmac; reflexivity|].
  split; [reflexivity|].
  rewrite drop_app_length' by now rewrite HR.
  rewrite take_app_length' by now rewrite HR.
  reflexivity.
Qed.

(** The echo branch: what the server writes for a C1 whose version field is
    zero. S1 repeats C1; S2 is filled from the C2 view of the local buffer,
    which is read from the peer only after S0S1S2 has been written. *)
Lemma HandshakeServer_echo (c : conn) (C1 rest : list Z) :
  length C1 = 1536%nat ->
  bufr c = 3 :: C1 ++ rest ->
  U32BE (slice 4 8 C1) = 0 ->
  exists sent,
    bufw (HandshakeServer hmac_sha256 rand c).1 = bufw c ++ sent /\
    S0_of sent = [3] /\ S1_of sent = C1 /\ S2_of sent = replicate 1536 0.
Proof.
  intros HC1 Hin Hver.
  eexists. split; [apply (HandshakeServer_sent c C1 rest HC1 Hin)|].
  unfold server_sent. rewrite Hver. cbn [Z.eqb negb].
  split; [|split].
  - apply (slice_seg _ [] [3] (C1 ++ replicate 1536 0)); reflexivity.
  - apply (slice_seg _ [3] C1 (replicate 1536 0));
      [reflexivity | reflexivity | now rewrite HC1].
  - apply (slice_seg _ ([3] ++ C1) (replicate 1536 0) []);
      [now rewrite <- app_assoc, app_nil_r
      | rewrite length_app, HC1; reflexivity
      | rewrite length_replicate; reflexivity].
Qed.

(** C3, at a concrete client: C0 = 3 followed by a C1 with time 1, version 0
    and 1528 bytes of value 7. The server echoes C1 as S1, but the S2 it
    sends is 1536 zero bytes, not the received C1. *)
Theorem HandshakeServer_echo_S2_not_C1 :
  exists sent,
    bufw (HandshakeServer hmac_sha256 rand
            (mkConn (3 :: sample_C1_plain ++ replicate 1536 9) [] 0)).1 = sent /\
    S1_of sent = sample_C1_plain /\
    S2_of sent = replicate 1536 0 /\
    S2_of sent <> sample_C1_plain.
Proof.
  destruct (HandshakeServer_echo
              (mkConn (3 :: sample_C1_plain ++ replicate 1536 9) [] 0)
              sample_C1_plain (replicate 1536 9))
    as (sent & Hsent & _ & HS1 & HS2); [reflexivity..|].
  exists sent. split; [exact Hsent|]. split; [exact HS1|]. split; [exact HS2|].
  rewrite HS2. intros Heq.
  apply (f_equal (fun l => nth 3 l 0)) in Heq. discriminate Heq.
Qed.

End HandshakeFacts.

Section HandshakeWitness.
Import Ints Rtmp.

Lemma HandshakeServer_S2_digest_witness :
  exists sent,
    bufw (HandshakeServer sum_mac (fun n => Z.of_nat n `mod` 256)
            (mkConn (3 :: sample_C1_digest ++ replicate 1536 0) [] 0)).1
    = [] ++ sent /\
    length sent = (1 + 1536 + 1536)%nat /\
    length hsServerFullKey = 68%nat /\
    drop 1504 (S2_of sent)
    = sum_mac
        (sum_mac hsServerFullKey
           (slice (Z.to_nat 776) (Z.to_nat 776 + 32) sample_C1_digest))
        (take 1504 (S2_of sent)).
Proof.
  apply (HandshakeServer_S2_digest sum_mac (fun n => Z.of_nat n `mod` 256)
           (mkConn (3 :: sample_C1_digest ++ replicate 1536 0) [] 0)
           sample_C1_digest (replicate 1536 0) 776).
  - intros k m. unfold sum_mac. apply length_replicate.
  - vm_compute. reflexivity.
  - reflexivity.
  - vm_compute. discriminate.
  - vm_compute. reflexivity.
Defined.

End HandshakeWitness.

(** ** media/protocol/rtmp: reading chunks *)

Section RtmpChunkFacts.
Import Ints RtmpChunk.

Context {AMF Float AMFMap Tag ParseErr : Type}.
Variable zeroFloat : Float.
Variable zeroAMFMap : AMFMap.
Variable zeroTag : Tag.
Variable ParseAMF0Val : list Z -> ParseErr + AMF * Z.
Variable as_string : AMF -> option string.
Variable as_float64 : AMF -> option Float.
Variable as_AMFMap : AMF -> option AMFMap.
Variable TagOfType : Z -> Tag.
Variable Tag_FrameType : Tag -> Z.
Variable Tag_set_Data : Tag -> list Z -> Tag.
Variable ParseHeader : Tag -> list Z -> ParseErr + Tag * Z.
Variables TAG_AUDIO TAG_VIDEO TAG_SCRIPTDATA FRAME_KEY FRAME_INTER : Z.

#[local] Existing Instance step_bind.
#[local] Existing Instance step_ret.

Local Abbreviation conn := (RtmpChunk.conn AMF Float AMFMap Tag).
Local Abbreviation step := (RtmpChunk.step AMF Float AMFMap Tag ParseErr).
Local Abbreviation handleMsg :=
  (RtmpChunk.handleMsg zeroFloat zeroAMFMap ParseAMF0Val as_string as_float64
     as_AMFMap TagOfType Tag_FrameType Tag_set_Data ParseHeader TAG_AUDIO
     TAG_VIDEO TAG_SCRIPTDATA FRAME_KEY FRAME_INTER).
Local Abbreviation readChunk :=
  (RtmpChunk.readChunk zeroFloat zeroAMFMap ParseAMF0Val as_string as_float64
     as_AMFMap TagOfType Tag_FrameType Tag_set_Data ParseHeader TAG_AUDIO
     TAG_VIDEO TAG_SCRIPTDATA FRAME_KEY FRAME_INTER).
Local Abbreviation pollMsg_loop :=
  (RtmpChunk.pollMsg_loop zeroFloat zeroAMFMap ParseAMF0Val as_string
     as_float64 as_AMFMap TagOfType Tag_FrameType Tag_set_Data ParseHeader
     TAG_AUDIO TAG_VIDEO TAG_SCRIPTDATA FRAME_KEY FRAME_INTER).
Local Abbreviation pollMsg :=
  (RtmpChunk.pollMsg zeroFloat zeroAMFMap zeroTag ParseAMF0Val as_string
     as_float64 as_AMFMap TagOfType Tag_FrameType Tag_set_Data ParseHeader
     TAG_AUDIO TAG_VIDEO TAG_SCRIPTDATA FRAME_KEY FRAME_INTER).

Local Abbreviation acknowledge := (RtmpChunk.acknowledge (ParseErr:=ParseErr)).
Local Abbreviation header0 := (RtmpChunk.header0 (ParseErr:=ParseErr)).
Local Abbreviation header1 := (RtmpChunk.header1 (ParseErr:=ParseErr)).
Local Abbreviation header2 := (RtmpChunk.header2 (ParseErr:=ParseErr)).
Local Abbreviation header3 := (RtmpChunk.header3 (ParseErr:=ParseErr)).

(** A read of [k] bytes that are there. *)
Lemma read_b_app (k : nat) (wrap : ioerr -> error ParseErr) (c : conn)
    (pre rest : list Z) :
  bufr c = pre ++ rest -> length pre = k -> (k <= length (readbuf c))%nat ->
  read_b k wrap c
  = Go (set_readbuf (pre ++ drop k (readbuf c)) (set_bufr rest c)).
Proof.
  intros Hb Hk Hrb. unfold read_b, short.
  destruct (Nat.ltb_spec (length (readbuf c)) k) as [|_]; [lia|].
  rewrite Hb, length_app.
  destruct (Nat.leb_spec k (length pre + length rest)) as [_|]; [|lia].
  rewrite take_app_length' by (symmetry; exact Hk).
  rewrite drop_app_length' by (symmetry; exact Hk).
  now rewrite Hk.
Qed.

(** The part of [readChunk] that follows the headers: the chunk's share of
    the message is read, a message that is complete is handled, and the
    bytes are acknowledged. *)
Definition body (csid : Z) (cs : chunkStream.t) (n : Z) (c : conn)
  : step conn :=
  let size := chunkStream.msgdataleft cs in
  let size := if size >? readMaxChunkSize c
              then readMaxChunkSize c else size in
  let off := u32 (chunkStream.msgdatalen cs - chunkStream.msgdataleft cs) in
  if negb ((off <=? off + size)
           && (off + size <=? len (chunkStream.msgdata cs)))
  then NoReturn
  else
    let got := take (Z.to_nat size) (bufr c) in
    let e := short (Z.to_nat size) (bufr c) in
    let cs := chunkStream.set_msgdata
                (take (Z.to_nat off) (chunkStream.msgdata cs) ++ got
                 ++ drop (Z.to_nat off + length got)
                      (chunkStream.msgdata cs)) cs in
    let c := set_bufr (drop (Z.to_nat size) (bufr c)) c in
    match e with
    | Some e => Return (store_cs csid cs c) (Some (ErrReadData e size off))
    | None =>
        let n := n + size in
        let cs := chunkStream.set_msgdataleft
                    (u32 (chunkStream.msgdataleft cs - u32 size)) cs in
        let c := store_cs csid cs c in
        c ← (if chunkStream.msgdataleft cs =? 0
             then call (handleMsg (chunkStream.timenow cs)
                          (chunkStream.msgsid cs)
                          (chunkStream.msgtypeid cs)
                          (chunkStream.msgdata cs) c)
             else Go c);
        acknowledge n c
    end.

(** The switch on the header type. *)
Definition headers (msghdrtype csid : Z) (cs : chunkStream.t) (n : Z)
    (c : conn) : step (conn * chunkStream.t * Z) :=
  if msghdrtype =? 0 then header0 msghdrtype csid cs n c
  else if msghdrtype =? 1 then header1 msghdrtype csid cs n c
  else if msghdrtype =? 2 then header2 msghdrtype csid cs n c
  else if msghdrtype =? 3 then header3 msghdrtype csid cs n c
  else Return c (Some (ErrInvalidHeaderType msghdrtype csid)).

(** The basic header: the chunk stream id in one, two or three bytes. *)
Definition basic (msghdrtype csid : Z) (n : Z) (c : conn)
  : step (conn * Z * Z) :=
  if csid =? 0 then
    c ← read_b 1 (ErrBasicHeader msghdrtype 0) c;
    Go (c, u32 (nth 0 (readbuf c) 0 + 64), n + 1)
  else if csid =? 1 then
    c ← read_b 2 (ErrBasicHeader msghdrtype 1) c;
    Go (c, u32 (UintBE (take 2 (readbuf c)) + 64), n + 2)
  else Go (c, csid, n).

Lemma readChunk_eq (c : conn) :
  readChunk c
  = run (c ← read_b 1 ErrFirstByte c;
         let header := nth 0 (readbuf c) 0 in
         let msghdrtype := Z.shiftr header 6 in
         '(c, csid, n) ← basic msghdrtype (Z.land (u32 header) 0x3f) 1 c;
         let cs := default chunkStream.zero (readcsmap c !! csid) in
         '(c, cs, n) ← headers msghdrtype csid cs n (store_cs csid cs c);
         body csid cs n c).
Proof. reflexivity. Qed.


(** The first byte of a chunk: header type and chunk stream id. *)
Lemma first_byte_type0 (x : Z) :
  let b0 := Z.land x 0x3f in
  0 <= b0 < 64 /\ Z.shiftr b0 6 = 0 /\ Z.land (u32 b0) 0x3f = b0.
Proof.
  intros b0.
  assert (Hb : b0 = x `mod` 2 ^ 6) by (apply (land_mask x 6); lia).
  assert (Hr : 0 <= b0 < 64) by (rewrite Hb; apply Z.mod_pos_bound; lia).
  split; [exact Hr|]. split.
  - rewrite Z.shiftr_div_pow2 by lia. apply Z.div_small. lia.
  - unfold u32. rewrite wrap_small by lia.
    change 0x3f with (2 ^ 6 - 1). rewrite land_mask by lia.
    apply Z.mod_small. lia.
Qed.

Lemma first_byte_type3 (csid : Z) :
  0 <= csid < 64 ->
  let b0 := Z.lor 0xC0 csid in
  0 <= b0 < 256 /\ Z.shiftr b0 6 = 3 /\ Z.land (u32 b0) 0x3f = csid.
Proof.
  intros H b0. subst b0.
  assert (E : forallb (fun x => (0 <=? Z.lor 0xC0 x) && (Z.lor 0xC0 x <? 256)
                        && (Z.shiftr (Z.lor 0xC0 x) 6 =? 3)
                        && (Z.land (u32 (Z.lor 0xC0 x)) 0x3f =? x))
                (seqZ 0 64) = true) by (vm_compute; reflexivity).
  rewrite forallb_forall in E. specialize (E csid).
  rewrite <- list_elem_of_In, elem_of_seqZ in E.
  specialize (E ltac:(lia)).
  rewrite !andb_true_iff in E. lia.
Qed.

(** The eleven bytes of a type 0 message header, as [fillChunkHeader]
    lays them down. *)
Definition message_header (tsf msgdatalen msgtypeid msgsid : Z) : list Z :=
  PutUintBE 3 tsf ++ PutUintBE 3 msgdatalen ++ [msgtypeid]
  ++ PutUintLE 4 msgsid.

Lemma UintLE_PutUintLE (n : nat) (v : Z) :
  0 <= v -> UintLE (PutUintLE n v) = v `mod` 256 ^ Z.of_nat n.
Proof.
  revert v. induction n as [|k IH]; intros v Hv.
  - simpl. now rewrite Z.mod_1_r.
  - cbn [PutUintLE UintLE fold_right]. fold (UintLE (PutUintLE k (Z.shiftr v 8))).
    rewrite IH by (apply Z.shiftr_nonneg; lia).
    rewrite Z.lor_comm, lor_shiftl8 by (apply Z.mod_pos_bound; lia).
    rewrite Z.shiftr_div_pow2 by lia. change (2 ^ 8) with 256.
    rewrite Nat2Z.inj_succ, Z.pow_succ_r by lia.
    assert (0 < 256 ^ Z.of_nat k) by (apply Z.pow_pos_nonneg; lia).
    rewrite Z.rem_mul_r by lia. lia.
Qed.

Lemma message_header_fields (tsf l typ sid : Z) :
  0 <= tsf < 2 ^ 24 -> 0 <= l < 2 ^ 24 -> 0 <= sid < 2 ^ 32 ->
  let h := message_header tsf l typ sid in
  length h = 11%nat /\
  UintBE (take 3 h) = tsf /\
  UintBE (take 3 (drop 3 h)) = l /\
  nth 6 h 0 = typ /\
  UintLE (take 4 (drop 7 h)) = sid.
Proof.
  intros Ht Hl Hs h. subst h. unfold message_header.
  split; [now rewrite !length_app, !PutUintBE_length, PutUintLE_length|].
  split.
  { rewrite take_app_length' by now rewrite PutUintBE_length.
    apply UintBE_PutUintBE_small. lia. }
  split.
  { rewrite drop_app_length' by now rewrite PutUintBE_length.
    rewrite take_app_length' by now rewrite PutUintBE_length.
    apply UintBE_PutUintBE_small. lia. }
  split.
  { rewrite !app_assoc. rewrite <- (app_assoc _ [typ]).
    rewrite app_nth2; rewrite !length_app, !PutUintBE_length; [|lia].
    reflexivity. }
  rewrite !app_assoc.
  rewrite drop_app_length'
    by (rewrite !length_app, !PutUintBE_length; reflexivity).
  rewrite take_ge by (rewrite PutUintLE_length; lia).
  rewrite UintLE_PutUintLE by lia. apply Z.mod_small. lia.
Qed.


(** *** Writers *)

(** A protocol control message on the wire: a type 0 chunk on chunk
    stream 2, time 0, message stream 0. *)
Definition control_message (msgtypeid : Z) (payload : list Z) : list Z :=
  chunk_header 2 0 msgtypeid 0 (len payload) ++ payload.

(** [c'] is [c] but for the write buffer and the bytes written. *)
Definition wrote (c c' : conn) (bytes : list Z) : Prop :=
  c' = set_bufw (bufw c ++ bytes) (set_writebuf (writebuf c') c) /\
  length (writebuf c') = Nat.max (length (writebuf c)) (length bytes).

Lemma control_write (typ : Z) (payload : list Z) (c : conn) :
  (0 < length payload)%nat -> len payload < 2 ^ 24 ->
  let '(c1, b) := tmpwbuf (Rtmp.chunkHeaderLength + len payload) c in
  exists b',
    Rtmp.fillChunkHeader b 2 0 typ 0 (len payload)
    = Some (chunk_header 2 0 typ 0 (len payload) ++ b', 12) /\
    length b' = (length b - 12)%nat /\
    (length payload <= length b')%nat /\
    c1 = set_writebuf b c /\
    length b = Nat.max (length (writebuf c)) (12 + length payload).
Proof.
  intros Hp Hl. unfold tmpwbuf, Rtmp.chunkHeaderLength, len in *.
  set (c1 := if _ <? _ then _ else c).
  assert (Hb : (12 + length payload <= length (writebuf c1))%nat /\
               c1 = set_writebuf (writebuf c1) c /\
               length (writebuf c1)
               = Nat.max (length (writebuf c)) (12 + length payload)).
  { subst c1. destruct (Z.ltb_spec (Z.of_nat (length (writebuf c)))
                          (12 + Z.of_nat (length payload))) as [Hlt|Hge].
    - cbn [writebuf set_writebuf]. rewrite length_replicate.
      split; [lia|]. split; [reflexivity|]. lia.
    - split; [lia|]. split; [now destruct c|]. lia. }
  destruct Hb as (Hlen & Hc1 & Hmax).
  exists (drop 12 (writebuf c1)).
  pose proof (chunk_header_length 2 0 typ 0 (Z.of_nat (length payload))) as Hh.
  change (u32 0 >? Rtmp.FlvTimestampMax) with false in Hh.
  rewrite fillChunkHeader_layout by (rewrite Hh; lia).
  rewrite Hh. change (u32 0 >? Rtmp.FlvTimestampMax) with false.
  rewrite length_drop. repeat split; try lia. exact Hc1.
Qed.


(** *** The share of a message that a chunk carries *)

Lemma body_reads (csid : Z) (cs : chunkStream.t) (n : Z) (c : conn)
    (piece rest : list Z) :
  bufr c = piece ++ rest ->
  0 <= chunkStream.msgdataleft cs <= chunkStream.msgdatalen cs ->
  chunkStream.msgdatalen cs < 2 ^ 32 ->
  len (chunkStream.msgdata cs) = chunkStream.msgdatalen cs ->
  0 <= readMaxChunkSize c ->
  len piece = Z.min (chunkStream.msgdataleft cs) (readMaxChunkSize c) ->
  body csid cs n c
  = (let off := chunkStream.msgdatalen cs - chunkStream.msgdataleft cs in
     let cs' := chunkStream.set_msgdataleft
                  (chunkStream.msgdataleft cs - len piece)
                  (chunkStream.set_msgdata
                     (take (Z.to_nat off) (chunkStream.msgdata cs) ++ piece
                      ++ drop (Z.to_nat off + length piece)
                           (chunkStream.msgdata cs)) cs) in
     let c' := store_cs csid cs' (set_bufr rest c) in
     c2 ← (if chunkStream.msgdataleft cs - len piece =? 0
           then call (handleMsg (chunkStream.timenow cs)
                        (chunkStream.msgsid cs) (chunkStream.msgtypeid cs)
                        (chunkStream.msgdata cs') c')
           else Go c');
     acknowledge (n + len piece) c2).
Proof.
  intros Hb Hleft Hlen Hdata Hmax Hpiece. unfold body.
  set (left := chunkStream.msgdataleft cs) in *.
  set (total := chunkStream.msgdatalen cs) in *.
  assert (Hsize : (if left >? readMaxChunkSize c
                   then readMaxChunkSize c else left) = len piece).
  { destruct (Z.gtb_spec left (readMaxChunkSize c)); lia. }
  cbv zeta. rewrite Hsize.
  assert (Hoff : u32 (total - left) = total - left)
    by (apply wrap_small; lia).
  rewrite Hoff, Hdata.
  destruct (Z.leb_spec (total - left) (total - left + len piece)) as [_|];
    [|unfold len in *; lia].
  destruct (Z.leb_spec (total - left + len piece) total) as [_|]; [|lia].
  cbn [andb negb].
  assert (Hn : Z.to_nat (len piece) = length piece) by (unfold len; lia).
  rewrite !Hn, Hb, take_app_length, drop_app_length.
  unfold short. rewrite length_app.
  destruct (Nat.leb_spec (length piece) (length piece + length rest)) as [_|];
    [|lia].
  cbn [chunkStream.msgdataleft chunkStream.set_msgdata
       chunkStream.set_msgdataleft chunkStream.timenow chunkStream.msgsid
       chunkStream.msgtypeid chunkStream.msgdata].
  fold left.
  assert (Hu : u32 (left - u32 (len piece)) = left - len piece).
  { unfold u32. rewrite (wrap_small 32 (len piece)) by (unfold len in *; lia).
    apply wrap_small. lia. }
  rewrite Hu. reflexivity.
Qed.


Lemma control_header_length (typ l : Z) :
  length (chunk_header 2 0 typ 0 l) = 12%nat.
Proof. now rewrite chunk_header_length. Qed.

Lemma writeAck_wrote (seqnum : Z) (c : conn) :
  exists c',
    writeAck seqnum c = Some c' /\
    wrote c c' (control_message msgtypeidAck (PutUintBE 4 seqnum)).
Proof.
  unfold writeAck, control_message.
  pose proof (control_write msgtypeidAck (PutUintBE 4 seqnum) c) as H.
  change (len (PutUintBE 4 seqnum)) with 4 in *.
  specialize (H ltac:(simpl; lia) ltac:(lia)).
  destruct (tmpwbuf (Rtmp.chunkHeaderLength + 4) c) as [c1 b].
  destruct H as (b' & Hfill & Hlb' & Hfit & Hc1 & Hmax).
  rewrite Hfill. cbn [mbind option_bind].
  unfold Rtmp.PutU32BE. change (Z.to_nat 12) with 12%nat.
  rewrite store_app by (try apply control_header_length; exact Hfit).
  cbn [mbind option_bind]. eexists. split; [reflexivity|].
  unfold wrote, write. change (Z.to_nat (12 + 4)) with 16%nat.
  rewrite take_app_length'
    by (rewrite length_app, control_header_length; reflexivity).
  subst c1. cbn [bufw writebuf set_bufw set_writebuf]. split; [reflexivity|].
  rewrite !length_app, control_header_length, length_drop, Hlb'.
  rewrite PutUintBE_length in *. lia.
Qed.


(** [c'] is [c] but for the count of bytes to acknowledge, the write
    buffer and the bytes written. *)
Definition acked (c c' : conn) : Prop :=
  c' = set_ackn (ackn c') (set_bufw (bufw c') (set_writebuf (writebuf c') c)).

Lemma acknowledge_spec (n : Z) (c : conn) :
  exists c',
    acknowledge n c = Go c' /\ acked c c' /\
    let a := u32 (ackn c + u32 n) in
    if negb (readAckSize c =? 0) && (a >? readAckSize c)
    then ackn c' = 0 /\
         bufw c' = bufw c ++ control_message msgtypeidAck (PutUintBE 4 a)
    else ackn c' = a /\ bufw c' = bufw c /\ writebuf c' = writebuf c.
Proof.
  unfold acknowledge. cbn [ackn readAckSize set_ackn].
  destruct (negb (readAckSize c =? 0)
            && (u32 (ackn c + u32 n) >? readAckSize c)).
  - destruct (writeAck_wrote (u32 (ackn c + u32 n))
                (set_ackn (u32 (ackn c + u32 n)) c)) as (c' & -> & Hw & _).
    eexists. split; [reflexivity|]. rewrite Hw. unfold acked.
    cbn [ackn bufw writebuf set_ackn set_bufw set_writebuf].
    repeat split.
  - eexists. split; [reflexivity|]. unfold acked.
    cbn [ackn bufw writebuf set_ackn set_bufw set_writebuf].
    repeat split.
Qed.

(** *** A type 0 header *)

Lemma header0_reads (csid : Z) (cs : chunkStream.t) (n : Z) (c : conn)
    (h wire : list Z) :
  bufr c = h ++ wire -> length h = 11%nat ->
  (11 <= length (readbuf c))%nat ->
  chunkStream.msgdataleft cs = 0 ->
  let cs1 := chunkStream.set_msgsid (UintLE (take 4 (drop 7 h)))
               (chunkStream.set_msgtypeid (nth 6 h 0)
                  (chunkStream.set_msgdatalen (UintBE (take 3 (drop 3 h)))
                     (chunkStream.set_msghdrtype 0 cs))) in
  let c1 := set_readbuf (h ++ drop 11 (readbuf c)) (set_bufr wire c) in
  header0 0 csid cs n c
  = if UintBE (take 3 h) =? 0xffffff then
      c2 ← leaving csid cs1 (read_b 4 (ErrReadExtTimestamp 0 csid) c1);
      Go (c2,
          chunkStream.Start
            (chunkStream.set_timenow (UintBE (take 4 (readbuf c2)))
               (chunkStream.set_hastimeext true cs1)),
          n + 11 + 4)
    else
      Go (c1,
          chunkStream.Start
            (chunkStream.set_timenow (UintBE (take 3 h))
               (chunkStream.set_hastimeext false cs1)),
          n + 11).
Proof.
  intros Hb Hh Hrb Hleft cs1 c1. unfold header0. rewrite Hleft.
  cbn [Z.eqb negb].
  rewrite (read_b_app 11 _ c h wire Hb Hh Hrb). cbn [mbind step_bind].
  fold c1. cbn [readbuf set_readbuf c1].
  rewrite take_app_length' by (symmetry; exact Hh).
  unfold len. rewrite Hh. change (Z.of_nat 11) with 11.
  fold cs1. unfold ext_timestamp.
  destruct (UintBE (take 3 h) =? 0xffffff).
  - destruct (leaving csid cs1 (read_b 4 (ErrReadExtTimestamp 0 csid) c1));
      reflexivity.
  - reflexivity.
Qed.


Lemma store_cs_twice (csid : Z) (cs cs' : chunkStream.t) (c : conn) :
  store_cs csid cs' (store_cs csid cs c) = store_cs csid cs' c.
Proof.
  unfold store_cs. cbn [readcsmap set_readcsmap].
  now rewrite insert_insert_eq.
Qed.

(** *** A message in one chunk *)

(** A type 0 chunk that holds a whole message: first byte, message header,
    the extended timestamp when the 24-bit field is 0xffffff, and the
    data. *)
Lemma readChunk_message (c : conn) (csid tsf typ sid : Z)
    (ext data rest : list Z) :
  bufr c = csid :: message_header tsf (len data) typ sid
                   ++ ext ++ data ++ rest ->
  2 <= csid < 64 -> 0 <= tsf < 2 ^ 24 -> len data < 2 ^ 24 ->
  0 <= sid < 2 ^ 32 ->
  length ext = (if tsf =? 0xffffff then 4%nat else 0%nat) ->
  len data <= readMaxChunkSize c ->
  (11 <= length (readbuf c))%nat ->
  let cs0 := default chunkStream.zero (readcsmap c !! csid) in
  chunkStream.msgdataleft cs0 = 0 ->
  exists rb,
    length rb = length (readbuf c) /\
    let time := if tsf =? 0xffffff then UintBE ext else tsf in
    let cs := chunkStream.mk time (chunkStream.timedelta cs0)
                (tsf =? 0xffffff) sid typ (len data) 0 0 data in
    let c1 := store_cs csid cs (set_readbuf rb (set_bufr rest c)) in
    readChunk c
    = run (c2 ← call (handleMsg time sid typ data c1);
           acknowledge (12 + len ext + len data) c2).
Proof.
  intros Hb Hcsid Htsf Hlen Hsid Hext Hmax Hrb cs0 Hidle.
  pose proof (message_header_fields tsf (len data) typ sid Htsf
                ltac:(unfold len in *; lia) Hsid) as Hf.
  cbv zeta in Hf. set (h := message_header tsf (len data) typ sid) in *.
  destruct Hf as (Hh & Hts & Hdl & Hty & Hms).
  rewrite readChunk_eq.
  rewrite (read_b_app 1 _ c [csid] (h ++ ext ++ data ++ rest));
    [| exact Hb | reflexivity | lia].
  cbn [mbind step_bind]. cbn [readbuf set_readbuf app nth].
  assert (Hty0 : Z.shiftr csid 6 = 0)
    by (rewrite Z.shiftr_div_pow2 by lia; apply Z.div_small; lia).
  assert (Hid : Z.land (u32 csid) 0x3f = csid).
  { unfold u32. rewrite wrap_small by lia.
    change 0x3f with (2 ^ 6 - 1). rewrite land_mask by lia.
    apply Z.mod_small. lia. }
  rewrite Hty0, Hid. unfold basic.
  destruct (Z.eqb_spec csid 0) as [|_]; [lia|].
  destruct (Z.eqb_spec csid 1) as [|_]; [lia|].
  cbn [mbind step_bind]. cbn [readcsmap set_readbuf set_bufr].
  fold cs0. unfold headers. cbn [Z.eqb].
  set (c0 := store_cs csid cs0 _).
  assert (Hb0 : bufr c0 = h ++ ext ++ data ++ rest) by reflexivity.
  assert (Hrb0 : (11 <= length (readbuf c0))%nat).
  { subst c0. cbn [readbuf store_cs set_readcsmap set_readbuf].
    cbn [length]. rewrite length_drop. lia. }
  rewrite (header0_reads csid cs0 1 c0 h _ Hb0 Hh Hrb0 Hidle).
  rewrite Hts, Hdl, Hty, Hms.
  set (cs1 := chunkStream.set_msgsid sid _).
  set (c1 := set_readbuf (h ++ _) _).
  assert (Hzeros : forall k : nat, drop k (replicate k 0) = [])
    by (intros k; apply drop_ge; rewrite length_replicate; lia).
  assert (Hn : Z.to_nat (len data) = length data) by (unfold len; lia).
  destruct (Z.eqb_spec tsf 0xffffff) as [Hx|Hx].
  - rewrite (read_b_app 4 _ c1 ext (data ++ rest));
      [| reflexivity | exact Hext
       | subst c1; cbn [readbuf set_readbuf]; rewrite length_app; lia].
    cbn [leaving mbind step_bind]. cbn [readbuf set_readbuf].
    rewrite take_app_length' by (symmetry; exact Hext).
    set (c2 := set_readbuf (ext ++ _) _).
    rewrite (body_reads csid _ _ c2 data rest);
      [| reflexivity | cbn; unfold len; lia | cbn; lia
       | cbn; unfold len; rewrite length_replicate; lia
       | subst c2 c1 c0; cbn; unfold len in *; lia
       | subst c2 c1 c0; cbn; unfold len in *; lia ].
    cbv zeta.
    cbn [chunkStream.msgdataleft chunkStream.msgdatalen chunkStream.msgdata
         chunkStream.timenow chunkStream.msgsid chunkStream.msgtypeid
         chunkStream.Start chunkStream.set_msgdata
         chunkStream.set_msgdataleft chunkStream.set_timenow
         chunkStream.set_hastimeext cs1 chunkStream.set_msgsid
         chunkStream.set_msgtypeid chunkStream.set_msgdatalen
         chunkStream.set_msghdrtype chunkStream.timedelta
         chunkStream.hastimeext chunkStream.msghdrtype].
    rewrite Z.sub_diag. cbn [Z.to_nat take Nat.add Z.eqb app].
    rewrite Hn, Hzeros, app_nil_r.
    exists (ext ++ drop 4 (h ++ drop 11 (csid :: drop 1 (readbuf c)))).
    split.
    + rewrite length_app, !length_drop, length_app, length_drop.
      cbn [length]. rewrite length_drop. lia.
    + subst c2 c1 c0. unfold store_cs.
      cbn [readcsmap set_readcsmap set_readbuf set_bufr readbuf bufr].
      rewrite insert_insert_eq.
      replace (1 + 11 + 4 + len data) with (12 + len ext + len data)
        by (unfold len; lia).
      reflexivity.
  - assert (Hext0 : ext = []).
    { destruct ext; [reflexivity|discriminate]. }
    subst ext. cbn [mbind step_bind].
    rewrite (body_reads csid _ _ c1 data rest);
      [| reflexivity | cbn; unfold len; lia | cbn; lia
       | cbn; unfold len; rewrite length_replicate; lia
       | subst c1 c0; cbn; unfold len in *; lia
       | subst c1 c0; cbn; unfold len in *; lia ].
    cbv zeta.
    cbn [chunkStream.msgdataleft chunkStream.msgdatalen chunkStream.msgdata
         chunkStream.timenow chunkStream.msgsid chunkStream.msgtypeid
         chunkStream.Start chunkStream.set_msgdata
         chunkStream.set_msgdataleft chunkStream.set_timenow
         chunkStream.set_hastimeext cs1 chunkStream.set_msgsid
         chunkStream.set_msgtypeid chunkStream.set_msgdatalen
         chunkStream.set_msghdrtype chunkStream.timedelta
         chunkStream.hastimeext chunkStream.msghdrtype].
    rewrite Z.sub_diag. cbn [Z.to_nat take Nat.add Z.eqb app].
    rewrite Hn, Hzeros, app_nil_r.
    exists (h ++ drop 11 (csid :: drop 1 (readbuf c))).
    split.
    + rewrite length_app, !length_drop. cbn [length].
      rewrite length_drop. lia.
    + subst c1 c0. unfold store_cs.
      cbn [readcsmap set_readcsmap set_readbuf set_bufr readbuf bufr].
      rewrite insert_insert_eq.
      replace (1 + 11 + len data) with (12 + len [] + len data)
        by (unfold len; cbn [length]; lia).
      reflexivity.
Qed.


Lemma chunk_header_message (csid ts typ sid l : Z) :
  0 <= l < 2 ^ 24 ->
  chunk_header csid ts typ sid l
  = Z.land (u8 csid) 0x3f
    :: message_header (if u32 ts <=? Rtmp.FlvTimestampMax
                       then u32 ts else Rtmp.FlvTimestampMax) l typ sid
    ++ (if u32 ts >? Rtmp.FlvTimestampMax
        then PutUintBE 4 (u32 ts) else []).
Proof.
  intros Hl. unfold chunk_header, message_header.
  unfold u32 at 3. rewrite (wrap_small 32 l) by lia.
  cbn [app]. now rewrite <- !app_assoc.
Qed.

(** What a reader finds after [fillChunkHeader] and the message data, for
    a time that is not 0xFFFFFF. *)
Lemma readChunk_chunk (c : conn) (csid ts typ sid : Z) (data rest : list Z) :
  let id := Z.land (u8 csid) 0x3f in
  let cs0 := default chunkStream.zero (readcsmap c !! id) in
  2 <= id -> u32 ts <> 0xFFFFFF -> len data < 2 ^ 24 -> 0 <= sid < 2 ^ 32 ->
  len data <= readMaxChunkSize c -> (11 <= length (readbuf c))%nat ->
  chunkStream.msgdataleft cs0 = 0 ->
  exists rb,
    length rb = length (readbuf c) /\
    let cs := chunkStream.mk (u32 ts) (chunkStream.timedelta cs0)
                (u32 ts >? Rtmp.FlvTimestampMax) sid typ (len data) 0 0
                data in
    let c1 := store_cs id cs (set_readbuf rb (set_bufr rest c)) in
    readChunk
      (set_bufr (chunk_header csid ts typ sid (len data) ++ data ++ rest) c)
    = run (c2 ← call (handleMsg (u32 ts) sid typ data c1);
           acknowledge
             ((if u32 ts >? Rtmp.FlvTimestampMax then 16 else 12) + len data)
             c2).
Proof.
  intros id cs0 Hid Hts Hlen Hsid Hmax Hrb Hidle.
  pose proof (first_byte_type0 (u8 csid)) as (Hr & _). fold id in Hr.
  assert (Hu : 0 <= u32 ts < 2 ^ 32) by (apply wrap_range; lia).
  unfold Rtmp.FlvTimestampMax in *.
  set (tsf := if u32 ts <=? 0xFFFFFF then u32 ts else 0xFFFFFF).
  set (ext := if u32 ts >? 0xFFFFFF then PutUintBE 4 (u32 ts) else []).
  assert (Htsf : 0 <= tsf < 2 ^ 24)
    by (subst tsf; destruct (Z.leb_spec (u32 ts) 0xFFFFFF); lia).
  assert (Hx : (tsf =? 0xffffff) = (u32 ts >? 0xFFFFFF)).
  { subst tsf. destruct (Z.leb_spec (u32 ts) 0xFFFFFF);
      destruct (Z.gtb_spec (u32 ts) 0xFFFFFF); lia. }
  destruct (readChunk_message
              (set_bufr (chunk_header csid ts typ sid (len data)
                         ++ data ++ rest) c)
              id tsf typ sid ext data rest) as (rb & Hlrb & Heq).
  - cbn [bufr set_bufr].
    rewrite chunk_header_message by (unfold len in *; lia).
    unfold Rtmp.FlvTimestampMax. fold tsf ext id.
    cbn [app]. now rewrite <- app_assoc.
  - lia.
  - exact Htsf.
  - exact Hlen.
  - exact Hsid.
  - rewrite Hx. subst ext. destruct (u32 ts >? 0xFFFFFF); reflexivity.
  - exact Hmax.
  - exact Hrb.
  - exact Hidle.
  - exists rb. split; [exact Hlrb|].
    cbv zeta in Heq |- *. rewrite Heq. clear Heq.
    cbn [readcsmap set_bufr]. fold cs0. rewrite Hx.
    assert (Htime : (if u32 ts >? 0xFFFFFF then UintBE ext else tsf) = u32 ts).
    { subst ext tsf. destruct (Z.gtb_spec (u32 ts) 0xFFFFFF).
      - apply UintBE_PutUintBE_small. lia.
      - destruct (Z.leb_spec (u32 ts) 0xFFFFFF); lia. }
    rewrite Htime.
    assert (Hn : 12 + len ext
                 = if u32 ts >? 0xFFFFFF then 16 else 12).
    { subst ext. destruct (u32 ts >? 0xFFFFFF); reflexivity. }
    rewrite Hn. reflexivity.
Qed.


(** How [readChunk] ends once a message is complete and [handleMsg] has
    been called, [handled] being what the handler gave: the read does not
    return when the handler does not; the handler's error is the read's;
    otherwise the [n] bytes of the chunk are added to the count to
    acknowledge, and an Ack message is written when the count passes a
    non-zero [readAckSize], the count starting again from 0. *)
Definition follows (handled result : option (conn * option (error ParseErr)))
    (n : Z) : Prop :=
  match handled with
  | None => result = None
  | Some (c2, Some e) => result = Some (c2, Some e)
  | Some (c2, None) =>
      exists c3,
        result = Some (c3, None) /\ acked c2 c3 /\
        let a := u32 (ackn c2 + u32 n) in
        if negb (readAckSize c2 =? 0) && (a >? readAckSize c2)
        then ackn c3 = 0 /\
             bufw c3 = bufw c2 ++ control_message msgtypeidAck (PutUintBE 4 a)
        else ackn c3 = a /\ bufw c3 = bufw c2 /\ writebuf c3 = writebuf c2
  end.

Lemma follows_run (handled : option (conn * option (error ParseErr)))
    (n : Z) :
  follows handled (run (c2 ← call handled; acknowledge n c2)) n.
Proof.
  unfold follows. destruct handled as [[c2 [e|]]|]; [reflexivity| |reflexivity].
  cbn [call mbind step_bind].
  destruct (acknowledge_spec n c2) as (c3 & -> & Hack & Hcount).
  exists c3. repeat split; assumption.
Qed.


(** X20. The chunk reader inverts the chunk header writer. For a chunk
    stream id whose low six bits are at least 2, a time other than
    0xFFFFFF and a message of less than 2^24 bytes that fits the reader's
    chunk size: when the reader's stream is idle and it is given the header
    [fillChunkHeader] wrote followed by the data, [readChunk] takes exactly
    these bytes, records the message on that chunk stream and calls
    [handleMsg] with the time, message stream id, type id and data that
    were written. *)
Theorem readChunk_reads_fillChunkHeader (b : list Z) (csid ts typ sid : Z)
    (data rest : list Z) (c : conn) :
  let id := Z.land (u8 csid) 0x3f in
  let cs0 := default chunkStream.zero (readcsmap c !! id) in
  (16 <= length b)%nat ->
  2 <= id -> u32 ts <> 0xFFFFFF -> len data < 2 ^ 24 -> 0 <= sid < 2 ^ 32 ->
  len data <= readMaxChunkSize c -> (11 <= length (readbuf c))%nat ->
  chunkStream.msgdataleft cs0 = 0 ->
  exists hdr n rb,
    Rtmp.fillChunkHeader b csid ts typ sid (len data) = Some (hdr, n) /\
    length rb = length (readbuf c) /\
    let cs := chunkStream.mk (u32 ts) (chunkStream.timedelta cs0)
                (u32 ts >? Rtmp.FlvTimestampMax) sid typ (len data) 0 0
                data in
    let c1 := store_cs id cs (set_readbuf rb (set_bufr rest c)) in
    follows (handleMsg (u32 ts) sid typ data c1)
      (readChunk (set_bufr (take (Z.to_nat n) hdr ++ data ++ rest) c))
      (n + len data).
Proof.
  intros id cs0 Hb Hid Hts Hlen Hsid Hmax Hrb Hidle.
  pose proof (chunk_header_length csid ts typ sid (len data)) as Hl.
  destruct (readChunk_chunk c csid ts typ sid data rest
              Hid Hts Hlen Hsid Hmax Hrb Hidle) as (rb & Hlrb & Heq).
  eexists _, _, rb. split.
  { apply fillChunkHeader_layout. rewrite Hl.
    destruct (u32 ts >? Rtmp.FlvTimestampMax); lia. }
  split; [exact Hlrb|]. cbv zeta in Heq |- *.
  replace (Z.to_nat (if u32 ts >? Rtmp.FlvTimestampMax then 16 else 12))
    with (length (chunk_header csid ts typ sid (len data)))
    by (rewrite Hl; destruct (u32 ts >? Rtmp.FlvTimestampMax); reflexivity).
  rewrite take_app_length, Heq. apply follows_run.
Qed.

(** X21. A time of exactly 0xFFFFFF is not read back. [fillChunkHeader]
    writes it in the 24-bit field of a 12-byte header, without an extended
    timestamp; [readChunk], finding 0xffffff there, takes the next four
    bytes (the first four bytes of the data) for the time and the bytes
    after them for the message, so that it calls [handleMsg] with a message
    that starts four bytes late. *)
Theorem readChunk_time_FFFFFF (b : list Z) (csid ts typ sid : Z)
    (data wire : list Z) (c : conn) :
  let id := Z.land (u8 csid) 0x3f in
  let cs0 := default chunkStream.zero (readcsmap c !! id) in
  (12 <= length b)%nat ->
  2 <= id -> u32 ts = 0xFFFFFF -> len data < 2 ^ 24 -> 0 <= sid < 2 ^ 32 ->
  len data <= readMaxChunkSize c -> (11 <= length (readbuf c))%nat ->
  chunkStream.msgdataleft cs0 = 0 ->
  (4 + length data <= length wire)%nat ->
  exists hdr rb,
    Rtmp.fillChunkHeader b csid ts typ sid (len data) = Some (hdr, 12) /\
    length rb = length (readbuf c) /\
    let time := UintBE (take 4 wire) in
    let msg := take (length data) (drop 4 wire) in
    let cs := chunkStream.mk time (chunkStream.timedelta cs0) true sid typ
                (len data) 0 0 msg in
    let c1 := store_cs id cs
                (set_readbuf rb
                   (set_bufr (drop (4 + length data) wire) c)) in
    follows (handleMsg time sid typ msg c1)
      (readChunk (set_bufr (take 12 hdr ++ wire) c))
      (16 + len data).
Proof.
  intros id cs0 Hb Hid Hts Hlen Hsid Hmax Hrb Hidle Hwire.
  pose proof (chunk_header_length csid ts typ sid (len data)) as Hl.
  pose proof (chunk_header_message csid ts typ sid (len data)
                ltac:(unfold len in *; lia)) as Hm.
  unfold Rtmp.FlvTimestampMax in *. rewrite Hts in Hl, Hm.
  cbn [Z.gtb Z.leb Z.compare Pos.compare Pos.compare_cont] in Hl, Hm.
  rewrite app_nil_r in Hm. fold id in Hm.
  set (ext := take 4 wire). set (msg := take (length data) (drop 4 wire)).
  set (rest := drop (4 + length data) wire).
  assert (Hw : wire = ext ++ msg ++ rest).
  { subst ext msg rest. rewrite <- drop_drop.
    now rewrite !take_drop. }
  assert (Hlmsg : len msg = len data).
  { subst msg. unfold len. rewrite length_take, length_drop. lia. }
  destruct (readChunk_message
              (set_bufr (chunk_header csid ts typ sid (len data) ++ wire) c)
              id 0xFFFFFF typ sid ext msg rest) as (rb & Hlrb & Heq).
  - cbn [bufr set_bufr]. rewrite Hm, Hlmsg, Hw. reflexivity.
  - pose proof (first_byte_type0 (u8 csid)) as (Hr & _). fold id in Hr. lia.
  - lia.
  - now rewrite Hlmsg.
  - exact Hsid.
  - subst ext. cbn [Z.eqb Pos.eqb]. rewrite length_take. lia.
  - now rewrite Hlmsg.
  - exact Hrb.
  - exact Hidle.
  - eexists _, rb. split.
    { rewrite fillChunkHeader_layout by (rewrite Hl; lia).
      unfold Rtmp.FlvTimestampMax. rewrite Hts. reflexivity. }
    split; [exact Hlrb|]. cbv zeta in Heq |- *.
    replace 12%nat with (length (chunk_header csid ts typ sid (len data)))
      by exact Hl.
    rewrite take_app_length, Heq. clear Heq.
    cbn [Z.eqb Pos.eqb readcsmap set_bufr]. fold cs0. rewrite Hlmsg.
    replace (12 + len ext + len data) with (16 + len data)
      by (subst ext; unfold len; rewrite length_take; lia).
    apply follows_run.
Qed.


(** *** Control messages *)

Ltac control_writer typ payload c :=
  let H := fresh "H" in
  let c1 := fresh "c1" in
  let b := fresh "b" in
  let b' := fresh "b'" in
  let Hfill := fresh "Hfill" in
  let Hlb' := fresh "Hlb'" in
  let Hfit := fresh "Hfit" in
  let Hc1 := fresh "Hc1" in
  let Hmax := fresh "Hmax" in
  pose proof (control_write typ payload c) as H;
  unfold len in H; rewrite ?length_app, ?PutUintBE_length in H;
  cbn [length Nat.add] in H;
  repeat match type of H with
         | context [Z.of_nat ?k] =>
             let v := eval vm_compute in (Z.of_nat k) in
             change (Z.of_nat k) with v in H
         end;
  specialize (H ltac:(lia) ltac:(lia));
  match type of H with
  | context [tmpwbuf ?n c] =>
      change (tmpwbuf n c) with (tmpwbuf n c) in H;
      destruct (tmpwbuf n c) as [c1 b]
  end;
  destruct H as (b' & Hfill & Hlb' & Hfit & Hc1 & Hmax);
  rewrite Hfill; cbn [mbind option_bind];
  unfold Rtmp.PutU32BE; change (Z.to_nat 12) with 12%nat.

Lemma writeSetChunkSize_wrote (size : Z) (c : conn) :
  exists c',
    writeSetChunkSize size c = Some c' /\
    wrote (set_writeMaxChunkSize size c) c'
      (control_message msgtypeidSetChunkSize (PutUintBE 4 (u32 size))).
Proof.
  unfold writeSetChunkSize, control_message.
  change (len (PutUintBE 4 (u32 size))) with 4.
  control_writer msgtypeidSetChunkSize (PutUintBE 4 (u32 size))
    (set_writeMaxChunkSize size c).
  rewrite store_app by (try apply control_header_length; exact Hfit).
  cbn [mbind option_bind]. eexists. split; [reflexivity|].
  unfold wrote, write. change (Z.to_nat (12 + 4)) with 16%nat.
  rewrite take_app_length'
    by (rewrite length_app, control_header_length; reflexivity).
  subst c1. cbn [bufw writebuf set_bufw set_writebuf set_writeMaxChunkSize].
  split; [reflexivity|].
  rewrite !length_app, control_header_length, length_drop, Hlb'.
  rewrite PutUintBE_length in *. cbn [writebuf set_writeMaxChunkSize] in Hmax.
  lia.
Qed.


Lemma writeWindowAckSize_wrote (size : Z) (c : conn) :
  exists c',
    writeWindowAckSize size c = Some c' /\
    wrote c c' (control_message msgtypeidWindowAckSize (PutUintBE 4 size)).
Proof.
  unfold writeWindowAckSize, control_message.
  change (len (PutUintBE 4 size)) with 4.
  control_writer msgtypeidWindowAckSize (PutUintBE 4 size) c.
  rewrite store_app by (try apply control_header_length; exact Hfit).
  cbn [mbind option_bind]. eexists. split; [reflexivity|].
  unfold wrote, write. change (Z.to_nat (12 + 4)) with 16%nat.
  rewrite take_app_length'
    by (rewrite length_app, control_header_length; reflexivity).
  subst c1. cbn [bufw writebuf set_bufw set_writebuf].
  split; [reflexivity|].
  rewrite !length_app, control_header_length, length_drop, Hlb'.
  rewrite PutUintBE_length in *. lia.
Qed.

Lemma writeSetPeerBandwidth_wrote (acksize limittype : Z) (c : conn) :
  exists c',
    writeSetPeerBandwidth acksize limittype c = Some c' /\
    wrote c c' (control_message msgtypeidSetPeerBandwidth
                  (PutUintBE 4 acksize ++ [limittype])).
Proof.
  unfold writeSetPeerBandwidth, control_message.
  change (len (PutUintBE 4 acksize ++ [limittype])) with 5.
  control_writer msgtypeidSetPeerBandwidth (PutUintBE 4 acksize ++ [limittype])
    c.
  rewrite store_app
    by (try apply control_header_length; rewrite PutUintBE_length; lia).
  cbn [mbind option_bind]. change (Z.to_nat (12 + 4)) with 16%nat.
  rewrite store_app;
    [| rewrite length_app, control_header_length, PutUintBE_length; reflexivity
     | rewrite length_drop, PutUintBE_length; cbn [length]; lia ].
  cbn [mbind option_bind]. eexists. split; [reflexivity|].
  unfold wrote, write. change (Z.to_nat (12 + 4 + 1)) with 17%nat.
  rewrite take_app_length'
    by (rewrite !length_app, control_header_length, PutUintBE_length;
        reflexivity).
  subst c1. cbn [bufw writebuf set_bufw set_writebuf].
  rewrite <- app_assoc. split; [reflexivity|].
  rewrite !length_app, control_header_length, !length_drop, Hlb'.
  rewrite !PutUintBE_length in *. cbn [length] in *. lia.
Qed.

Lemma writeStreamBegin_wrote (msgsid : Z) (c : conn) :
  exists c',
    writeStreamBegin msgsid c = Some c' /\
    wrote c c' (control_message msgtypeidUserControl
                  (PutUintBE 2 eventtypeStreamBegin ++ PutUintBE 4 msgsid)).
Proof.
  unfold writeStreamBegin, control_message.
  change (len (PutUintBE 2 eventtypeStreamBegin ++ PutUintBE 4 msgsid))
    with 6.
  control_writer msgtypeidUserControl
    (PutUintBE 2 eventtypeStreamBegin ++ PutUintBE 4 msgsid) c.
  rewrite store_app
    by (try apply control_header_length; rewrite PutUintBE_length; lia).
  cbn [mbind option_bind]. change (Z.to_nat (12 + 2)) with 14%nat.
  rewrite store_app;
    [| rewrite length_app, control_header_length, PutUintBE_length; reflexivity
     | rewrite length_drop, !PutUintBE_length; lia ].
  cbn [mbind option_bind]. eexists. split; [reflexivity|].
  unfold wrote, write. change (Z.to_nat (12 + 2 + 4)) with 18%nat.
  rewrite take_app_length'
    by (rewrite !length_app, control_header_length, !PutUintBE_length;
        reflexivity).
  subst c1. cbn [bufw writebuf set_bufw set_writebuf].
  rewrite <- app_assoc. split; [reflexivity|].
  rewrite !length_app, control_header_length, !length_drop, Hlb'.
  rewrite !PutUintBE_length in *. lia.
Qed.

Lemma writeSetBufferLength_wrote (msgsid timestamp : Z) (c : conn) :
  exists c',
    writeSetBufferLength msgsid timestamp c = Some c' /\
    wrote c c' (control_message msgtypeidUserControl
                  (PutUintBE 2 eventtypeSetBufferLength
                   ++ PutUintBE 4 msgsid ++ PutUintBE 4 timestamp)).
Proof.
  unfold writeSetBufferLength, control_message.
  change (len (PutUintBE 2 eventtypeSetBufferLength
               ++ PutUintBE 4 msgsid ++ PutUintBE 4 timestamp)) with 10.
  control_writer msgtypeidUserControl
    (PutUintBE 2 eventtypeSetBufferLength
     ++ PutUintBE 4 msgsid ++ PutUintBE 4 timestamp) c.
  rewrite store_app
    by (try apply control_header_length; rewrite PutUintBE_length; lia).
  cbn [mbind option_bind]. change (Z.to_nat (12 + 2)) with 14%nat.
  rewrite store_app;
    [| rewrite length_app, control_header_length, PutUintBE_length; reflexivity
     | rewrite length_drop, !PutUintBE_length; lia ].
  cbn [mbind option_bind]. change (Z.to_nat (12 + 2 + 4)) with 18%nat.
  rewrite store_app;
    [| rewrite !length_app, control_header_length, !PutUintBE_length;
       reflexivity
     | rewrite !length_drop, !PutUintBE_length; lia ].
  cbn [mbind option_bind]. eexists. split; [reflexivity|].
  unfold wrote, write. change (Z.to_nat (12 + 2 + 4 + 4)) with 22%nat.
  rewrite take_app_length'
    by (rewrite !length_app, control_header_length, !PutUintBE_length;
        reflexivity).
  subst c1. cbn [bufw writebuf set_bufw set_writebuf].
  rewrite <- !app_assoc. split; [reflexivity|].
  rewrite !length_app, control_header_length, !length_drop, Hlb'.
  rewrite !PutUintBE_length in *. lia.
Qed.

(** What [handleMsg] does with the message types it does not parse. *)
Definition plain (msgtypeid : Z) : Prop :=
  ~ In msgtypeid [msgtypeidCommandMsgAMF0; msgtypeidCommandMsgAMF3;
                  msgtypeidUserControl; msgtypeidDataMsgAMF0;
                  msgtypeidVideoMsg; msgtypeidAudioMsg;
                  msgtypeidSetChunkSize].

Lemma handleMsg_plain (ts sid typ : Z) (data : list Z) (c : conn) :
  plain typ ->
  handleMsg ts sid typ data c
  = Some (set_gotmsg true
            (set_timestamp ts (set_msgtypeid typ (set_msgdata data c))),
          None).
Proof.
  unfold plain, msgtypeidCommandMsgAMF0, msgtypeidCommandMsgAMF3,
    msgtypeidUserControl, msgtypeidDataMsgAMF0, msgtypeidVideoMsg,
    msgtypeidAudioMsg, msgtypeidSetChunkSize. cbn [In]. intros H.
  unfold RtmpChunk.handleMsg, msgtypeidCommandMsgAMF0,
    msgtypeidCommandMsgAMF3, msgtypeidUserControl, msgtypeidDataMsgAMF0,
    msgtypeidVideoMsg, msgtypeidAudioMsg, msgtypeidSetChunkSize.
  repeat match goal with
         | |- context [typ =? ?k] =>
             destruct (Z.eqb_spec typ k) as [?|_]; [lia|]
         end.
  reflexivity.
Qed.

Lemma handleMsg_UserControl (ts sid : Z) (data : list Z) (c : conn) :
  2 <= len data ->
  handleMsg ts sid msgtypeidUserControl data c
  = Some (set_gotmsg true
            (set_eventtype (UintBE (take 2 data))
               (set_timestamp ts
                  (set_msgtypeid msgtypeidUserControl
                     (set_msgdata data c)))),
          None).
Proof.
  intros H. unfold RtmpChunk.handleMsg. cbn [Z.eqb msgtypeidUserControl
    msgtypeidCommandMsgAMF0 msgtypeidCommandMsgAMF3 Pos.eqb].
  destruct (Z.ltb_spec (len data) 2); [lia|]. reflexivity.
Qed.

Lemma handleMsg_SetChunkSize (ts sid : Z) (data : list Z) (c : conn) :
  4 <= len data ->
  handleMsg ts sid msgtypeidSetChunkSize data c
  = Some (set_readMaxChunkSize (int (UintBE (take 4 data)))
            (set_timestamp ts
               (set_msgtypeid msgtypeidSetChunkSize (set_msgdata data c))),
          None).
Proof.
  intros H. unfold RtmpChunk.handleMsg. cbn [Z.eqb msgtypeidUserControl
    msgtypeidCommandMsgAMF0 msgtypeidCommandMsgAMF3 msgtypeidDataMsgAMF0
    msgtypeidVideoMsg msgtypeidAudioMsg msgtypeidSetChunkSize Pos.eqb].
  destruct (Z.ltb_spec (len data) 4); [lia|]. reflexivity.
Qed.


Lemma readChunk_control (r : conn) (typ : Z) (payload rest : list Z) :
  let cs0 := default chunkStream.zero (readcsmap r !! 2) in
  len payload < 2 ^ 24 -> len payload <= readMaxChunkSize r ->
  (11 <= length (readbuf r))%nat ->
  chunkStream.msgdataleft cs0 = 0 ->
  exists rb,
    length rb = length (readbuf r) /\
    let cs := chunkStream.mk 0 (chunkStream.timedelta cs0) false 0 typ
                (len payload) 0 0 payload in
    let c1 := store_cs 2 cs (set_readbuf rb (set_bufr rest r)) in
    readChunk (set_bufr (control_message typ payload ++ rest) r)
    = run (c2 ← call (handleMsg 0 0 typ payload c1);
           acknowledge (12 + len payload) c2).
Proof.
  intros cs0 Hlen Hmax Hrb Hidle.
  assert (Hid : 2 <= Z.land (u8 2) 0x3f) by (vm_compute; discriminate).
  assert (Hts : u32 0 <> 0xFFFFFF) by (vm_compute; discriminate).
  destruct (readChunk_chunk r 2 0 typ 0 payload rest Hid Hts Hlen
              ltac:(lia) Hmax Hrb Hidle) as (rb & Hl & Heq).
  exists rb. split; [exact Hl|]. unfold control_message.
  rewrite <- app_assoc. exact Heq.
Qed.

(** X22. A SetChunkSize written is a chunk size set. What
    [writeSetChunkSize] writes is one message; a reader whose chunk stream
    2 is idle, given these bytes, takes exactly them in one [readChunk],
    without error, and has its chunk size set to the size written (as a
    uint32). The message is not marked as got: [pollMsg] reads on. *)
Theorem SetChunkSize_roundtrip (size : Z) (w r : conn) (rest : list Z) :
  let cs0 := default chunkStream.zero (readcsmap r !! 2) in
  4 <= readMaxChunkSize r -> (11 <= length (readbuf r))%nat ->
  chunkStream.msgdataleft cs0 = 0 ->
  exists w' msg r',
    writeSetChunkSize size w = Some w' /\
    bufw w' = bufw w ++ msg /\ writeMaxChunkSize w' = size /\
    readChunk (set_bufr (msg ++ rest) r) = Some (r', None) /\
    bufr r' = rest /\ readMaxChunkSize r' = u32 size /\
    gotmsg r' = gotmsg r /\
    readcsmap r' !! 2
    = Some (chunkStream.mk 0 (chunkStream.timedelta cs0) false 0
              msgtypeidSetChunkSize 4 0 0 (PutUintBE 4 (u32 size))).
Proof.
  intros cs0 Hmax Hrb Hidle.
  destruct (writeSetChunkSize_wrote size w) as (w' & Hw & Hwrote & _).
  set (payload := PutUintBE 4 (u32 size)) in *.
  assert (Hlp : len payload = 4) by reflexivity.
  destruct (readChunk_control r msgtypeidSetChunkSize payload rest
              ltac:(lia) ltac:(lia) Hrb Hidle) as (rb & Hl & Heq).
  cbv zeta in Heq.
  rewrite handleMsg_SetChunkSize in Heq by lia.
  pose proof (follows_run
                (Some (set_readMaxChunkSize (int (UintBE (take 4 payload)))
                         (set_timestamp 0
                            (set_msgtypeid msgtypeidSetChunkSize
                               (set_msgdata payload
                                  (store_cs 2
                                     (chunkStream.mk 0
                                        (chunkStream.timedelta cs0) false 0
                                        msgtypeidSetChunkSize (len payload) 0
                                        0 payload)
                                     (set_readbuf rb (set_bufr rest r)))))),
                       None))
                (12 + len payload)) as Hf.
  fold cs0 in Heq. rewrite <- Heq in Hf.
  destruct Hf as (r' & Hr & Hack & _).
  exists w', (control_message msgtypeidSetChunkSize payload), r'.
  split; [exact Hw|]. rewrite Hwrote. cbn [bufw writeMaxChunkSize set_bufw
    set_writebuf set_writeMaxChunkSize].
  split; [reflexivity|]. split; [reflexivity|].
  split; [exact Hr|]. rewrite Hack.
  cbn [bufr readMaxChunkSize gotmsg readcsmap set_ackn set_bufw set_writebuf
       set_readMaxChunkSize set_timestamp set_msgtypeid set_msgdata store_cs
       set_readcsmap set_readbuf set_bufr].
  split; [reflexivity|]. split.
  { subst payload. rewrite take_ge by (rewrite PutUintBE_length; lia).
    rewrite UintBE_PutUintBE_small
      by (change (256 ^ Z.of_nat 4) with (2 ^ 32); apply wrap_range; lia).
    apply signed64_small.
    pose proof (wrap_range 32 size ltac:(lia)). unfold u32. lia. }
  split; [reflexivity|].
  now rewrite lookup_insert_eq.
Qed.


(** The writer's call [written] puts one message on the wire, and the
    reader [r], given it, gets it whole in one [readChunk]: type id
    [typ], time 0, data [payload]; [event] is the event type the reader
    then holds. *)
Definition delivered (w : conn) (written : option conn) (r : conn)
    (rest : list Z) (typ : Z) (payload : list Z) (event : Z) : Prop :=
  exists w' msg r',
    written = Some w' /\ bufw w' = bufw w ++ msg /\
    readChunk (set_bufr (msg ++ rest) r) = Some (r', None) /\
    bufr r' = rest /\ gotmsg r' = true /\
    msgtypeid r' = typ /\ timestamp r' = 0 /\ msgdata r' = payload /\
    eventtype r' = event /\ readMaxChunkSize r' = readMaxChunkSize r.

Lemma delivered_plain (w w' r : conn) (rest : list Z) (typ : Z)
    (payload : list Z) :
  wrote w w' (control_message typ payload) -> plain typ ->
  len payload < 2 ^ 24 -> len payload <= readMaxChunkSize r ->
  (11 <= length (readbuf r))%nat ->
  chunkStream.msgdataleft (default chunkStream.zero (readcsmap r !! 2)) = 0 ->
  delivered w (Some w') r rest typ payload (eventtype r).
Proof.
  intros (Hw & _) Hplain Hlen Hmax Hrb Hidle.
  destruct (readChunk_control r typ payload rest Hlen Hmax Hrb Hidle)
    as (rb & Hl & Heq).
  cbv zeta in Heq. rewrite handleMsg_plain in Heq by exact Hplain.
  match type of Heq with
  | _ = run (c2 ← call ?h; acknowledge ?n c2) =>
      pose proof (follows_run h n) as Hf
  end.
  rewrite <- Heq in Hf. destruct Hf as (r' & Hr & Hack & _).
  exists w', (control_message typ payload), r'.
  split; [reflexivity|]. split; [now rewrite Hw|].
  split; [exact Hr|]. rewrite Hack. repeat split.
Qed.

Lemma delivered_event (w w' r : conn) (rest : list Z) (payload : list Z) :
  wrote w w' (control_message msgtypeidUserControl payload) ->
  2 <= len payload < 2 ^ 24 -> len payload <= readMaxChunkSize r ->
  (11 <= length (readbuf r))%nat ->
  chunkStream.msgdataleft (default chunkStream.zero (readcsmap r !! 2)) = 0 ->
  delivered w (Some w') r rest msgtypeidUserControl payload
    (UintBE (take 2 payload)).
Proof.
  intros (Hw & _) Hlen Hmax Hrb Hidle.
  destruct (readChunk_control r msgtypeidUserControl payload rest
              ltac:(lia) Hmax Hrb Hidle) as (rb & Hl & Heq).
  cbv zeta in Heq. rewrite handleMsg_UserControl in Heq by lia.
  match type of Heq with
  | _ = run (c2 ← call ?h; acknowledge ?n c2) =>
      pose proof (follows_run h n) as Hf
  end.
  rewrite <- Heq in Hf. destruct Hf as (r' & Hr & Hack & _).
  exists w', (control_message msgtypeidUserControl payload), r'.
  split; [reflexivity|]. split; [now rewrite Hw|].
  split; [exact Hr|]. rewrite Hack. repeat split.
Qed.

Ltac sizes :=
  unfold len; rewrite ?length_app, ?PutUintBE_length; cbn [length]; lia.

(** X23. The other control messages arrive as written. What [writeAck],
    [writeWindowAckSize], [writeSetPeerBandwidth], [writeStreamBegin] and
    [writeSetBufferLength] write is one message each; a reader whose chunk
    stream 2 is idle and whose chunk size is at least 10 gets it in one
    [readChunk], without error, as a message of the type written, at time
    0, its data the values written, most significant byte first; for the
    two user control messages the reader's event type is the event
    written. *)
Theorem control_messages_delivered (w r : conn) (rest : list Z)
    (seqnum size acksize limittype msgsid timestamp : Z) :
  10 <= readMaxChunkSize r -> (11 <= length (readbuf r))%nat ->
  chunkStream.msgdataleft (default chunkStream.zero (readcsmap r !! 2)) = 0 ->
  delivered w (writeAck seqnum w) r rest msgtypeidAck
    (PutUintBE 4 seqnum) (eventtype r) /\
  delivered w (writeWindowAckSize size w) r rest msgtypeidWindowAckSize
    (PutUintBE 4 size) (eventtype r) /\
  delivered w (writeSetPeerBandwidth acksize limittype w) r rest
    msgtypeidSetPeerBandwidth (PutUintBE 4 acksize ++ [limittype])
    (eventtype r) /\
  delivered w (writeStreamBegin msgsid w) r rest msgtypeidUserControl
    (PutUintBE 2 eventtypeStreamBegin ++ PutUintBE 4 msgsid)
    eventtypeStreamBegin /\
  delivered w (writeSetBufferLength msgsid timestamp w) r rest
    msgtypeidUserControl
    (PutUintBE 2 eventtypeSetBufferLength ++ PutUintBE 4 msgsid
     ++ PutUintBE 4 timestamp)
    eventtypeSetBufferLength.
Proof.
  intros Hmax Hrb Hidle.
  assert (Hplain : forall t, In t [msgtypeidAck; msgtypeidWindowAckSize;
                                   msgtypeidSetPeerBandwidth] -> plain t).
  { intros t Ht. unfold plain. cbv in Ht |- *. intuition congruence. }
  split; [|split; [|split; [|split]]].
  - destruct (writeAck_wrote seqnum w) as (w' & -> & Hw).
    apply delivered_plain; try assumption;
      [apply Hplain; cbn; tauto | sizes | sizes].
  - destruct (writeWindowAckSize_wrote size w) as (w' & -> & Hw).
    apply delivered_plain; try assumption;
      [apply Hplain; cbn; tauto | sizes | sizes].
  - destruct (writeSetPeerBandwidth_wrote acksize limittype w)
      as (w' & -> & Hw).
    apply delivered_plain; try assumption;
      [apply Hplain; cbn; tauto | sizes | sizes].
  - destruct (writeStreamBegin_wrote msgsid w) as (w' & -> & Hw).
    apply (delivered_event w w' r rest _ Hw); try assumption; sizes.
  - destruct (writeSetBufferLength_wrote msgsid timestamp w)
      as (w' & -> & Hw).
    apply (delivered_event w w' r rest _ Hw); try assumption; sizes.
Qed.

End RtmpChunkFacts.

Section RtmpChunkExamples.
Import Ints RtmpChunk.

(** A connection as [NewConn] makes it, over flvio stand-ins that hold no
    value and parse nothing. *)
Definition fresh_conn : RtmpChunk.conn unit unit unit unit :=
  mkConn [] [] 0 (replicate 4096 0) (replicate 4096 0) 128 128 0 ∅ false ""
    tt tt [] false 0 [] 0 [] tt tt 0.

Definition no_amf : list Z -> unit + unit * Z := fun _ => inl tt.
Definition no_tag : unit -> list Z -> unit + unit * Z := fun _ _ => inl tt.
Definition no_string : unit -> option string := fun _ => None.
Definition none : unit -> option unit := fun _ => None.
Local Abbreviation readChunk :=
  (RtmpChunk.readChunk tt tt no_amf no_string none none (fun _ => tt) (fun _ => 0)
     (fun t _ => t) no_tag 8 9 18 1 2).
Local Abbreviation handleMsg :=
  (RtmpChunk.handleMsg tt tt no_amf no_string none none (fun _ => tt) (fun _ => 0)
     (fun t _ => t) no_tag 8 9 18 1 2).

Lemma readChunk_reads_fillChunkHeader_witness :
  let c := fresh_conn in
  let data := [1; 2; 3] in
  (exists hdr n rb,
     Rtmp.fillChunkHeader (replicate 16 0) 3 1000 msgtypeidAck 1 (len data)
     = Some (hdr, n) /\
     length rb = length (readbuf c) /\
     let cs := chunkStream.mk 1000 0 false 1 msgtypeidAck 3 0 0 data in
     let c1 := store_cs 3 cs (set_readbuf rb (set_bufr [7] c)) in
     follows (handleMsg 1000 1 msgtypeidAck data c1)
       (readChunk (set_bufr (take (Z.to_nat n) hdr ++ data ++ [7]) c))
       (n + 3)) /\
  match readChunk
          (set_bufr ([3; 0; 3; 232; 0; 0; 3; 3; 1; 0; 0; 0] ++ data ++ [7]) c)
  with
  | Some (c', None) =>
      msgdata c' = data /\ timestamp c' = 1000 /\ msgtypeid c' = msgtypeidAck
      /\ gotmsg c' = true /\ bufr c' = [7] /\ ackn c' = 15
  | _ => False
  end.
Proof.
  intros c data. split.
  - apply (readChunk_reads_fillChunkHeader tt tt no_amf no_string none none
             (fun _ => tt) (fun _ => 0) (fun t _ => t) no_tag 8 9 18 1 2
             (replicate 16 0) 3 1000 msgtypeidAck 1 data [7] c).
    + apply Nat.leb_le. vm_compute. reflexivity.
    + vm_compute. discriminate.
    + vm_compute. discriminate.
    + reflexivity.
    + lia.
    + vm_compute. discriminate.
    + apply Nat.leb_le. vm_compute. reflexivity.
    + reflexivity.
  - vm_compute. repeat split.
Defined.

Lemma readChunk_time_FFFFFF_witness :
  let c := fresh_conn in
  let data := [1; 2; 3; 4; 5; 6] in
  let wire := data ++ [7; 8; 9; 10] in
  (exists hdr rb,
     Rtmp.fillChunkHeader (replicate 16 0) 3 0xFFFFFF msgtypeidAck 1
       (len data) = Some (hdr, 12) /\
     length rb = length (readbuf c) /\
     let time := UintBE (take 4 wire) in
     let msg := take (length data) (drop 4 wire) in
     let cs := chunkStream.mk time 0 true 1 msgtypeidAck (len data) 0 0 msg in
     let c1 := store_cs 3 cs
                 (set_readbuf rb
                    (set_bufr (drop (4 + length data) wire) c)) in
     follows (handleMsg time 1 msgtypeidAck msg c1)
       (readChunk (set_bufr (take 12 hdr ++ wire) c))
       (16 + len data)) /\
  match readChunk
          (set_bufr ([3; 255; 255; 255; 0; 0; 6; 3; 1; 0; 0; 0] ++ wire) c)
  with
  | Some (c', None) =>
      msgdata c' = [5; 6; 7; 8; 9; 10] /\ timestamp c' = 0x01020304
      /\ bufr c' = []
  | _ => False
  end.
Proof.
  intros c data wire. split.
  - apply (readChunk_time_FFFFFF tt tt no_amf no_string none none
             (fun _ => tt) (fun _ => 0) (fun t _ => t) no_tag 8 9 18 1 2
             (replicate 16 0) 3 0xFFFFFF msgtypeidAck 1 data wire c).
    + apply Nat.leb_le. vm_compute. reflexivity.
    + vm_compute. discriminate.
    + reflexivity.
    + reflexivity.
    + lia.
    + vm_compute. discriminate.
    + apply Nat.leb_le. vm_compute. reflexivity.
    + reflexivity.
    + apply Nat.leb_le. vm_compute. reflexivity.
  - vm_compute. repeat split.
Defined.

Lemma SetChunkSize_roundtrip_witness :
  exists w' msg r',
    writeSetChunkSize 4096 fresh_conn = Some w' /\
    bufw w' = bufw fresh_conn ++ msg /\ writeMaxChunkSize w' = 4096 /\
    readChunk (set_bufr (msg ++ [7]) fresh_conn) = Some (r', None) /\
    bufr r' = [7] /\ readMaxChunkSize r' = u32 4096 /\
    gotmsg r' = gotmsg fresh_conn /\
    readcsmap r' !! 2
    = Some (chunkStream.mk 0 0 false 0 msgtypeidSetChunkSize 4 0 0
              (PutUintBE 4 (u32 4096))).
Proof.
  apply (SetChunkSize_roundtrip tt tt no_amf no_string none none
           (fun _ => tt) (fun _ => 0) (fun t _ => t) no_tag 8 9 18 1 2
           4096 fresh_conn fresh_conn [7]).
  - vm_compute. discriminate.
  - apply Nat.leb_le. vm_compute. reflexivity.
  - reflexivity.
Defined.

Lemma control_messages_delivered_witness :
  let c := fresh_conn in
  let delivered :=
    delivered tt tt no_amf no_string none none (fun _ => tt) (fun _ => 0)
      (fun t _ => t) no_tag 8 9 18 1 2 in
  delivered c (writeAck 5 c) c [] msgtypeidAck (PutUintBE 4 5) 0 /\
  delivered c (writeWindowAckSize 2500000 c) c [] msgtypeidWindowAckSize
    (PutUintBE 4 2500000) 0 /\
  delivered c (writeSetPeerBandwidth 2500000 2 c) c []
    msgtypeidSetPeerBandwidth (PutUintBE 4 2500000 ++ [2]) 0 /\
  delivered c (writeStreamBegin 1 c) c [] msgtypeidUserControl
    (PutUintBE 2 eventtypeStreamBegin ++ PutUintBE 4 1)
    eventtypeStreamBegin /\
  delivered c (writeSetBufferLength 1 100 c) c [] msgtypeidUserControl
    (PutUintBE 2 eventtypeSetBufferLength ++ PutUintBE 4 1
     ++ PutUintBE 4 100)
    eventtypeSetBufferLength.
Proof.
  apply (control_messages_delivered tt tt tt no_amf no_string none none
           (fun _ => tt) (fun _ => 0) (fun t _ => t) no_tag 8 9 18 1 2
           fresh_conn fresh_conn [] 5 2500000 2500000 2 1 100).
  - vm_compute. discriminate.
  - apply Nat.leb_le. vm_compute. reflexivity.
  - reflexivity.
Defined.

End RtmpChunkExamples.
(** ** media/protocol/hls: playlist target duration *)

Section HlsFacts.
Import Hls.

Lemma foldr_max_acc (d m : Z) (ds : list Z) :
  foldr Z.max (Z.max d m) ds = Z.max d (foldr Z.max m ds).
Proof. induction ds as [|x ds IH]; simpl; [reflexivity | rewrite IH; lia]. Qed.

Lemma max_ts_ms_nonneg ds : 0 <= max_ts_ms ds.
Proof. unfold max_ts_ms. induction ds; simpl; lia. Qed.

(** The running maximum of the playlist loop is the maximum over the keys
    found in the map. *)
Lemma gen_fold_maxDuration (m : gmap string TSItem) (keys : list string) st :
  maxDuration (fold_left (gen_step m) keys st)
  = foldr Z.max (maxDuration st) (map Duration (omap (fun k => m !! k) keys)).
Proof.
  revert st. induction keys as [|k keys IH]; intros st; [reflexivity|].
  cbn [fold_left omap list_omap]. rewrite IH. unfold gen_step.
  destruct (m !! k) as [v|]; [|reflexivity].
  cbn [maxDuration map foldr].
  rewrite <- foldr_max_acc. f_equal.
  destruct (Z.gtb_spec (Duration v) (maxDuration st)); lia.
Qed.

Lemma gen_fold_entries (m : gmap string TSItem) (keys : list string) st :
  w (fold_left (gen_step m) keys st)
  = w st ++ map (fun v => mkExtInf (Duration v) (Name v))
                (omap (fun k => m !! k) keys).
Proof.
  revert st. induction keys as [|k keys IH]; intros st.
  - simpl. now rewrite app_nil_r.
  - cbn [fold_left omap list_omap]. rewrite IH. unfold gen_step.
    destruct (m !! k) as [v|]; [|reflexivity].
    cbn [w map]. now rewrite <- app_assoc.
Qed.

Lemma record_all_tsDurationMax now items c :
  tsDurationMax (record_all now items c)
  = foldr Z.max (tsDurationMax c) (map (fun kv => Duration kv.2) items).
Proof.
  revert c. induction items as [|kv items IH]; intros c; [reflexivity|].
  unfold record_all in *. cbn [fold_left]. rewrite IH.
  cbn [genRecordM3U8PlayList tsDurationMax map foldr].
  rewrite <- foldr_max_acc. f_equal.
  destruct (Z.ltb_spec (tsDurationMax c) (Duration kv.2)); lia.
Qed.

Lemma record_all_entries now items c :
  entries (m3u8body (record_all now items c))
  = entries (m3u8body c)
    ++ map (fun kv => mkExtInf (Duration kv.2) (Name kv.2)) items.
Proof.
  revert c. induction items as [|kv items IH]; intros c.
  - simpl. now rewrite app_nil_r.
  - unfold record_all in *. cbn [fold_left]. rewrite IH.
    cbn [genRecordM3U8PlayList m3u8body entries map].
    now rewrite <- app_assoc.
Qed.

Lemma record_all_body_nonempty now items c :
  items <> [] -> body_Len0 (m3u8body (record_all now items c)) = false.
Proof.
  intros Hne. unfold body_Len0. rewrite record_all_entries.
  destruct items as [|kv items]; [congruence|].
  destruct (live_header _); [reflexivity|].
  destruct (entries (m3u8body c)); reflexivity.
Qed.

Lemma record_all_path now items c : path (record_all now items c) = path c.
Proof.
  revert c. induction items as [|kv items IH]; intros c; [reflexivity|].
  unfold record_all in *. cbn [fold_left]. now rewrite IH.
Qed.

(** How [x quot 1000 + 1] sits against the ceiling, for [x >= 0]. *)
Lemma quot_plus_1_vs_ceil (x : Z) :
  0 <= x ->
  Z.quot x 1000 + 1 = x `div` 1000 + 1 /\
  (x `mod` 1000 = 0 -> Z.quot x 1000 + 1 = ceil_div_1000 x + 1) /\
  (x `mod` 1000 <> 0 -> Z.quot x 1000 + 1 = ceil_div_1000 x).
Proof.
  intros Hx. rewrite Z.quot_div_nonneg by lia. unfold ceil_div_1000.
  pose proof (Z.div_mod x 1000 ltac:(lia)) as Hdm.
  pose proof (Z.mod_pos_bound x 1000 ltac:(lia)) as Hb.
  split; [reflexivity|]. split; intros Hm.
  - assert (- x = 1000 * (- (x `div` 1000))) by lia.
    assert (Hd : (- x) `div` 1000 = - (x `div` 1000))
      by (symmetry; apply Z.div_unique_exact; lia).
    lia.
  - assert (Hd : (- x) `div` 1000 = - (x `div` 1000) - 1)
      by (symmetry; apply Z.div_unique with (1000 - x `mod` 1000); lia).
    lia.
Qed.

(** The [#EXTINF] entry written for a segment, and the durations the
    entries of a playlist body give. *)
Definition ext_inf (v : TSItem) : ExtInf := mkExtInf (Duration v) (Name v).

Definition listed_ms (b : M3U8Body) : list Z := map inf_ms (entries b).

(** [max_ts_ms / 1000 + 1] over the entries of a body, in Go's division. *)
Definition target_of (b : M3U8Body) : Z :=
  Z.quot (max_ts_ms (listed_ms b)) 1000 + 1.

(** A record-mode cache between two calls: its body has no live header and
    [tsDurationMax] is the largest duration among the entries of the
    body. *)
Definition recording (c : TSCache) : Prop :=
  IsRecord c = true /\
  live_header (m3u8body c) = None /\
  tsDurationMax c = max_ts_ms (listed_ms (m3u8body c)).

(** A live cache between two calls: [tsDurationMax] is never raised. *)
Definition live (c : TSCache) : Prop :=
  IsRecord c = false /\ tsDurationMax c = 0.

Lemma max_ts_ms_snoc ds d : max_ts_ms (ds ++ [d]) = Z.max (max_ts_ms ds) d.
Proof.
  unfold max_ts_ms. rewrite foldr_app. cbn [foldr].
  rewrite foldr_max_acc. lia.
Qed.

Lemma recording_New i p : recording (NewTSCache i p 0).
Proof. repeat split. Qed.

Lemma recording_step now key item c :
  recording c -> recording (genRecordM3U8PlayList now key item c).
Proof.
  intros (Hr & Hh & Hm). split; [exact Hr|]. split; [exact Hh|].
  unfold listed_ms in *.
  cbn [genRecordM3U8PlayList tsDurationMax m3u8body entries].
  rewrite map_app. cbn [map inf_ms]. rewrite max_ts_ms_snoc, <- Hm.
  destruct (Z.ltb_spec (tsDurationMax c) (Duration item)); lia.
Qed.

Lemma recording_all now items : forall c,
  recording c -> recording (record_all now items c).
Proof.
  induction items as [|kv items IH]; intros c Hc; [exact Hc|].
  unfold record_all in *. cbn [fold_left]. apply IH.
  now apply recording_step.
Qed.

Lemma recording_Reset c : recording c -> recording (Reset c).
Proof. intros (Hr & _ & _). split; [exact Hr|]. split; reflexivity. Qed.

Lemma live_Reset c : live c -> live (Reset c).
Proof. intros (Hr & _). split; [exact Hr | reflexivity]. Qed.

Lemma Dump_cases c vod c' :
  DumpM3U8PlayList c = (Some vod, c') ->
  vod = mkVod (Z.quot (tsDurationMax c) 1000 + 1) (firstTsSeq c) (m3u8body c)
  /\ c' = Reset c /\ path c <> "" /\ body_Len0 (m3u8body c) = false.
Proof.
  unfold DumpM3U8PlayList.
  destruct (path c) as [|a p] eqn:Hp; [discriminate|].
  cbn [String.list_ascii_of_string length Nat.eqb orb].
  destruct (body_Len0 (m3u8body c)); [discriminate|].
  intros H. injection H as <- <-. repeat split. discriminate.
Qed.

Lemma genM3U8PlayList_body c :
  m3u8body (genM3U8PlayList c)
  = match ll c with
    | [] => emptyBody
    | _ :: _ =>
        mkBody (Some (Z.quot (max_ts_ms (map Duration (listed c))) 1000 + 1,
                      seq (fold_left (gen_step (lm c)) (drop 1 (ll c))
                             (mkGen 0 false 0 []))))
               (map ext_inf (listed c))
    end.
Proof.
  unfold genM3U8PlayList, listed.
  destruct (ll c) as [|k0 keys]; [reflexivity|].
  cbn [set_body m3u8body drop].
  now rewrite gen_fold_maxDuration, gen_fold_entries.
Qed.

Lemma listed_ms_ext_inf sq td l :
  listed_ms (mkBody (Some (td, sq)) (map ext_inf l)) = map Duration l.
Proof. unfold listed_ms. cbn [entries]. now rewrite map_map. Qed.

(** C9, as the code has it. Every playlist that is generated carries in
    [#EXT-X-TARGETDURATION] the value [max_ts_ms / 1000 + 1] in Go's integer
    division, where [max_ts_ms] is the largest duration among the entries
    the playlist lists (0 if it lists none). For the live playlist of any
    cache [l] these are the segments after the first key that are still
    cached (and no playlist is generated when the key list is empty). For
    the VOD playlist dumped from a record-mode cache [c] these are the
    segments recorded since the cache was made or last reset: the state
    [recording] holds for a new cache of window 0 and is kept by [SetItem],
    [Reset] and [DumpM3U8PlayList]. That value is
    ceil(max_ts_ms / 1000) + 1 when [max_ts_ms] is a multiple of 1000 and
    ceil(max_ts_ms / 1000) otherwise. [DumpM3U8PlayList] called on a live
    cache writes [tsDurationMax / 1000 + 1], which is 1 whatever it lists,
    since the live [SetItem] never raises [tsDurationMax]. *)
Theorem playlist_target_duration (l c : TSCache) (now : Z)
    (items : list (string * TSItem)) (key : string) (item : TSItem) :
  recording c ->
  ((ll l = [] -> m3u8body (genM3U8PlayList l) = emptyBody) /\
   (ll l <> [] ->
    exists sq,
      live_header (m3u8body (genM3U8PlayList l))
      = Some (target_of (m3u8body (genM3U8PlayList l)), sq) /\
      entries (m3u8body (genM3U8PlayList l)) = map ext_inf (listed l) /\
      listed_ms (m3u8body (genM3U8PlayList l)) = map Duration (listed l))) /\
  ((forall i p, recording (NewTSCache i p 0)) /\
   HlsCache.SetItem now key item c
   = Some (genRecordM3U8PlayList now key item c) /\
   recording (genRecordM3U8PlayList now key item c) /\
   recording (record_all now items c) /\
   entries (m3u8body (record_all now items c))
   = entries (m3u8body c) ++ map (fun kv => ext_inf kv.2) items /\
   recording (Reset c)) /\
  ((path c <> "" -> entries (m3u8body c) <> [] ->
    exists vod, DumpM3U8PlayList c = (Some vod, Reset c)) /\
   (forall vod c',
      DumpM3U8PlayList c = (Some vod, c') ->
      vod_body vod = m3u8body c /\
      vod_target_duration vod = target_of (vod_body vod) /\
      recording c')) /\
  (live l ->
   (forall l', HlsCache.SetItem now key item l = Some l' -> live l') /\
   live (Reset l) /\
   (forall vod l',
      DumpM3U8PlayList l = (Some vod, l') ->
      vod_body vod = m3u8body l /\ vod_target_duration vod = 1 /\
      live l')) /\
  (forall x, x = max_ts_ms (map Duration (listed l))
             \/ x = max_ts_ms (listed_ms (m3u8body c)) ->
     Z.quot x 1000 + 1 = x `div` 1000 + 1 /\
     (x `mod` 1000 = 0 -> Z.quot x 1000 + 1 = ceil_div_1000 x + 1) /\
     (x `mod` 1000 <> 0 -> Z.quot x 1000 + 1 = ceil_div_1000 x)).
Proof.
  intros Hrec. split; [|split; [|split; [|split]]].
  - rewrite genM3U8PlayList_body. split.
    + now intros ->.
    + intros Hne. destruct (ll l) as [|k0 keys] eqn:Hl; [congruence|].
      eexists. unfold target_of. rewrite listed_ms_ext_inf.
      cbn [live_header entries]. repeat split.
  - split; [intros i p; apply recording_New|].
    split; [unfold HlsCache.SetItem; now rewrite (proj1 Hrec)|].
    split; [now apply recording_step|].
    split; [now apply recording_all|].
    split; [apply record_all_entries | now apply recording_Reset].
  - split.
    + intros Hp Hne. unfold DumpM3U8PlayList.
      assert (Hp' : (length (String.list_ascii_of_string (path c)) =? 0)%nat
                    = false)
        by (destruct (path c); [congruence | reflexivity]).
      assert (Hb : body_Len0 (m3u8body c) = false).
      { unfold body_Len0. destruct (live_header _); [reflexivity|].
        destruct (entries (m3u8body c)); [congruence | reflexivity]. }
      rewrite Hp', Hb. cbn [orb]. eexists. reflexivity.
    + intros vod c' Hd. apply Dump_cases in Hd as (-> & -> & _ & _).
      cbn [vod_body vod_target_duration]. split; [reflexivity|].
      split; [|now apply recording_Reset].
      unfold target_of. now rewrite (proj2 (proj2 Hrec)).
  - intros (Hl & Hm). split; [|split].
    + intros l' Hs. unfold HlsCache.SetItem in Hs. rewrite Hl in Hs.
      destruct (HlsCache.evict _ _ _ _) as [[ks m]|]; [|discriminate].
      cbn in Hs. injection Hs as <-. split.
      * unfold genM3U8PlayList, IsRecord in *. cbn [HlsCache.set_ll_lm ll].
        destruct ks; exact Hl.
      * unfold genM3U8PlayList. cbn [HlsCache.set_ll_lm ll].
        destruct ks; exact Hm.
    + now apply live_Reset.
    + intros vod l' Hd. apply Dump_cases in Hd as (-> & -> & _ & _).
      cbn [vod_body vod_target_duration]. rewrite Hm.
      split; [reflexivity|]. split; [reflexivity|]. now apply live_Reset.
  - intros x [-> | ->]; apply quot_plus_1_vs_ceil; apply max_ts_ms_nonneg.
Qed.

(** A record-mode cache after two segments of 2500 and 1800 ms. *)
Definition sample_record : TSCache :=
  record_all 7 [("r-0.ts", mkTSItem "r-0.ts" 5 2500 []);
                ("r-1.ts", mkTSItem "r-1.ts" 6 1800 [])]
    (NewTSCache "r" "/tmp" 0).

Lemma playlist_target_duration_witness :
  recording sample_record /\
  live_header (m3u8body (genM3U8PlayList sample_cache)) = Some (2, 1) /\
  listed_ms (m3u8body (genM3U8PlayList sample_cache)) = [1500; 1200] /\
  exists vod,
    DumpM3U8PlayList sample_record = (Some vod, Reset sample_record) /\
    listed_ms (vod_body vod) = [2500; 1800] /\
    vod_target_duration vod = 3.
Proof.
  assert (Hrec : recording sample_record) by (repeat split).
  destruct (playlist_target_duration sample_cache sample_record 7 []
              "r-2.ts" (mkTSItem "r-2.ts" 7 900 []) Hrec)
    as ((_ & Hlive) & _ & (Hdump & Hvod) & _).
  split; [exact Hrec|].
  destruct (Hlive ltac:(discriminate)) as (sq & Hh & _ & Hms).
  assert (Hsq : sq = 1).
  { assert (H : live_header (m3u8body (genM3U8PlayList sample_cache))
                = Some (2, 1)) by (vm_compute; reflexivity).
    rewrite Hh in H. now injection H. }
  subst sq. split.
  { rewrite Hh. unfold target_of. rewrite Hms. vm_compute. reflexivity. }
  split; [rewrite Hms; vm_compute; reflexivity|].
  destruct (Hdump ltac:(discriminate) ltac:(discriminate)) as (vod & Hd).
  exists vod. split; [exact Hd|].
  destruct (Hvod vod _ Hd) as (Hb & Ht & _).
  split; [rewrite Hb; reflexivity|].
  rewrite Ht. unfold target_of. rewrite Hb. reflexivity.
Defined.

(** [DumpM3U8PlayList] on a live cache: over entries of 1500 and 1200 ms
    the field written is 1. *)
Lemma live_dump_target_duration :
  let l := genM3U8PlayList (set_path sample_cache "/tmp") in
  live l /\
  exists vod,
    DumpM3U8PlayList l = (Some vod, Reset l) /\
    listed_ms (vod_body vod) = [1500; 1200] /\
    vod_target_duration vod = 1.
Proof.
  split; [split; reflexivity|].
  eexists. split; [reflexivity|]. split; vm_compute; reflexivity.
Qed.

(** C9 as stated fails: with listed segments of 1500 ms and 1200 ms the
    field is 2, while ceil(1500 / 1000) + 1 = 3. *)
Lemma target_duration_not_ceil_plus_1 :
  max_ts_ms (map Duration (listed sample_cache)) = 1500 /\
  live_header (m3u8body (genM3U8PlayList sample_cache)) = Some (2, 1) /\
  2 <> ceil_div_1000 1500 + 1.
Proof.
  split; [vm_compute; reflexivity|]. split; [vm_compute; reflexivity|].
  vm_compute. discriminate.
Qed.

End HlsFacts.


(** ** media/protocol/hls: the live TS cache *)

Section HlsCacheFacts.
Import Ints Hls HlsCache.

Implicit Types (m : gmap string TSItem) (l : list string).

Lemma listed_size m l :
  (forall k, is_Some (m !! k) -> k ∈ l) -> (size m <= length l)%nat.
Proof.
  intros Hk. rewrite <- length_map_to_list, <- (length_fmap fst).
  apply submseteq_length, NoDup_submseteq; [apply NoDup_fst_map_to_list|].
  intros k Hin. apply list_elem_of_fmap in Hin as ([k' v] & -> & Hkv).
  apply elem_of_map_to_list in Hkv. apply Hk. cbn [fst]. now exists v.
Qed.

(** What the eviction loop does: it removes the first [n] keys, never
    panics when every key of the map is listed, stops with at least three
    keys listed if it removed any, and never takes the map below three
    items. *)
Lemma ts_evict_spec window l : forall total m,
  (forall k, is_Some (m !! k) -> k ∈ l) ->
  exists n m',
    evict window total l m = Some (drop n l, m') /\
    (n = 0%nat \/ (n + 3 <= length l)%nat) /\
    (forall k, m' !! k = if bool_decide (k ∈ take n l) then None else m !! k) /\
    (forall k, is_Some (m' !! k) -> k ∈ drop n l) /\
    (Nat.min 3 (size m) <= size m')%nat.
Proof.
  induction l as [|k0 rest IH]; intros total m Hk;
    pose proof (listed_size m _ Hk) as Hsz; cbn [evict].
  - cbn [length] in Hsz.
    replace (Z.of_nat (size m) <=? TSCacheNumMin) with true
      by (symmetry; apply Z.leb_le; unfold TSCacheNumMin; lia).
    rewrite orb_true_r. exists 0%nat, m. cbn [drop take].
    repeat split; auto; try lia.
  - destruct ((total <=? window) || (Z.of_nat (size m) <=? TSCacheNumMin))
      eqn:Hcond.
    + exists 0%nat, m. cbn [drop take].
      repeat split; auto; try lia.
    + apply orb_false_iff in Hcond as [_ Hmany].
      apply Z.leb_gt in Hmany. unfold TSCacheNumMin in Hmany.
      cbn [length] in Hsz.
      assert (Hk' : forall k, is_Some (delete k0 m !! k) -> k ∈ rest).
      { intros k Hs. destruct (decide (k = k0)) as [->|Hne].
        - rewrite lookup_delete_eq in Hs. now destruct Hs.
        - rewrite lookup_delete_ne in Hs by congruence.
          specialize (Hk k Hs). apply elem_of_cons in Hk as [?|?];
            [congruence | assumption]. }
      destruct (IH (int (total - Duration (default zeroItem (m !! k0))))
                  (delete k0 m) Hk')
        as (n & m' & Hrun & Hn & Hlook & Hlisted & Hmin).
      exists (S n), m'. cbn [drop take length]. split; [exact Hrun|].
      pose proof (listed_size _ _ Hk') as Hsz'.
      assert (Hdel : (size m - 1 <= size (delete k0 m))%nat).
      { rewrite map_size_delete. destruct (m !! k0); cbn; lia. }
      split; [right; lia|]. split; [|split; [exact Hlisted | lia]].
      intros k. rewrite Hlook.
      destruct (decide (k = k0)) as [->|Hne].
      * rewrite (bool_decide_eq_true_2 (k0 ∈ k0 :: take n rest))
          by (apply elem_of_cons; now left).
        rewrite lookup_delete_eq. now destruct (bool_decide _).
      * rewrite lookup_delete_ne by congruence.
        destruct (bool_decide (k ∈ take n rest)) eqn:Hin.
        -- apply bool_decide_eq_true_1 in Hin.
           now rewrite bool_decide_eq_true_2 by (apply elem_of_cons; now right).
        -- apply bool_decide_eq_false_1 in Hin.
           rewrite bool_decide_eq_false_2; [reflexivity|].
           intros Hc. apply elem_of_cons in Hc as [?|?]; contradiction.
Qed.

Lemma genM3U8PlayList_keeps c :
  ll (genM3U8PlayList c) = ll c /\ lm (genM3U8PlayList c) = lm c /\
  hlsWindow (genM3U8PlayList c) = hlsWindow c /\
  (ll c <> [] -> body_Len0 (m3u8body (genM3U8PlayList c)) = false).
Proof.
  unfold genM3U8PlayList. destruct (ll c) eqn:Hl; cbn; rewrite ?Hl;
    repeat split; congruence.
Qed.

(** What a live [SetItem] leaves, for a cache whose keys are all listed. *)
Lemma SetItem_live_spec now key item c :
  IsRecord c = false -> keys_listed c ->
  exists n c',
    SetItem now key item c = Some c' /\
    ll c' = drop n (ll c ++ [key]) /\
    (n = 0%nat \/ (n + 2 <= length (ll c))%nat) /\
    (forall k, lm c' !! k
               = if bool_decide (k ∈ take n (ll c))
                 then None else <[key := item]> (lm c) !! k) /\
    keys_listed c' /\
    (Nat.min 3 (size (<[key := item]> (lm c))) <= size (lm c'))%nat /\
    hlsWindow c' = hlsWindow c /\
    body_Len0 (m3u8body c') = false.
Proof.
  intros Hlive Hk. unfold SetItem. rewrite Hlive.
  assert (Hk' : forall k, is_Some (<[key := item]> (lm c) !! k)
                          -> k ∈ ll c ++ [key]).
  { intros k Hs. apply elem_of_app.
    destruct (decide (k = key)) as [->|Hne];
      [right; apply elem_of_cons; now left|].
    rewrite lookup_insert_ne in Hs by congruence. left. now apply Hk. }
  destruct (ts_evict_spec (hlsWindow c)
              (ll c ++ [key]) (totalDuration (<[key := item]> (lm c)))
              (<[key := item]> (lm c)) Hk')
    as (n & m' & Hrun & Hn & Hlook & Hlisted & Hmin).
  rewrite Hrun. cbn [mbind option_bind].
  set (c1 := set_ll_lm c (drop n (ll c ++ [key])) m').
  destruct (genM3U8PlayList_keeps c1) as (Hll & Hlm & Hw & Hbody).
  rewrite length_app in Hn. cbn [length] in Hn.
  assert (Htake : take n (ll c ++ [key]) = take n (ll c))
    by (apply take_app_le; lia).
  assert (Hll' : ll (genM3U8PlayList c1) = drop n (ll c ++ [key]))
    by exact Hll.
  assert (Hlm' : lm (genM3U8PlayList c1) = m') by exact Hlm.
  assert (Hw' : hlsWindow (genM3U8PlayList c1) = hlsWindow c) by exact Hw.
  exists n, (genM3U8PlayList c1). split; [reflexivity|].
  split; [exact Hll'|]. split; [lia|].
  split; [intros k; rewrite Hlm', Hlook, Htake; reflexivity|].
  split; [unfold keys_listed; rewrite Hll', Hlm'; exact Hlisted|].
  split; [rewrite Hlm'; exact Hmin|]. split; [exact Hw'|].
  apply Hbody. unfold c1. cbn [set_ll_lm ll]. intros Hnil.
  apply (f_equal length) in Hnil.
  rewrite length_drop, length_app in Hnil. cbn [length] in Hnil. lia.
Qed.

(** X18. A live [SetItem] is safe on every cache whose map keys are all in
    its key list (as for a new cache, and kept by [SetItem]): it does not
    panic, it removes keys only from the front of the list, it never takes
    the map below three items (a cache that is ready stays ready), and the
    playlist it leaves is not empty. *)
Theorem SetItem_live (now : Z) (key : string) (item : TSItem) (c : TSCache) :
  IsRecord c = false -> keys_listed c ->
  exists c',
    SetItem now key item c = Some c' /\
    keys_listed c' /\
    (exists n, ll c' = drop n (ll c ++ [key])) /\
    (IsReady c = true -> IsReady c' = true) /\
    (Nat.min 3 (size (<[key := item]> (lm c))) <= size (lm c'))%nat /\
    fst (GetM3U8PlayList c') = Some (m3u8body c') /\
    snd (GetM3U8PlayList c') = None.
Proof.
  intros Hlive Hk.
  destruct (SetItem_live_spec now key item c Hlive Hk)
    as (n & c' & Hrun & Hll & _ & _ & Hk' & Hmin & _ & Hbody).
  exists c'. split; [exact Hrun|]. split; [exact Hk'|].
  split; [now exists n|]. split; [|split; [exact Hmin|]].
  - unfold IsReady, TSCacheNumMin. intros Hr.
    apply negb_true_iff, Z.ltb_ge in Hr.
    apply negb_true_iff, Z.ltb_ge.
    assert (size (lm c) <= size (<[key := item]> (lm c)))%nat
      by (rewrite map_size_insert; destruct (lm c !! key); cbn; lia).
    lia.
  - unfold GetM3U8PlayList. rewrite Hbody. split; reflexivity.
Qed.

(** X19. A segment just stored can be fetched: after a live [SetItem] under
    a key that is not yet in the key list, [GetItem] of that key returns the
    item; a key that was evicted, or never stored, gives [ErrNoTsKey]; and
    every other item still in the map is unchanged. *)
Theorem SetItem_then_GetItem (now : Z) (key : string) (item : TSItem)
    (c c' : TSCache) :
  IsRecord c = false -> keys_listed c -> key ∉ ll c ->
  SetItem now key item c = Some c' ->
  GetItem c' key = (item, None) /\
  forall k, k <> key ->
    GetItem c' k = GetItem c k \/ GetItem c' k = (zeroItem, Some ErrNoTsKey).
Proof.
  intros Hlive Hk Hfresh Hrun.
  destruct (SetItem_live_spec now key item c Hlive Hk)
    as (n & c'' & Hrun' & _ & _ & Hlook & _).
  rewrite Hrun in Hrun'. injection Hrun' as <-.
  unfold GetItem. split.
  - rewrite Hlook, bool_decide_eq_false_2, lookup_insert_eq; [reflexivity|].
    intros Hin. apply Hfresh. now apply elem_of_take in Hin as (i & Hi & _);
      apply list_elem_of_lookup_2 in Hi.
  - intros k Hne. rewrite Hlook. rewrite lookup_insert_ne by congruence.
    destruct (bool_decide _); [now right | now left].
Qed.

End HlsCacheFacts.

Section HlsCacheExamples.
Import Ints Hls HlsCache.

Lemma sample_cache_listed : keys_listed sample_cache.
Proof.
  intros k Hs. unfold sample_cache in *. cbn [lm ll] in *.
  destruct (decide (k = "s-0.ts")) as [->|H0]; [set_solver|].
  rewrite lookup_insert_ne in Hs by congruence.
  destruct (decide (k = "s-1.ts")) as [->|H1]; [set_solver|].
  rewrite lookup_insert_ne in Hs by congruence.
  destruct (decide (k = "s-2.ts")) as [->|H2]; [set_solver|].
  rewrite lookup_insert_ne, lookup_empty in Hs by congruence.
  now destruct Hs.
Qed.

Lemma SetItem_live_witness :
  exists c',
    SetItem 0 "s-3.ts" (NewTSItem "s-3.ts" 1100 3 []) sample_cache = Some c' /\
    keys_listed c' /\ snd (GetM3U8PlayList c') = None.
Proof.
  destruct (SetItem_live 0 "s-3.ts" (NewTSItem "s-3.ts" 1100 3 []) sample_cache
              eq_refl sample_cache_listed)
    as (c' & H1 & H2 & _ & _ & _ & _ & H7).
  exists c'. auto.
Defined.

Lemma SetItem_then_GetItem_witness :
  exists c',
    SetItem 0 "s-3.ts" (NewTSItem "s-3.ts" 1100 3 []) sample_cache = Some c' /\
    GetItem c' "s-3.ts" = (NewTSItem "s-3.ts" 1100 3 [], None).
Proof.
  destruct (SetItem_live_spec 0 "s-3.ts" (NewTSItem "s-3.ts" 1100 3 [])
              sample_cache eq_refl sample_cache_listed) as (n & c' & Hrun & _).
  exists c'. split; [exact Hrun|].
  apply (SetItem_then_GetItem 0 "s-3.ts" (NewTSItem "s-3.ts" 1100 3 [])
           sample_cache c' eq_refl sample_cache_listed);
    [|exact Hrun].
  unfold sample_cache. cbn [ll]. intros Hin.
  repeat (apply elem_of_cons in Hin as [Hin|Hin]; [discriminate Hin|]).
  now apply elem_of_nil in Hin.
Defined.

End HlsCacheExamples.
(** ** media/codec/h264parser: picture size and frame rate from the SPS *)

Section SPSFacts.
Import Ints H264.

Context {R : Type} `{GolombBitReader R}.

(** A step leaves the [uint] field [g] of [sps] as it was. *)
Definition preserves {A} (g : SPSField) (m : M R A) : Prop :=
  forall s r s', m s = (r, s') -> get (sps s') g = get (sps s) g.

Lemma preserves_ret {A} g (a : A) : preserves g (ret a).
Proof. intros s r s' [= _ <-]. reflexivity. Qed.

Lemma preserves_bind {A B} g (m : M R A) (k : A -> M R B) :
  preserves g m -> (forall a, preserves g (k a)) -> preserves g (bind m k).
Proof.
  intros Hm Hk s r s'. unfold bind.
  destruct (m s) as [[e|a] s1] eqn:Hms.
  - intros [= _ <-]. now apply (Hm s (inl e)).
  - intros Hka. rewrite (Hk a s1 r s' Hka). now apply (Hm s (inr a)).
Qed.

Lemma preserves_read g f op :
  Pos.eqb (field_index g) (field_index f) = false -> preserves g (read f op).
Proof.
  intros Hne s r s'. unfold read.
  destruct (op (rd s)) as [[v [e|]] r']; intros [= _ <-];
    cbn [sps set_field get]; now rewrite Hne.
Qed.

Lemma preserves_read_local g op : preserves g (read_local op).
Proof.
  intros s r s'. unfold read_local.
  destruct (op (rd s)) as [[v [e|]] r']; intros [= _ <-]; reflexivity.
Qed.

Lemma preserves_field g f : preserves g (field f).
Proof. intros s r s' [= _ <-]. reflexivity. Qed.

Lemma preserves_assign g f v :
  Pos.eqb (field_index g) (field_index f) = false -> preserves g (assign f v).
Proof.
  intros Hne s r s' [= _ <-]. cbn [sps set_field get]. now rewrite Hne.
Qed.

Lemma preserves_modify g (h : SPSInfo -> SPSInfo) :
  (forall x, get (h x) g = get x g) -> preserves g (modify h).
Proof. intros Hh s r s' [= _ <-]. apply Hh. Qed.

Lemma preserves_when g b (m : M R unit) :
  preserves g m -> preserves g (when b m).
Proof. intros Hm. destruct b; [exact Hm | apply preserves_ret]. Qed.

Lemma preserves_for_loop g n (body : Z -> M R unit) : forall i,
  (forall j, preserves g (body j)) -> preserves g (for_loop n i body).
Proof.
  induction n as [|n IH]; intros i Hb; cbn [for_loop].
  - apply preserves_ret.
  - apply preserves_bind; [apply Hb | intros _; now apply IH].
Qed.

Lemma preserves_read_ConstraintSetFlag g i :
  preserves g (read_ConstraintSetFlag i).
Proof.
  intros s r s'. unfold read_ConstraintSetFlag.
  destruct (ReadBit (rd s)) as [[v [e|]] r']; intros [= _ <-]; reflexivity.
Qed.

Lemma preserves_read_SeqScalingListPresentFlag g i :
  preserves g (read_SeqScalingListPresentFlag i).
Proof.
  intros s r s'. unfold read_SeqScalingListPresentFlag.
  destruct (ReadBit (rd s)) as [[v [e|]] r']; intros [= _ <-]; reflexivity.
Qed.

Lemma preserves_scaling_list g n : forall lastScale nextScale,
  preserves g (scaling_list n lastScale nextScale).
Proof.
  induction n as [|n IH]; intros lastScale nextScale; cbn [scaling_list].
  - apply preserves_ret.
  - apply preserves_bind; [|intros a; apply IH].
    destruct (negb (nextScale =? 0)); [|apply preserves_ret].
    apply preserves_bind; [apply preserves_read_local|].
    intros a. apply preserves_ret.
Qed.

Lemma preserves_compute_size g :
  Pos.eqb (field_index g) (field_index Width) = false ->
  Pos.eqb (field_index g) (field_index Height) = false ->
  preserves g compute_size.
Proof.
  intros Hw Hh s r s' [= _ <-]. cbn [sps set_field get]. now rewrite Hh, Hw.
Qed.

Ltac preserving :=
  repeat first
    [ apply preserves_ret
    | apply preserves_read; reflexivity
    | apply preserves_read_local
    | apply preserves_field
    | apply preserves_assign; reflexivity
    | apply preserves_read_ConstraintSetFlag
    | apply preserves_read_SeqScalingListPresentFlag
    | apply preserves_scaling_list
    | apply preserves_modify; intros; reflexivity
    | apply preserves_when
    | apply preserves_for_loop; intros ?
    | apply preserves_bind; [|intros ?]
    | match goal with
      | |- preserves _ (if ?b then _ else _) => destruct b
      | |- preserves _ (let _ := _ in _) => cbv zeta
      end ].

Lemma preserves_parse_timing g :
  Pos.eqb (field_index g) (field_index TimingInfoPresentFlag) = false ->
  Pos.eqb (field_index g) (field_index NumUnitsInTick) = false ->
  Pos.eqb (field_index g) (field_index TimeScale) = false ->
  Pos.eqb (field_index g) (field_index FixedFrameRateFlag) = false ->
  Pos.eqb (field_index g) (field_index FPS) = false ->
  preserves g parse_timing.
Proof.
  intros H1 H2 H3 H4 H5. unfold parse_timing.
  repeat first
    [ apply preserves_ret | apply preserves_read; assumption
    | apply preserves_field | apply preserves_assign; assumption
    | apply preserves_when | apply preserves_bind; [|intros ?] ].
Qed.

(** The fields the picture size is computed from, and the size itself. *)
Definition size_field (g : SPSField) : Prop :=
  g = PicWidthInMbsMinus1 \/ g = PicHeightInMapUnitsMinus1 \/
  g = FrameMbsOnlyFlag \/ g = CropLeft \/ g = CropRight \/ g = CropTop \/
  g = CropBottom \/ g = Width \/ g = Height.

Lemma preserves_parseVuiParameters g :
  size_field g -> preserves g parseVuiParameters.
Proof.
  intros Hg. unfold parseVuiParameters.
  repeat (apply preserves_bind; [|intros ?]);
    try (apply preserves_parse_timing;
         destruct Hg as [->|[->|[->|[->|[->|[->|[->|[->| ->]]]]]]]];
         reflexivity);
    destruct Hg as [->|[->|[->|[->|[->|[->|[->|[->| ->]]]]]]]]; preserving.
Qed.

(** Nothing before the VUI touches the timing fields or [FPS]. *)
Definition timing_field (g : SPSField) : Prop :=
  g = TimingInfoPresentFlag \/ g = NumUnitsInTick \/ g = TimeScale \/
  g = FixedFrameRateFlag \/ g = FPS.

Lemma preserves_parse_to_cropping g :
  timing_field g -> preserves g parse_to_cropping.
Proof.
  intros Hg. unfold parse_to_cropping, parse_high_profile.
  destruct Hg as [->|[->|[->|[->| ->]]]]; preserving.
Qed.

Lemma bind_inr {A B} (m : M R A) (k : A -> M R B) (s : pstate R) b s' :
  bind m k s = (inr b, s') ->
  exists a s1, m s = (inr a, s1) /\ k a s1 = (inr b, s').
Proof.
  unfold bind. destruct (m s) as [[e|a] s1]; [discriminate|].
  intros Hk. now exists a, s1.
Qed.

Lemma read_inr f op (s : pstate R) u s' :
  read f op s = (inr u, s') ->
  exists v r, s' = mkPstate r (set_field f v (sps s)).
Proof.
  unfold read. destruct (op (rd s)) as [[v [e|]] r]; [discriminate|].
  intros [= _ <-]. now exists v, r.
Qed.

(** What [parse_timing] establishes when it succeeds. *)
Lemma parse_timing_post (s : pstate R) u s' :
  parse_timing s = (inr u, s') ->
  get (sps s') TimingInfoPresentFlag <> 0 ->
  0 < get (sps s') NumUnitsInTick ->
  get (sps s') FPS
  = if get (sps s') FixedFrameRateFlag =? 0
    then udiv (get (sps s') TimeScale) (get (sps s') NumUnitsInTick)
    else udiv (udiv (get (sps s') TimeScale) (get (sps s') NumUnitsInTick)) 2.
Proof.
  unfold parse_timing. intros Hrun.
  apply bind_inr in Hrun as (? & s1 & Hr1 & Hrun).
  apply read_inr in Hr1 as (v1 & r1 & ->).
  apply bind_inr in Hrun as (timing & s1' & Hf & Hrun).
  injection Hf as <- <-. cbn [sps get set_field field_index Pos.eqb] in Hrun.
  destruct (v1 =? 0) eqn:Hv1; cbn [negb when] in Hrun.
  { injection Hrun as _ <-. cbn [sps get set_field field_index Pos.eqb].
    apply Z.eqb_eq in Hv1. intros Hne. contradiction. }
  apply bind_inr in Hrun as (? & s2 & Hr2 & Hrun).
  apply read_inr in Hr2 as (v2 & r2 & ->).
  apply bind_inr in Hrun as (? & s3 & Hr3 & Hrun).
  apply read_inr in Hr3 as (v3 & r3 & ->).
  apply bind_inr in Hrun as (? & s4 & Hr4 & Hrun).
  apply read_inr in Hr4 as (v4 & r4 & ->).
  apply bind_inr in Hrun as (units & s5 & Hf & Hrun).
  injection Hf as <- <-. cbn [sps get set_field field_index Pos.eqb] in Hrun.
  destruct (v2 >? 0) eqn:Hv2; cbn [when] in Hrun.
  2:{ injection Hrun as _ <-. cbn [sps get set_field field_index Pos.eqb].
      intros _ Hpos. lia. }
  apply bind_inr in Hrun as (scale & s6 & Hf & Hrun).
  injection Hf as <- <-. cbn [sps get set_field field_index Pos.eqb] in Hrun.
  apply bind_inr in Hrun as (? & s7 & Ha & Hrun).
  injection Ha as _ <-.
  apply bind_inr in Hrun as (fixed & s8 & Hf & Hrun).
  injection Hf as <- <-.
  cbn [rd sps get set_field field_index Pos.eqb] in Hrun.
  destruct (v4 =? 0) eqn:Hv4; cbn [negb when] in Hrun.
  - injection Hrun as _ <-. cbn [rd sps get set_field field_index Pos.eqb].
    rewrite Hv4. reflexivity.
  - apply bind_inr in Hrun as (fps & s9 & Hf & Hrun).
    injection Hf as <- <-.
    cbn [rd sps get set_field field_index Pos.eqb] in Hrun.
    injection Hrun as _ <-. cbn [rd sps get set_field field_index Pos.eqb].
    rewrite Hv4. reflexivity.
Qed.

(** The sizes [compute_size] stores, as one reduction modulo 2^64. *)
Lemma usub_usub_umul (a b c : Z) :
  usub (usub (umul a 16) (umul b 2)) (umul c 2)
  = u64 (a * 16 - (b + c) * 2).
Proof.
  unfold usub, umul, u64, wrap.
  rewrite <- !Zminus_mod.
  rewrite (Z.mod_eq (a * 16)), (Z.mod_eq (b * 2)) by lia.
  remember (Z.div (a * 16) (2 ^ 64)) as q1.
  remember (Z.div (b * 2) (2 ^ 64)) as q2.
  replace (a * 16 - 2 ^ 64 * q1 - (b * 2 - 2 ^ 64 * q2) - c * 2)
    with (a * 16 - (b + c) * 2 + (q2 - q1) * 2 ^ 64) by lia.
  apply Z.mod_add. lia.
Qed.

Lemma u64_mul_sub (x y z : Z) : u64 (u64 x * y - z) = u64 (x * y - z).
Proof.
  unfold u64, wrap. rewrite (Z.mod_eq x) by lia.
  remember (Z.div x (2 ^ 64)) as q.
  replace ((x - 2 ^ 64 * q) * y - z) with (x * y - z + (- q * y) * 2 ^ 64) by lia.
  apply Z.mod_add. lia.
Qed.

Lemma u64_mul (x y : Z) : u64 (u64 x * u64 y) = u64 (x * y).
Proof. unfold u64, wrap. now rewrite <- Zmult_mod. Qed.

Lemma width_formula (w l r : Z) :
  usub (usub (umul (uadd w 1) 16) (umul l 2)) (umul r 2)
  = u64 ((w + 1) * 16 - (l + r) * 2).
Proof. rewrite usub_usub_umul. unfold uadd. apply u64_mul_sub. Qed.

Lemma height_formula (f h t b : Z) :
  usub (usub (umul (umul (usub 2 f) (uadd h 1)) 16) (umul t 2)) (umul b 2)
  = u64 ((2 - f) * (h + 1) * 16 - (t + b) * 2).
Proof.
  rewrite usub_usub_umul. unfold umul at 1. unfold usub, uadd.
  rewrite u64_mul. apply u64_mul_sub.
Qed.

(** C8. For every SPS accepted by [ParseSPS], in the parser's [uint]
    arithmetic: Width = (PicWidthInMbsMinus1 + 1) * 16 - (CropLeft +
    CropRight) * 2 and Height = (2 - FrameMbsOnlyFlag) *
    (PicHeightInMapUnitsMinus1 + 1) * 16 - (CropTop + CropBottom) * 2 (the
    plain integers whenever those are within the range of [uint]); and when
    VUI timing info is present with NumUnitsInTick > 0, FPS = TimeScale /
    NumUnitsInTick, divided by 2 once more when FixedFrameRateFlag is set. *)
Theorem ParseSPS_size_and_fps (data : list Z) (s : SPSInfo) :
  ParseSPS data = (s, None) ->
  let width := (get s PicWidthInMbsMinus1 + 1) * 16
               - (get s CropLeft + get s CropRight) * 2 in
  let height := (2 - get s FrameMbsOnlyFlag)
                * (get s PicHeightInMapUnitsMinus1 + 1) * 16
                - (get s CropTop + get s CropBottom) * 2 in
  get s Width = u64 width /\
  get s Height = u64 height /\
  (0 <= width < 2 ^ 64 -> get s Width = width) /\
  (0 <= height < 2 ^ 64 -> get s Height = height) /\
  (get s TimingInfoPresentFlag <> 0 -> 0 < get s NumUnitsInTick ->
   get s FPS
   = if get s FixedFrameRateFlag =? 0
     then get s TimeScale `div` get s NumUnitsInTick
     else (get s TimeScale `div` get s NumUnitsInTick) `div` 2).
Proof.
  unfold ParseSPS.
  set (s0 := mkPstate (NewReader (DeEmulationPrevention data)) zeroSPS).
  destruct (ParseSPS_steps s0) as [[e|[]] sf] eqn:Hrun; [discriminate|].
  intros [= <-]. unfold ParseSPS_steps in Hrun.
  apply bind_inr in Hrun as (? & s1 & H1 & Hrun).
  apply bind_inr in Hrun as (? & s2 & H2 & Hrun).
  apply bind_inr in Hrun as (? & s3 & H3 & Hrun).
  apply bind_inr in Hrun as (vui & s3' & Hf & Hrun).
  injection Hf as <- <-. injection H2 as _ <-.
  assert (Hvuiflag : forall g,
            Pos.eqb (field_index g) (field_index VuiParametersPresentFlag)
            = false ->
            get (sps s3) g = get (sps (mkPstate (rd s1)
              (set_field Height
                 (usub (usub (umul (umul (usub 2 (get (sps s1) FrameMbsOnlyFlag))
                    (uadd (get (sps s1) PicHeightInMapUnitsMinus1) 1)) 16)
                    (umul (get (sps s1) CropTop) 2))
                    (umul (get (sps s1) CropBottom) 2))
                 (set_field Width
                    (usub (usub (umul (uadd (get (sps s1) PicWidthInMbsMinus1) 1) 16)
                       (umul (get (sps s1) CropLeft) 2))
                       (umul (get (sps s1) CropRight) 2))
                    (sps s1))))) g).
  { intros g Hg. exact (preserves_read g _ _ Hg _ _ _ H3). }
  assert (Hsize : forall g, size_field g -> get (sps sf) g = get (sps s3) g).
  { intros g Hg.
    apply (preserves_when g _ _ (preserves_parseVuiParameters g Hg) _ _ _ Hrun). }
  assert (Hwh : get (sps sf) Width
                = u64 ((get (sps sf) PicWidthInMbsMinus1 + 1) * 16
                       - (get (sps sf) CropLeft + get (sps sf) CropRight) * 2)
                /\ get (sps sf) Height
                   = u64 ((2 - get (sps sf) FrameMbsOnlyFlag)
                          * (get (sps sf) PicHeightInMapUnitsMinus1 + 1) * 16
                          - (get (sps sf) CropTop + get (sps sf) CropBottom) * 2)).
  { rewrite !Hsize by (unfold size_field; tauto).
    rewrite !Hvuiflag by reflexivity.
    cbn [sps get set_field field_index Pos.eqb].
    split; [apply width_formula | apply height_formula]. }
  destruct Hwh as [Hw Hh].
  cbv zeta. split; [exact Hw|]. split; [exact Hh|].
  split; [intros Hr; rewrite Hw; now apply wrap_small|].
  split; [intros Hr; rewrite Hh; now apply wrap_small|].
  match type of Hrun with
  | context [negb (?x =? 0)] => destruct (x =? 0) eqn:Hvui
  end; cbn [negb when] in Hrun.
  - injection Hrun as <-. intros Hflag _. exfalso. apply Hflag.
    rewrite Hvuiflag by reflexivity.
    cbn [sps get set_field field_index Pos.eqb].
    rewrite (preserves_parse_to_cropping TimingInfoPresentFlag
               ltac:(unfold timing_field; tauto) _ _ _ H1).
    reflexivity.
  - unfold parseVuiParameters in Hrun.
    do 12 (apply bind_inr in Hrun as (? & ? & _ & Hrun)).
    apply (parse_timing_post _ _ _ Hrun).
Qed.

End SPSFacts.

Section SPSWitness.
Import Ints H264.

Lemma ParseSPS_size_and_fps_witness :
  exists s,
    ParseSPS (R := list Z) sample_sps = (s, None) /\
    get s Width = 640 /\ get s Height = 360 /\ get s FPS = 30.
Proof.
  destruct (ParseSPS (R := list Z) sample_sps) as [s e] eqn:Hp.
  assert (He : e = None) by (now vm_compute in Hp; injection Hp as _ <-).
  subst e. exists s. split; [reflexivity|].
  pose proof (ParseSPS_size_and_fps sample_sps s Hp) as (_ & _ & Hw & Hh & Hf).
  assert (Hfields :
    map (get s) [PicWidthInMbsMinus1; PicHeightInMapUnitsMinus1;
                 FrameMbsOnlyFlag; CropLeft; CropRight; CropTop; CropBottom;
                 TimingInfoPresentFlag; NumUnitsInTick; TimeScale;
                 FixedFrameRateFlag]
    = [39; 22; 1; 0; 0; 0; 4; 1; 1; 60; 1])
    by (now vm_compute in Hp; injection Hp as <-).
  injection Hfields as H1 H2 H3 H4 H5 H6 H7 H8 H9 H10 H11.
  rewrite H1, H2, H3, H4, H5, H6, H7, H8, H9, H10, H11 in *.
  split; [apply Hw; lia|]. split; [apply Hh; lia|].
  rewrite Hf by lia. reflexivity.
Defined.

(** C8, the claim as stated does not hold: [crop_sps] is accepted, and the
    width decoded from it is 2^64 - 2 where the claim's formula gives -2
    (the fields are Go [uint]; the subtraction wraps). *)
Lemma ParseSPS_width_wraps :
  exists s,
    ParseSPS (R := list Z) crop_sps = (s, None) /\
    get s PicWidthInMbsMinus1 = 0 /\ get s CropLeft = 9 /\
    get s CropRight = 0 /\
    get s Width = 2 ^ 64 - 2 /\
    (get s PicWidthInMbsMinus1 + 1) * 16
    - (get s CropLeft + get s CropRight) * 2 = -2 /\
    get s Width
    <> (get s PicWidthInMbsMinus1 + 1) * 16
       - (get s CropLeft + get s CropRight) * 2.
Proof.
  destruct (ParseSPS (R := list Z) crop_sps) as [s e] eqn:Hp.
  assert (He : e = None) by (now vm_compute in Hp; injection Hp as _ <-).
  subst e. exists s. split; [reflexivity|].
  assert (Hfields :
    map (get s) [PicWidthInMbsMinus1; CropLeft; CropRight; Width]
    = [0; 9; 0; 2 ^ 64 - 2])
    by (now vm_compute in Hp; injection Hp as <-).
  injection Hfields as H1 H2 H3 H4.
  rewrite H1, H2, H3, H4. repeat split; try reflexivity. lia.
Qed.

End SPSWitness.

(** ** h264parser: NALU splitting and the AVC decoder configuration record *)

Section AvcFacts.
Import Ints H264 Avc.

Lemma avcc_bytes_cons nalu rest :
  avcc_bytes (nalu :: rest)
  = PutUintBE 4 (Z.of_nat (length nalu)) ++ nalu ++ avcc_bytes rest.
Proof. unfold avcc_bytes. cbn [map concat]. now rewrite <- app_assoc. Qed.

Lemma avcc_bytes_length_cons nalu rest :
  length (avcc_bytes (nalu :: rest))
  = (4 + length nalu + length (avcc_bytes rest))%nat.
Proof.
  rewrite avcc_bytes_cons, !length_app, PutUintBE_length. lia.
Qed.

Lemma avcc_bytes_length_ge nalus :
  (length nalus <= length (avcc_bytes nalus))%nat.
Proof.
  induction nalus as [|x rest IH]; [reflexivity|].
  rewrite avcc_bytes_length_cons. cbn [length]. lia.
Qed.

Lemma gtb_le_false a b : a <= b -> (a >? b) = false.
Proof. intros H. rewrite Z.gtb_ltb. now apply Z.ltb_ge. Qed.

Lemma len32_small b : Z.of_nat (length b) < 2 ^ 32 -> len32 b = Z.of_nat (length b).
Proof. intros H. unfold len32, u32. apply wrap_small. lia. Qed.

(** The loop of the AVCC attempt, entered with the length of [nalu] and the
    bytes that follow that length. *)
Lemma avcc_loop_units rest : forall turns nalu acc,
  (length rest < turns)%nat ->
  Z.of_nat (length (nalu ++ avcc_bytes rest)) < 2 ^ 32 ->
  avcc_loop turns (Z.of_nat (length nalu)) (nalu ++ avcc_bytes rest) acc
  = Some (acc ++ nalu :: rest, []).
Proof.
  induction rest as [|nalu2 rest IH]; intros turns nalu acc Hturns Hlen;
    (destruct turns as [|k]; [cbn in Hturns; lia|]); cbn [avcc_loop].
  - change (avcc_bytes []) with (@nil Z) in *. rewrite app_nil_r in *.
    rewrite len32_small by exact Hlen.
    rewrite gtb_le_false by lia.
    rewrite Nat2Z.id, drop_all, firstn_all. reflexivity.
  - rewrite len32_small by exact Hlen.
    rewrite length_app, avcc_bytes_length_cons in Hlen.
    rewrite gtb_le_false by (rewrite length_app; lia).
    rewrite Nat2Z.id, take_app_length, drop_app_length.
    rewrite avcc_bytes_length_cons.
    replace (4 + length nalu2 + length (avcc_bytes rest) <? 4)%nat with false
      by (symmetry; apply Nat.ltb_ge; lia).
    rewrite avcc_bytes_cons.
    rewrite (take_app_length' (PutUintBE 4 _)) by now rewrite PutUintBE_length.
    rewrite (drop_app_length' (PutUintBE 4 _)) by now rewrite PutUintBE_length.
    rewrite UintBE_PutUintBE_small
      by (change (256 ^ Z.of_nat 4) with (2 ^ 32); lia).
    assert (Hlen2 : Z.of_nat (length (nalu2 ++ avcc_bytes rest)) < 2 ^ 32)
      by (rewrite length_app; lia).
    rewrite len32_small by exact Hlen2.
    rewrite gtb_le_false by (rewrite length_app; lia).
    rewrite (IH k nalu2 (acc ++ [nalu])) by (cbn in Hturns; lia || exact Hlen2).
    now rewrite <- app_assoc.
Qed.

Lemma SplitNALUs_avcc_units (nalus : list (list Z)) :
  nalus <> [] ->
  Z.of_nat (length (avcc_bytes nalus)) < 2 ^ 32 ->
  SplitNALUs (avcc_bytes nalus) = Some (nalus, NALU_AVCC).
Proof.
  destruct nalus as [|nalu rest]; [congruence|]. intros _ Hlen.
  unfold SplitNALUs.
  pose proof (avcc_bytes_length_cons nalu rest) as Hl.
  replace (length (avcc_bytes (nalu :: rest)) <? 4)%nat with false
    by (symmetry; apply Nat.ltb_ge; lia).
  rewrite len32_small by exact Hlen.
  pose proof (avcc_bytes_length_ge rest) as Hrest.
  assert (Ht : take 4 (avcc_bytes (nalu :: rest))
               = PutUintBE 4 (Z.of_nat (length nalu))).
  { rewrite avcc_bytes_cons.
    now rewrite take_app_length' by now rewrite PutUintBE_length. }
  assert (Hd : drop 4 (avcc_bytes (nalu :: rest)) = nalu ++ avcc_bytes rest).
  { rewrite avcc_bytes_cons.
    now rewrite drop_app_length' by now rewrite PutUintBE_length. }
  rewrite Ht, Hd.
  rewrite UintBE_PutUintBE_small
    by (change (256 ^ Z.of_nat 4) with (2 ^ 32); lia).
  replace (Z.of_nat (length nalu)
           <=? Z.of_nat (length (avcc_bytes (nalu :: rest)))) with true
    by (symmetry; apply Z.leb_le; lia).
  rewrite avcc_loop_units; [reflexivity | lia |].
  rewrite length_app. lia.
Qed.

(** X1. A payload in AVCC layout (each NALU after its length as a
    big-endian uint32, at least one NALU, less than 2^32 bytes in all) is
    split by [SplitNALUs] into exactly those NALUs, and reported as
    NALU_AVCC. *)
Theorem SplitNALUs_avcc (nalus : list (list Z)) :
  nalus <> [] ->
  Z.of_nat (length (avcc_bytes nalus)) < 2 ^ 32 ->
  SplitNALUs (avcc_bytes nalus) = Some (nalus, NALU_AVCC).
Proof. apply SplitNALUs_avcc_units. Qed.

(** The bytes of a run of parameter sets: each after its length as a
    big-endian uint16. *)
Definition sets_bytes (sets : list (list Z)) : list Z :=
  concat (map (fun s => PutUintBE 2 (Z.of_nat (length s)) ++ s) sets).

Lemma sets_bytes_cons s rest :
  sets_bytes (s :: rest)
  = PutUintBE 2 (Z.of_nat (length s)) ++ s ++ sets_bytes rest.
Proof. unfold sets_bytes. cbn [map concat]. now rewrite <- app_assoc. Qed.

Lemma sets_bytes_length_cons s rest :
  length (sets_bytes (s :: rest))
  = (2 + length s + length (sets_bytes rest))%nat.
Proof. rewrite sets_bytes_cons, !length_app, PutUintBE_length. lia. Qed.

Lemma Len_sets r :
  Len r = (7 + length (sets_bytes (SPS r)) + length (sets_bytes (PPS r)))%nat.
Proof.
  unfold Len.
  assert (Hfold : forall sets n,
            fold_left (fun n s => (n + (2 + length s))%nat) sets n
            = (n + length (sets_bytes sets))%nat).
  { induction sets as [|s sets IH]; intros n; cbn [fold_left].
    - cbn. lia.
    - rewrite IH, sets_bytes_length_cons. lia. }
  rewrite !Hfold. lia.
Qed.

Lemma write_sets_app sets : forall pre old post n,
  n = length pre -> length old = length (sets_bytes sets) ->
  Forall fits16 sets ->
  write_sets sets (pre ++ old ++ post) n
  = Some (pre ++ sets_bytes sets ++ post, (n + length (sets_bytes sets))%nat).
Proof.
  induction sets as [|s sets IH]; intros pre old post n Hn Hold Hfit.
  - destruct old; [|discriminate]. cbn. now rewrite Nat.add_0_r.
  - inversion Hfit as [|? ? Hs Hfit']; subst.
    rewrite sets_bytes_length_cons in Hold. cbn [write_sets].
    rewrite <- (take_drop 2 old), <- (take_drop (length s) (drop 2 old)).
    set (o1 := take 2 old). set (o2 := take (length s) (drop 2 old)).
    set (o3 := drop (length s) (drop 2 old)).
    assert (H1 : length o1 = 2%nat) by (unfold o1; rewrite length_take; lia).
    assert (H2 : length o2 = length s)
      by (unfold o2; rewrite length_take, length_drop; lia).
    assert (H3 : length o3 = length (sets_bytes sets))
      by (unfold o3; rewrite !length_drop; lia).
    unfold Bytes.PutU16BE, u16. rewrite wrap_small by (unfold fits16 in Hs; lia).
    rewrite <- !app_assoc.
    rewrite (put_app pre o1) by (rewrite ?PutUintBE_length; auto).
    cbn [mbind option_bind].
    rewrite (app_assoc pre), copy_from_fits
      by (rewrite !length_app, PutUintBE_length; lia).
    rewrite (put_app (pre ++ _) o2)
      by (rewrite ?length_app, ?PutUintBE_length; auto).
    cbn [mbind option_bind].
    rewrite (app_assoc (pre ++ _) s).
    rewrite (IH _ o3 post) by (rewrite ?length_app, ?PutUintBE_length; auto; lia).
    rewrite sets_bytes_length_cons, sets_bytes_cons, <- !app_assoc.
    f_equal. f_equal. lia.
Qed.

Lemma read_sets_app sets : forall pre post acc n,
  n = length pre -> Forall fits16 sets ->
  read_sets (length sets) (pre ++ sets_bytes sets ++ post) n acc
  = Some (inr (acc ++ sets, (n + length (sets_bytes sets))%nat)).
Proof.
  induction sets as [|s sets IH]; intros pre post acc n Hn Hfit.
  - cbn. now rewrite app_nil_r, Nat.add_0_r.
  - inversion Hfit as [|? ? Hs Hfit']; subst. cbn [length read_sets].
    rewrite sets_bytes_cons, <- !app_assoc.
    set (hdr := PutUintBE 2 (Z.of_nat (length s))).
    assert (Hh : length hdr = 2%nat) by apply PutUintBE_length.
    replace (length (pre ++ hdr ++ s ++ sets_bytes sets ++ post)
             <? length pre + 2)%nat with false
      by (symmetry; apply Nat.ltb_ge; rewrite !length_app; lia).
    rewrite from_app by reflexivity. cbn [mbind option_bind].
    assert (HU : Bytes.U16BE (hdr ++ s ++ sets_bytes sets ++ post)
                 = Some (Z.of_nat (length s)))
      by (unfold hdr; apply U16BE_app; unfold fits16 in Hs; lia).
    rewrite HU.
    cbn [mbind option_bind]. rewrite Nat2Z.id.
    replace (length (pre ++ hdr ++ s ++ sets_bytes sets ++ post)
             <? length pre + 2 + length s)%nat with false
      by (symmetry; apply Nat.ltb_ge; rewrite !length_app; lia).
    rewrite (app_assoc pre hdr).
    rewrite (sub_app (pre ++ hdr) s) by (rewrite length_app; lia).
    cbn [mbind option_bind].
    rewrite (app_assoc (pre ++ hdr) s).
    rewrite (IH _ post) by (rewrite ?length_app; auto; lia).
    rewrite !length_app, Hh, <- app_assoc. cbn [app].
    do 3 f_equal. lia.
Qed.

(** The bytes [Marshal] produces. *)
Definition record_bytes (r : AVCDecoderConfRecord) : list Z :=
  [1; AVCProfileIndication r; ProfileCompatibility r; AVCLevelIndication r;
   Z.lor (LengthSizeMinusOne r) 0xfc;
   Z.lor (Z.of_nat (length (SPS r))) 0xe0]
  ++ sets_bytes (SPS r) ++ [Z.of_nat (length (PPS r))] ++ sets_bytes (PPS r).

Lemma Marshal_bytes r b :
  encodable r -> length b = Len r ->
  Marshal r b = Some (record_bytes r, Len r).
Proof.
  intros (HL & Hns & Hnp & Hs & Hp) Hb. rewrite Len_sets in Hb.
  destruct b as [|x0 [|x1 [|x2 [|x3 [|x4 [|x5 rest]]]]]];
    try (cbn in Hb; lia).
  unfold Marshal.
  cbn [Bytes.set length Nat.ltb Nat.leb mbind option_bind insert list_insert].
  unfold u8. rewrite !wrap_small by lia.
  cbn [length] in Hb.
  rewrite <- (take_drop (length (sets_bytes (SPS r))) rest).
  set (o1 := take _ rest). set (rest1 := drop _ rest).
  assert (H1 : length o1 = length (sets_bytes (SPS r)))
    by (unfold o1; rewrite length_take; lia).
  assert (Hr1 : length rest1 = S (length (sets_bytes (PPS r))))
    by (unfold rest1; rewrite length_drop; lia).
  destruct rest1 as [|y rest2]; [discriminate|]. cbn [length] in Hr1.
  match goal with
  | |- context [write_sets (SPS r) ?buf 6] =>
      change buf with ([1; AVCProfileIndication r; ProfileCompatibility r;
                        AVCLevelIndication r; Z.lor (LengthSizeMinusOne r) 0xfc;
                        Z.lor (Z.of_nat (length (SPS r))) 0xe0]
                       ++ o1 ++ y :: rest2)
  end.
  rewrite write_sets_app by (auto; reflexivity).
  cbn [mbind option_bind].
  rewrite set_put, (app_assoc _ (sets_bytes (SPS r))).
  change (y :: rest2) with ([y] ++ rest2).
  rewrite (put_app _ [y] rest2) by (rewrite ?length_app; reflexivity).
  cbn [mbind option_bind].
  rewrite <- (app_nil_r rest2), (app_assoc _ [_]) at 1.
  rewrite write_sets_app
    by (rewrite ?length_app; cbn [length]; auto; lia).
  rewrite Len_sets. unfold record_bytes.
  rewrite app_nil_r, <- !app_assoc. cbn [app length]. do 2 f_equal. lia.
Qed.

Lemma land_lor_low (x m k : Z) :
  0 <= x < 2 ^ k -> 0 <= k -> Z.land m (2 ^ k - 1) = 0 ->
  Z.land (Z.lor x m) (2 ^ k - 1) = x.
Proof.
  intros Hx Hk Hm. rewrite Z.land_lor_distr_l, Hm, Z.lor_0_r.
  replace (2 ^ k - 1) with (Z.ones k) by (rewrite Z.ones_equiv; lia).
  rewrite Z.land_ones by exact Hk. now apply Z.mod_small.
Qed.

(** X2. Marshal/Unmarshal round trip of the AVC decoder configuration
    record: for a record whose fields fit their bit widths, [Marshal] into a
    buffer of [Len()] bytes does not panic and returns [Len()], and
    [Unmarshal] of those bytes into an empty record gives the record back,
    with the same [n] and no error. *)
Theorem Marshal_Unmarshal (r : AVCDecoderConfRecord) :
  encodable r ->
  exists buf,
    Marshal r (replicate (Len r) 0) = Some (buf, Len r) /\
    length buf = Len r /\
    Unmarshal zeroRecord buf = Some (r, Len r, None).
Proof.
  intros Henc. exists (record_bytes r).
  rewrite (Marshal_bytes r) by (auto; apply length_replicate).
  destruct Henc as (HL & Hns & Hnp & Hs & Hp).
  assert (Hlen : length (record_bytes r) = Len r).
  { rewrite Len_sets. unfold record_bytes. rewrite !length_app. cbn. lia. }
  split; [reflexivity|]. split; [exact Hlen|].
  unfold Unmarshal.
  replace (length (record_bytes r) <? 7)%nat with false
    by (symmetry; apply Nat.ltb_ge; rewrite Hlen, Len_sets; lia).
  unfold record_bytes. cbn [Bytes.get app lookup list_lookup mbind option_bind].
  assert (Hcount : Z.land (Z.lor (Z.of_nat (length (SPS r))) 0xe0) 0x1f
                   = Z.of_nat (length (SPS r))).
  { apply (land_lor_low _ 0xe0 5); [lia | lia | reflexivity]. }
  assert (HLs : Z.land (Z.lor (LengthSizeMinusOne r) 0xfc) 0x03
                = LengthSizeMinusOne r).
  { apply (land_lor_low _ 0xfc 2); [lia | lia | reflexivity]. }
  rewrite Hcount, HLs, Nat2Z.id.
  match goal with
  | |- context [read_sets (length (SPS r)) ?buf 6] =>
      change buf with ([1; AVCProfileIndication r; ProfileCompatibility r;
                        AVCLevelIndication r; Z.lor (LengthSizeMinusOne r) 0xfc;
                        Z.lor (Z.of_nat (length (SPS r))) 0xe0]
                       ++ sets_bytes (SPS r)
                       ++ [Z.of_nat (length (PPS r))] ++ sets_bytes (PPS r))
  end.
  set (hdr := [1; _; _; _; _; _]).
  rewrite read_sets_app by (auto; reflexivity).
  cbn [mbind option_bind zeroRecord SPS PPS app].
  replace (length (hdr ++ sets_bytes (SPS r)
                   ++ Z.of_nat (length (PPS r)) :: sets_bytes (PPS r))
           <? 6 + length (sets_bytes (SPS r)) + 1)%nat with false
    by (symmetry; apply Nat.ltb_ge; rewrite !length_app; cbn; lia).
  unfold Bytes.get.
  rewrite app_assoc, lookup_app_r by (rewrite length_app; cbn; lia).
  replace (6 + length (sets_bytes (SPS r)) - length (hdr ++ sets_bytes (SPS r)))%nat
    with 0%nat by (rewrite length_app; cbn; lia).
  cbn [lookup list_lookup mbind option_bind]. rewrite Nat2Z.id.
  change (Z.of_nat (length (PPS r)) :: sets_bytes (PPS r))
    with ([Z.of_nat (length (PPS r))] ++ sets_bytes (PPS r)).
  rewrite app_assoc, <- (app_nil_r (sets_bytes (PPS r))).
  rewrite read_sets_app by (rewrite ?length_app; cbn; auto; lia).
  cbn [mbind option_bind app]. rewrite Len_sets.
  destruct r. cbn. do 3 f_equal. lia.
Qed.

Lemma read_sets_total count : forall b n acc,
  (n <= length b)%nat ->
  exists r, read_sets count b n acc = Some r /\
    match r with
    | inl (sets, n') =>
        (n' <= length b)%nat /\ (length sets < length acc + count)%nat
    | inr (sets, n') =>
        (n' <= length b)%nat /\ length sets = (length acc + count)%nat
    end.
Proof.
  induction count as [|k IH]; intros b n acc Hn; cbn [read_sets].
  - eexists. split; [reflexivity|]. cbn. split; [exact Hn | lia].
  - destruct (length b <? n + 2)%nat eqn:H2.
    { eexists. split; [reflexivity|]. cbn. split; [exact Hn | lia]. }
    apply Nat.ltb_ge in H2.
    unfold Bytes.from.
    replace (n <=? length b)%nat with true by (symmetry; apply Nat.leb_le; lia).
    cbn [mbind option_bind]. unfold Bytes.U16BE. rewrite length_drop.
    replace (2 <=? length b - n)%nat with true
      by (symmetry; apply Nat.leb_le; lia).
    cbn [mbind option_bind].
    set (len := Z.to_nat (UintBE (take 2 (drop n b)))).
    destruct (length b <? n + 2 + len)%nat eqn:H3.
    { eexists. split; [reflexivity|]. cbn. split; lia. }
    apply Nat.ltb_ge in H3.
    unfold Bytes.sub.
    replace ((n + 2 <=? n + 2 + len) && (n + 2 + len <=? length b))%nat
      with true
      by (symmetry; apply andb_true_intro; split; apply Nat.leb_le; lia).
    cbn [mbind option_bind].
    destruct (IH b (n + 2 + len)%nat
                (acc ++ [take (n + 2 + len - (n + 2)) (drop (n + 2) b)]) H3)
      as (r & Hr & Hprop).
    exists r. split; [exact Hr|].
    rewrite length_app in Hprop. cbn [length] in Hprop.
    destruct r as [[sets n']|[sets n']]; (split; [apply Hprop | lia]).
Qed.

(** X3. [Unmarshal] never panics: whatever the bytes, it returns, with
    [n] within the input. An input shorter than seven bytes is refused with
    [ErrDecconfInvalid] and the record is left as it was; on success the
    number of SPS appended is the low five bits of byte 5. *)
Theorem Unmarshal_total (self : AVCDecoderConfRecord) (b : list Z) :
  exists self' n err,
    Unmarshal self b = Some (self', n, err) /\
    (n <= length b)%nat /\
    ((length b < 7)%nat ->
     self' = self /\ n = 0%nat /\ err = Some ErrDecconfInvalid) /\
    (err = None ->
     (7 <= length b)%nat /\
     length (SPS self')
     = (length (SPS self) + Z.to_nat (Z.land (nth 5 b 0%Z) 0x1f%Z))%nat /\
     (length (PPS self) <= length (PPS self'))%nat).
Proof.
  unfold Unmarshal. destruct (length b <? 7)%nat eqn:H7.
  { exists self, 0%nat, (Some ErrDecconfInvalid).
    split; [reflexivity|]. split; [lia|]. split; [auto | discriminate]. }
  apply Nat.ltb_ge in H7.
  destruct b as [|x0 [|x1 [|x2 [|x3 [|x4 [|x5 [|x6 rest]]]]]]];
    try (cbn in H7; lia).
  set (b := x0 :: x1 :: x2 :: x3 :: x4 :: x5 :: x6 :: rest) in *.
  change (Bytes.get b 1) with (Some x1). change (Bytes.get b 2) with (Some x2).
  change (Bytes.get b 3) with (Some x3). change (Bytes.get b 4) with (Some x4).
  change (Bytes.get b 5) with (Some x5). cbn [mbind option_bind].
  change (nth 5 b 0) with x5.
  destruct (read_sets_total (Z.to_nat (Z.land x5 31)) b 6 (SPS self))
    as (r & Hr & Hprop); [lia|].
  rewrite Hr. cbn [mbind option_bind].
  destruct r as [[sps n]|[sps n]]; destruct Hprop as [Hn Hsps].
  { eexists _, n, _. split; [reflexivity|]. split; [exact Hn|].
    split; [lia | discriminate]. }
  destruct (length b <? n + 1)%nat eqn:Hn1.
  { eexists _, n, _. split; [reflexivity|]. split; [exact Hn|].
    split; [lia | discriminate]. }
  apply Nat.ltb_ge in Hn1.
  destruct (lookup_lt_is_Some_2 b n) as [bn Hbn]; [lia|].
  unfold Bytes.get. rewrite Hbn. cbn [mbind option_bind].
  destruct (read_sets_total (Z.to_nat bn) b (n + 1) (PPS self))
    as (r & Hr2 & Hprop2); [lia|].
  rewrite Hr2. cbn [mbind option_bind].
  destruct r as [[pps n2]|[pps n2]]; destruct Hprop2 as [Hn2 Hpps].
  { eexists _, n2, _. split; [reflexivity|]. split; [exact Hn2|].
    split; [lia | discriminate]. }
  eexists _, n2, _. split; [reflexivity|]. split; [exact Hn2|].
  split; [lia|]. intros _. cbn [SPS PPS]. repeat split; lia.
Qed.

Lemma deEmulation_loop_length steps : forall i d,
  (length (deEmulation_loop steps i d) <= length d)%nat.
Proof.
  induction steps as [|k IH]; intros i d; cbn [deEmulation_loop]; [lia|].
  destruct (i + 2 <? length d)%nat eqn:Hi; [|lia].
  apply Nat.ltb_lt in Hi.
  destruct (_ && _); [|apply IH].
  etransitivity; [apply IH|].
  rewrite length_app, length_take, length_drop. lia.
Qed.

Lemma deEmulation_loop_clean steps : forall i d,
  (forall j, (nth j d 0 =? 0) && (nth (j + 1) d 0 =? 0)
             && (nth (j + 2) d 0 =? 3) = false) ->
  deEmulation_loop steps i d = d.
Proof.
  induction steps as [|k IH]; intros i d Hclean; cbn [deEmulation_loop];
    [reflexivity|].
  rewrite Hclean. destruct (i + 2 <? length d)%nat; [now apply IH | reflexivity].
Qed.

(** X4. [DeEmulationPrevention] never lengthens its input, and returns it
    unchanged when no 0x00 0x00 0x03 occurs in it. *)
Theorem DeEmulationPrevention_clean (data : list Z) :
  (length (DeEmulationPrevention data) <= length data)%nat /\
  ((forall j, (nth j data 0 =? 0) && (nth (j + 1) data 0 =? 0)
              && (nth (j + 2) data 0 =? 3) = false) ->
   DeEmulationPrevention data = data).
Proof.
  split; [apply deEmulation_loop_length | apply deEmulation_loop_clean].
Qed.

Section SliceHeaderFacts.
Context {R : Type} `{H264.GolombBitReader R}.

(** X5. [ParseSliceHeaderFromNALU] reports a slice type only for a packet
    of at least two bytes whose NAL unit type is 1, 2, 5 or 19, and the
    type it reports is one of P, B and I. *)
Theorem ParseSliceHeaderFromNALU_ok (packet : list Z) (sliceType : Z) :
  ParseSliceHeaderFromNALU packet = (sliceType, None) ->
  (1 < length packet)%nat /\
  In (Z.land (nth 0 packet 0) 0x1f) [1; 2; 5; 19] /\
  In sliceType [SLICE_P; SLICE_B; SLICE_I].
Proof.
  unfold ParseSliceHeaderFromNALU.
  destruct (length packet <=? 1)%nat eqn:Hlen; [discriminate|].
  apply Nat.leb_gt in Hlen.
  set (t := Z.land (nth 0 packet 0) 31).
  destruct ((t =? 1) || (t =? 2) || (t =? 5) || (t =? 19)) eqn:Ht;
    cbn [negb]; [|discriminate].
  assert (Hin : In t [1; 2; 5; 19]).
  { cbn. repeat (apply orb_true_iff in Ht as [Ht|Ht]);
      apply Z.eqb_eq in Ht; auto. }
  destruct (H264.ReadExponentialGolombCode _) as [[? [e|]] r];
    [discriminate|].
  destruct (H264.ReadExponentialGolombCode r) as [[u [e|]] r'];
    [discriminate|].
  intros Hres. split; [exact Hlen|]. split; [exact Hin|].
  repeat (match type of Hres with
          | (if ?c then _ else _) = _ => destruct c
          end);
    injection Hres as <-; cbn; auto. discriminate.
Qed.

End SliceHeaderFacts.

End AvcFacts.



Section AvcExamples.
Import Ints H264 Avc.

Lemma SplitNALUs_avcc_witness :
  SplitNALUs [0; 0; 0; 2; 0x67; 66; 0; 0; 0; 1; 0x65]
  = Some ([[0x67; 66]; [0x65]], NALU_AVCC).
Proof.
  apply (SplitNALUs_avcc [[0x67; 66]; [0x65]]); [discriminate | vm_compute; reflexivity].
Defined.

Lemma Marshal_Unmarshal_witness :
  exists buf,
    Marshal sample_record (replicate (Len sample_record) 0)
    = Some (buf, Len sample_record) /\
    length buf = Len sample_record /\
    Unmarshal zeroRecord buf = Some (sample_record, Len sample_record, None).
Proof.
  apply Marshal_Unmarshal. unfold encodable, fits16. cbn.
  repeat split; try lia; repeat constructor.
Defined.

Lemma ParseSliceHeaderFromNALU_ok_witness :
  ParseSliceHeaderFromNALU (R := list Z) [0x65; 0x88] = (SLICE_I, None) /\
  In (Z.land 0x65 0x1f) [1; 2; 5; 19].
Proof.
  split; [reflexivity|].
  apply (ParseSliceHeaderFromNALU_ok (R := list Z) [0x65; 0x88] SLICE_I).
  reflexivity.
Defined.

Lemma DeEmulationPrevention_clean_witness :
  DeEmulationPrevention [0x67; 66; 0; 30] = [0x67; 66; 0; 30].
Proof.
  apply (DeEmulationPrevention_clean [0x67; 66; 0; 30]).
  intros [|[|[|[|j]]]]; try reflexivity. destruct j; reflexivity.
Defined.

End AvcExamples.
(** ** media/container/ts: the H.264 flush *)

Arguments Ts.idx {CodecData} s.
Arguments Ts.iskeyframe {CodecData} s.
Arguments Ts.pts {CodecData} s.
Arguments Ts.dts {CodecData} s.

Section FlushFacts.
Import Ints Ts.

Context {CodecData : Type}.
Variable New : list Z -> list Z -> error + CodecData.
Variable SplitNALUs : list Z -> list (list Z).
Variable flush_aac :
  Stream CodecData -> list Z -> Stream CodecData * Z * option error.

Local Abbreviation SPS := H264.NALU_SPS.
Local Abbreviation PPS := H264.NALU_PPS.

Definition flag_set (z : Z) : bool := negb (z =? 0).

(** The bytes of the packet made for a data NALU: the NALU after its length
    as a big-endian uint32. *)
Definition avcc_unit (nalu : list Z) : list Z :=
  PutUintBE 4 (u32 (Z.of_nat (length nalu))) ++ nalu.

(** What the loop leaves alone in the stream. *)
Definition same_meta (s s' : Stream CodecData) : Prop :=
  idx s' = idx s /\ iskeyframe s' = iskeyframe s /\ pts s' = pts s /\
  dts s' = dts s /\ data s' = data s /\ datalen s' = datalen s /\
  streamType s' = streamType s.

Lemma same_meta_refl s : same_meta s s.
Proof. repeat split. Qed.

Lemma same_meta_trans s1 s2 s3 :
  same_meta s1 s2 -> same_meta s2 s3 -> same_meta s1 s3.
Proof. unfold same_meta. intuition congruence. Qed.

(** The packet [addPacket] makes for a video payload: the stream's index
    and key-frame flag, its dts for the time (its pts when the dts is 0),
    and the distance from that to the pts for the composition time. *)
Definition video_packet (s : Stream CodecData) (p : Packet) : Prop :=
  DataType p = TAG_VIDEO /\ IsKeyFrame p = iskeyframe s /\
  Idx p = signed 8 (idx s) /\ AVCPacketType p = AVC_NALU /\
  let dts_ := if dts s =? 0 then pts s else dts s in
  Time p = signed 64 dts_ /\
  CompositionTime p = (if pts s =? dts_ then 0 else signed 64 (pts s - dts_)).

Lemma video_packet_meta s s' p :
  same_meta s s' -> video_packet s' p -> video_packet s p.
Proof.
  unfold same_meta, video_packet.
  intros (-> & -> & -> & -> & _) H. exact H.
Qed.

Lemma addPacket_video (s : Stream CodecData) (b : list Z) (hc : bool) :
  exists p,
    pkts (addPacket s b 0 TAG_VIDEO hc) = pkts s ++ [p] /\
    Data p = b /\ HeaderChanged p = hc /\ video_packet s p.
Proof.
  eexists. split; [reflexivity|]. cbn [Data HeaderChanged].
  split; [reflexivity|]. split; [reflexivity|].
  unfold video_packet. cbn [DataType IsKeyFrame Idx AVCPacketType Time
    CompositionTime]. rewrite Z.add_0_r.
  repeat split. destruct (pts s =? _); reflexivity.
Qed.

(** *** Changes and latest sets over a run of NALUs *)

Lemma changed_nil t stored : changed t stored [] = false.
Proof. destruct stored; reflexivity. Qed.

Lemma latest_nil t stored : latest t stored [] = stored.
Proof. destruct stored; reflexivity. Qed.

Lemma changed_app t stored a b :
  changed t stored (a ++ b) = changed t stored a || changed t stored b.
Proof. destruct stored; [|reflexivity]. cbn. apply existsb_app. Qed.

Lemma latest_app t stored a b :
  latest t stored (a ++ b) = latest t (latest t stored a) b.
Proof. destruct stored; [|reflexivity]. cbn. now rewrite fold_left_app. Qed.

Lemma unchanged_latest t cur seg :
  changed t (Some cur) seg = false -> latest t (Some cur) seg = Some cur.
Proof.
  cbn. induction seg as [|x seg IH]; [reflexivity|]. cbn [existsb fold_left].
  intros H. apply orb_false_iff in H as [Hx Hrest].
  destruct (is_type t x); [|now apply IH].
  cbn [andb] in Hx. apply negb_false_iff in Hx.
  apply bool_decide_eq_true in Hx. subst x. now apply IH.
Qed.

(** One more NALU, of the type watched or not. *)
Lemma track_other t stored seg x :
  is_type t x = false ->
  changed t stored (seg ++ [x]) = changed t stored seg /\
  latest t stored (seg ++ [x]) = latest t stored seg.
Proof.
  intros Hx. rewrite changed_app, latest_app.
  destruct stored as [c|]; [|split; reflexivity].
  cbn. rewrite Hx. cbn. now rewrite !orb_false_r.
Qed.

Lemma track_type t stored seg x :
  is_type t x = true ->
  changed t stored (seg ++ [x])
  = changed t stored seg
    || match latest t stored seg with
       | Some c => negb (same_bytes x c)
       | None => false
       end /\
  latest t stored (seg ++ [x])
  = match latest t stored seg with Some _ => Some x | None => None end.
Proof.
  intros Hx. rewrite changed_app, latest_app.
  destruct stored as [c|]; [|split; reflexivity].
  split.
  - destruct (changed t (Some c) seg) eqn:Hc; [reflexivity|].
    rewrite (unchanged_latest _ _ _ Hc). cbn. rewrite Hx. cbn.
    now rewrite orb_false_r.
  - cbn. now rewrite Hx.
Qed.

Lemma is_data_types d :
  is_data d = true ->
  is_nonempty d = true /\ (naltype d =? SPS) = false /\
  (naltype d =? PPS) = false /\
  (1 <=? naltype d) && (naltype d <=? 5) = true.
Proof.
  unfold is_data. destruct (is_nonempty d); [|discriminate]. cbn [andb].
  intros Hd. split; [reflexivity|].
  apply andb_true_iff in Hd as Hd'. destruct Hd' as [H1 H5].
  unfold SPS, PPS, H264.NALU_SPS, H264.NALU_PPS.
  repeat split; try exact Hd; lia.
Qed.

Lemma is_data_not_set d t :
  is_data d = true -> t = SPS \/ t = PPS -> is_type t d = false.
Proof.
  intros Hd Ht. apply is_data_types in Hd as (Hne & Hs & Hp & _).
  unfold is_type. rewrite Hne. destruct Ht as [-> | ->]; assumption.
Qed.

(** The H.264 branch is what [payloadEnd] runs on a complete payload of an
    H.264 stream. *)
Lemma payloadEnd_h264 (s : Stream CodecData) payload :
  data s = Some payload ->
  streamType s = ElementaryStreamTypeH264 ->
  datalen s = 0 \/ Z.of_nat (length payload) = datalen s ->
  payloadEnd New SplitNALUs flush_aac s
  = flush_h264 New SplitNALUs (set_data _ s None) payload.
Proof.
  intros Hdata Htype Hlen. unfold payloadEnd. rewrite Hdata.
  assert (Hchk : negb (datalen s =? 0)
                 && negb (Z.of_nat (length payload) =? datalen s) = false).
  { destruct Hlen as [H0|Hl]; [rewrite H0 | rewrite Hl, Z.eqb_refl];
      [reflexivity | apply andb_false_r]. }
  rewrite Hchk. cbn [set_data streamType]. rewrite Htype. reflexivity.
Qed.

(** *** One turn of the loop

    The state of the loop against a mark: the start of the flush or the
    last packet that went out with [HeaderChanged], where the stream held
    [ssps] and [spps]; [seg] are the NALUs seen since. The change flags say
    whether an SPS (a PPS) of [seg] differs from the one held at the mark,
    and the stream holds the latest ones. *)
Definition at_mark (f : flush CodecData) (ssps spps : option (list Z))
    (seg : list (list Z)) : Prop :=
  flag_set (spsChange f) = changed SPS ssps seg /\
  flag_set (ppsChange f) = changed PPS spps seg /\
  sps (self f) = latest SPS ssps seg /\
  pps (self f) = latest PPS spps seg /\
  headerChanged f = false.

Lemma at_mark_start (s : Stream CodecData) :
  at_mark (start_flush s) (sps s) (pps s) [].
Proof.
  unfold at_mark. cbn [start_flush spsChange ppsChange self headerChanged].
  rewrite !changed_nil, !latest_nil. repeat split.
Qed.


(** A NALU that is no data NALU emits nothing; a parameter set is taken
    in. *)
Lemma nalu_step_other f x ssps spps seg :
  at_mark f ssps spps seg -> is_data x = false ->
  exists f',
    nalu_step New f x = inl f' /\
    at_mark f' ssps spps (seg ++ [x]) /\
    pkts (self f') = pkts (self f) /\
    CodecData_ (self f') = CodecData_ (self f) /\
    n f' = n f /\ same_meta (self f) (self f') /\
    l_sps _ f' = (if is_sps x then x else l_sps _ f) /\
    l_pps _ f' = (if is_pps x then x else l_pps _ f).
Proof.
  intros (Hs & Hp & Hss & Hpp & Hh) Hd. unfold nalu_step, is_sps, is_pps.
  destruct (is_nonempty x) eqn:Hne; cbn [negb].
  2:{ exists f.
      assert (Hts : is_type SPS x = false) by (unfold is_type; now rewrite Hne).
      assert (Htp : is_type PPS x = false) by (unfold is_type; now rewrite Hne).
      rewrite Hts, Htp. unfold at_mark.
      destruct (track_other SPS ssps seg x Hts) as [-> ->].
      destruct (track_other PPS spps seg x Htp) as [-> ->].
      repeat split; assumption. }
  destruct (naltype x =? SPS) eqn:Hts.
  { assert (Hx : is_type SPS x = true) by (unfold is_type; now rewrite Hne, Hts).
    assert (Hy : is_type PPS x = false).
    { unfold is_type. rewrite Hne. apply Z.eqb_eq in Hts. now rewrite Hts. }
    rewrite Hx, Hy.
    destruct (track_type SPS ssps seg x Hx) as [Hc Hl].
    destruct (track_other PPS spps seg x Hy) as [Hc' Hl'].
    unfold at_mark. rewrite Hc, Hl, Hc', Hl', <- Hss.
    destruct (sps (self f)) as [cur|] eqn:Hcur;
      [destruct (same_bytes x cur) eqn:Hsame|];
      cbn [negb]; eexists; (split; [reflexivity|]);
      cbn [self spsChange ppsChange headerChanged sps pps set_sps pkts
           CodecData_ n l_sps l_pps flag_set];
      rewrite <- ?Hs, ?orb_false_r, ?orb_true_r, ?Hcur;
      repeat split; try assumption.
    apply bool_decide_eq_true in Hsame. now subst x. }
  destruct (naltype x =? PPS) eqn:Htp.
  { assert (Hx : is_type PPS x = true) by (unfold is_type; now rewrite Hne, Htp).
    assert (Hy : is_type SPS x = false) by (unfold is_type; now rewrite Hne, Hts).
    rewrite Hx, Hy.
    destruct (track_type PPS spps seg x Hx) as [Hc Hl].
    destruct (track_other SPS ssps seg x Hy) as [Hc' Hl'].
    unfold at_mark. rewrite Hc, Hl, Hc', Hl', <- Hpp.
    destruct (pps (self f)) as [cur|] eqn:Hcur;
      [destruct (same_bytes x cur) eqn:Hsame|];
      cbn [negb]; eexists; (split; [reflexivity|]);
      cbn [self spsChange ppsChange headerChanged sps pps set_pps pkts
           CodecData_ n l_sps l_pps flag_set];
      rewrite <- ?Hp, ?orb_false_r, ?orb_true_r, ?Hcur;
      repeat split; try assumption.
    apply bool_decide_eq_true in Hsame. now subst x. }
  assert (Hy : is_type SPS x = false) by (unfold is_type; now rewrite Hne, Hts).
  assert (Hz : is_type PPS x = false) by (unfold is_type; now rewrite Hne, Htp).
  rewrite Hy, Hz.
  unfold is_data in Hd. rewrite Hne in Hd. cbn [andb] in Hd. rewrite Hd.
  exists f. unfold at_mark.
  destruct (track_other SPS ssps seg x Hy) as [-> ->].
  destruct (track_other PPS spps seg x Hz) as [-> ->].
  repeat split; assumption.
Qed.


(** A data NALU goes out as a packet. It carries [HeaderChanged], after
    the codec data have been rebuilt from the latest sets, when both sets
    have changed since the mark; the mark then moves to it. *)
Lemma nalu_step_data f x ssps spps seg :
  at_mark f ssps spps seg -> is_data x = true ->
  if changed SPS ssps seg && changed PPS spps seg then
    match New (bytes_of (latest SPS ssps seg))
              (bytes_of (latest PPS spps seg)) with
    | inr cd =>
        exists f' p,
          nalu_step New f x = inl f' /\
          at_mark f' (latest SPS ssps seg) (latest PPS spps seg) [] /\
          pkts (self f') = pkts (self f) ++ [p] /\
          Data p = avcc_unit x /\ HeaderChanged p = true /\
          video_packet (self f) p /\
          CodecData_ (self f') = Some cd /\
          n f' = signed 64 (n f + 1) /\ same_meta (self f) (self f') /\
          l_sps _ f' = l_sps _ f /\ l_pps _ f' = l_pps _ f
    | inl e =>
        exists f',
          nalu_step New f x = inr (f', e) /\
          pkts (self f') = pkts (self f) /\
          CodecData_ (self f') = CodecData_ (self f) /\
          n f' = n f /\ same_meta (self f) (self f')
    end
  else
    exists f' p,
      nalu_step New f x = inl f' /\
      at_mark f' ssps spps (seg ++ [x]) /\
      pkts (self f') = pkts (self f) ++ [p] /\
      Data p = avcc_unit x /\ HeaderChanged p = false /\
      video_packet (self f) p /\
      CodecData_ (self f') = CodecData_ (self f) /\
      n f' = signed 64 (n f + 1) /\ same_meta (self f) (self f') /\
      l_sps _ f' = l_sps _ f /\ l_pps _ f' = l_pps _ f.
Proof.
  intros (Hs & Hp & Hss & Hpp & Hh) Hd.
  pose proof (is_data_types x Hd) as (Hne & Hts & Htp & Hrange).
  unfold nalu_step. rewrite Hne, Hts, Htp, Hrange. cbn [negb].
  fold (flag_set (ppsChange f)) (flag_set (spsChange f)).
  rewrite Hs, Hp, (andb_comm (changed PPS spps seg)).
  fold (avcc_unit x).
  destruct (changed SPS ssps seg && changed PPS spps seg) eqn:Hboth.
  - unfold updateAvcCodec. rewrite Hss, Hpp.
    destruct (New _ _) as [e|cd].
    + eexists. split; [reflexivity|]. repeat split.
    + destruct (addPacket_video (set_CodecData _ (self f) (Some cd))
                  (avcc_unit x) true) as (p & Hpk & Hdp & Hhc & Hv).
      eexists _, p. split; [reflexivity|].
      cbn [self spsChange ppsChange headerChanged n l_sps l_pps].
      split.
      { unfold at_mark. cbn [self spsChange ppsChange headerChanged].
        rewrite !changed_nil, !latest_nil.
        repeat split; [exact Hss | exact Hpp]. }
      split; [exact Hpk|]. repeat split; try assumption; apply Hv.
  - destruct (addPacket_video (self f) (avcc_unit x) (headerChanged f))
      as (p & Hpk & Hdp & Hhc & Hv).
    eexists _, p. split; [reflexivity|].
    cbn [self spsChange ppsChange headerChanged n l_sps l_pps].
    split.
    { unfold at_mark. cbn [self spsChange ppsChange headerChanged].
      destruct (track_other SPS ssps seg x
                  (is_data_not_set x SPS Hd (or_introl eq_refl))) as [-> ->].
      destruct (track_other PPS spps seg x
                  (is_data_not_set x PPS Hd (or_intror eq_refl))) as [-> ->].
      repeat split; assumption. }
    split; [exact Hpk|]. rewrite Hh in Hhc.
    repeat split; try assumption; apply Hv.
Qed.


(** *** The whole loop

    The packets a flush is to emit, one for each data NALU in order, as
    the corrected claim words it: going through the NALUs with the sets
    [ssps] and [spps] the stream held at the mark (the start of the flush,
    then the last packet that carried the flag) and the NALUs [seg] seen
    since, a data NALU is flagged exactly when [seg] has an SPS that
    differs from the SPS held at the mark and a PPS that differs from the
    PPS held at the mark; it then comes with the latest sets, from which the
    codec data are rebuilt, and the mark moves to it. *)
Fixpoint expected (ssps spps : option (list Z)) (seg nalus : list (list Z))
  : list (list Z * option (list Z * list Z)) :=
  match nalus with
  | [] => []
  | x :: rest =>
      if is_data x then
        if changed SPS ssps seg && changed PPS spps seg
        then (x, Some (bytes_of (latest SPS ssps seg),
                       bytes_of (latest PPS spps seg)))
             :: expected (latest SPS ssps seg) (latest PPS spps seg) [] rest
        else (x, None) :: expected ssps spps (seg ++ [x]) rest
      else expected ssps spps (seg ++ [x]) rest
  end.

Definition flagged (e : list Z * option (list Z * list Z)) : bool :=
  match e.2 with Some _ => true | None => false end.

(** The packet [p] is the one expected for [e]. *)
Definition emits (s : Stream CodecData)
    (e : list Z * option (list Z * list Z)) (p : Packet) : Prop :=
  Data p = avcc_unit e.1 /\ HeaderChanged p = flagged e /\
  video_packet s p.

(** The codec data after the packet expected for [e]. *)
Definition rebuild (cd : option CodecData)
    (e : list Z * option (list Z * list Z)) : option CodecData :=
  match e.2 with
  | Some (a, b) => match New a b with inr c => Some c | inl _ => cd end
  | None => cd
  end.

Lemma emits_meta s s' e p : same_meta s s' -> emits s' e p -> emits s e p.
Proof.
  intros Hm (Hd & Hh & Hv). repeat split; try assumption.
  all: eapply video_packet_meta in Hv; [apply Hv | exact Hm].
Qed.

Lemma Forall2_emits_meta s s' ev new :
  same_meta s s' -> Forall2 (emits s') ev new -> Forall2 (emits s) ev new.
Proof.
  intros Hm H. eapply Forall2_impl; [exact H|].
  intros e p. now apply emits_meta.
Qed.

(** The count after [k] more packets. *)
Definition counted_up (n0 n1 : Z) (k : nat) : Prop :=
  (k = 0%nat /\ n1 = n0) \/ n1 = signed 64 (n0 + Z.of_nat k).

Lemma counted_up_S n0 n1 k :
  counted_up (signed 64 (n0 + 1)) n1 k -> counted_up n0 n1 (S k).
Proof.
  intros [[-> ->]| ->]; right.
  - f_equal.
  - rewrite signed_add_l by lia. f_equal. lia.
Qed.

Lemma nalu_loop_expected nalus : forall f ssps spps seg,
  at_mark f ssps spps seg ->
  let ev := expected ssps spps seg nalus in
  match nalu_loop New f nalus with
  | inl f' =>
      exists new,
        pkts (self f') = pkts (self f) ++ new /\
        Forall2 (emits (self f)) ev new /\
        CodecData_ (self f') = fold_left rebuild ev (CodecData_ (self f)) /\
        counted_up (n f) (n f') (length new) /\
        same_meta (self f) (self f') /\
        sps (self f') = latest SPS ssps (seg ++ nalus) /\
        pps (self f') = latest PPS spps (seg ++ nalus)
  | inr (f', e) =>
      exists new d a b,
        pkts (self f') = pkts (self f) ++ new /\
        Forall2 (emits (self f)) (take (length new) ev) new /\
        ev !! length new = Some (d, Some (a, b)) /\ New a b = inl e /\
        CodecData_ (self f')
        = fold_left rebuild (take (length new) ev) (CodecData_ (self f)) /\
        counted_up (n f) (n f') (length new) /\
        same_meta (self f) (self f')
  end.
Proof.
  induction nalus as [|x rest IH]; intros f ssps spps seg Hm;
    cbn [nalu_loop expected].
  - exists []. rewrite !app_nil_r. destruct Hm as (_ & _ & Hs & Hp & _).
    repeat split; try assumption; try apply Forall2_nil; try exact I.
    left. split; reflexivity.
  - destruct (is_data x) eqn:Hd.
    + pose proof (nalu_step_data f x ssps spps seg Hm Hd) as Hstep.
      destruct (changed SPS ssps seg && changed PPS spps seg) eqn:Hboth.
      * destruct (New _ _) as [e|cd] eqn:Hnew.
        -- destruct Hstep as (f1 & -> & Hp & Hc & Hn & Hmeta).
           exists [], x, (bytes_of (latest SPS ssps seg)),
             (bytes_of (latest PPS spps seg)).
           rewrite app_nil_r. cbn [length take lookup].
           repeat split; try assumption; try apply Forall2_nil; try exact I;
             try apply Hmeta.
           left. split; [reflexivity | exact Hn].
        -- destruct Hstep as (f1 & p & -> & Hm1 & Hp & Hdp & Hh & Hv & Hc
                              & Hn & Hmeta & _).
           specialize (IH f1 _ _ _ Hm1). cbv zeta in IH.
           destruct (nalu_loop New f1 rest) as [f'|[f' e]].
           ++ destruct IH as (new & Hp' & Hf & Hc' & Hn' & Hmeta' & Hs' & Hp2).
              exists (p :: new). rewrite Hp', Hp, <- app_assoc.
              split; [reflexivity|]. split.
              { constructor; [exact (conj Hdp (conj Hh Hv))|].
                now apply (Forall2_emits_meta _ _ _ _ Hmeta). }
              cbn [fold_left]. unfold rebuild at 2. cbn [snd].
              rewrite Hnew, <- Hc. split; [exact Hc'|].
              split; [apply counted_up_S; now rewrite <- Hn|].
              split; [exact (same_meta_trans _ _ _ Hmeta Hmeta')|].
              rewrite Hs', Hp2. cbn [app].
              replace (seg ++ x :: rest) with ((seg ++ [x]) ++ rest)
                by (now rewrite <- app_assoc).
              rewrite !(latest_app _ _ (seg ++ [x]) rest).
              destruct (track_other SPS ssps seg x
                          (is_data_not_set x SPS Hd (or_introl eq_refl)))
                as [_ ->].
              destruct (track_other PPS spps seg x
                          (is_data_not_set x PPS Hd (or_intror eq_refl)))
                as [_ ->].
              split; reflexivity.
           ++ destruct IH as (new & d & a & b & Hp' & Hf & Hk & Hnew' & Hc'
                              & Hn' & Hmeta').
              exists (p :: new), d, a, b. rewrite Hp', Hp, <- app_assoc.
              cbn [length take lookup fold_left].
              split; [reflexivity|]. split.
              { constructor; [exact (conj Hdp (conj Hh Hv))|].
                now apply (Forall2_emits_meta _ _ _ _ Hmeta). }
              split; [exact Hk|]. split; [exact Hnew'|].
              unfold rebuild at 2. cbn [snd]. rewrite Hnew, <- Hc.
              split; [exact Hc'|].
              split; [apply counted_up_S; now rewrite <- Hn|].
              exact (same_meta_trans _ _ _ Hmeta Hmeta').
      * destruct Hstep as (f1 & p & -> & Hm1 & Hp & Hdp & Hh & Hv & Hc
                           & Hn & Hmeta & _).
        specialize (IH f1 _ _ _ Hm1). cbv zeta in IH.
        destruct (nalu_loop New f1 rest) as [f'|[f' e]].
        -- destruct IH as (new & Hp' & Hf & Hc' & Hn' & Hmeta' & Hs' & Hp2).
           exists (p :: new). rewrite Hp', Hp, <- app_assoc.
           split; [reflexivity|]. split.
           { constructor; [exact (conj Hdp (conj Hh Hv))|].
             now apply (Forall2_emits_meta _ _ _ _ Hmeta). }
           cbn [fold_left]. unfold rebuild at 2. cbn [snd]. rewrite <- Hc.
           split; [exact Hc'|].
           split; [apply counted_up_S; now rewrite <- Hn|].
           split; [exact (same_meta_trans _ _ _ Hmeta Hmeta')|].
           rewrite Hs', Hp2, <- !app_assoc. split; reflexivity.
        -- destruct IH as (new & d & a & b & Hp' & Hf & Hk & Hnew' & Hc'
                           & Hn' & Hmeta').
           exists (p :: new), d, a, b. rewrite Hp', Hp, <- app_assoc.
           cbn [length take lookup fold_left].
           split; [reflexivity|]. split.
           { constructor; [exact (conj Hdp (conj Hh Hv))|].
             now apply (Forall2_emits_meta _ _ _ _ Hmeta). }
           split; [exact Hk|]. split; [exact Hnew'|].
           unfold rebuild at 2. cbn [snd]. rewrite <- Hc.
           split; [exact Hc'|].
           split; [apply counted_up_S; now rewrite <- Hn|].
           exact (same_meta_trans _ _ _ Hmeta Hmeta').
    + destruct (nalu_step_other f x ssps spps seg Hm Hd)
        as (f1 & -> & Hm1 & Hp & Hc & Hn & Hmeta & _).
      specialize (IH f1 _ _ _ Hm1). cbv zeta in IH.
      destruct (nalu_loop New f1 rest) as [f'|[f' e]].
      * destruct IH as (new & Hp' & Hf & Hc' & Hn' & Hmeta' & Hs' & Hp2).
        exists new. rewrite Hp', Hp, <- Hc, <- Hn.
        split; [reflexivity|].
        split; [now apply (Forall2_emits_meta _ _ _ _ Hmeta)|].
        split; [exact Hc'|]. split; [exact Hn'|].
        split; [exact (same_meta_trans _ _ _ Hmeta Hmeta')|].
        rewrite Hs', Hp2, <- !app_assoc. split; reflexivity.
      * destruct IH as (new & d & a & b & Hp' & Hf & Hk & Hnew' & Hc'
                        & Hn' & Hmeta').
        exists new, d, a, b. rewrite Hp', Hp, <- Hc, <- Hn.
        split; [reflexivity|].
        split; [now apply (Forall2_emits_meta _ _ _ _ Hmeta)|].
        split; [exact Hk|]. split; [exact Hnew'|]. split; [exact Hc'|].
        split; [exact Hn'|].
        exact (same_meta_trans _ _ _ Hmeta Hmeta').
Qed.


Lemma expected_fst ssps spps seg nalus :
  map fst (expected ssps spps seg nalus) = List.filter is_data nalus.
Proof.
  revert ssps spps seg. induction nalus as [|x rest IH]; intros ssps spps seg;
    [reflexivity|].
  cbn [expected List.filter]. destruct (is_data x); [|apply IH].
  destruct (_ && _); cbn [map fst]; now rewrite IH.
Qed.

(** Only one of the sets changing, or none, flags nothing. *)
Lemma expected_quiet ssps spps seg nalus :
  changed SPS ssps (seg ++ nalus) && changed PPS spps (seg ++ nalus) = false ->
  Forall (fun e => e.2 = None) (expected ssps spps seg nalus).
Proof.
  revert seg. induction nalus as [|x rest IH]; intros seg Hq;
    [constructor|].
  assert (Hrest : Forall (fun e => e.2 = None)
                    (expected ssps spps (seg ++ [x]) rest)).
  { apply IH. now rewrite <- app_assoc. }
  cbn [expected]. destruct (is_data x); [|exact Hrest].
  destruct (changed SPS ssps seg && changed PPS spps seg) eqn:Hboth.
  - exfalso. apply andb_true_iff in Hboth as [H1 H2].
    rewrite !changed_app, H1, H2 in Hq. discriminate Hq.
  - constructor; [reflexivity | exact Hrest].
Qed.

Lemma rebuild_quiet ev cd :
  Forall (fun e => e.2 = None) ev -> fold_left rebuild ev cd = cd.
Proof.
  induction 1 as [|e ev He _ IH]; [reflexivity|].
  cbn [fold_left]. unfold rebuild at 2. now rewrite He.
Qed.

Lemma rebuild_stays ev cd :
  cd <> None -> fold_left rebuild ev cd <> None.
Proof.
  revert cd. induction ev as [|e ev IH]; intros cd Hcd; [exact Hcd|].
  cbn [fold_left]. apply IH. unfold rebuild.
  destruct e.2 as [[a b]|]; [|exact Hcd].
  destruct (New a b); [exact Hcd | discriminate].
Qed.

Lemma Forall2_emits_data s ev new :
  Forall2 (emits s) ev new ->
  map Data new = map avcc_unit (map fst ev) /\
  map HeaderChanged new = map flagged ev /\
  Forall (video_packet s) new.
Proof.
  induction 1 as [|e p ev new (Hd & Hh & Hv) _ (IH1 & IH2 & IH3)];
    [repeat split; constructor|].
  cbn [map]. rewrite Hd, Hh, IH1, IH2.
  repeat split. now constructor.
Qed.

(** The H.264 flush as a whole, whatever it returns. *)
Lemma flush_h264_expected (s : Stream CodecData) (payload : list Z) :
  let ev := expected (sps s) (pps s) [] (SplitNALUs payload) in
  exists s' k err new,
    flush_h264 New SplitNALUs s payload = (s', k, err) /\
    pkts s' = pkts s ++ new /\
    Forall2 (emits s) (take (length new) ev) new /\
    k = signed 64 (Z.of_nat (length new)) /\
    same_meta s s' /\
    (err = None -> length new = length ev) /\
    ((length new < length ev)%nat ->
     exists d a b e,
       ev !! length new = Some (d, Some (a, b)) /\ New a b = inl e /\
       err = Some e) /\
    (CodecData_ s <> None -> err = None ->
     CodecData_ s' = fold_left rebuild ev (CodecData_ s) /\
     sps s' = latest SPS (sps s) (SplitNALUs payload) /\
     pps s' = latest PPS (pps s) (SplitNALUs payload)) /\
    (CodecData_ s <> None -> err <> None ->
     (length new < length ev)%nat /\
     CodecData_ s'
     = fold_left rebuild (take (length new) ev) (CodecData_ s)).
Proof.
  intros ev. unfold flush_h264.
  pose proof (nalu_loop_expected (SplitNALUs payload) (start_flush s)
                (sps s) (pps s) [] (at_mark_start s)) as Hloop.
  cbv zeta in Hloop. fold ev in Hloop.
  cbn [start_flush self n] in Hloop.
  assert (Hk : forall k j, counted_up 0 k j -> k = signed 64 (Z.of_nat j)).
  { intros k j [[-> ->]| ->]; reflexivity. }
  destruct (nalu_loop New (start_flush s) (SplitNALUs payload))
    as [f'|[f' e]].
  - destruct Hloop as (new & Hp & Hf & Hc & Hn & Hmeta & Hs & Hpp).
    cbn [app] in Hs, Hpp.
    pose proof (Forall2_length _ _ _ Hf) as Hlen.
    assert (Hall : take (length new) ev = ev)
      by (apply take_ge; lia).
    assert (Hshape : forall s1 err,
              pkts s1 = pkts (self f') -> same_meta (self f') s1 ->
              (CodecData_ s <> None ->
               err = None /\ CodecData_ s1 = CodecData_ (self f') /\
               sps s1 = sps (self f') /\ pps s1 = pps (self f')) ->
              exists s' k err' new,
                (s1, n f', err) = (s', k, err') /\
                pkts s' = pkts s ++ new /\
                Forall2 (emits s) (take (length new) ev) new /\
                k = signed 64 (Z.of_nat (length new)) /\
                same_meta s s' /\
                (err' = None -> length new = length ev) /\
                ((length new < length ev)%nat ->
                 exists d a b e,
                   ev !! length new = Some (d, Some (a, b)) /\
                   New a b = inl e /\ err' = Some e) /\
                (CodecData_ s <> None -> err' = None ->
                 CodecData_ s' = fold_left rebuild ev (CodecData_ s) /\
                 sps s' = latest SPS (sps s) (SplitNALUs payload) /\
                 pps s' = latest PPS (pps s) (SplitNALUs payload)) /\
                (CodecData_ s <> None -> err' <> None ->
                 (length new < length ev)%nat /\
                 CodecData_ s'
                 = fold_left rebuild (take (length new) ev) (CodecData_ s))).
    { intros s1 err Hp1 Hm1 Hcodec.
      exists s1, (n f'), err, new. split; [reflexivity|]. rewrite Hall.
      split; [now rewrite Hp1|]. split; [exact Hf|].
      split; [now apply Hk|].
      split; [exact (same_meta_trans _ _ _ Hmeta Hm1)|].
      split; [intros _; lia|]. split; [intros Hlt; lia|].
      split.
      - intros Hne _. destruct (Hcodec Hne) as (_ & -> & -> & ->).
        repeat split; assumption.
      - intros Hne Herr. destruct (Hcodec Hne) as (He & _). contradiction. }
    destruct (CodecData_ (self f')) as [cd|] eqn:Hcd.
    + apply Hshape; [reflexivity | apply same_meta_refl|].
      intros _. repeat split. exact Hcd.
    + assert (Hnone : CodecData_ s = None).
      { destruct (CodecData_ s) eqn:Hs0; [|reflexivity].
        exfalso. symmetry in Hc. revert Hc. apply rebuild_stays. discriminate. }
      destruct ((0 <? _) && (0 <? _)).
      * unfold updateAvcCodec. destruct (New _ _) as [e|cd];
          (apply Hshape;
           [reflexivity | repeat split | intros Hne; contradiction]).
      * apply Hshape; [reflexivity | apply same_meta_refl|].
        intros Hne; contradiction.
  - destruct Hloop as (new & d & a & b & Hp & Hf & Hlk & Hnew & Hc & Hn
                       & Hmeta).
    pose proof (lookup_lt_Some _ _ _ Hlk) as Hlt.
    exists (self f'), (n f'), (Some e), new. split; [reflexivity|].
    split; [exact Hp|]. split; [exact Hf|]. split; [now apply Hk|].
    split; [exact Hmeta|]. split; [discriminate|].
    split; [intros _; exists d, a, b, e; repeat split; assumption|].
    split; [discriminate|]. intros _ _. split; [exact Hlt | exact Hc].
Qed.


(** C4, as the code has it. The flush of an H.264 payload emits one packet
    for each data NALU, in order, until a rebuild of the codec data fails.
    A packet carries [HeaderChanged] exactly when, among the NALUs of this
    flush that come after the previous packet that carried it (after the
    start of the flush when there is none), there is an SPS that differs
    from the SPS the stream held there and a PPS that differs from the PPS
    it held there; the codec data are then rebuilt, before the packet goes
    out, from the latest SPS and PPS, and they are rebuilt at no other
    packet. The marks are those of one flush: they outlast the packets that
    go out without the flag and are lost at the end of the flush. When
    only the SPS or only the PPS (or neither) changes within a flush, no
    packet of it carries the flag and the codec data stay. *)
Theorem payloadEnd_header_changed (s : Stream CodecData) (payload : list Z) :
  data s = Some payload ->
  streamType s = ElementaryStreamTypeH264 ->
  datalen s = 0 \/ Z.of_nat (length payload) = datalen s ->
  let nalus := SplitNALUs payload in
  let ev := expected (sps s) (pps s) [] nalus in
  exists s' k err new,
    payloadEnd New SplitNALUs flush_aac s = (s', k, err) /\
    pkts s' = pkts s ++ new /\
    Forall2 (emits s) (take (length new) ev) new /\
    (err = None -> length new = length ev) /\
    ((length new < length ev)%nat ->
     exists d a b e,
       ev !! length new = Some (d, Some (a, b)) /\ New a b = inl e /\
       err = Some e) /\
    (CodecData_ s <> None -> err = None ->
     CodecData_ s' = fold_left rebuild ev (CodecData_ s) /\
     sps s' = latest SPS (sps s) nalus /\
     pps s' = latest PPS (pps s) nalus) /\
    (changed SPS (sps s) nalus && changed PPS (pps s) nalus = false ->
     Forall (fun e => flagged e = false) ev /\
     (CodecData_ s <> None -> err = None /\ CodecData_ s' = CodecData_ s)).
Proof.
  intros Hdata Htype Hlen nalus ev.
  rewrite (payloadEnd_h264 s payload Hdata Htype Hlen).
  destruct (flush_h264_expected (set_data _ s None) payload)
    as (s' & k & err & new & Hrun & Hp & Hf & Hk & Hmeta & Hall & Hfail
        & Hok & Herr).
  cbn [sps pps set_data pkts CodecData_] in Hp, Hf, Hall, Hfail, Hok, Herr.
  fold nalus in Hf, Hall, Hfail, Hok, Herr.
  fold ev in Hf, Hall, Hfail, Hok, Herr.
  exists s', k, err, new. split; [exact Hrun|]. split; [exact Hp|].
  split; [exact Hf|]. split; [exact Hall|]. split; [exact Hfail|].
  split; [exact Hok|].
  intros Hq.
  assert (Hnone : Forall (fun e => e.2 = None) ev)
    by (apply expected_quiet; exact Hq).
  split.
  { eapply Forall_impl; [exact Hnone|]. intros e He. unfold flagged.
    now rewrite He. }
  intros Hcd.
  assert (He : err = None).
  { destruct err as [e|]; [|reflexivity]. exfalso.
    destruct (Herr Hcd ltac:(discriminate)) as [Hlt _].
    destruct (Hfail Hlt) as (d & a & b & e' & Hlk & _).
    rewrite Forall_lookup in Hnone. specialize (Hnone _ _ Hlk).
    discriminate Hnone. }
  split; [exact He|].
  destruct (Hok Hcd He) as (-> & _). now apply rebuild_quiet.
Qed.

(** X6. What the H.264 flush emits: when [payloadEnd] returns without an
    error on an H.264 stream holding a complete payload, the stream's
    packets have grown by exactly one video packet per data NALU (NAL unit
    type 1 to 5) of the payload, in payload order, each holding its NALU
    after the NALU's length as a big-endian uint32 and carrying the
    stream's index and key-frame flag, its dts as the time (its pts when
    the dts is 0) and pts minus that time as the composition time; the
    count returned is their number, and the pending payload is cleared. *)
Theorem payloadEnd_packets (s : Stream CodecData) (payload : list Z)
    (s' : Stream CodecData) (k : Z) :
  data s = Some payload ->
  streamType s = ElementaryStreamTypeH264 ->
  datalen s = 0 \/ Z.of_nat (length payload) = datalen s ->
  payloadEnd New SplitNALUs flush_aac s = (s', k, None) ->
  exists new,
    pkts s' = pkts s ++ new /\
    map Data new = map avcc_unit (List.filter is_data (SplitNALUs payload)) /\
    Forall (video_packet s) new /\
    k = signed 64 (Z.of_nat (length new)) /\
    data s' = None.
Proof.
  intros Hdata Htype Hlen Hrun.
  rewrite (payloadEnd_h264 s payload Hdata Htype Hlen) in Hrun.
  destruct (flush_h264_expected (set_data _ s None) payload)
    as (s1 & k1 & err & new & Hrun1 & Hp & Hf & Hk & Hmeta & Hall & _).
  rewrite Hrun in Hrun1. injection Hrun1 as <- <- <-.
  specialize (Hall eq_refl).
  rewrite Hall, firstn_all in Hf.
  destruct (Forall2_emits_data _ _ _ Hf) as (Hd & _ & Hv).
  rewrite expected_fst in Hd.
  exists new. split; [exact Hp|]. split; [exact Hd|]. split; [exact Hv|].
  split; [exact Hk|]. apply Hmeta.
Qed.

(** X7. The flush and the splitter fit together: every packet that
    [payloadEnd] appends for an H.264 payload, whether it then returns an
    error or not, if shorter than 2^32 bytes, is split by
    [h264parser.SplitNALUs] into exactly one NALU, a data NALU of the
    payload, and is recognised as AVCC. *)
Theorem payloadEnd_packets_split (s : Stream CodecData) (payload : list Z)
    (s' : Stream CodecData) (k : Z) (err : option error) :
  data s = Some payload ->
  streamType s = ElementaryStreamTypeH264 ->
  datalen s = 0 \/ Z.of_nat (length payload) = datalen s ->
  payloadEnd New SplitNALUs flush_aac s = (s', k, err) ->
  exists new,
    pkts s' = pkts s ++ new /\
    forall p, In p new -> Z.of_nat (length (Data p)) < 2 ^ 32 ->
      exists d, In d (SplitNALUs payload) /\ is_data d = true /\
        Avc.SplitNALUs (Data p) = Some ([d], Avc.NALU_AVCC).
Proof.
  intros Hdata Htype Hlen Hrun.
  rewrite (payloadEnd_h264 s payload Hdata Htype Hlen) in Hrun.
  destruct (flush_h264_expected (set_data _ s None) payload)
    as (s1 & k1 & err1 & new & Hrun1 & Hp & Hf & _).
  rewrite Hrun in Hrun1. injection Hrun1 as <- <- <-.
  exists new. split; [exact Hp|].
  destruct (Forall2_emits_data _ _ _ Hf) as (Hd & _).
  intros p Hin Hsmall.
  assert (Hin' : In (Data p) (map Data new)) by now apply in_map.
  rewrite Hd, map_map in Hin'.
  apply in_map_iff in Hin' as (e & Hdp & Hein).
  assert (Hmem : In e.1 (List.filter is_data (SplitNALUs payload))).
  { rewrite <- (expected_fst (sps s) (pps s) [] (SplitNALUs payload)).
    apply in_map. cbn [sps pps set_data] in Hein.
    rewrite <- (firstn_skipn (length new)). apply in_or_app. now left. }
  apply filter_In in Hmem as [Hdin Hdata_d].
  exists e.1. split; [exact Hdin|]. split; [exact Hdata_d|].
  rewrite <- Hdp in Hsmall |- *. unfold avcc_unit in *.
  rewrite length_app, PutUintBE_length in Hsmall.
  unfold u32. rewrite wrap_small by lia.
  rewrite <- (app_nil_r e.1) at 2.
  apply (SplitNALUs_avcc_units [e.1]); [discriminate|].
  unfold Avc.avcc_bytes. cbn [map concat].
  rewrite !length_app, PutUintBE_length. cbn [length]. lia.
Qed.

End FlushFacts.

Section FlushExamples.
Import Ints Ts.

(** The flush of [sample_stream] holding [payload]. *)
Definition flush_of (s : Stream (list Z * list Z)) (payload : list Z) :=
  payloadEnd pair_codec (split_at_ff []) no_aac (set_data _ s (Some payload)).

Lemma payloadEnd_header_changed_witness :
  exists s' k new,
    payloadEnd pair_codec (split_at_ff []) no_aac sample_split_change
    = (s', k, None) /\
    pkts s' = pkts sample_split_change ++ new /\
    map HeaderChanged new = [false; true] /\
    CodecData_ s' = Some ([0x67; 66; 0; 31], [0x68; 2]).
Proof.
  destruct (payloadEnd_header_changed pair_codec (split_at_ff []) no_aac
              sample_split_change split_change_payload
              eq_refl eq_refl (or_introl eq_refl))
    as (s' & k & err & new & Hrun & Hp & Hf & Hall & Hfail & Hok & _).
  assert (He : err = None).
  { assert (H : (payloadEnd pair_codec (split_at_ff []) no_aac
                   sample_split_change).2 = None) by (vm_compute; reflexivity).
    rewrite Hrun in H. exact H. }
  subst err. specialize (Hall eq_refl).
  rewrite Hall, firstn_all in Hf.
  destruct (Forall2_emits_data _ _ _ Hf) as (_ & Hh & _).
  destruct (Hok ltac:(discriminate) eq_refl) as (Hcd & _).
  exists s', k, new. split; [exact Hrun|]. split; [exact Hp|].
  split; [rewrite Hh | rewrite Hcd]; vm_compute; reflexivity.
Defined.

(** C4, the claim as stated does not hold. In one flush of
    SPS' IDR PPS' IDR the second slice goes out flagged, and the codec data
    are rebuilt there, though the first slice went out after the SPS and
    only the PPS has changed since. Cut in two flushes, SPS' IDR and then
    PPS' IDR, the same NALUs give no flagged packet and the codec data are
    never rebuilt, though the stream ends up holding both new parameter
    sets. And after a flush of IDR SPS', the flush of PPS' IDR sends its
    slice without the flag although both parameter sets have changed since
    the slice before it. *)
Lemma header_changed_not_since_last_emission :
  (exists s1,
     flush_of sample_stream split_change_payload = (s1, 2, None) /\
     map HeaderChanged (pkts s1) = [false; true] /\
     map Data (pkts s1) = [[0; 0; 0; 2; 0x65; 1]; [0; 0; 0; 2; 0x65; 2]] /\
     changed H264.NALU_SPS (Some [0x67; 66; 0; 31]) [[0x68; 2]] = false /\
     CodecData_ s1 = Some ([0x67; 66; 0; 31], [0x68; 2])) /\
  (exists s1 s2,
     flush_of sample_stream sps_then_idr_payload = (s1, 1, None) /\
     flush_of s1 pps_then_idr_payload = (s2, 1, None) /\
     map HeaderChanged (pkts s2) = [false; false] /\
     map Data (pkts s2) = [[0; 0; 0; 2; 0x65; 1]; [0; 0; 0; 2; 0x65; 2]] /\
     CodecData_ s2 = CodecData_ sample_stream /\
     sps s2 = Some [0x67; 66; 0; 31] /\ pps s2 = Some [0x68; 2]) /\
  (exists s1 s2,
     flush_of sample_stream idr_then_sps_payload = (s1, 1, None) /\
     flush_of s1 pps_then_idr_payload = (s2, 1, None) /\
     map HeaderChanged (pkts s2) = [false; false] /\
     changed H264.NALU_SPS (sps sample_stream) [[0x67; 66; 0; 31]] = true /\
     changed H264.NALU_PPS (pps sample_stream) [[0x68; 2]] = true /\
     CodecData_ s2 = CodecData_ sample_stream).
Proof.
  split; [|split].
  - exists (flush_of sample_stream split_change_payload).1.1.
    vm_compute. repeat split.
  - exists (flush_of sample_stream sps_then_idr_payload).1.1.
    exists (flush_of (flush_of sample_stream sps_then_idr_payload).1.1
              pps_then_idr_payload).1.1.
    vm_compute. repeat split.
  - exists (flush_of sample_stream idr_then_sps_payload).1.1.
    exists (flush_of (flush_of sample_stream idr_then_sps_payload).1.1
              pps_then_idr_payload).1.1.
    vm_compute. repeat split.
Qed.

Lemma payloadEnd_packets_witness :
  exists new,
    pkts (payloadEnd pair_codec (split_at_ff []) no_aac sample_timed).1.1
    = new /\
    map Data new = [[0; 0; 0; 2; 0x65; 1]; [0; 0; 0; 2; 0x65; 2]] /\
    map Time new = [3000; 3000] /\
    map CompositionTime new = [6000; 6000] /\
    map Idx new = [3; 3].
Proof.
  destruct (payloadEnd_packets pair_codec (split_at_ff []) no_aac
              sample_timed split_change_payload
              (payloadEnd pair_codec (split_at_ff []) no_aac sample_timed).1.1
              2 eq_refl eq_refl (or_introl eq_refl) eq_refl)
    as (new & Hp & Hd & Hv & _).
  exists new. split; [exact Hp|]. split; [exact Hd|].
  assert (Hall : forall p, In p new ->
            Time p = 3000 /\ CompositionTime p = 6000 /\ Idx p = 3).
  { intros p Hin. rewrite Forall_forall in Hv.
    destruct (Hv p ltac:(now apply list_elem_of_In))
      as (_ & _ & Hi & _ & Ht & Hc).
    repeat split; [exact Ht | exact Hc | exact Hi]. }
  assert (Hlen : length new = 2%nat)
    by (rewrite <- (length_map Data), Hd; reflexivity).
  destruct new as [|p1 [|p2 [|? ?]]]; try discriminate Hlen.
  cbn [map].
  destruct (Hall p1 ltac:(now left)) as (-> & -> & ->).
  destruct (Hall p2 ltac:(right; now left)) as (-> & -> & ->).
  repeat split.
Defined.

Lemma payloadEnd_packets_split_witness :
  exists new,
    payloadEnd pair_codec (split_at_ff []) no_aac sample_bad_sps
    = (set_pkts _
         (set_pps _
            (set_sps _ (set_data _ sample_stream None) (Some [0x67; 1]))
            (Some [0x68; 2]))
         new, 1, Some ErrCodec) /\
    forall p, In p new -> Z.of_nat (length (Data p)) < 2 ^ 32 ->
      exists d, In d (split_at_ff [] bad_sps_payload) /\
        is_data d = true /\
        Avc.SplitNALUs (Data p) = Some ([d], Avc.NALU_AVCC).
Proof.
  destruct (payloadEnd_packets_split pair_codec (split_at_ff []) no_aac
              sample_bad_sps bad_sps_payload
              (payloadEnd pair_codec (split_at_ff []) no_aac
                 sample_bad_sps).1.1
              1 (Some ErrCodec) eq_refl eq_refl (or_introl eq_refl) eq_refl)
    as (new & Hp & Hs).
  exists new. split; [|exact Hs].
  cbn [pkts sample_bad_sps set_data sample_stream app] in Hp. rewrite <- Hp.
  vm_compute. reflexivity.
Defined.

End FlushExamples.
(** ** media/av/pubsub: the live buffer queue *)

Section QueueFacts.
Import Ints Queue.

Context {AvHeader : Type}.
Implicit Types (q : Queue AvHeader) (p : Packet) (c : counts).

Lemma int_small x : - 2 ^ 63 <= x < 2 ^ 63 -> int x = x.
Proof.
  intros H. unfold int, signed, wrap.
  change (2 ^ (64 - 1)) with (2 ^ 63).
  destruct (Z.ltb_spec (x `mod` 2 ^ 64) (2 ^ 63)) as [Hlt|Hge].
  - destruct (Z_lt_le_dec x 0) as [Hn|Hp].
    + exfalso. revert Hlt.
      replace (x `mod` 2 ^ 64) with (x + 2 ^ 64); [lia|].
      apply Z.mod_unique with (-1); lia.
    + apply Z.mod_small. lia.
  - destruct (Z_lt_le_dec x 0) as [Hn|Hp].
    + replace (x `mod` 2 ^ 64) with (x + 2 ^ 64); [lia|].
      apply Z.mod_unique with (-1); lia.
    + exfalso. rewrite Z.mod_small in Hge; lia.
Qed.

Lemma gop_starts_cons p l :
  gop_starts (p :: l) = (if is_gop_start p then 1 else 0) + gop_starts l.
Proof.
  unfold gop_starts. cbn [List.filter].
  destruct (is_gop_start p); cbn [length]; lia.
Qed.

Lemma gop_starts_app l1 l2 : gop_starts (l1 ++ l2) = gop_starts l1 + gop_starts l2.
Proof.
  unfold gop_starts. rewrite List.filter_app, length_app. lia.
Qed.

Lemma gop_starts_bounds l : 0 <= gop_starts l <= Z.of_nat (length l).
Proof.
  unfold gop_starts. pose proof (List.filter_length_le is_gop_start l). lia.
Qed.

Lemma count_out_gop c p :
  c_gop (count_out c p)
  = if is_gop_start p then int (c_gop c - 1) else c_gop c.
Proof. reflexivity. Qed.

Lemma count_in_gop c p :
  c_gop (count_in c p)
  = if is_gop_start p then int (c_gop c + 1) else c_gop c.
Proof. reflexivity. Qed.

(** What the eviction loop leaves: a suffix of the window that is not empty
    unless the window was, with at most one packet or both limits
    respected, and a GOP counter that still agrees with the window. *)
Lemma evict_spec maxGOP maxPkt window : forall head c,
  exists evicted head' window' c',
    evict maxGOP maxPkt head window c = (head', window', c') /\
    window = evicted ++ window' /\
    (window <> [] -> window' <> []) /\
    (Z.of_nat (length window') <= 1 \/
     (c_gop c' < maxGOP /\ Z.of_nat (length window') < maxPkt)) /\
    (c_gop c = gop_starts window -> Z.of_nat (length window) <= 2 ^ 62 ->
     c_gop c' = gop_starts window').
Proof.
  induction window as [|p rest IH]; intros head c.
  - exists [], head, [], c. cbn. repeat split; try lia; auto.
  - cbn [evict].
    set (n := Z.of_nat (length (p :: rest))).
    destruct ((n >? 1) && ((c_gop c >=? maxGOP) || (n >=? maxPkt))) eqn:Hloop.
    + assert (Hrest : rest <> []).
      { intros ->. unfold n in Hloop. cbn in Hloop. discriminate. }
      assert (Hgop : c_gop c = gop_starts (p :: rest) ->
                     Z.of_nat (length (p :: rest)) <= 2 ^ 62 ->
                     c_gop (count_out c p) = gop_starts rest).
      { intros Hc Hlen. rewrite count_out_gop, Hc, gop_starts_cons.
        pose proof (gop_starts_bounds rest). unfold n in *. cbn [length] in Hlen.
        destruct (is_gop_start p); [rewrite int_small|]; lia. }
      destruct ((c_gop (count_out c p) <? maxGOP)
                && (Z.of_nat (length rest) <? maxPkt)) eqn:Hbreak.
      * exists [p], (int (head + 1)), rest, (count_out c p).
        repeat split; auto. right. lia.
      * destruct (IH (int (head + 1)) (count_out c p))
          as (ev & h' & w' & c' & Hev & Hw & Hne & Hlim & Hinv).
        exists (p :: ev), h', w', c'. rewrite Hev.
        repeat split; auto.
        -- now rewrite Hw at 1.
        -- intros Hc Hlen. apply Hinv; [now apply Hgop|].
           unfold n in Hlen. cbn [length] in Hlen. lia.
    + exists [], head, (p :: rest), c.
      repeat split; auto. fold n. lia.
Qed.

(** Every pop of the eviction loop is made with the loop condition true:
    before the pop of the [j]-th packet more than one packet is left and
    one of the two limits is reached. *)
Lemma evict_minimal maxGOP maxPkt window : forall head c head' window' c',
  evict maxGOP maxPkt head window c = (head', window', c') ->
  c_gop c = gop_starts window -> Z.of_nat (length window) <= 2 ^ 62 ->
  forall j, (j + length window' < length window)%nat ->
    1 < Z.of_nat (length (drop j window)) /\
    (maxGOP <= gop_starts (drop j window)
     \/ maxPkt <= Z.of_nat (length (drop j window))).
Proof.
  induction window as [|p rest IH]; intros head c head' window' c' Hev Hc Hlen j Hj.
  - cbn [length] in Hj. lia.
  - cbn [evict] in Hev.
    set (n := Z.of_nat (length (p :: rest))) in Hev.
    destruct ((n >? 1) && ((c_gop c >=? maxGOP) || (n >=? maxPkt))) eqn:Hloop.
    + assert (H0 : 1 < Z.of_nat (length (p :: rest)) /\
                   (maxGOP <= gop_starts (p :: rest)
                    \/ maxPkt <= Z.of_nat (length (p :: rest)))).
      { apply andb_prop in Hloop as [Hn Hor]. unfold n in Hn, Hor.
        split; [lia|].
        apply orb_prop in Hor as [Hg|Hp]; [left; rewrite <- Hc | right]; lia. }
      destruct j as [|j]; [exact H0|].
      assert (Hgop : c_gop (count_out c p) = gop_starts rest).
      { rewrite count_out_gop, Hc, gop_starts_cons.
        pose proof (gop_starts_bounds rest). cbn [length] in Hlen.
        destruct (is_gop_start p); [rewrite int_small|]; lia. }
      destruct ((c_gop (count_out c p) <? maxGOP)
                && (Z.of_nat (length rest) <? maxPkt)) eqn:Hbreak.
      * injection Hev as _ <- _. cbn [length] in Hj. lia.
      * cbn [drop]. apply (IH _ _ _ _ _ Hev Hgop).
        -- cbn [length] in Hlen. lia.
        -- cbn [length] in Hj. lia.
    + injection Hev as _ <- _. lia.
Qed.

Lemma WritePacket_buf q p :
  exists evicted head' window' c',
    evict (maxGOPCount q) (maxPktCount q) (Head (buf q))
      (pkts (buf q) ++ [stamped q p])
      (count_in (mkCounts (curGOPCount q) (curVideoCount q) (curAudioCount q))
         (stamped q p))
    = (head', window', c') /\
    pkts (buf q) ++ [stamped q p] = evicted ++ window' /\
    buf (WritePacket q p) = mkBuf head' (int (Tail (buf q) + 1)) window' /\
    curGOPCount (WritePacket q p) = c_gop c' /\
    closed (WritePacket q p) = closed q /\
    maxGOPCount (WritePacket q p) = maxGOPCount q /\
    maxPktCount (WritePacket q p) = maxPktCount q.
Proof.
  destruct (evict_spec (maxGOPCount q) (maxPktCount q)
              (pkts (buf q) ++ [stamped q p]) (Head (buf q))
              (count_in (mkCounts (curGOPCount q) (curVideoCount q)
                           (curAudioCount q)) (stamped q p)))
    as (ev & h' & w' & c' & Hev & Hw & _).
  exists ev, h', w', c'. split; [exact Hev|]. split; [exact Hw|].
  unfold WritePacket. fold (stamped q p). cbn [Push pkts Head Tail].
  rewrite Hev. repeat split.
Qed.

(** [WritePacket] never looks at the [closed] flag. *)
Lemma WritePacket_Close q p :
  WritePacket (Close q) p = Close (WritePacket q p).
Proof.
  unfold WritePacket, Close. cbn [headers buf maxGOPCount maxPktCount
    curGOPCount curVideoCount curAudioCount videoidx closed lossPktCount sid].
  destruct (evict _ _ _ _ _) as [[h w'] c']. reflexivity.
Qed.

Lemma last_suffix (l1 l2 l : list Packet) (x : Packet) :
  l ++ [x] = l1 ++ l2 -> l2 <> [] -> last l2 = Some x.
Proof.
  intros Heq Hne.
  assert (H : last (l1 ++ l2) = Some x) by (rewrite <- Heq; apply last_snoc).
  rewrite last_app in H. destruct (last l2) eqn:Hl; [exact H|].
  apply last_None in Hl. contradiction.
Qed.

(** C1, as the code has it. Eviction pops packets from head only until the
    count of video keyframes is below [max_gop_count] and the packet count
    below [max_pkt_count] (or a single packet is left), and stops right
    after the pop that achieves this: what is left is the tail of the old
    window plus the new packet, every packet popped was popped with more
    than one packet left and one of the two limits reached (so nothing is
    popped while both limits hold, and no pop follows the first one that
    restores them), and the frames that followed an evicted keyframe stay.
    With [max_gop_count = 2], after 3 GOPs of 60 frames the
    buffer holds frames 61..179 and the packet at head is frame 61, a
    non-key video frame whose keyframe (frame 60) has been evicted. *)
Theorem WritePacket_eviction q p :
  counted q ->
  let q' := WritePacket q p in
  curGOPCount q' = gop_starts (pkts (buf q')) /\
  (exists evicted,
     pkts (buf q) ++ [stamped q p] = evicted ++ pkts (buf q') /\
     forall j, (j < length evicted)%nat ->
       let left := drop j (pkts (buf q) ++ [stamped q p]) in
       1 < Z.of_nat (length left) /\
       (maxGOPCount q <= gop_starts left
        \/ maxPktCount q <= Z.of_nat (length left))) /\
  1 <= Count (buf q') /\
  (Count (buf q') = 1 \/
   (gop_starts (pkts (buf q')) < maxGOPCount q /\
    Count (buf q') < maxPktCount q)) /\
  (forall maxGOP maxPkt head e rest c,
     1 < Z.of_nat (length (e :: rest)) ->
     maxGOP <= c_gop c \/ maxPkt <= Z.of_nat (length (e :: rest)) ->
     c_gop (count_out c e) < maxGOP -> Z.of_nat (length rest) < maxPkt ->
     evict maxGOP maxPkt head (e :: rest) c
     = (int (head + 1), rest, count_out c e)) /\
  (map Time (pkts (buf three_gops)) = map Z.of_nat (seq 61 119) /\
   Head (buf three_gops) = 61 /\ Tail (buf three_gops) = 180 /\
   curGOPCount three_gops = 1 /\
   exists hd, head (pkts (buf three_gops)) = Some hd /\ Time hd = 61 /\
     DataType hd = TAG_VIDEO /\ IsKeyFrame hd = false).
Proof.
  intros [Hgop Hcnt] q'.
  destruct (evict_spec (maxGOPCount q) (maxPktCount q)
              (pkts (buf q) ++ [stamped q p]) (Head (buf q))
              (count_in (mkCounts (curGOPCount q) (curVideoCount q)
                           (curAudioCount q)) (stamped q p)))
    as (ev & h' & w' & c' & Hev & Hw & Hne & Hlim & Hinv).
  destruct (WritePacket_buf q p)
    as (ev2 & h2 & w2 & c2 & Hev2 & _ & Hbuf & Hcur & _).
  rewrite Hev in Hev2. injection Hev2 as <- <- <-.
  subst q'. unfold Count. rewrite Hbuf, Hcur. cbn [pkts].
  assert (Hw'ne : w' <> []) by (apply Hne; destruct (pkts (buf q)); discriminate).
  assert (Hc' : c_gop c' = gop_starts w').
  { apply Hinv.
    - rewrite count_in_gop. cbn [c_gop].
      rewrite gop_starts_app, Hgop, gop_starts_cons.
      change (gop_starts []) with 0.
      pose proof (gop_starts_bounds (pkts (buf q))). unfold Count in Hcnt.
      destruct (is_gop_start (stamped q p)); [rewrite int_small|]; lia.
    - rewrite length_app. cbn [length]. unfold Count in Hcnt. lia. }
  assert (Hgop0 : c_gop (count_in (mkCounts (curGOPCount q) (curVideoCount q)
                                     (curAudioCount q)) (stamped q p))
                   = gop_starts (pkts (buf q) ++ [stamped q p])).
  { rewrite count_in_gop. cbn [c_gop].
    rewrite gop_starts_app, Hgop, gop_starts_cons.
    change (gop_starts []) with 0.
    pose proof (gop_starts_bounds (pkts (buf q))). unfold Count in Hcnt.
    destruct (is_gop_start (stamped q p)); [rewrite int_small|]; lia. }
  assert (Hlen0 : Z.of_nat (length (pkts (buf q) ++ [stamped q p])) <= 2 ^ 62).
  { rewrite length_app. cbn [length]. unfold Count in Hcnt. lia. }
  split; [exact Hc'|]. split.
  { exists ev. split; [exact Hw|]. intros j Hj. cbv zeta.
    apply (evict_minimal _ _ _ _ _ _ _ _ Hev Hgop0 Hlen0).
    rewrite Hw, length_app. lia. }
  split; [destruct w'; [contradiction | cbn [length]; lia]|].
  split.
  { destruct Hlim as [Hle|[Hg Hp]].
    - left. destruct w'; [contradiction | cbn [length] in *; lia].
    - right. rewrite <- Hc'. split; assumption. }
  split.
  { intros maxGOP maxPkt hd e rest c Hn Hloop Hg Hp. cbn [evict].
    assert (H1 : (Z.of_nat (length (e :: rest)) >? 1)
                 && ((c_gop c >=? maxGOP)
                     || (Z.of_nat (length (e :: rest)) >=? maxPkt)) = true).
    { apply andb_true_intro. split; [lia|].
      apply orb_true_intro. destruct Hloop; [left | right]; lia. }
    rewrite H1.
    assert (H2 : (c_gop (count_out c e) <? maxGOP)
                 && (Z.of_nat (length rest) <? maxPkt) = true)
      by (apply andb_true_intro; split; lia).
    now rewrite H2. }
  vm_compute. repeat split. eexists. repeat split.
Qed.

(** C6, as the code has it. [WritePacket] does not test the [closed] flag:
    a write after [Close] does exactly what it does on the open queue (the
    flag stays set), so the tail advances by one and the packet is stored
    as the newest one. *)
Theorem WritePacket_after_Close q p :
  WritePacket (Close q) p = Close (WritePacket q p) /\
  closed (WritePacket (Close q) p) = true /\
  Tail (buf (WritePacket (Close q) p)) = int (Tail (buf q) + 1) /\
  last (pkts (buf (WritePacket (Close q) p))) = Some (stamped q p) /\
  1 <= Count (buf (WritePacket (Close q) p)).
Proof.
  rewrite WritePacket_Close.
  destruct (evict_spec (maxGOPCount q) (maxPktCount q)
              (pkts (buf q) ++ [stamped q p]) (Head (buf q))
              (count_in (mkCounts (curGOPCount q) (curVideoCount q)
                           (curAudioCount q)) (stamped q p)))
    as (ev & h' & w' & c' & Hev & Hw & Hne & _).
  destruct (WritePacket_buf q p)
    as (ev2 & h2 & w2 & c2 & Hev2 & _ & Hbuf & _).
  rewrite Hev in Hev2. injection Hev2 as <- <- <-.
  assert (Hw'ne : w' <> []) by (apply Hne; destruct (pkts (buf q)); discriminate).
  split; [reflexivity|]. split; [reflexivity|].
  unfold Count. cbn [Close buf]. rewrite Hbuf. cbn [Tail pkts].
  split; [reflexivity|]. split.
  - exact (last_suffix ev w' (pkts (buf q)) (stamped q p) Hw Hw'ne).
  - destruct w'; [contradiction | cbn [length]; lia].
Qed.

End QueueFacts.

Section QueueExamples.
Import Ints Queue.

Lemma WritePacket_eviction_witness :
  let q := two_gops in
  let p := frame 60 120 in
  let q' := WritePacket q p in
  counted q /\
  Count (buf q) = 119 /\ Count (buf q') = 60 /\
  curGOPCount q' = gop_starts (pkts (buf q')) /\
  (exists evicted,
     pkts (buf q) ++ [stamped q p] = evicted ++ pkts (buf q') /\
     forall j, (j < length evicted)%nat ->
       let left := drop j (pkts (buf q) ++ [stamped q p]) in
       1 < Z.of_nat (length left) /\
       (maxGOPCount q <= gop_starts left
        \/ maxPktCount q <= Z.of_nat (length left))) /\
  1 <= Count (buf q') /\
  (Count (buf q') = 1 \/
   (gop_starts (pkts (buf q')) < maxGOPCount q /\
    Count (buf q') < maxPktCount q)).
Proof.
  intros q p q'.
  assert (Hc : counted q) by (split; vm_compute; reflexivity).
  split; [exact Hc|].
  split; [vm_compute; reflexivity|]. split; [vm_compute; reflexivity|].
  destruct (WritePacket_eviction q p Hc) as (H1 & H2 & H3 & H4 & _).
  split; [exact H1|]. split; [exact H2|]. split; [exact H3 | exact H4].
Defined.

(** C1 as stated fails: after the three GOPs the buffer is not frames
    60..179, and the packet at head is the non-key video frame 61 while the
    keyframe that opened its GOP, frame 60, is no longer in the buffer. *)
Lemma three_gops_head_dangling :
  map Time (pkts (buf three_gops)) <> map Z.of_nat (seq 60 120) /\
  IsKeyFrame (frame 60 60) = true /\
  ~ In 60 (map Time (pkts (buf three_gops))) /\
  exists hd, head (pkts (buf three_gops)) = Some hd /\
    DataType hd = TAG_VIDEO /\ IsKeyFrame hd = false /\ Time hd = 61.
Proof.
  split; [vm_compute; discriminate|]. split; [reflexivity|]. split.
  - vm_compute. intuition discriminate.
  - vm_compute. eexists. repeat split.
Qed.

(** C6 as stated fails: a write after [Close] moves the tail and the
    counters of a fresh queue. *)
Lemma WritePacket_after_Close_not_noop :
  let q := Close (@NewQueue unit) in
  let q' := WritePacket q (frame 60 0) in
  closed q = true /\
  Tail (buf q) = 0 /\ Tail (buf q') = 1 /\
  Count (buf q) = 0 /\ Count (buf q') = 1 /\
  curGOPCount q = 0 /\ curGOPCount q' = 1 /\
  curVideoCount q = 0 /\ curVideoCount q' = 1.
Proof. vm_compute. repeat split. Qed.

End QueueExamples.

(** ** media/av/pubsub: [QueueCursor.Headers] *)

Section CursorFacts.
Import Queue.

Context {AvHeader CodecData : Type}.
Variable RevertHeader : list AvHeader -> list CodecData.
Implicit Types (q : Queue AvHeader) (cur : QueueCursor).

(** The cursor has to wait on this state of the queue: no header yet, and
    not closed. *)
Definition waiting q : Prop := headers q = [] /\ closed q = false.

Lemma waiting_test q :
  bool_decide (headers q = []) && negb (closed q) = true <-> waiting q.
Proof.
  unfold waiting. rewrite andb_true_iff, bool_decide_eq_true, negb_true_iff.
  reflexivity.
Qed.

Lemma Headers_wait_blocked q wakes cur :
  Forall waiting (q :: wakes) ->
  Headers_wait RevertHeader q wakes cur = Blocked.
Proof.
  revert q. induction wakes as [|q' wakes IH]; intros q Hall;
    inversion Hall as [|? ? Hq Hrest]; subst; cbn [Headers_wait];
    apply waiting_test in Hq; rewrite Hq; [reflexivity | now apply IH].
Qed.

Lemma Headers_wait_returns q wakes cur pre q' post :
  q :: wakes = pre ++ q' :: post ->
  Forall waiting pre -> ~ waiting q' ->
  Headers_wait RevertHeader q wakes cur
  = Returned (Headers_lookup RevertHeader q' cur).
Proof.
  revert q wakes. induction pre as [|x pre IH]; intros q wakes Heq Hpre Hq'.
  - cbn [app] in Heq. injection Heq as -> ->.
    destruct post; cbn [Headers_wait];
      destruct (bool_decide (headers q' = []) && negb (closed q')) eqn:Hw;
      try reflexivity; apply waiting_test in Hw; contradiction.
  - cbn [app] in Heq. injection Heq as -> ->.
    inversion Hpre as [|? ? Hx Hrest]; subst.
    apply waiting_test in Hx.
    destruct pre as [|y pre']; cbn [app Headers_wait]; rewrite Hx.
    + apply (IH q' post); [reflexivity | assumption | assumption].
    + apply (IH y (pre' ++ q' :: post)); [reflexivity | assumption | assumption].
Qed.

(** C7, as the code has it. [Headers] reports end-of-stream at once when the
    queue is already closed, and returns nothing (no CodecData, no error) at
    once while the cursor has no header position yet
    ([cur_header_begin_at = -1]), without waiting for a header. Otherwise it
    blocks as long as the queue has no header and is not closed; when that
    ends it returns the CodecData of the header whose [begin_at] equals
    [cur_header_begin_at] (nothing if there is none), or end-of-stream if
    there is still no header. It reports end-of-stream only for a closed
    queue. *)
Theorem Headers_behaviour q wakes cur :
  (closed q = true ->
     Headers RevertHeader q wakes cur = Returned ([], Some EOF)) /\
  (closed q = false -> curHeaderBeginAt cur = -1 ->
     Headers RevertHeader q wakes cur = Returned ([], None)) /\
  (closed q = false -> curHeaderBeginAt cur <> -1 ->
     (Forall waiting (q :: wakes) ->
        Headers RevertHeader q wakes cur = Blocked) /\
     (forall pre q' post,
        q :: wakes = pre ++ q' :: post -> Forall waiting pre -> ~ waiting q' ->
        Headers RevertHeader q wakes cur
        = Returned (Headers_lookup RevertHeader q' cur) /\
        (forall h,
           List.find (fun h => curHeaderBeginAt cur =? BeginAt h) (headers q')
           = Some h ->
           Headers_lookup RevertHeader q' cur
           = (RevertHeader (Datas h), None) /\
           In h (headers q') /\ BeginAt h = curHeaderBeginAt cur) /\
        (headers q' <> [] ->
         List.find (fun h => curHeaderBeginAt cur =? BeginAt h) (headers q')
         = None ->
         Headers_lookup RevertHeader q' cur = ([], None)) /\
        (headers q' = [] ->
         closed q' = true /\
         Headers_lookup RevertHeader q' cur = ([], Some EOF)))) /\
  (forall cdata,
     Headers RevertHeader q wakes cur = Returned (cdata, Some EOF) ->
     exists q', In q' (q :: wakes) /\ closed q' = true).
Proof.
  split; [|split; [|split]].
  - intros Hc. unfold Headers. now rewrite Hc.
  - intros Hc Hcur. unfold Headers. now rewrite Hc, Hcur.
  - intros Hc Hcur. apply Z.eqb_neq in Hcur. unfold Headers.
    rewrite Hc, Hcur. split; [apply Headers_wait_blocked|].
    intros pre q' post Heq Hpre Hq'.
    split; [now apply (Headers_wait_returns q wakes cur pre q' post)|].
    unfold Headers_lookup. split; [|split].
    + intros h Hfind.
      destruct (headers q') as [|h0 hs] eqn:Hhs; [discriminate|].
      rewrite Hfind. split; [reflexivity|].
      apply List.find_some in Hfind. destruct Hfind as [Hin Hb].
      split; [exact Hin | symmetry; now apply Z.eqb_eq].
    + intros Hne Hfind.
      destruct (headers q'); [contradiction|]. now rewrite Hfind.
    + intros Hnil. rewrite Hnil. split; [|reflexivity].
      destruct (closed q') eqn:Hcl; [reflexivity|].
      exfalso. apply Hq'. split; assumption.
  - intros cdata. unfold Headers.
    destruct (closed q) eqn:Hc.
    { intros _. exists q. split; [left; reflexivity | exact Hc]. }
    destruct (curHeaderBeginAt cur =? -1); [discriminate|].
    clear Hc. revert q. induction wakes as [|q1 wakes IH]; intros q;
      cbn [Headers_wait];
      destruct (bool_decide (headers q = []) && negb (closed q)) eqn:Hw.
    + discriminate.
    + intros [= Hlk]. exists q. split; [left; reflexivity|].
      unfold Headers_lookup in Hlk.
      destruct (headers q) as [|h0 hs] eqn:Hhs.
      * destruct (closed q) eqn:Hcl; [reflexivity|].
        rewrite bool_decide_eq_true_2 in Hw by reflexivity. discriminate.
      * destruct (List.find _ _); discriminate.
    + intros Hr. destruct (IH q1 Hr) as (q' & Hin & Hcl).
      exists q'. split; [right; exact Hin | exact Hcl].
    + intros [= Hlk]. exists q. split; [left; reflexivity|].
      unfold Headers_lookup in Hlk.
      destruct (headers q) as [|h0 hs] eqn:Hhs.
      * destruct (closed q) eqn:Hcl; [reflexivity|].
        rewrite bool_decide_eq_true_2 in Hw by reflexivity. discriminate.
      * destruct (List.find _ _); discriminate.
Qed.

End CursorFacts.

Section CursorExamples.
Import Queue.

(** A cursor that waits on an empty open queue, then sees the header. *)
Lemma Headers_behaviour_witness :
  Headers (fun l => l) (@NewQueue Z) [one_header_queue] cursor_at_0
  = Returned ([7; 8], None).
Proof.
  pose proof (Headers_behaviour (fun l : list Z => l) (@NewQueue Z)
                [one_header_queue] cursor_at_0) as (_ & _ & H & _).
  destruct (H eq_refl ltac:(discriminate)) as [_ Hret].
  destruct (Hret [@NewQueue Z] one_header_queue [] eq_refl) as [Hr _].
  - repeat constructor.
  - intros [Hh _]. discriminate Hh.
  - exact Hr.
Defined.

(** C7 as stated fails: on an open queue without any header, a fresh cursor
    ([cur_header_begin_at = -1]) does not block; [Headers] returns at once,
    with no CodecData and no end-of-stream. *)
Lemma Headers_fresh_cursor_returns_at_once :
  headers (@NewQueue Z) = [] /\ closed (@NewQueue Z) = false /\
  Headers (fun l => l) (@NewQueue Z) [] newCursor <> Blocked /\
  Headers (fun l => l) (@NewQueue Z) [] newCursor = Returned ([], None).
Proof. repeat split. discriminate. Qed.

End CursorExamples.


(** ** media/av/pubsub: the queue's header list *)

Section QueueHeaderFacts.
Import Ints Queue.

Context {AvHeader CodecData : Type}.
Variable ConvertHeader : list CodecData -> list AvHeader.
Variable RevertHeader : list AvHeader -> list CodecData.
Variables isH264 isAAC isVideo : AvHeader -> bool.
Implicit Types (q : Queue AvHeader) (h : Header AvHeader).

(** The header data [WriteHeader] stores: the converted headers, completed
    with the missing kind from the newest stored header when only one
    header was given. *)
Definition repaired q (data : list CodecData) : list AvHeader :=
  let datas := ConvertHeader data in
  match datas, last (headers q) with
  | [d0], Some prevHeader =>
      let lost := if isH264 d0 then isAAC else isH264 in
      match List.find lost (Datas prevHeader) with
      | Some d => datas ++ [d]
      | None => datas
      end
  | _, _ => datas
  end.

(** The loop over [q.headers] that replaces the header at [tail]. *)
Definition replace_header (tail : Z) (fresh : Header AvHeader)
  : list (Header AvHeader) -> option (list (Header AvHeader)) :=
  fix replace (hs : list (Header AvHeader)) :=
    match hs with
    | [] => None
    | h :: rest =>
        if BeginAt h =? tail then Some (fresh :: rest)
        else option_map (cons h) (replace rest)
    end.

Lemma WriteHeader_headers_eq q data :
  headers (WriteHeader ConvertHeader isH264 isAAC isVideo q data)
  = let fresh := mkHeader (repaired q data) (Tail (buf q)) in
    match replace_header (Tail (buf q)) fresh (headers q) with
    | Some hs => hs
    | None => headers q ++ [fresh]
    end.
Proof. reflexivity. Qed.

Lemma replace_header_spec tail fresh hs :
  match replace_header tail fresh hs with
  | Some hs' =>
      exists pre h post,
        hs = pre ++ h :: post /\ BeginAt h = tail /\
        Forall (fun x => BeginAt x <> tail) pre /\
        hs' = pre ++ fresh :: post
  | None => Forall (fun x => BeginAt x <> tail) hs
  end.
Proof.
  induction hs as [|h rest IH]; cbn [replace_header]; [constructor|].
  destruct (Z.eqb_spec (BeginAt h) tail) as [Heq|Hne].
  - exists [], h, rest. repeat split; auto.
  - fold (replace_header tail fresh rest).
    destruct (replace_header tail fresh rest) as [hs'|]; cbn [option_map].
    + destruct IH as (pre & h' & post & -> & Hh & Hpre & ->).
      exists (h :: pre), h', post. repeat split; auto.
    + now constructor.
Qed.

(** X14. [WriteHeader] keeps one header per buffer position: a header
    that already begins at the current tail is replaced in place (the first
    such one), otherwise the new header is appended; either way the list
    then holds a header with the new data at the tail, the other headers
    are untouched, positions that were pairwise distinct stay so, and the
    buffer, the counters and the closed flag are not touched. *)
Theorem WriteHeader_headers q (data : list CodecData) :
  let q' := WriteHeader ConvertHeader isH264 isAAC isVideo q data in
  let fresh := mkHeader (repaired q data) (Tail (buf q)) in
  ((Forall (fun h => BeginAt h <> Tail (buf q)) (headers q) /\
    headers q' = headers q ++ [fresh])
   \/ (exists pre h post,
         headers q = pre ++ h :: post /\ BeginAt h = Tail (buf q) /\
         Forall (fun x => BeginAt x <> Tail (buf q)) pre /\
         headers q' = pre ++ fresh :: post)) /\
  In fresh (headers q') /\
  (NoDup (map BeginAt (headers q)) -> NoDup (map BeginAt (headers q'))) /\
  buf q' = buf q /\ closed q' = closed q /\
  curGOPCount q' = curGOPCount q /\ curVideoCount q' = curVideoCount q /\
  curAudioCount q' = curAudioCount q.
Proof.
  intros q' fresh.
  assert (Hcases :
    (Forall (fun h => BeginAt h <> Tail (buf q)) (headers q) /\
     headers q' = headers q ++ [fresh])
    \/ (exists pre h post,
          headers q = pre ++ h :: post /\ BeginAt h = Tail (buf q) /\
          Forall (fun x => BeginAt x <> Tail (buf q)) pre /\
          headers q' = pre ++ fresh :: post)).
  { unfold q'. rewrite WriteHeader_headers_eq. cbv zeta. fold fresh.
    pose proof (replace_header_spec (Tail (buf q)) fresh (headers q)) as Hspec.
    destruct (replace_header _ _ _) as [hs'|].
    - right. destruct Hspec as (pre & h & post & H1 & H2 & H3 & H4).
      exists pre, h, post. auto.
    - left. auto. }
  split; [exact Hcases|]. split; [|split; [|repeat split]].
  - destruct Hcases as [[_ ->]|(pre & h & post & _ & _ & _ & ->)];
      apply in_or_app; right; now left.
  - intros Hnd.
    destruct Hcases as [[Hall ->]|(pre & h & post & Hhs & Hh & _ & ->)].
    + rewrite map_app. cbn [map BeginAt fresh].
      apply NoDup_app. split; [exact Hnd|]. split; [|apply NoDup_singleton].
      intros x Hx Hx'. apply list_elem_of_singleton in Hx'. subst x.
      apply list_elem_of_fmap in Hx as (h & Hh & Hin).
      rewrite Forall_forall in Hall. now apply (Hall h Hin).
    + rewrite Hhs in Hnd. rewrite map_app in *. cbn [map BeginAt fresh] in *.
      now rewrite <- Hh.
Qed.

Lemma find_first_at (t : Z) fresh (pre post : list (Header AvHeader)) :
  Forall (fun x => BeginAt x <> t) pre -> BeginAt fresh = t ->
  List.find (fun h => t =? BeginAt h) (pre ++ fresh :: post) = Some fresh.
Proof.
  intros Hpre Hf. induction Hpre as [|x pre Hx Hpre IH]; cbn [app List.find].
  - now rewrite Hf, Z.eqb_refl.
  - destruct (Z.eqb_spec t (BeginAt x)); [congruence | exact IH].
Qed.

(** X15. A header written is a header read: on a queue that is not closed,
    a cursor whose header position is the current tail gets, right after
    [WriteHeader], the codec data of the header just written, without
    waiting and without error. *)
Theorem WriteHeader_then_Headers q (data : list CodecData)
    (wakes : list (Queue AvHeader)) (cur : QueueCursor) :
  closed q = false ->
  curHeaderBeginAt cur = Tail (buf q) -> Tail (buf q) <> -1 ->
  Headers RevertHeader (WriteHeader ConvertHeader isH264 isAAC isVideo q data)
    wakes cur
  = Returned (RevertHeader (repaired q data), None).
Proof.
  intros Hopen Hcur Htail.
  set (q' := WriteHeader ConvertHeader isH264 isAAC isVideo q data).
  set (fresh := mkHeader (repaired q data) (Tail (buf q))).
  assert (Hfind : headers q' <> [] /\
                  List.find (fun h => curHeaderBeginAt cur =? BeginAt h)
                    (headers q') = Some fresh).
  { unfold q'. rewrite WriteHeader_headers_eq. cbv zeta. fold fresh.
    pose proof (replace_header_spec (Tail (buf q)) fresh (headers q)) as Hspec.
    rewrite Hcur.
    destruct (replace_header _ _ _) as [hs'|].
    - destruct Hspec as (pre & h & post & _ & _ & Hpre & ->).
      split; [now destruct pre | now apply find_first_at].
    - split; [now destruct (headers q) | now apply find_first_at]. }
  destruct Hfind as [Hne Hfind].
  unfold Headers.
  change (closed q') with (closed q). rewrite Hopen, Hcur.
  replace (Tail (buf q) =? -1) with false
    by (symmetry; now apply Z.eqb_neq).
  rewrite Hcur in Hfind.
  destruct wakes; cbn [Headers_wait];
    rewrite bool_decide_eq_false_2 by exact Hne; cbn [andb];
    unfold Headers_lookup;
    (destruct (headers q'); [contradiction|]); rewrite Hcur, Hfind;
    reflexivity.
Qed.

Lemma clearPoint_spec head (hs : list (Header AvHeader)) n :
  (n <= length hs)%nat ->
  let cp := clearPoint head hs n in
  (cp = -1 /\
   forall k h, (k < n)%nat -> hs !! k = Some h -> head < BeginAt h)
  \/ (0 <= cp < Z.of_nat n /\
      (exists h, hs !! Z.to_nat cp = Some h /\ BeginAt h <= head) /\
      forall k h, (Z.to_nat cp < k < n)%nat -> hs !! k = Some h ->
        head < BeginAt h).
Proof.
  induction n as [|k IH]; intros Hn; cbn [clearPoint].
  - left. split; [reflexivity|]. intros; lia.
  - destruct (lookup_lt_is_Some_2 hs k) as [h Hh]; [lia|]. rewrite Hh.
    destruct (Z.geb_spec head (BeginAt h)) as [Hge|Hlt].
    + right. split; [lia|]. rewrite Nat2Z.id. split.
      * exists h. split; [exact Hh | lia].
      * intros; lia.
    + destruct (IH ltac:(lia)) as [[Hcp Hall]|(Hcp & Hex & Hall)].
      * left. split; [exact Hcp|]. intros k' h' Hk' Hh'.
        destruct (decide (k' = k)) as [->|]; [congruence|].
        apply (Hall k' h'); [lia | exact Hh'].
      * right. split; [lia|]. split; [exact Hex|].
        intros k' h' Hk' Hh'.
        destruct (decide (k' = k)) as [->|]; [congruence|].
        apply (Hall k' h'); [lia | exact Hh'].
Qed.

(** X16. [WritePacket] only drops headers that are no longer needed: the
    headers left are a suffix of the old list that still ends with the
    newest header; when some header is dropped, the first one kept begins
    at or before the new head of the buffer, and every other one kept
    begins after it. The packet is stored as the newest one, stamped with
    the position of the newest header. *)
Theorem WritePacket_headers q (p : Packet) :
  let q' := WritePacket q p in
  (exists dropped,
     headers q = dropped ++ headers q' /\
     (dropped <> [] ->
      exists h1 rest, headers q' = h1 :: rest /\
        BeginAt h1 <= Head (buf q') /\
        Forall (fun h => Head (buf q') < BeginAt h) rest)) /\
  last (headers q') = last (headers q) /\
  last (pkts (buf q')) = Some (stamped q p) /\
  (forall h, last (headers q) = Some h ->
     HeaderBeginAt (stamped q p) = int (BeginAt h)).
Proof.
  intros q'.
  destruct (evict_spec (maxGOPCount q) (maxPktCount q)
              (pkts (buf q) ++ [stamped q p]) (Head (buf q))
              (count_in (mkCounts (curGOPCount q) (curVideoCount q)
                           (curAudioCount q)) (stamped q p)))
    as (ev & h' & w' & c' & Hev & Hw & Hne & _).
  assert (Hq' : q' = mkQueue (mkBuf h' (int (Tail (buf q) + 1)) w')
                  (let cp := clearPoint h' (headers q) (length (headers q)) in
                   if cp >? 0 then drop (Z.to_nat cp) (headers q)
                   else headers q)
                  (videoidx q) (closed q) (maxGOPCount q) (maxPktCount q)
                  (c_gop c') (c_video c') (c_audio c') (lossPktCount q) (Queue.sid _ q)).
  { unfold q', WritePacket. fold (stamped q p). cbn [Push pkts Head Tail].
    now rewrite Hev. }
  assert (Hhs : headers q'
                = let cp := clearPoint h' (headers q) (length (headers q)) in
                  if cp >? 0 then drop (Z.to_nat cp) (headers q)
                  else headers q) by now rewrite Hq'.
  assert (Hhead : Head (buf q') = h') by now rewrite Hq'.
  assert (Hpk : pkts (buf q') = w') by now rewrite Hq'.
  cbv zeta in Hhs.
  destruct (clearPoint_spec h' (headers q) (length (headers q)) (le_n _))
    as [[Hcp _]|(Hcp & (h1 & Hh1 & Hle) & Hlater)].
  - (* no header begins at or before the head: nothing is dropped *)
    rewrite Hcp in Hhs. cbn in Hhs. rewrite Hhs. split; [|split; [|split]].
    + exists []. split; [reflexivity | congruence].
    + reflexivity.
    + rewrite Hpk.
      apply (last_suffix ev w' (pkts (buf q)) (stamped q p) Hw).
      apply Hne. now destruct (pkts (buf q)).
    + intros h Hh. unfold stamped. now rewrite Hh.
  - set (cp := clearPoint h' (headers q) (length (headers q))) in *.
    split; [|split; [|split]].
    + destruct (Z.gtb_spec cp 0) as [Hpos|Hzero].
      * exists (take (Z.to_nat cp) (headers q)). rewrite Hhs.
        split; [now rewrite take_drop|]. intros _.
        rewrite Hhead.
        destruct (drop (Z.to_nat cp) (headers q)) as [|x rest] eqn:Hdrop.
        { apply (f_equal length) in Hdrop. rewrite length_drop in Hdrop.
          cbn in Hdrop. lia. }
        assert (Hx : x = h1).
        { assert (H0 : drop (Z.to_nat cp) (headers q) !! 0%nat = Some x)
            by now rewrite Hdrop.
          rewrite lookup_drop, Nat.add_0_r in H0. congruence. }
        subst x. exists h1, rest. split; [reflexivity|]. split; [exact Hle|].
        apply Forall_lookup. intros k h Hk.
        apply (Hlater (Z.to_nat cp + S k)%nat h); [|].
        -- assert (Hlt : (S k < length (h1 :: rest))%nat)
             by (apply lookup_lt_Some in Hk; cbn [length]; lia).
           rewrite <- Hdrop, length_drop in Hlt. lia.
        -- rewrite <- lookup_drop, Hdrop. exact Hk.
      * exists []. rewrite Hhs. split; [reflexivity | congruence].
    + rewrite Hhs. destruct (Z.gtb_spec cp 0) as [Hpos|Hzero]; [|reflexivity].
      rewrite <- (take_drop (Z.to_nat cp) (headers q)) at 2.
      rewrite last_app.
      destruct (last (drop (Z.to_nat cp) (headers q))) eqn:Hl; [reflexivity|].
      apply last_None in Hl. apply (f_equal length) in Hl.
      rewrite length_drop in Hl. cbn in Hl. lia.
    + rewrite Hpk.
      apply (last_suffix ev w' (pkts (buf q)) (stamped q p) Hw).
      apply Hne. now destruct (pkts (buf q)).
    + intros h Hh. unfold stamped. now rewrite Hh.
Qed.

End QueueHeaderFacts.

Section QueueHeaderExamples.
Import Ints Queue.

Lemma WriteHeader_then_Headers_witness :
  Headers (fun l => l)
    (WriteHeader (fun l => l) (fun d => d =? 7) (fun d => d =? 8)
       (fun d => d =? 7) (@NewQueue Z) [7; 8])
    [] (mkCursor 0 true 0 true 0)
  = Returned ([7; 8], None).
Proof.
  apply (WriteHeader_then_Headers (fun l => l) (fun l => l) (fun d => d =? 7)
           (fun d => d =? 8) (fun d => d =? 7) (@NewQueue Z) [7; 8] []
           (mkCursor 0 true 0 true 0));
    [reflexivity | reflexivity | discriminate].
Defined.

End QueueHeaderExamples.

(** ** media/av/pubsub: the queue's counters *)

Section QueueStatFacts.
Import Ints Queue QueueStat.

Context {AvHeader : Type}.
Implicit Types (q : Queue AvHeader) (p : Packet) (c : counts).

Lemma videos_cons p l :
  videos (p :: l) = (if is_video p then 1 else 0) + videos l.
Proof.
  unfold videos. cbn [List.filter]. destruct (is_video p); cbn [length]; lia.
Qed.

Lemma audios_cons p l :
  audios (p :: l) = (if is_audio p then 1 else 0) + audios l.
Proof.
  unfold audios. cbn [List.filter]. destruct (is_audio p); cbn [length]; lia.
Qed.

Lemma videos_bounds l : 0 <= videos l <= Z.of_nat (length l).
Proof.
  unfold videos. pose proof (List.filter_length_le is_video l). lia.
Qed.

Lemma audios_bounds l : 0 <= audios l <= Z.of_nat (length l).
Proof.
  unfold audios. pose proof (List.filter_length_le is_audio l). lia.
Qed.

Lemma videos_app l1 l2 : videos (l1 ++ l2) = videos l1 + videos l2.
Proof. unfold videos. rewrite List.filter_app, length_app. lia. Qed.

Lemma audios_app l1 l2 : audios (l1 ++ l2) = audios l1 + audios l2.
Proof. unfold audios. rewrite List.filter_app, length_app. lia. Qed.

(** The counters agree with a window. *)
Definition agree c (w : list Packet) : Prop :=
  c_gop c = gop_starts w /\ c_video c = videos w /\ c_audio c = audios w.

Lemma count_out_agree c p rest :
  agree c (p :: rest) -> Z.of_nat (length (p :: rest)) <= 2 ^ 62 ->
  agree (count_out c p) rest.
Proof.
  intros (Hg & Hv & Ha) Hlen. cbn [length] in Hlen.
  pose proof (gop_starts_bounds rest). pose proof (videos_bounds rest).
  pose proof (audios_bounds rest).
  rewrite gop_starts_cons in Hg. rewrite videos_cons in Hv.
  rewrite audios_cons in Ha.
  unfold agree, count_out, is_gop_start, is_video, is_audio in *.
  cbn [c_gop c_video c_audio].
  destruct (DataType p =? TAG_VIDEO), (IsKeyFrame p), (DataType p =? TAG_AUDIO);
    cbn [andb negb] in *; rewrite ?int_small by lia; repeat split; lia.
Qed.

Lemma count_in_agree c p w :
  agree c w -> Z.of_nat (length w) < 2 ^ 62 ->
  agree (count_in c p) (w ++ [p]).
Proof.
  intros (Hg & Hv & Ha) Hlen.
  pose proof (gop_starts_bounds w). pose proof (videos_bounds w).
  pose proof (audios_bounds w).
  unfold agree. rewrite gop_starts_app, videos_app, audios_app.
  rewrite gop_starts_cons, videos_cons, audios_cons.
  change (gop_starts []) with 0. change (videos []) with 0.
  change (audios []) with 0.
  unfold count_in, is_gop_start, is_video, is_audio in *.
  cbn [c_gop c_video c_audio].
  destruct (DataType p =? TAG_VIDEO), (IsKeyFrame p), (DataType p =? TAG_AUDIO);
    cbn [andb negb] in *; rewrite ?int_small by lia; repeat split; lia.
Qed.

Lemma evict_agree maxGOP maxPkt window : forall head c,
  agree c window -> Z.of_nat (length window) <= 2 ^ 62 ->
  agree (evict maxGOP maxPkt head window c).2 (evict maxGOP maxPkt head window c).1.2.
Proof.
  induction window as [|p rest IH]; intros head c Hc Hlen; [exact Hc|].
  cbn [evict].
  destruct ((Z.of_nat (length (p :: rest)) >? 1)
            && ((c_gop c >=? maxGOP)
                || (Z.of_nat (length (p :: rest)) >=? maxPkt))); [|exact Hc].
  pose proof (count_out_agree c p rest Hc Hlen) as Hout.
  destruct ((c_gop (count_out c p) <? maxGOP)
            && (Z.of_nat (length rest) <? maxPkt)); [exact Hout|].
  apply IH; [exact Hout|]. cbn [length] in Hlen. lia.
Qed.

(** X17. The queue's counters stay exact: if the GOP, video and audio
    counters agree with the packets in the buffer (as they do for a new
    queue) and the packet limit is at most 2^62, they still agree after
    [WritePacket], whatever was evicted; so [GetPktCount] is the number of
    audio and video packets in the buffer. *)
Theorem WritePacket_counts q p :
  in_step q -> maxPktCount q <= 2 ^ 62 ->
  in_step (WritePacket q p) /\
  GetPktCount (WritePacket q p)
  = videos (pkts (buf (WritePacket q p)))
    + audios (pkts (buf (WritePacket q p))).
Proof.
  intros (Hg & Hv & Ha & Hcnt) Hmax. unfold Count in Hcnt.
  set (c0 := count_in (mkCounts (curGOPCount q) (curVideoCount q)
                         (curAudioCount q)) (stamped q p)).
  assert (Hc0 : agree c0 (pkts (buf q) ++ [stamped q p])).
  { apply count_in_agree; [|exact Hcnt]. repeat split; assumption. }
  assert (Hlen0 : Z.of_nat (length (pkts (buf q) ++ [stamped q p])) <= 2 ^ 62)
    by (rewrite length_app; cbn [length]; lia).
  pose proof (evict_agree (maxGOPCount q) (maxPktCount q) _ (Head (buf q)) c0
                Hc0 Hlen0) as Hag.
  destruct (evict_spec (maxGOPCount q) (maxPktCount q)
              (pkts (buf q) ++ [stamped q p]) (Head (buf q)) c0)
    as (ev & h' & w' & c' & Hev & Hw & _ & Hlim & _).
  rewrite Hev in Hag. cbn [fst snd] in Hag.
  assert (Hq' : buf (WritePacket q p) = mkBuf h' (int (Tail (buf q) + 1)) w' /\
                curGOPCount (WritePacket q p) = c_gop c' /\
                curVideoCount (WritePacket q p) = c_video c' /\
                curAudioCount (WritePacket q p) = c_audio c').
  { unfold WritePacket. fold (stamped q p). cbn [Push pkts Head Tail].
    fold c0. rewrite Hev. repeat split. }
  destruct Hq' as (Hb & Hg' & Hv' & Ha'). destruct Hag as (Hag & Hav & Haa).
  assert (Hw'len : Z.of_nat (length w') < 2 ^ 62).
  { destruct Hlim as [H1|[_ Hlt]]; lia. }
  split.
  - unfold in_step, Count. rewrite Hb, Hg', Hv', Ha'. cbn [pkts].
    repeat split; assumption.
  - unfold GetPktCount. rewrite Hb, Hv', Ha', Hav, Haa. cbn [pkts].
    pose proof (videos_bounds w'). pose proof (audios_bounds w').
    apply int_small. lia.
Qed.

End QueueStatFacts.

Section QueueStatExamples.
Import Ints Queue QueueStat.

Lemma WritePacket_counts_witness :
  in_step (WritePacket (@NewQueue unit) (frame 60 0)) /\
  GetPktCount (WritePacket (@NewQueue unit) (frame 60 0)) = 1.
Proof.
  destruct (WritePacket_counts (@NewQueue unit) (frame 60 0)) as [H1 H2].
  - repeat split.
  - vm_compute. discriminate.
  - split; [exact H1|]. rewrite H2. reflexivity.
Defined.

End QueueStatExamples.
